(* ===== verification/_CoqProject ===== *)
-Q . S2P
Prelude.v
Messages.v
WireFormat.v
NetworkHelper.v
Regexp.v
Utf8.v
Json.v
ServiceJson.v
Url.v
RequestDetail.v
UsageRecord.v
Report.v
Pinning.v
Node.v
Locking.v
Goroutines.v
Cluster.v
Gossip.v
World.v
Socks5.v
Agent.v
Management.v
ClientGateway.v
ProxyHandlers.v
Exchange.v
Tunnel.v
SocksTunnel.v
Pipes.v
Sessions.v
Gateway.v
RequestDump.v
WebSocket.v
WsSessions.v
Demo.v
Startup.v
Flags.v
Commands.v
