(* ===== verification/Prelude.v ===== *)
(** Verification of apron-gateway-p2p: the peer-to-peer gateway network, its HTTP,
    WebSocket and socket tunnels, and its SOCKS5 agents.

    ** The program

    A gateway node plays two parts. On the client side it takes HTTP, WebSocket
    and socket connections, finds out which peer offers the service they name,
    and forwards them to that peer over libp2p streams; on the service side it
    takes those streams, calls the service, and sends back what it answers.
    Which peer offers what is a registry that every node keeps for itself, fed
    by its own management API and by the broadcasts of the others. Every stream
    carries frames: an eight-byte length and a payload, which is a protobuf
    message. Two SOCKS5 agents use the socket tunnel: one in front of the client,
    one in front of a SOCKS5 server. Usage records are kept per service and user,
    and reported through an agent that pins files.

    ** The files, in the order of their dependencies

    - [Prelude]: bytes, machine integers, Go errors, the handler monad, and
      lemmas and tactics that all components share.
    - [Messages] (internal/models/models.pb.go, ext_service.pb.go): the structs,
      their getters and field tables. The class [ProtoLib] states what the
      protobuf library promises, [ProtoMessage] what the generated code does;
      [Marshal] and [Unmarshal] are defined and proved against the two.
    - [WireFormat]: the wire format as an instance of [ProtoLib], for the examples.
    - [NetworkHelper] (trans_network/network_helper.go): the framing, down to the
      chunks in which a connection delivers bytes and to what [bufio.Reader]
      reads ahead.
    - [Utf8], [Json]: Go's [unicode/utf8] and [encoding/json] up to values;
      [ServiceJson]: what JSON is to the structs, as their tags direct it.
    - [Url]: Go's [net/url] and [path], as far as the address of a service needs them.
    - [Regexp], [RequestDetail] (models/request_detail.go, helper.go): Go's
      regular expressions on the two patterns, what a request path gives, and
      the request identifiers.
    - [UsageRecord] (models/usage_record.go, usage_record_manager.go), [Report]
      (trans_network/node_user_report.go): recording, export, upload.
    - [Pinning] (ipfs_agent/, cmd/report_generator): the agents that pin a report,
      over a model of files, and the program that reads the reports back.
    - [Node] (trans_network/node.go, node_mgmt_handler.go, topics.go): the state of
      a node as the record [Node], and the registry's operations, those of the
      management API on the bytes of bodies and replies.
    - [Locking]: goroutines as sequences of accesses to shared maps and to a mutex,
      their interleavings, data races, and what a locking discipline gives.
      [Goroutines] (node.go, node_mgmt_handler.go, csgw_http.go, csgw_socket.go,
      node_proxy_handler.go): every call of a gateway that touches the maps of
      [Node], in those terms.
    - [Cluster]: several nodes, with a queue of broadcasts from each to each.
      [Gossip]: the same nodes over a network that keeps no promises.
    - [World]: what the handlers ask of the network, as a record of answers.
    - [Socks5], [Agent] (ext_protocols/socks5): the two handshakes; the agents.
    - [Management] (node_mgmt_handler.go, internal/utils.go, apron_agent_server.go):
      the routes of the management API, and the agent that registers with it.
    - [ClientGateway] (trans_network/csgw_http.go, csgw_socket.go): the handlers of
      client connections.
    - [ProxyHandlers] (trans_network/node_proxy_handler.go, models/helper.go): the
      handlers of streams.
    - [Exchange]: the client handlers and the response handlers of one node as
      they run at the same time, a step relation made of their definitions.
    - [Tunnel], [WebSocket]: both sides together, end to end; [SocksTunnel]: with
      the SOCKS5 agents at both ends; [Sessions], [WsSessions]: all socket sessions
      and all WebSocket sessions between two gateways at once, as step relations
      made of the handlers, over what the two share ([Pipes]).
    - [Gateway]: one whole gateway, any sequence of the calls of its goroutines and of
      the turns of its report task. [RequestDump] (models/request_detail.go,
      helper.go): a request as the bytes that are sent, down to [bufio.Writer].
    - [Demo] (cmd/socket_helper, cmd/wsbin): the demonstration programs.
    - [Startup] (trans_network/addr_list.go, dht.go, discover.go, and the identity
      that [NewNode] makes): what runs before anybody is served.
    - [Flags]: Go's [flag] package and the integers it reads; [Commands]
      (cmd/gateway, cmd/socks_agent, cmd/socket_helper, trans_network/config.go,
      internal/logger): the programs from their command lines to the goroutines
      that the files above model.

    ** How code is modelled

    A handler is a function of the type [M] below: it runs on a state, gives out
    effects in program order, and ends with a value, a panic or for ever blocked;
    [CheckError] turns an error into a panic, as [internal.CheckError] does. A
    panic in a goroutine that nothing recovers ends the process, so a [Panic]
    outcome is the end of the gateway. Where a handler waits (for a response, for
    data), it is given as the part before and the part after; a goroutine with
    an endless loop is given over the list of what its connection delivers, or
    for any number of turns. Critical sections of [n.mutex] are atomic,
    which [Goroutines] justifies for the registry (C10), and
    so are single accesses outside of it, which nothing guards in the code
    (C21). Maps
    iterate in any order: it is an argument wherever code ranges over one.
    Integers have their width written out ([u64], [u16], [u8]). Logging is left
    out. Fuel is used where a Go loop is not structural: [NetworkHelper.ReadFull]
    takes as many turns as bytes are wanted plus chunks are there, since each
    turn uses one up; [Regexp.find_all] takes the length of the text plus one,
    since each match found is not empty; [Socks5.render6] takes eight, the number
    of groups; [Utf8.runes_of] and [Json.string_body] take the length of the text,
    since each turn takes a byte; [Json.parse_value] takes twice the length plus
    one, which [ServiceJson.decoding_terminates] proves enough; [RequestDump.Write_loop] takes two
    turns, which [RequestDump.Writer_Write_all] proves enough; [Json.format_digits] takes twenty digits and
    [Startup.binary] sixty-four, enough for 64 bits.

    Arguments stand for code that is not in the repository: protobuf ([ProtoLib]),
    fasthttp's parsing and serialization of requests and its client, the router's
    answer to requests without a route, where an address leads an agent's request
    ([Management.ssgw_Do]), websockets, libp2p ([World]), the DHT,
    the binary encoder of the SOCKS5 request.

    ** What is proved

    - End to end: an HTTP request makes the whole round and gets exactly the
      service's response (C1); what a service is asked is what its
      client has asked (C17). As long as no chunk crosses a frame's end
      where the gateways read with a reader per frame ([Tunnel.aligned];
      [NetworkHelper.frames_lost_raw] has what happens elsewhere), the socket
      tunnel is transparent towards the service (C5),
      WebSocket sessions are transparent both ways (C12), a SOCKS5
      session gets through both agents and both gateways, but for what the client
      has sent in one chunk with its request (C6), and so do its answers,
      when their messages are not read together (C9).
    - Concurrency: no client gets another's response, whatever the interleaving
      (C2); a response that comes in time can be delivered
      (C22), one that comes before its client has registered
      is lost (C23). Socket sessions do not mix and get complete
      (C7), nor do WebSocket sessions (C8),
      but data that overtakes the request it belongs to ends the gateway that it
      reaches (C29, C30). The registry's critical sections are atomic
      (C10), the mutex deadlocks nobody
      (C20), and what is done outside of it races
      (C21).
    - A whole gateway: every call keeps to its own tables, and none breaks the
      registry (C11); what is filed for requests and
      sessions is never freed (C31), and no usage is ever
      reported (C32).
    - The registry: it refines one directory (C3), whose entries are
      well formed in every reachable state (C39); ticks (C35);
      the registries of several nodes converge to one table when every service
      has one home, nobody joins later, ticks see all peers, and messages are neither
      lost nor out of order (C4), but nothing is announced twice
      (C36). On any network entries are still only what was
      registered (C18), but a removal can be undone, and stays
      undone while the home of the service is connected and nothing new is said
      of it (C34).
    - Start: command lines and what they start (C19), down to the service
      that an agent leaves with the gateway its command line names
      (C33).
    - Management: what is posted is listed, and what is deleted is in no list
      (C15).
    - JSON: services survive it (C24), what is accepted is
      typed (C25), and decoding ends
      ([ServiceJson.decoding_terminates]).
    - Accounting: usage is conserved over any history, and exactly so
      while a bill fits 64 bits (C13), and what
      is pinned is read back (C27).
    - Framing: round trip for every chunking (C14).
    - Handlers: what becomes of an HTTP request when all goes well
      (C16) and when not (C28).
    - Parsing: request paths (C37), the address that a path gives
      (C38), the SOCKS5 requests (C26), and what goes wrong between agents
      (C40).

    Theorems without a number are no less proved: single handlers, error branches
    and parts of the above.

    ** Not modelled

    Log lines, except where they read the shared maps ([Goroutines]); the names of
    log fields. The memory model of Go beyond data races: a gateway that races is
    said to race, not what it does then. In [Goroutines] the calls take the path on
    which the outside succeeds, and waiting for channels is left out; [Exchange] has
    the waiting. Of libp2p, pubsub and the DHT, what they answer is an argument and
    how they work is not modelled; so are fasthttp's listeners. The type of a
    WebSocket message, which the gateway drops, is modelled in [Demo] only. What a
    Go slice keeps beyond its length when JSON names a list twice. The generated
    code of models.pb.go beyond its structs, getters in use and tags, and the
    messages in it that nothing uses. *)

From Stdlib Require Export ZArith Ascii String Lia.
From stdpp Require Export base tactics list gmap strings fin_maps sets.

#[global] Open Scope Z_scope.

(** ** Bytes and Go strings *)

(** A Go [byte] is an [ascii], a [[]byte] a list of them, a Go [string] (an
    immutable byte sequence) a Rocq [string]. *)
Abbreviation bytes := (list ascii) (only parsing).

Definition str_bytes (s : string) : bytes := list_ascii_of_string s.
Definition bytes_str (b : bytes) : string := string_of_list_ascii b.

Definition byte_val (c : ascii) : Z := Z.of_N (N_of_ascii c).
Definition byte_of (z : Z) : ascii := ascii_of_N (Z.to_N (z mod 256)).

(** A digit of a hexadecimal number in lower case. *)
Definition hex_digit (d : Z) : ascii := byte_of (if d <? 10 then 48 + d else 87 + d).

(** ** Machine integers: a [uintN] is a [Z] kept in [[0, 2^N)]. *)

Definition wrap (w : Z) (z : Z) : Z := z mod 2 ^ w.
Definition u64 (z : Z) : Z := wrap 64 z.
Definition u16 (z : Z) : Z := wrap 16 z.
Definition u8 (z : Z) : Z := wrap 8 z.
(** [int64], for the products of [time.Duration]. *)
Definition i64 (z : Z) : Z := wrap 64 (z + 2 ^ 63) - 2 ^ 63.
Definition u64_add (a b : Z) : Z := u64 (a + b).

(** ** Go errors *)

(** An [error] value is what its [Error()] method prints: the code compares
    errors only through that text. *)
Record goerror := errors_New { Error : string }.

#[export] Instance goerror_eq_dec : EqDecision goerror.
Proof. solve_decision. Defined.

Definition io_EOF : goerror := errors_New "EOF".
Definition io_ErrUnexpectedEOF : goerror := errors_New "unexpected EOF".

(** A [(value, error)] pair of results. *)
Inductive result (A : Type) : Type :=
  | Ok (a : A)
  | Fail (e : goerror).
Arguments Ok {A} a.
Arguments Fail {A} e.

#[export] Instance result_ret : MRet result := fun _ a => Ok a.
#[export] Instance result_bind : MBind result := fun _ _ f m =>
  match m with Ok a => f a | Fail e => Fail e end.
#[export] Instance result_fmap : FMap result := fun _ _ f m =>
  match m with Ok a => Ok (f a) | Fail e => Fail e end.

(** ** Handlers: state, effects, panics and blocking

    A handler runs on a state, emits effects in program order, and ends in one
    of three ways: it goes on with a value, it panics (an unrecovered Go panic,
    which ends the process), or it blocks for ever (a send on a nil channel). *)
Inductive outcome (A : Type) : Type :=
  | Val (a : A)
  | Panic (msg : string)
  | Block.
Arguments Val {A} a.
Arguments Panic {A} msg.
Arguments Block {A}.

#[export] Instance result_eq_dec `{EqDecision A} : EqDecision (result A).
Proof. solve_decision. Defined.
#[export] Instance outcome_eq_dec `{EqDecision A} : EqDecision (outcome A).
Proof. solve_decision. Defined.

Definition M (S E A : Type) : Type := S -> outcome A * S * list E.

Section monad.
Context {S E : Type}.

#[export] Instance M_ret : MRet (M S E) := fun _ a s => (Val a, s, []).

#[export] Instance M_bind : MBind (M S E) := fun _ _ f m s =>
  match m s with
  | (Val a, s', es) =>
      match f a s' with (o, s'', es') => (o, s'', es ++ es') end
  | (Panic msg, s', es) => (Panic msg, s', es)
  | (Block, s', es) => (Block, s', es)
  end.

Definition get : M S E S := fun s => (Val s, s, []).
Definition gets {A} (f : S -> A) : M S E A := fun s => (Val (f s), s, []).
Definition modify (f : S -> S) : M S E unit := fun s => (Val tt, f s, []).
Definition emit (e : E) : M S E unit := fun s => (Val tt, s, [e]).
Definition panic {A} (msg : string) : M S E A := fun s => (Panic msg, s, []).
Definition block {A} : M S E A := fun s => (Block, s, []).

(** [internal.CheckError(err)]: panic on a non-nil error. *)
Definition CheckError (e : option goerror) : M S E unit :=
  match e with None => mret tt | Some e => panic (Error e) end.

(** [v, err := ...; internal.CheckError(err)]. *)
Definition must {A} (r : result A) : M S E A :=
  match r with Ok a => mret a | Fail e => panic (Error e) end.

(** A computation that may itself panic or block. *)
Definition lift_outcome {A} (o : outcome A) : M S E A := fun s => (o, s, []).
End monad.

Definition nil_deref : string := "invalid memory address or nil pointer dereference".
Definition index_range : string := "index out of range".

Definition result_of {S E A} (x : outcome A * S * list E) : outcome A := x.1.1.
Definition state_of {S E A} (x : outcome A * S * list E) : S := x.1.2.
Definition effects_of {S E A} (x : outcome A * S * list E) : list E := x.2.

(** ** Big-endian integers: [binary.BigEndian.PutUintN] / [UintN] *)

Fixpoint be_put (n : nat) (v : Z) : bytes :=
  match n with
  | O => []
  | S n' => byte_of (Z.shiftr v (8 * Z.of_nat n')) :: be_put n' v
  end.

Definition be_get (b : bytes) : Z :=
  fold_left (fun acc c => Z.lor (Z.shiftl acc 8) (byte_val c)) b 0.

(** ** [strings.SplitN(s, sep, n)] for a one-byte separator and [n > 0] *)

Fixpoint cut (sep : ascii) (s : bytes) : option (bytes * bytes) :=
  match s with
  | [] => None
  | c :: s' =>
      if decide (c = sep) then Some ([], s')
      else match cut sep s' with
           | Some (a, b) => Some (c :: a, b)
           | None => None
           end
  end.

Fixpoint splitN (sep : ascii) (n : nat) (s : bytes) : list bytes :=
  match n with
  | O => []
  | S O => [s]
  | S n' => match cut sep s with
            | Some (a, b) => a :: splitN sep n' b
            | None => [s]
            end
  end.

Definition strings_SplitN (s : string) (sep : ascii) (n : nat) : list string :=
  bytes_str <$> splitN sep n (str_bytes s).

(** ** Tactics and hint databases *)

Create HintDb gw discriminated.
Create Rewrite HintDb gw.

(** Case analysis on the innermost discriminee of a hypothesis or the goal,
    recording the equation. *)
Ltac case_on x := let E := fresh "E" in destruct x eqn:E; simplify_eq/=.

Ltac break_match :=
  match goal with
  | H : context [match ?x with _ => _ end] |- _ =>
      lazymatch x with context [match _ with _ => _ end] => fail | _ => case_on x end
  | |- context [match ?x with _ => _ end] =>
      lazymatch x with context [match _ with _ => _ end] => fail | _ => case_on x end
  end.

(** Unfold the handler monad and compute. *)
Ltac run_handler :=
  unfold lift_outcome, CheckError, must, mbind, mret, M_bind, M_ret, get, gets, modify, emit,
    panic, block, result_of, state_of, effects_of in *; cbn in *.

(** ** Lemmas on bytes and strings *)

Lemma str_bytes_inv s : bytes_str (str_bytes s) = s.
Proof. apply string_of_list_ascii_of_string. Qed.
Lemma bytes_str_inv b : str_bytes (bytes_str b) = b.
Proof. apply list_ascii_of_string_of_list_ascii. Qed.
#[export] Hint Rewrite str_bytes_inv bytes_str_inv : gw.

Lemma str_bytes_app s t : str_bytes (s +:+ t) = str_bytes s ++ str_bytes t.
Proof.
  unfold str_bytes. induction s as [|c s IH]; [done|].
  change (list_ascii_of_string (String c s +:+ t))
    with (c :: list_ascii_of_string (s +:+ t)). by rewrite IH.
Qed.
#[export] Hint Rewrite str_bytes_app : gw.

Lemma str_bytes_inj s t : str_bytes s = str_bytes t -> s = t.
Proof. intros H. by rewrite <- (str_bytes_inv s), <- (str_bytes_inv t), H. Qed.

Lemma bytes_str_inj a b : bytes_str a = bytes_str b -> a = b.
Proof. intros H. by rewrite <- (bytes_str_inv a), <- (bytes_str_inv b), H. Qed.

Lemma byte_val_range c : 0 <= byte_val c < 256.
Proof. unfold byte_val. pose proof (N_ascii_bounded c). lia. Qed.

Lemma byte_val_of z : byte_val (byte_of z) = z mod 256.
Proof.
  unfold byte_val, byte_of. pose proof (Z.mod_pos_bound z 256 ltac:(lia)).
  rewrite N_ascii_embedding; lia.
Qed.

Lemma byte_val_small z : 0 <= z < 256 -> byte_val (byte_of z) = z.
Proof. intros Hz. by rewrite byte_val_of, Z.mod_small. Qed.

Lemma byte_of_val c : byte_of (byte_val c) = c.
Proof.
  unfold byte_of. pose proof (byte_val_range c). rewrite Z.mod_small by lia.
  unfold byte_val. rewrite N2Z.id. apply ascii_N_embedding.
Qed.

Lemma byte_val_inj c d : byte_val c = byte_val d -> c = d.
Proof. intros H. by rewrite <- (byte_of_val c), H, byte_of_val. Qed.

(** ** Big-endian round trip *)

Lemma lor_shiftl_byte acc b :
  0 <= b < 256 -> Z.lor (Z.shiftl acc 8) b = acc * 256 + b.
Proof.
  intros Hb.
  assert (Z.land (Z.shiftl acc 8) b = 0) as Hl.
  { apply Z.bits_inj'. intros n Hn. rewrite Z.land_spec, Z.bits_0.
    destruct (Z.lt_ge_cases n 8) as [Hlt|Hge]; [by rewrite Z.shiftl_spec_low|].
    rewrite (Z.bits_above_log2 b n); [by rewrite andb_false_r|lia|].
    destruct (decide (b = 0)) as [->|]; [cbn; lia|].
    apply Z.log2_lt_pow2; [lia|].
    apply (Z.lt_le_trans _ (2 ^ 8)); [lia|apply Z.pow_le_mono_r; lia]. }
  pose proof (Z.add_lor_land (Z.shiftl acc 8) b) as H. rewrite Hl in H.
  rewrite Z.shiftl_mul_pow2 in * by lia. change (2 ^ 8) with 256 in *. lia.
Qed.

Lemma length_be_put n v : length (be_put n v) = n.
Proof. induction n; cbn; auto. Qed.
#[export] Hint Rewrite length_be_put : gw.

Lemma be_get_put_acc n v acc :
  fold_left (fun a c => Z.lor (Z.shiftl a 8) (byte_val c)) (be_put n v) acc
  = acc * 2 ^ (8 * Z.of_nat n) + v mod 2 ^ (8 * Z.of_nat n).
Proof.
  revert acc. induction n as [|n IH]; intros acc.
  - cbn. rewrite Z.mod_1_r. lia.
  - cbn [be_put fold_left]. rewrite lor_shiftl_byte by apply byte_val_range.
    rewrite IH, byte_val_of, Z.shiftr_div_pow2 by lia.
    replace (8 * Z.of_nat (S n)) with (8 * Z.of_nat n + 8) by lia.
    rewrite Z.pow_add_r by lia. change (2 ^ 8) with 256.
    rewrite (Z.rem_mul_r v (2 ^ (8 * Z.of_nat n)) 256) by (try apply Z.pow_nonzero; lia).
    lia.
Qed.

Lemma be_get_put n v : 0 <= v < 2 ^ (8 * Z.of_nat n) -> be_get (be_put n v) = v.
Proof.
  intros Hv. unfold be_get. rewrite be_get_put_acc, Z.mod_small by lia. lia.
Qed.

Lemma be_get_range_acc b acc :
  0 <= acc ->
  let r := fold_left (fun a c => Z.lor (Z.shiftl a 8) (byte_val c)) b acc in
  acc * 2 ^ (8 * Z.of_nat (length b)) <= r < (acc + 1) * 2 ^ (8 * Z.of_nat (length b)).
Proof.
  revert acc. induction b as [|c b IH]; intros acc Hacc; cbn [fold_left length].
  - cbn. lia.
  - rewrite lor_shiftl_byte by apply byte_val_range.
    pose proof (byte_val_range c).
    specialize (IH (acc * 256 + byte_val c) ltac:(lia)). cbn zeta in IH |- *.
    replace (8 * Z.of_nat (S (length b))) with (8 * Z.of_nat (length b) + 8) by lia.
    rewrite Z.pow_add_r by lia. change (2 ^ 8) with 256.
    pose proof (Z.pow_pos_nonneg 2 (8 * Z.of_nat (length b)) ltac:(lia) ltac:(lia)). nia.
Qed.

Lemma be_get_range b : 0 <= be_get b < 2 ^ (8 * Z.of_nat (length b)).
Proof. pose proof (be_get_range_acc b 0 ltac:(lia)) as H. unfold be_get. cbn in *. lia. Qed.

(** ** [SplitN] *)

Lemma cut_app sep a b : sep ∉ a -> cut sep (a ++ sep :: b) = Some (a, b).
Proof.
  induction a as [|c a IH]; intros H; cbn.
  - by rewrite decide_True.
  - rewrite decide_False by set_solver. rewrite IH by set_solver. done.
Qed.

Lemma cut_spec sep s a b : cut sep s = Some (a, b) -> s = a ++ sep :: b /\ sep ∉ a.
Proof.
  revert a. induction s as [|c s IH]; intros a H; cbn in H; [done|].
  case_decide; simplify_eq/=; [split; [done|set_solver]|].
  destruct (cut sep s) as [[a' b']|]; simplify_eq.
  destruct (IH a' eq_refl) as [-> ?]. split; [done|set_solver].
Qed.

Lemma cut_none sep s : cut sep s = None <-> sep ∉ s.
Proof.
  induction s as [|c s IH]; cbn; [split; [set_solver|done]|].
  case_decide; [split; [done|set_solver]|].
  destruct (cut sep s) as [[a' b']|]; [split; [done|]|].
  - intros Hn. destruct IH as [_ IH]. specialize (IH ltac:(set_solver)). done.
  - split; [|done]. intros _. destruct IH as [IH _]. specialize (IH eq_refl). set_solver.
Qed.

(** ** Maps *)

Lemma elements_dom `{Countable K} {A} (m : gmap K A) : elements (dom m) ≡ₚ (map_to_list m).*1.
Proof.
  apply NoDup_Permutation; [apply NoDup_elements|apply NoDup_fst_map_to_list|].
  intros k. rewrite elem_of_elements, elem_of_dom, list_elem_of_fmap. split.
  - intros [x Hx]. exists (k, x). split; [done|]. by apply elem_of_map_to_list.
  - intros ([k' x]&->&Hx%elem_of_map_to_list). by eexists.
Qed.

(** ** Congruence modulo [2^64] *)

(** What 64-bit counters keep of a sum. *)
Definition cong64 (a b : Z) : Prop := a mod 2 ^ 64 = b mod 2 ^ 64.

#[export] Instance cong64_equivalence : Equivalence cong64.
Proof. split; red; unfold cong64; congruence. Qed.

#[export] Instance cong64_add_proper : Proper (cong64 ==> cong64 ==> cong64) Z.add.
Proof. unfold cong64. intros a b H c d H'. by rewrite Z.add_mod, H, H', <- Z.add_mod by lia. Qed.

Lemma cong64_u64 a : cong64 (u64 a) a.
Proof. unfold cong64, u64, wrap. by rewrite Z.mod_mod by lia. Qed.

Lemma cong64_u64_add a b : cong64 (u64_add a b) (a + b).
Proof. apply cong64_u64. Qed.

(** What 64-bit counters keep of a sum, when none is negative: some multiples of
    [2^64] are lost, and never added. *)
Definition kept64 (a b : Z) : Prop := exists k, 0 <= k /\ b = a + k * 2 ^ 64.

#[export] Instance kept64_preorder : PreOrder kept64.
Proof.
  split; [intros a; exists 0; lia|]. intros a b c (k&Hk&->) (k'&Hk'&->). exists (k + k'). lia.
Qed.

#[export] Instance kept64_add_proper : Proper (kept64 ==> kept64 ==> kept64) Z.add.
Proof. intros a b (k&Hk&->) c d (k'&Hk'&->). exists (k + k'). lia. Qed.

Lemma kept64_u64 a : 0 <= a -> kept64 (u64 a) a.
Proof.
  intros H. exists (a / 2 ^ 64). split; [apply Z.div_pos; lia|].
  unfold u64, wrap. rewrite Z.add_comm, Z.mul_comm. apply Z.div_mod. lia.
Qed.

Lemma kept64_u64_add a b : 0 <= a -> 0 <= b -> kept64 (u64_add a b) (a + b).
Proof. intros Ha Hb. apply kept64_u64. lia. Qed.

Lemma kept64_cong a b : kept64 a b -> cong64 a b.
Proof. intros (k&_&->). unfold cong64. by rewrite Z.mod_add by lia. Qed.

Lemma kept64_le a b : kept64 a b -> a <= b.
Proof. intros (k&Hk&->). lia. Qed.

(** Without an overflow nothing is lost. *)
Lemma kept64_exact a b : kept64 a b -> 0 <= a -> b < 2 ^ 64 -> a = b.
Proof. intros (k&Hk&->) Ha Hb. nia. Qed.

Lemma i64_id a : - 2 ^ 63 <= a < 2 ^ 63 -> i64 a = a.
Proof. intros H. unfold i64, wrap. rewrite Z.mod_small; lia. Qed.

Lemma i64_above a : 2 ^ 63 <= a < 2 ^ 64 -> i64 a < 0.
Proof.
  intros H. unfold i64, wrap. rewrite <- (Z_mod_plus_full _ (-1)), Z.mod_small; lia.
Qed.

Lemma u64_range a : 0 <= u64 a < 2 ^ 64.
Proof. apply Z.mod_pos_bound. lia. Qed.

(** ** Handler equations *)

Section monad_lemmas.
Context {S E A B : Type}.

Lemma bind_val (m : M S E A) (f : A -> M S E B) s a s' es :
  m s = (Val a, s', es) ->
  (m ≫= f) s = ((f a s').1.1, (f a s').1.2, es ++ (f a s').2).
Proof. unfold mbind, M_bind. intros ->. by destruct (f a s') as [[??]?]. Qed.

Lemma bind_panic (m : M S E A) (f : A -> M S E B) s msg s' es :
  m s = (Panic msg, s', es) -> (m ≫= f) s = (Panic msg, s', es).
Proof. unfold mbind, M_bind. by intros ->. Qed.

Lemma bind_inv (m : M S E A) (f : A -> M S E B) s b s' es :
  (m ≫= f) s = (Val b, s', es) ->
  exists a s1 e1 e2, m s = (Val a, s1, e1) /\ f a s1 = (Val b, s', e2) /\ es = e1 ++ e2.
Proof.
  unfold mbind, M_bind. destruct (m s) as [[[a|msg|] s1] e1]; [|done..].
  destruct (f a s1) as [[o s2] e2] eqn:Hf. intros [= -> -> <-]. by exists a, s1, e1, e2.
Qed.

Lemma bind_pure (a : A) (f : A -> M S E B) s : ((mret a : M S E A) ≫= f) s = f a s.
Proof. unfold mbind, M_bind, mret, M_ret. by destruct (f a s) as [[??]?]. Qed.

Lemma bind_get (f : S -> M S E A) s : (get ≫= f) s = f s s.
Proof. unfold mbind, M_bind, get. by destruct (f s s) as [[??]?]. Qed.

Lemma bind_block (m : M S E A) (f : A -> M S E B) s s' es :
  m s = (Block, s', es) -> (m ≫= f) s = (Block, s', es).
Proof. unfold mbind, M_bind. by intros ->. Qed.
End monad_lemmas.

(** Step over the first action of a handler with an equation for it. *)
Tactic Notation "step_bind" uconstr(lem) := erewrite bind_val by (apply lem; eauto); cbn [fst snd].
