(* ===== verification/Messages.v ===== *)
(** The protocol messages of [internal/models/models.pb.go] and
    [ext_service.pb.go] (generated from [proto/]): the Go structs, the nil-safe
    getters the gateway calls, and the field table of each message, which the
    struct tags and the raw descriptor carry.

    [google.golang.org/protobuf] itself is not part of the repository: the class
    [ProtoLib] states what its encoder promises for a message given by its
    populated fields, and everything here is proved against that class. *)

From S2P Require Import Prelude.

(** ** The structs *)

(** [type NetworkType int32], an open enum. *)
Definition NetworkType := Z.
Definition NetworkType_UNKNOWN : NetworkType := 0.
Definition NetworkType_Tcp4 : NetworkType := 1.
Definition NetworkType_Tcp6 : NetworkType := 2.
Definition NetworkType_Udp4 : NetworkType := 3.
Definition NetworkType_Udp6 : NetworkType := 4.

Record ApronServiceProvider := mkProvider {
  Provider_Id : string;
  Provider_Name : string;
  Provider_Desc : string;
  Provider_CreatedAt : Z;
  Provider_UpdatedAt : Z;
  Provider_ExtraDetail : string;
  Provider_BaseUrl : string;
  Provider_Schema : string;
  Provider_NetworkType : NetworkType
}.

(** [Providers] is a slice of pointers, which JSON input can make nil. *)
Record ApronService := mkService {
  Service_Id : string;
  Service_Name : string;
  Service_Desc : string;
  Service_Logo : string;
  Service_Usage : string;
  Service_UserId : string;
  Service_Providers : list (option ApronServiceProvider);
  Service_IsDeleted : bool
}.

Record ApronServiceRequest := mkServiceRequest {
  Request_ServiceId : string;
  Request_RequestId : string;
  Request_PeerId : string;
  Request_IsWsRequest : bool;
  Request_RawRequest : bytes
}.

Record ApronServiceData := mkServiceData {
  Data_RequestId : string;
  Data_RawData : bytes
}.

Record ApronUsageRecord := mkUsageRecord {
  Usage_UserKey : string;
  Usage_ServiceId : string;
  Usage_StartTs : Z;
  Usage_EndTs : Z;
  Usage_AccessCount : Z;
  Usage_UploadTraffic : Z;
  Usage_DownloadTraffic : Z
}.

Record NodeReport := mkNodeReport {
  Report_NodeId : string;
  Report_Records : list ApronUsageRecord
}.

Record ApronSocketInitRequest := mkSocketInit {
  SocketInit_ServiceId : string;
  SocketInit_RequestId : string;
  SocketInit_PeerId : string;
  SocketInit_UserId : string
}.

Record ApronSocketServiceRequest := mkSocketService {
  SocketService_ServiceId : string;
  SocketService_RequestId : string;
  SocketService_PeerId : string
}.

Record ExtServiceData := mkExtServiceData {
  Ext_ServiceName : string;
  Ext_RequestId : string;
  Ext_MsgId : string;
  Ext_ContentType : Z;
  Ext_Content : bytes
}.

(** The zero values that a failed map lookup gives. *)
Definition zero_ApronService : ApronService := mkService "" "" "" "" "" "" [] false.
Definition zero_ApronServiceProvider : ApronServiceProvider :=
  mkProvider "" "" "" 0 0 "" "" "" NetworkType_UNKNOWN.

(** Getters on a pointer, nil allowed. *)
Definition ApronServiceProvider_GetBaseUrl (x : option ApronServiceProvider) : string :=
  match x with Some x => Provider_BaseUrl x | None => "" end.
Definition ApronServiceProvider_GetSchema (x : option ApronServiceProvider) : string :=
  match x with Some x => Provider_Schema x | None => "" end.
Definition ApronService_GetId (x : option ApronService) : string :=
  match x with Some x => Service_Id x | None => "" end.

#[export] Instance ApronServiceProvider_eq_dec : EqDecision ApronServiceProvider.
Proof. solve_decision. Defined.
#[export] Instance ApronService_eq_dec : EqDecision ApronService.
Proof. solve_decision. Defined.

(** ** Reflection: a message as its populated fields *)

(** A field value as [protoreflect] gives it; a repeated message field is one
    [PMessage] entry per element. *)
Inductive pval :=
  | PString (s : string)
  | PBytes (b : bytes)
  | PInt64 (z : Z)
  | PUint64 (z : Z)
  | PUint32 (z : Z)
  | PEnum (z : Z)
  | PBool (b : bool)
  | PMessage (fs : list (Z * pval)).

Inductive pkind :=
  | KString | KBytes | KInt64 | KUint64 | KUint32 | KEnum | KBool
  | KMessage (sch : list (Z * pkind)).

Abbreviation pfields := (list (Z * pval)).
Abbreviation pschema := (list (Z * pkind)).

Fixpoint kind_of (n : Z) (sch : pschema) : option pkind :=
  match sch with
  | [] => None
  | (m, k) :: sch => if decide (m = n) then Some k else kind_of n sch
  end.

(** The populated fields: proto3 leaves zero values out. *)
Definition fscalar (n : Z) (is_zero : bool) (v : pval) : pfields :=
  if is_zero then [] else [(n, v)].

Definition fstr (n : Z) (s : string) : pfields := fscalar n (bool_decide (s = "")) (PString s).
Definition fbytes (n : Z) (b : bytes) : pfields := fscalar n (bool_decide (b = [])) (PBytes b).
Definition fint (K : Z -> pval) (n : Z) (z : Z) : pfields := fscalar n (bool_decide (z = 0)) (K z).
Definition fbool (n : Z) (b : bool) : pfields := fscalar n (negb b) (PBool b).
Definition fmsgs (n : Z) (l : list pfields) : pfields := (fun fs => (n, PMessage fs)) <$> l.
#[global] Arguments fmsgs : simpl never.

(** Reading fields back: a repeated field keeps its elements in order, a scalar
    takes the last value. *)
Definition vals (n : Z) (fs : pfields) : list pval :=
  omap (fun p => if decide (p.1 = n) then Some p.2 else None) fs.

Definition gscalar {A} (proj : pval -> option A) (zero : A) (n : Z) (fs : pfields) : A :=
  default zero (last (vals n fs) ≫= proj).

Definition gstr : Z -> pfields -> string :=
  gscalar (fun v => match v with PString s => Some s | _ => None end) "".
Definition gbytes : Z -> pfields -> bytes :=
  gscalar (fun v => match v with PBytes b => Some b | _ => None end) [].
Definition gint64 : Z -> pfields -> Z :=
  gscalar (fun v => match v with PInt64 z => Some z | _ => None end) 0.
Definition guint64 : Z -> pfields -> Z :=
  gscalar (fun v => match v with PUint64 z => Some z | _ => None end) 0.
Definition guint32 : Z -> pfields -> Z :=
  gscalar (fun v => match v with PUint32 z => Some z | _ => None end) 0.
Definition genum : Z -> pfields -> Z :=
  gscalar (fun v => match v with PEnum z => Some z | _ => None end) 0.
Definition gbool : Z -> pfields -> bool :=
  gscalar (fun v => match v with PBool b => Some b | _ => None end) false.
Definition as_message (v : pval) : option pfields :=
  match v with PMessage l => Some l | _ => None end.
Definition gmsgs (n : Z) (fs : pfields) : list pfields := omap as_message (vals n fs).

#[global] Arguments vals : simpl never.
#[global] Arguments gscalar : simpl never.
#[global] Arguments fscalar : simpl never.

(** A value fits the kind its descriptor gives it, in range, and populated. *)
Fixpoint pval_ok (k : pkind) (v : pval) : bool :=
  match k, v with
  | KString, PString s => bool_decide (s <> "")
  | KBytes, PBytes b => bool_decide (b <> [])
  | KInt64, PInt64 z => bool_decide (z <> 0 /\ - 2 ^ 63 <= z < 2 ^ 63)
  | KUint64, PUint64 z => bool_decide (z <> 0 /\ 0 <= z < 2 ^ 64)
  | KUint32, PUint32 z => bool_decide (z <> 0 /\ 0 <= z < 2 ^ 32)
  | KEnum, PEnum z => bool_decide (z <> 0 /\ - 2 ^ 31 <= z < 2 ^ 31)
  | KBool, PBool b => b
  | KMessage sch, PMessage fs =>
      forallb (fun p => bool_decide (1 <= p.1 < 2 ^ 29) &&
                        match kind_of p.1 sch with
                        | Some k => pval_ok k p.2
                        | None => false
                        end) fs
  | _, _ => false
  end.

Definition conforms (sch : pschema) (fs : pfields) : Prop := pval_ok (KMessage sch) (PMessage fs) = true.

(** Two field lists are the same message when each field number has the same
    values in the same order; the order between fields is not significant. *)
Inductive pval_equiv : pval -> pval -> Prop :=
  | pval_equiv_refl v : pval_equiv v v
  | pval_equiv_msg l l' :
      (forall n, Forall2 pval_equiv (vals n l) (vals n l')) ->
      pval_equiv (PMessage l) (PMessage l').

#[export] Instance pfields_equiv : Equiv pfields :=
  fun l l' => forall n, Forall2 pval_equiv (vals n l) (vals n l').

(** What [proto.Marshal] and [proto.Unmarshal] promise. Marshalling can fail (a
    string that is not UTF-8); what it gives can be read back with any
    descriptor the fields conform to; and encodings that follow one another
    decode to the merge of their messages. *)
Class ProtoLib := {
  proto_encode : pfields -> result bytes;
  proto_decode : pschema -> bytes -> result pfields;
  proto_decode_encode : forall sch fs b,
    conforms sch fs -> proto_encode fs = Ok b ->
    exists fs', proto_decode sch b = Ok fs' /\ fs' ≡ fs;
  proto_decode_merge : forall sch fs gs a b,
    conforms sch fs -> conforms sch gs -> proto_encode fs = Ok a -> proto_encode gs = Ok b ->
    exists fs', proto_decode sch (a ++ b) = Ok fs' /\ fs' ≡ fs ++ gs
}.

(** ** The field tables *)

(** What [protoc-gen-go] generates for a message type. [proto_wf] says that its
    integers are in the range of their Go types and its pointers are not nil. *)
Class ProtoMessage (T : Type) := {
  proto_schema : pschema;
  fields_of : T -> pfields;
  of_fields : pfields -> T;
  proto_wf : T -> Prop;
  of_fields_proper :: Proper ((≡) ==> (=)) of_fields;
  fields_conform : forall m, proto_wf m -> conforms proto_schema (fields_of m);
  of_fields_of : forall m, proto_wf m -> of_fields (fields_of m) = m
}.

Definition Marshal `{ProtoLib, ProtoMessage T} (m : T) : result bytes :=
  proto_encode (fields_of m).

Definition Unmarshal `{ProtoLib, ProtoMessage T} (b : bytes) : result T :=
  of_fields <$> proto_decode proto_schema b.

(** ** Lemmas on fields *)

Lemma vals_app n fs gs : vals n (fs ++ gs) = vals n fs ++ vals n gs.
Proof. apply omap_app. Qed.

Lemma vals_fscalar n m p v :
  vals n (fscalar m p v) = if decide (m = n) then (if p then [] else [v]) else [].
Proof. unfold vals, fscalar. destruct p; cbn; by case_decide. Qed.

Lemma vals_fmsgs n m l : vals n (fmsgs m l) = if decide (m = n) then PMessage <$> l else [].
Proof.
  unfold vals, fmsgs. induction l as [|fs l IH]; cbn; [by case_decide|].
  rewrite IH. by case_decide.
Qed.

#[export] Instance pfields_equiv_reflexive : Reflexive (≡@{pfields}).
Proof. intros fs n. induction (vals n fs); constructor; auto using pval_equiv_refl. Qed.

(** A scalar getter sees a message only up to the order of its fields. *)
Lemma gscalar_proper {A} (proj : pval -> option A) zero n :
  (forall l, proj (PMessage l) = None) ->
  Proper ((≡@{pfields}) ==> (=)) (gscalar proj zero n).
Proof.
  intros Hproj fs fs' Heq. unfold gscalar. f_equal.
  specialize (Heq n). revert Heq. generalize (vals n fs), (vals n fs'). intros l l' Hl.
  induction Hl as [|v v' l l' Hv Hl IH]; [done|].
  destruct Hl as [|w w' l l']; [|exact IH].
  cbn. destruct Hv; [done|]. by rewrite !Hproj.
Qed.

Lemma gmsgs_proper n fs fs' : fs ≡ fs' -> Forall2 (≡@{pfields}) (gmsgs n fs) (gmsgs n fs').
Proof.
  intros Heq. specialize (Heq n). unfold gmsgs. revert Heq.
  generalize (vals n fs), (vals n fs'). intros l l' Hl.
  induction Hl as [|v v' l l' Hv Hl IH]; cbn; [constructor|].
  destruct Hv as [v|fs1 fs2 Hfs]; cbn.
  - destruct (as_message v); [|done]. by constructor.
  - constructor; [exact Hfs|done].
Qed.

Lemma gmsgs_fmap_proper {A} (f : pfields -> A) n fs fs' :
  Proper ((≡@{pfields}) ==> (=)) f -> fs ≡ fs' -> f <$> gmsgs n fs = f <$> gmsgs n fs'.
Proof.
  intros Hf Heq. apply list_eq_Forall2. apply Forall2_fmap.
  eapply Forall2_impl; [by apply gmsgs_proper|]. by intros ?? ->%Hf.
Qed.

Lemma omap_as_message (l : list pfields) : omap as_message (PMessage <$> l) = l.
Proof. induction l as [|fs l IH]; cbn; [done|]. by rewrite IH. Qed.

(** The fields of a message fit its descriptor one by one. *)
Lemma conforms_app sch fs gs : conforms sch fs -> conforms sch gs -> conforms sch (fs ++ gs).
Proof. unfold conforms. cbn. rewrite forallb_app. intros -> ->. done. Qed.

Lemma conforms_fscalar sch n p v k :
  kind_of n sch = Some k -> 1 <= n < 2 ^ 29 -> (p = false -> pval_ok k v = true) ->
  conforms sch (fscalar n p v).
Proof.
  unfold conforms, fscalar. intros Hk Hn Hv. destruct p; [done|].
  cbn -[Z.pow bool_decide]. by rewrite bool_decide_true, Hk, Hv.
Qed.

Lemma conforms_fmsgs sch n (l : list pfields) s :
  kind_of n sch = Some (KMessage s) -> 1 <= n < 2 ^ 29 -> Forall (conforms s) l ->
  conforms sch (fmsgs n l).
Proof.
  unfold conforms, fmsgs. intros Hk Hn Hl. induction Hl as [|fs l Hfs _ IH]; [done|].
  cbn -[Z.pow bool_decide] in IH, Hfs |- *. by rewrite bool_decide_true, Hk, Hfs, IH.
Qed.

(** The three goals of a [ProtoMessage] instance. *)
Ltac solve_proper_fields :=
  let H := fresh "Heq" in
  intros ?? H; f_equal;
  first [ by apply gscalar_proper
        | apply gmsgs_fmap_proper; [intros ?? Hf; by rewrite (of_fields_proper _ _ Hf)|done] ].

Ltac solve_conforms :=
  repeat (apply conforms_app);
  try (eapply conforms_fscalar; [reflexivity|lia|]; intros Hp;
       try apply bool_decide_eq_false in Hp; cbn [pval_ok]; rewrite ?bool_decide_eq_true;
       auto using negb_false_iff).

Ltac solve_of_fields :=
  unfold gstr, gbytes, gint64, guint64, guint32, genum, gbool, gmsgs, gscalar,
    fstr, fbytes, fint, fbool;
  rewrite ?vals_app, ?vals_fscalar, ?vals_fmsgs;
  repeat match goal with
  | |- context [decide (?m = ?m)] => rewrite (decide_True (P := m = m)) by done
  | |- context [decide (?m = ?n)] => rewrite (decide_False (P := m = n)) by done
  end;
  rewrite ?app_nil_r, ?app_nil_l; try case_bool_decide; subst; try done.

Abbreviation int64_range z := (- 2 ^ 63 <= z < 2 ^ 63).
Abbreviation uint64_range z := (0 <= z < 2 ^ 64).

#[export] Program Instance ApronServiceProvider_proto : ProtoMessage ApronServiceProvider := {|
  proto_schema := [(1, KString); (2, KString); (3, KString); (4, KInt64); (5, KInt64);
    (6, KString); (20, KString); (21, KString); (22, KEnum)];
  fields_of m := 
    fstr 1 (Provider_Id m) ++ fstr 2 (Provider_Name m) ++ fstr 3 (Provider_Desc m) ++
    fint PInt64 4 (Provider_CreatedAt m) ++ fint PInt64 5 (Provider_UpdatedAt m) ++
    fstr 6 (Provider_ExtraDetail m) ++ fstr 20 (Provider_BaseUrl m) ++
    fstr 21 (Provider_Schema m) ++ fint PEnum 22 (Provider_NetworkType m);
  of_fields fs := 
    mkProvider (gstr 1 fs) (gstr 2 fs) (gstr 3 fs) (gint64 4 fs) (gint64 5 fs) (gstr 6 fs)
      (gstr 20 fs) (gstr 21 fs) (genum 22 fs);
  proto_wf m := 
    int64_range (Provider_CreatedAt m) /\ int64_range (Provider_UpdatedAt m) /\
    - 2 ^ 31 <= Provider_NetworkType m < 2 ^ 31
|}.
Next Obligation. solve_proper_fields. Qed.
Next Obligation. intros m (?&?&?). solve_conforms. Qed.
Next Obligation. intros [] (?&?&?). cbn in *. f_equal; solve_of_fields. Qed.

(** A nil provider reflects as an empty message. *)
#[export] Program Instance ApronService_proto : ProtoMessage ApronService := {|
  proto_schema := [(1, KString); (2, KString); (3, KString); (4, KString); (5, KString);
    (6, KString); (10, KMessage (proto_schema (T := ApronServiceProvider))); (11, KBool)];
  fields_of m := 
    fstr 1 (Service_Id m) ++ fstr 2 (Service_Name m) ++ fstr 3 (Service_Desc m) ++
    fstr 4 (Service_Logo m) ++ fstr 5 (Service_Usage m) ++ fstr 6 (Service_UserId m) ++
    fmsgs 10 (from_option fields_of [] <$> Service_Providers m) ++
    fbool 11 (Service_IsDeleted m);
  of_fields fs := 
    mkService (gstr 1 fs) (gstr 2 fs) (gstr 3 fs) (gstr 4 fs) (gstr 5 fs) (gstr 6 fs)
      ((fun x => Some (of_fields x)) <$> gmsgs 10 fs) (gbool 11 fs);
  proto_wf m := 
    Forall (fun p => exists q, p = Some q /\ proto_wf q) (Service_Providers m)
|}.
Next Obligation. solve_proper_fields. Qed.
Next Obligation. intros m Hm. solve_conforms.
  - eapply conforms_fmsgs; [reflexivity|lia|]. apply Forall_fmap. eapply Forall_impl; [exact Hm|].
    intros ? (q&->&?). by apply fields_conform.
  - destruct (Service_IsDeleted m); done. Qed.
Next Obligation. intros [] Hm.
  cbn [Service_Id Service_Name Service_Desc Service_Logo
       Service_Usage Service_UserId Service_Providers Service_IsDeleted] in *.
  f_equal; solve_of_fields.
  - rewrite omap_as_message. rewrite <- list_fmap_compose. rewrite <- (list_fmap_id Service_Providers0) at 2.
    apply list_fmap_ext. intros i p Hp. pose proof (Forall_lookup_1 _ _ _ _ Hm Hp) as (q&->&?).
    change (Some (of_fields (fields_of q)) = Some q). by rewrite of_fields_of.
  - by destruct Service_IsDeleted0. Qed.

#[export] Program Instance ApronServiceRequest_proto : ProtoMessage ApronServiceRequest := {|
  proto_schema := [(1, KString); (2, KString); (3, KString); (4, KBool); (10, KBytes)];
  fields_of m := 
    fstr 1 (Request_ServiceId m) ++ fstr 2 (Request_RequestId m) ++ fstr 3 (Request_PeerId m) ++
    fbool 4 (Request_IsWsRequest m) ++ fbytes 10 (Request_RawRequest m);
  of_fields fs := 
    mkServiceRequest (gstr 1 fs) (gstr 2 fs) (gstr 3 fs) (gbool 4 fs) (gbytes 10 fs);
  proto_wf m := True
|}.
Next Obligation. solve_proper_fields. Qed.
Next Obligation. intros m _. solve_conforms. by destruct (Request_IsWsRequest m). Qed.
Next Obligation. intros [] _. cbn in *. f_equal; solve_of_fields. by destruct Request_IsWsRequest0. Qed.

#[export] Program Instance ApronServiceData_proto : ProtoMessage ApronServiceData := {|
  proto_schema := [(2, KString); (10, KBytes)];
  fields_of m := fstr 2 (Data_RequestId m) ++ fbytes 10 (Data_RawData m);
  of_fields fs := mkServiceData (gstr 2 fs) (gbytes 10 fs);
  proto_wf m := True
|}.
Next Obligation. solve_proper_fields. Qed.
Next Obligation. intros m _. solve_conforms. Qed.
Next Obligation. intros [] _. cbn in *. f_equal; solve_of_fields. Qed.

#[export] Program Instance ApronUsageRecord_proto : ProtoMessage ApronUsageRecord := {|
  proto_schema := [(1, KString); (2, KString); (3, KInt64); (4, KInt64);
    (10, KUint64); (11, KUint64); (12, KUint64)];
  fields_of m := 
    fstr 1 (Usage_UserKey m) ++ fstr 2 (Usage_ServiceId m) ++
    fint PInt64 3 (Usage_StartTs m) ++ fint PInt64 4 (Usage_EndTs m) ++
    fint PUint64 10 (Usage_AccessCount m) ++ fint PUint64 11 (Usage_UploadTraffic m) ++
    fint PUint64 12 (Usage_DownloadTraffic m);
  of_fields fs := 
    mkUsageRecord (gstr 1 fs) (gstr 2 fs) (gint64 3 fs) (gint64 4 fs) (guint64 10 fs)
      (guint64 11 fs) (guint64 12 fs);
  proto_wf m := 
    int64_range (Usage_StartTs m) /\ int64_range (Usage_EndTs m) /\
    uint64_range (Usage_AccessCount m) /\ uint64_range (Usage_UploadTraffic m) /\
    uint64_range (Usage_DownloadTraffic m)
|}.
Next Obligation. solve_proper_fields. Qed.
Next Obligation. intros m (?&?&?&?&?). solve_conforms. Qed.
Next Obligation. intros [] (?&?&?&?&?). cbn in *. f_equal; solve_of_fields. Qed.

#[export] Program Instance NodeReport_proto : ProtoMessage NodeReport := {|
  proto_schema := [(1, KString); (10, KMessage (proto_schema (T := ApronUsageRecord)))];
  fields_of m := fstr 1 (Report_NodeId m) ++ fmsgs 10 (fields_of <$> Report_Records m);
  of_fields fs := mkNodeReport (gstr 1 fs) (of_fields <$> gmsgs 10 fs);
  proto_wf m := Forall proto_wf (Report_Records m)
|}.
Next Obligation. solve_proper_fields. Qed.
Next Obligation. intros m Hm. solve_conforms.
  eapply conforms_fmsgs; [reflexivity|lia|]. apply Forall_fmap. eapply Forall_impl; [exact Hm|].
  intros q ?. by apply fields_conform. Qed.
Next Obligation. intros [] Hm.
  cbn [Report_NodeId Report_Records] in *.
  f_equal; solve_of_fields.
  rewrite omap_as_message, <- list_fmap_compose. rewrite <- (list_fmap_id Report_Records0) at 2.
  apply list_fmap_ext. intros i p Hp. pose proof (Forall_lookup_1 _ _ _ _ Hm Hp) as Hq.
  change (of_fields (fields_of p) = p). by rewrite of_fields_of. Qed.

#[export] Program Instance ApronSocketInitRequest_proto : ProtoMessage ApronSocketInitRequest := {|
  proto_schema := [(1, KString); (2, KString); (3, KString); (4, KString)];
  fields_of m := 
    fstr 1 (SocketInit_ServiceId m) ++ fstr 2 (SocketInit_RequestId m) ++
    fstr 3 (SocketInit_PeerId m) ++ fstr 4 (SocketInit_UserId m);
  of_fields fs := mkSocketInit (gstr 1 fs) (gstr 2 fs) (gstr 3 fs) (gstr 4 fs);
  proto_wf m := True
|}.
Next Obligation. solve_proper_fields. Qed.
Next Obligation. intros m _. solve_conforms. Qed.
Next Obligation. intros [] _. cbn in *. f_equal; solve_of_fields. Qed.

#[export] Program Instance ApronSocketServiceRequest_proto : ProtoMessage ApronSocketServiceRequest := {|
  proto_schema := [(1, KString); (2, KString); (3, KString)];
  fields_of m := 
    fstr 1 (SocketService_ServiceId m) ++ fstr 2 (SocketService_RequestId m) ++
    fstr 3 (SocketService_PeerId m);
  of_fields fs := mkSocketService (gstr 1 fs) (gstr 2 fs) (gstr 3 fs);
  proto_wf m := True
|}.
Next Obligation. solve_proper_fields. Qed.
Next Obligation. intros m _. solve_conforms. Qed.
Next Obligation. intros [] _. cbn in *. f_equal; solve_of_fields. Qed.

#[export] Program Instance ExtServiceData_proto : ProtoMessage ExtServiceData := {|
  proto_schema := [(1, KString); (2, KString); (3, KString); (10, KUint32); (20, KBytes)];
  fields_of m := 
    fstr 1 (Ext_ServiceName m) ++ fstr 2 (Ext_RequestId m) ++ fstr 3 (Ext_MsgId m) ++
    fint PUint32 10 (Ext_ContentType m) ++ fbytes 20 (Ext_Content m);
  of_fields fs := 
    mkExtServiceData (gstr 1 fs) (gstr 2 fs) (gstr 3 fs) (guint32 10 fs) (gbytes 20 fs);
  proto_wf m := 0 <= Ext_ContentType m < 2 ^ 32
|}.
Next Obligation. solve_proper_fields. Qed.
Next Obligation. intros m ?. solve_conforms. Qed.
Next Obligation. intros [] ?. cbn in *. f_equal; solve_of_fields. Qed.

(** ** Round trips *)

Section roundtrip.
Context {L : ProtoLib}.

Lemma Unmarshal_Marshal `{ProtoMessage T} (m : T) b :
  proto_wf m -> Marshal m = Ok b -> Unmarshal b = Ok m.
Proof.
  intros Hm Hb. unfold Unmarshal, Marshal in *.
  destruct (proto_decode_encode proto_schema _ b (fields_conform m Hm) Hb) as (fs'&->&Heq).
  cbn. f_equal. rewrite Heq. by apply of_fields_of.
Qed.

Lemma Unmarshal_merged `{ProtoMessage T} (m1 m2 : T) a b :
  proto_wf m1 -> proto_wf m2 -> Marshal m1 = Ok a -> Marshal m2 = Ok b ->
  Unmarshal (a ++ b) = Ok (of_fields (fields_of m1 ++ fields_of m2)).
Proof.
  intros H1 H2 Ha Hb. unfold Unmarshal, Marshal in *.
  destruct (proto_decode_merge proto_schema _ _ a b (fields_conform m1 H1) (fields_conform m2 H2) Ha Hb)
    as (fs'&->&Heq).
  cbn. f_equal. by rewrite Heq.
Qed.

(** The gateway on the service side reads with the descriptor of
    [ApronSocketInitRequest] what the client side wrote as an
    [ApronSocketServiceRequest]. *)
Lemma Unmarshal_socket_request (m : ApronSocketServiceRequest) b :
  Marshal m = Ok b ->
  Unmarshal b = Ok (mkSocketInit (SocketService_ServiceId m) (SocketService_RequestId m)
                      (SocketService_PeerId m) "").
Proof.
  intros Hb. unfold Unmarshal, Marshal in *.
  assert (conforms (proto_schema (T := ApronSocketInitRequest)) (fields_of m)) as Hc
    by solve_conforms.
  destruct (proto_decode_encode _ _ b Hc Hb) as (fs'&->&Heq).
  cbn [fmap result_fmap]. f_equal. rewrite Heq. destruct m. cbn. f_equal; solve_of_fields.
Qed.
End roundtrip.
