(* ===== verification/WireFormat.v ===== *)
(** The protobuf wire format, as a concrete instance of [Messages.ProtoLib]:
    tags, base-128 varints and length-delimited payloads. It shows that the
    class's promise can be kept, and it is what the witnesses run on; no
    definition here models code of the repository. *)

From S2P Require Import Prelude Messages.

(** ** Varints *)

Fixpoint enc_varint (fuel : nat) (z : Z) : bytes :=
  match fuel with
  | O => []
  | S fuel => if z <? 128 then [byte_of z]
              else byte_of (128 + z mod 128) :: enc_varint fuel (z / 128)
  end.

Fixpoint dec_varint (fuel : nat) (bs : bytes) : option (Z * bytes) :=
  match fuel, bs with
  | S fuel, c :: bs =>
      if byte_val c <? 128 then Some (byte_val c, bs)
      else match dec_varint fuel bs with
           | Some (z, bs') => Some (byte_val c - 128 + 128 * z, bs')
           | None => None
           end
  | _, _ => None
  end.

Lemma dec_enc_varint fuel z rest :
  (0 < fuel)%nat -> 0 <= z < 128 ^ Z.of_nat fuel ->
  dec_varint fuel (enc_varint fuel z ++ rest) = Some (z, rest).
Proof.
  revert z. induction fuel as [|fuel IH]; intros z Hf Hz; [lia|].
  cbn [enc_varint]. destruct (Z.ltb_spec z 128) as [Hlt|Hge]; cbn [app dec_varint].
  - rewrite byte_val_of, (Z.mod_small z 256) by lia. by rewrite (proj2 (Z.ltb_lt z 128)).
  - pose proof (Z.mod_pos_bound z 128 ltac:(lia)).
    rewrite byte_val_of, (Z.mod_small (128 + z mod 128)) by lia.
    rewrite (proj2 (Z.ltb_ge (128 + z mod 128) 128)) by lia.
    rewrite Nat2Z.inj_succ, Z.pow_succ_r in Hz by lia.
    rewrite IH; [|destruct fuel; cbn in *; lia|split; [by apply Z.div_pos; lia|]].
    2: { apply Z.div_lt_upper_bound; lia. }
    f_equal. f_equal. pose proof (Z.div_mod z 128 ltac:(lia)). lia.
Qed.

Definition varint (z : Z) : bytes := enc_varint 10 z.
Definition get_varint (bs : bytes) : option (Z * bytes) := dec_varint 10 bs.

Lemma get_varint_varint z rest : 0 <= z < 2 ^ 64 -> get_varint (varint z ++ rest) = Some (z, rest).
Proof. intros Hz. apply dec_enc_varint; cbn; lia. Qed.

Lemma varint_nonempty z : (0 < length (varint z))%nat.
Proof. unfold varint. cbn. destruct (z <? 128); cbn; lia. Qed.

#[global] Opaque varint get_varint.

(** ** Fields *)

Definition delimited (b : bytes) : bytes := varint (Z.of_nat (length b)) ++ b.

Fixpoint enc_field (n : Z) (v : pval) : bytes :=
  match v with
  | PString s => varint (n * 8 + 2) ++ delimited (str_bytes s)
  | PBytes b => varint (n * 8 + 2) ++ delimited b
  | PInt64 z | PUint64 z | PUint32 z | PEnum z => varint (n * 8) ++ varint (z mod 2 ^ 64)
  | PBool b => varint (n * 8) ++ varint (if b then 1 else 0)
  | PMessage fs =>
      varint (n * 8 + 2) ++ delimited (concat (map (fun p => enc_field p.1 p.2) fs))
  end.

Definition enc_fields (fs : pfields) : bytes := concat (map (fun p => enc_field p.1 p.2) fs).

Definition signed (w : Z) (z : Z) : Z := if z <? 2 ^ (w - 1) then z else z - 2 ^ w.

(** Unknown fields and fields of the wrong wire type are skipped. *)
Fixpoint dec_fields (fuel : nat) (sch : pschema) (bs : bytes) : option pfields :=
  match fuel, bs with
  | _, [] => Some []
  | O, _ => None
  | S fuel, _ =>
      '(tag, bs) ← get_varint bs;
      let n := tag / 8 in
      if n =? 0 then None (* field number 0 is illegal *)
      else if tag mod 8 =? 0 then
        '(z, bs) ← get_varint bs;
        rest ← dec_fields fuel sch bs;
        match kind_of n sch with
        | Some KInt64 => Some ((n, PInt64 (signed 64 z)) :: rest)
        | Some KUint64 => Some ((n, PUint64 z) :: rest)
        | Some KUint32 => Some ((n, PUint32 (z mod 2 ^ 32)) :: rest)
        | Some KEnum => Some ((n, PEnum (signed 32 (z mod 2 ^ 32))) :: rest)
        | Some KBool => Some ((n, PBool (negb (z =? 0))) :: rest)
        | _ => Some rest
        end
      else if tag mod 8 =? 2 then
        '(len, bs) ← get_varint bs;
        if Z.of_nat (length bs) <? len then None else
        let payload := take (Z.to_nat len) bs in
        rest ← dec_fields fuel sch (drop (Z.to_nat len) bs);
        match kind_of n sch with
        | Some KString => Some ((n, PString (bytes_str payload)) :: rest)
        | Some KBytes => Some ((n, PBytes payload) :: rest)
        | Some (KMessage s) =>
            fs ← dec_fields fuel s payload;
            Some ((n, PMessage fs) :: rest)
        | _ => Some rest
        end
      else None
  end.

(** ** Strings must be UTF-8 *)

Definition cont (c : ascii) : bool := (128 <=? byte_val c) && (byte_val c <? 192).

Fixpoint utf8_valid (fuel : nat) (b : bytes) : bool :=
  match fuel, b with
  | _, [] => true
  | O, _ => false
  | S fuel, c :: b =>
      let v := byte_val c in
      if v <? 128 then utf8_valid fuel b
      else if (194 <=? v) && (v <? 224) then
        match b with c1 :: b => cont c1 && utf8_valid fuel b | _ => false end
      else if (224 <=? v) && (v <? 240) then
        match b with
        | c1 :: c2 :: b =>
            cont c1 && cont c2 && negb ((v =? 224) && (byte_val c1 <? 160)) &&
            negb ((v =? 237) && (160 <=? byte_val c1)) && utf8_valid fuel b
        | _ => false end
      else if (240 <=? v) && (v <? 245) then
        match b with
        | c1 :: c2 :: c3 :: b =>
            cont c1 && cont c2 && cont c3 && negb ((v =? 240) && (byte_val c1 <? 144)) &&
            negb ((v =? 244) && (144 <=? byte_val c1)) && utf8_valid fuel b
        | _ => false end
      else false
  end.

Fixpoint strings_valid (v : pval) : bool :=
  match v with
  | PString s => utf8_valid (length (str_bytes s)) (str_bytes s)
  | PMessage fs => forallb (fun p => strings_valid p.2) fs
  | _ => true
  end.

Definition wire_encode (fs : pfields) : result bytes :=
  if forallb (fun p => strings_valid p.2) fs then
    if Z.of_nat (length (enc_fields fs)) <? 2 ^ 63 then Ok (enc_fields fs)
    else Fail (errors_New "proto: message too large")
  else Fail (errors_New "string field contains invalid UTF-8").

Definition wire_decode (sch : pschema) (bs : bytes) : result pfields :=
  match dec_fields (S (length bs)) sch bs with
  | Some fs => Ok fs
  | None => Fail (errors_New "proto: cannot parse invalid wire-format data")
  end.

(** ** Round trip *)

Lemma signed_mod64 z : int64_range z -> signed 64 (z mod 2 ^ 64) = z.
Proof.
  intros H. unfold signed. change (64 - 1) with 63. case (Z.ltb_spec (z mod 2 ^ 64) (2 ^ 63));
    intros; destruct (Z.lt_ge_cases z 0).
  - rewrite <- (Z.mod_add z 1), Z.mod_small in * by lia. lia.
  - rewrite Z.mod_small in * by lia. lia.
  - rewrite <- (Z.mod_add z 1), Z.mod_small in * by lia. lia.
  - rewrite Z.mod_small in * by lia. lia.
Qed.

Lemma signed_mod32 z : - 2 ^ 31 <= z < 2 ^ 31 -> signed 32 (z mod 2 ^ 64 mod 2 ^ 32) = z.
Proof.
  intros H. rewrite <- (Znumtheory.Zmod_div_mod (2 ^ 32) (2 ^ 64)); [|lia|lia|by exists (2 ^ 32)].
  unfold signed. change (32 - 1) with 31. case (Z.ltb_spec (z mod 2 ^ 32) (2 ^ 31));
    intros; destruct (Z.lt_ge_cases z 0).
  - rewrite <- (Z.mod_add z 1), Z.mod_small in * by lia. lia.
  - rewrite Z.mod_small in * by lia. lia.
  - rewrite <- (Z.mod_add z 1), Z.mod_small in * by lia. lia.
  - rewrite Z.mod_small in * by lia. lia.
Qed.

(** One step of the decoder on a varint field and on a delimited one. *)
Lemma dec_varint_field fuel sch n z rest :
  1 <= n < 2 ^ 29 -> 0 <= z < 2 ^ 64 ->
  dec_fields (S fuel) sch (varint (n * 8) ++ varint z ++ rest) =
    (fs ← dec_fields fuel sch rest;
     match kind_of n sch with
     | Some KInt64 => Some ((n, PInt64 (signed 64 z)) :: fs)
     | Some KUint64 => Some ((n, PUint64 z) :: fs)
     | Some KUint32 => Some ((n, PUint32 (z mod 2 ^ 32)) :: fs)
     | Some KEnum => Some ((n, PEnum (signed 32 (z mod 2 ^ 32))) :: fs)
     | Some KBool => Some ((n, PBool (negb (z =? 0))) :: fs)
     | _ => Some fs
     end).
Proof.
  intros Hn Hz. cbn [dec_fields].
  destruct (varint (n * 8) ++ varint z ++ rest) as [|c l] eqn:E.
  { apply (f_equal length) in E. rewrite length_app in E. pose proof (varint_nonempty (n * 8)).
    cbn in E. lia. }
  rewrite <- E, get_varint_varint by lia. cbn [mbind option_bind].
  rewrite Z.mod_mul, Z.div_mul, (proj2 (Z.eqb_neq n 0)) by lia. cbn [Z.eqb].
  by rewrite get_varint_varint.
Qed.

Lemma dec_delimited_field fuel sch n b rest :
  1 <= n < 2 ^ 29 -> Z.of_nat (length b) < 2 ^ 64 ->
  dec_fields (S fuel) sch (varint (n * 8 + 2) ++ delimited b ++ rest) =
    (fs ← dec_fields fuel sch rest;
     match kind_of n sch with
     | Some KString => Some ((n, PString (bytes_str b)) :: fs)
     | Some KBytes => Some ((n, PBytes b) :: fs)
     | Some (KMessage s) => gs ← dec_fields fuel s b; Some ((n, PMessage gs) :: fs)
     | _ => Some fs
     end).
Proof.
  intros Hn Hb. cbn [dec_fields].
  destruct (varint (n * 8 + 2) ++ delimited b ++ rest) as [|c l] eqn:E.
  { apply (f_equal length) in E. rewrite length_app in E. pose proof (varint_nonempty (n * 8 + 2)).
    cbn in E. lia. }
  rewrite <- E, get_varint_varint by lia. cbn [mbind option_bind].
  rewrite (Z.add_comm (n * 8)), Z.mod_add, Z.div_add by lia.
  change (2 / 8) with 0. rewrite Z.add_0_l, (proj2 (Z.eqb_neq n 0)) by lia.
  change (2 mod 8 =? 0) with false. change (2 mod 8 =? 2) with true. unfold delimited. rewrite <- app_assoc, get_varint_varint by lia.
  cbn [mbind option_bind]. rewrite (proj2 (Z.ltb_ge _ _)) by (rewrite length_app; lia).
  by rewrite Nat2Z.id, take_app_length, drop_app_length.
Qed.

Lemma enc_fields_cons n v fs : enc_fields ((n, v) :: fs) = enc_field n v ++ enc_fields fs.
Proof. done. Qed.

Lemma dec_enc_fields fuel sch fs :
  (length (enc_fields fs) < fuel)%nat -> Z.of_nat (length (enc_fields fs)) < 2 ^ 64 ->
  conforms sch fs -> dec_fields fuel sch (enc_fields fs) = Some fs.
Proof.
  revert sch fs. induction fuel as [|fuel IH]; intros sch fs Hf Hl Hc; [lia|].
  destruct fs as [|[n v] fs]; [done|]. rewrite enc_fields_cons, ?length_app in *.
  unfold conforms in Hc. cbn -[Z.pow bool_decide] in Hc.
  apply andb_true_iff in Hc as [Hv Hc]. apply andb_true_iff in Hv as [Hn Hv].
  apply bool_decide_eq_true in Hn.
  destruct (kind_of n sch) as [k|] eqn:Hk; [|done].
  assert (forall m, (0 < length (varint m))%nat) as Hpos by apply varint_nonempty.
  specialize (Hpos (n * 8)) as Hp1. specialize (Hpos (n * 8 + 2)) as Hp2.
  assert ((0 < length (enc_field n v))%nat) as Hp.
  { destruct v; cbn [enc_field]; rewrite length_app; lia. }
  assert (dec_fields fuel sch (enc_fields fs) = Some fs) as Hrest by (apply IH; [lia|lia|done]).
  destruct k, v; try done; cbn [enc_field pval_ok] in *; rewrite <- app_assoc;
    try apply bool_decide_eq_true in Hv; unfold delimited in *; rewrite ?length_app in *.
  - fold (delimited (str_bytes s)). rewrite dec_delimited_field, Hrest, Hk by lia. cbn.
    by rewrite str_bytes_inv.
  - fold (delimited b). rewrite dec_delimited_field, Hrest, Hk by lia. done.
  - rewrite dec_varint_field, Hrest, Hk by (try apply Z.mod_pos_bound; lia).
    cbn -[Z.pow signed]. by rewrite signed_mod64 by lia.
  - rewrite dec_varint_field, Hrest, Hk by (try apply Z.mod_pos_bound; lia).
    cbn -[Z.pow]. by rewrite Z.mod_small by lia.
  - rewrite dec_varint_field, Hrest, Hk by (try apply Z.mod_pos_bound; lia).
    cbn -[Z.pow]. by rewrite (Z.mod_small z), Z.mod_small by lia.
  - rewrite dec_varint_field, Hrest, Hk by (try apply Z.mod_pos_bound; lia).
    cbn -[Z.pow signed]. by rewrite signed_mod32 by lia.
  - subst b. rewrite dec_varint_field, Hrest, Hk by lia. done.
  - fold (enc_fields fs0) in *. fold (delimited (enc_fields fs0)).
    rewrite dec_delimited_field, Hrest, Hk by lia. cbn [mbind option_bind].
    by rewrite IH by (done || lia).
Qed.

(** ** The instance *)

#[export] Program Instance wire_lib : ProtoLib := {|
  proto_encode := wire_encode;
  proto_decode := wire_decode
|}.
Next Obligation.
  intros sch fs b Hc Hb. unfold wire_encode in Hb. repeat case_match; simplify_eq.
  unfold wire_decode. rewrite dec_enc_fields; [by eexists|lia| |done].
  apply Z.ltb_lt in H0. lia.
Qed.
Next Obligation.
  intros sch fs gs a b Hf Hg Ha Hb. unfold wire_encode in Ha, Hb. repeat case_match; simplify_eq.
  assert (enc_fields fs ++ enc_fields gs = enc_fields (fs ++ gs)) as ->
    by (unfold enc_fields; by rewrite map_app, concat_app).
  unfold wire_decode. rewrite dec_enc_fields; [by eexists|lia| |by apply conforms_app].
  assert (length (enc_fields (fs ++ gs)) = length (enc_fields fs) + length (enc_fields gs))%nat as ->
    by (unfold enc_fields; by rewrite map_app, concat_app, length_app).
  repeat match goal with H : (_ <? _) = true |- _ => apply Z.ltb_lt in H end. lia.
Qed.

(** The bytes of a message, for examples. *)
Definition encoded `{ProtoMessage T} (m : T) : bytes :=
  match Marshal m with Ok b => b | Fail _ => [] end.
