(* ===== verification/NetworkHelper.v ===== *)
(** The stream framing of [internal/trans_network/network_helper.go]: an
    eight-byte big-endian length and then the payload, written with
    [WriteBytesViaStream] and read back through a [bufio.Reader] with
    [ReadOneFrameDataFromStream] and [ReadBytesViaStream].

    Readers are modelled down to the chunks the operating system delivers,
    because [bufio.NewReader] reads ahead: what it has buffered is lost with it
    when the next frame is read through a new one. *)

From S2P Require Import Prelude.

(** ** [io.Reader] and [bufio.Reader] *)

(** A connection as its reader sees it: the chunks its [Read] calls will
    return, and what follows them: an error returned for ever, or silence. *)
Record source := mkSource { chunks : list bytes; term : option goerror }.

(** One [Read] call: bytes, an error, or a call that never returns. *)
Inductive ioresult :=
  | IoOk (b : bytes)
  | IoErr (e : goerror)
  | IoBlock.

Definition source_Read (n : nat) (s : source) : ioresult * source :=
  match chunks s with
  | [] => match term s with
          | Some e => (IoErr e, s)
          | None => (IoBlock, s)
          end
  | c :: cs =>
      if decide (length c <= n)%nat then (IoOk c, mkSource cs (term s))
      else (IoOk (take n c), mkSource (drop n c :: cs) (term s))
  end.

(** [bufio.Reader]: its unread bytes and the reader under it. A source never
    returns data together with an error, so no error is ever pending. *)
Record bufreader := mkBuf { buffered : bytes; under : source }.

Definition bufio_size : nat := 4096.

Definition bufio_Read (n : nat) (b : bufreader) : ioresult * bufreader :=
  match n, buffered b with
  | O, _ => (IoOk [], b)
  | _, [] =>
      if decide (bufio_size <= n)%nat then
        let '(r, s) := source_Read n (under b) in (r, mkBuf [] s)
      else
        match source_Read bufio_size (under b) with
        | (IoOk c, s) => (IoOk (take n c), mkBuf (drop n c) s)
        | (r, s) => (r, mkBuf [] s)
        end
  | _, buf => (IoOk (take n buf), mkBuf (drop n buf) (under b))
  end.

(** The loop of [io.ReadAtLeast] with [min = len(buf)]: [got] is what was read,
    [n] what is still wanted. *)
Fixpoint ReadFull_loop (fuel : nat) (got : bytes) (n : nat) (b : bufreader)
    : ioresult * bufreader :=
  match n, fuel with
  | O, _ => (IoOk got, b)
  | _, O => (IoBlock, b)
  | _, S fuel =>
      match bufio_Read n b with
      | (IoOk c, b') => ReadFull_loop fuel (got ++ c) (n - length c) b'
      | (IoErr e, b') =>
          (IoErr (if decide (e = io_EOF /\ got <> []) then io_ErrUnexpectedEOF else e), b')
      | (IoBlock, b') => (IoBlock, b')
      end
  end.

(** [io.ReadFull]. Every turn takes a wanted byte or an empty chunk away. *)
Definition ReadFull (n : nat) (b : bufreader) : ioresult * bufreader :=
  ReadFull_loop (n + length (chunks (under b))) [] n b.

(** What an [io.Reader] argument can be, and [bufio.NewReader], which gives a
    large enough [*bufio.Reader] back as it is. *)
Inductive reader :=
  | RawReader (s : source)
  | BufReader (b : bufreader).

Definition NewReader (r : reader) : bufreader :=
  match r with RawReader s => mkBuf [] s | BufReader b => b end.

(** The caller's reader once the function's own [bufio.Reader] is dropped. *)
Definition release (r : reader) (b : bufreader) : reader :=
  match r with RawReader _ => RawReader (under b) | BufReader _ => BufReader b end.

(** ** network_helper.go *)

(** [WriteBytesViaStream(w, data)]: [w_Write] is [w.Write], with its error. *)
Definition WriteBytesViaStream {S E} (w_Write : bytes -> M S E (option goerror))
    (data : bytes) : M S E unit :=
  let msgLen := Z.of_nat (length data) in
  let msgLenBytes := be_put 8 (u64 msgLen) in
  err ← w_Write msgLenBytes;
  CheckError err;;
  err ← w_Write data;
  CheckError err.

Section framing.
(** The largest size [make([]byte, n)] accepts, which the runtime fixes. *)
Variable maxAlloc : Z.

Definition ReadOneFrameDataFromStream (rd : reader) : outcome (result bytes) * reader :=
  let b := NewReader rd in
  match ReadFull 8 b with
  | (IoErr e, b') => (Val (Fail e), release rd b')
  | (IoBlock, b') => (Block, release rd b')
  | (IoOk hdr, b') =>
      let msgLen := be_get hdr in
      if decide (maxAlloc < msgLen) then
        (Panic "runtime error: makeslice: len out of range", release rd b')
      else
        match ReadFull (Z.to_nat msgLen) b' with
        | (IoErr e, b'') => (Val (Fail e), release rd b'')
        | (IoBlock, b'') => (Block, release rd b'')
        | (IoOk dataBuf, b'') => (Val (Ok dataBuf), release rd b'')
        end
  end.

(** What the reading goroutine sends, in order, to its two channels. *)
Inductive chan_op :=
  | ToErrCh (e : goerror)
  | ToDataCh (b : bytes).

(** The first [n] turns of the endless loop of [ReadBytesViaStream]: after
    an error the nil [dataBuf] is sent too. *)
Fixpoint ReadBytesViaStream (n : nat) (rd : reader) : list chan_op :=
  match n with
  | O => []
  | S n =>
      match ReadOneFrameDataFromStream rd with
      | (Val (Ok dataBuf), rd') => ToDataCh dataBuf :: ReadBytesViaStream n rd'
      | (Val (Fail e), rd') => ToErrCh e :: ToDataCh [] :: ReadBytesViaStream n rd'
      | (Panic _, _) | (Block, _) => []
      end
  end.
End framing.

(** ** Specification vocabulary *)

(** The bytes [WriteBytesViaStream] puts on the wire for one payload. *)
Definition frame (data : bytes) : bytes := be_put 8 (u64 (Z.of_nat (length data))) ++ data.
#[global] Arguments frame : simpl never.

(** Everything a reader will ever deliver. *)
Definition avail (b : bufreader) : bytes := buffered b ++ concat (chunks (under b)).

(** An [io.Writer] that accepts everything, such as a [bytes.Buffer]. *)
Definition buffer_Write {E} (p : bytes) : M bytes E (option goerror) :=
  modify (fun s => s ++ p);; mret None.

(** ** The readers *)

(** A read that takes [c] and leaves the group [g'] of what was the group [g] is
    progress: a byte or a whole chunk is gone. *)
Definition progress (c : bytes) (g g' : list bytes) : Prop :=
  (c <> [] /\ length g' <= length g)%nat \/ (length g' < length g)%nat.

Definition nonempty (c : bytes) : Prop := c <> [].

Lemma nonempty_drop n (c : bytes) : (n < length c)%nat -> nonempty (drop n c).
Proof. intros H E%(f_equal length). rewrite length_drop in E. cbn in E. lia. Qed.

Lemma nonempty_take n (c : bytes) : (0 < n)%nat -> c <> [] -> take n c <> [].
Proof. by destruct n, c; try lia. Qed.
#[export] Hint Resolve nonempty_drop nonempty_take : gw.

(** Reading at the head of a group [g] of chunks never touches the chunks
    behind the group. *)
Lemma source_Read_group n s g rest :
  chunks s = g ++ rest -> (0 < n)%nat -> g <> [] ->
  exists c s' g',
    source_Read n s = (IoOk c, s') /\ (length c <= n)%nat /\
    concat g = c ++ concat g' /\ chunks s' = g' ++ rest /\ term s' = term s /\
    progress c g g' /\ (Forall nonempty g -> Forall nonempty g').
Proof.
  intros Hg Hn Hne. destruct s as [cs t], g as [|c g]; [done|]; cbn in *; subst cs.
  unfold source_Read; cbn. case_decide as Hc.
  - exists c, (mkSource (g ++ rest) t), g. split_and!; try done.
    + right. cbn. lia.
    + by intros [??]%Forall_cons.
  - exists (take n c), (mkSource (drop n c :: g ++ rest) t), (drop n c :: g).
    split_and!; try done.
    + rewrite length_take. lia.
    + cbn. by rewrite app_assoc, take_drop.
    + left. split; [|done]. apply nonempty_take; [done|by destruct c; cbn in *; [lia|]].
    + intros [??]%Forall_cons. constructor; [|done]. apply nonempty_drop. lia.
Qed.

Lemma bufio_Read_group n b g rest :
  chunks (under b) = g ++ rest -> (0 < n)%nat -> buffered b <> [] \/ g <> [] ->
  exists c b' g',
    bufio_Read n b = (IoOk c, b') /\ (length c <= n)%nat /\
    buffered b ++ concat g = c ++ buffered b' ++ concat g' /\
    chunks (under b') = g' ++ rest /\ term (under b') = term (under b) /\
    progress c g g' /\ (Forall nonempty g -> Forall nonempty g').
Proof.
  intros Hg Hn Hne. destruct n as [|n]; [lia|]. unfold bufio_Read.
  destruct b as [[|x buf] s]; cbn [buffered under] in *.
  - assert (g <> []) as Hg0 by (by destruct Hne).
    case_decide.
    + destruct (source_Read_group (S n) s g rest) as (c&s'&g'&->&?&?&?&?&?&?); try done.
      exists c, (mkBuf [] s'), g'. by split_and!.
    + destruct (source_Read_group bufio_size s g rest) as (c&s'&g'&->&?&Hcat&?&?&Hp&?);
        try done; [unfold bufio_size; lia|].
      exists (take (S n) c), (mkBuf (drop (S n) c) s'), g'. split_and!; try done.
      * rewrite length_take. lia.
      * cbn [buffered]. by rewrite app_assoc, take_drop.
      * destruct Hp as [[??]|?]; [left; split; [by apply nonempty_take; [lia|]|done]|by right].
  - exists (take (S n) (x :: buf)), (mkBuf (drop (S n) (x :: buf)) s), g.
    split_and!; try done.
    + rewrite length_take. lia.
    + cbn [buffered]. by rewrite app_assoc, take_drop.
    + by left.
Qed.

(** A reader with nothing left fails or blocks, and stays so. *)
Lemma bufio_Read_empty n b :
  buffered b = [] -> chunks (under b) = [] -> (0 < n)%nat ->
  bufio_Read n b =
    (match term (under b) with Some e => IoErr e | None => IoBlock end, b).
Proof.
  intros Hb Hc Hn. destruct n as [|n], b as [? [? []]]; cbn in *; subst; try lia;
    unfold bufio_Read, source_Read; cbn; by case_decide.
Qed.

(** [ReadFull] within a group: exactly the bytes wanted, and the reader stays
    inside the group. *)
Lemma ReadFull_loop_group fuel got n b g rest :
  chunks (under b) = g ++ rest ->
  (n <= length (buffered b ++ concat g))%nat -> (n + length g <= fuel)%nat ->
  exists b' g',
    ReadFull_loop fuel got n b = (IoOk (got ++ take n (buffered b ++ concat g)), b') /\
    buffered b' ++ concat g' = drop n (buffered b ++ concat g) /\
    chunks (under b') = g' ++ rest /\ term (under b') = term (under b) /\
    (Forall nonempty g -> Forall nonempty g').
Proof.
  revert got n b g. induction fuel as [|fuel IH]; intros got n b g Hg Hlen Hfuel.
  - assert (n = O) as -> by lia. exists b, g. split_and!; try done.
    cbn. by rewrite app_nil_r.
  - destruct (decide (n = O)) as [->|Hn].
    { exists b, g. split_and!; try done. cbn. by rewrite app_nil_r. }
    destruct (bufio_Read_group n b g rest) as (c&b1&g1&Hread&Hc&Hcat&Hg1&Ht1&Hp&Hne1);
      [done|lia| |].
    { destruct (buffered b); [right|by left]. intros ->. cbn in *. lia. }
    rewrite Hcat in *.
    destruct (IH (got ++ c) (n - length c)%nat b1 g1) as (b2&g2&Hloop&Hcat2&?&?&?).
    { done. }
    { rewrite length_app in Hlen. lia. }
    { destruct Hp as [[Hp ?]|?]; [|lia]. destruct c; [done|]. cbn in *. lia. }
    exists b2, g2. split_and!.
    + destruct n as [|n]; [done|]. cbn [ReadFull_loop]. rewrite Hread, Hloop.
      rewrite <- app_assoc. f_equal. f_equal. f_equal.
      rewrite (firstn_app (S n) c). f_equal. symmetry. apply take_ge. lia.
    + rewrite Hcat2, (skipn_app n c). rewrite (drop_ge c) by lia. done.
    + done.
    + congruence.
    + tauto.
Qed.

Lemma ReadFull_group n b g rest :
  chunks (under b) = g ++ rest -> (n <= length (buffered b ++ concat g))%nat ->
  exists b' g',
    ReadFull n b = (IoOk (take n (buffered b ++ concat g)), b') /\
    buffered b' ++ concat g' = drop n (buffered b ++ concat g) /\
    chunks (under b') = g' ++ rest /\ term (under b') = term (under b) /\
    (Forall nonempty g -> Forall nonempty g').
Proof.
  intros Hg Hn. unfold ReadFull.
  apply (ReadFull_loop_group _ [] n b g rest Hg Hn). rewrite Hg, length_app. lia.
Qed.

(** [ReadFull] with enough bytes to come, however they are chunked. *)
Lemma ReadFull_enough n b :
  (n <= length (avail b))%nat ->
  exists b', ReadFull n b = (IoOk (take n (avail b)), b') /\
    avail b' = drop n (avail b) /\ term (under b') = term (under b).
Proof.
  intros Hn. destruct (ReadFull_group n b (chunks (under b)) []) as (b'&g'&?&Hd&Hg'&?&?).
  { by rewrite app_nil_r. } { done. }
  exists b'. split_and!; try done. unfold avail. by rewrite Hg', app_nil_r.
Qed.

(** How [ReadFull] ends when the bytes run out before [n], [got] being what it
    had before: the terminal error (turned into [io.ErrUnexpectedEOF] after some
    bytes), or a read that blocks for ever. *)
Definition short_read (t : option goerror) (got : bytes) : ioresult :=
  match t with
  | None => IoBlock
  | Some e => IoErr (if decide (e = io_EOF /\ got <> []) then io_ErrUnexpectedEOF else e)
  end.

Lemma short_read_EOF got :
  short_read (Some io_EOF) got
  = IoErr (if decide (length got = 0)%nat then io_EOF else io_ErrUnexpectedEOF).
Proof.
  unfold short_read. repeat case_decide; try done.
  - by destruct got; [naive_solver|].
  - destruct got; [done|]. exfalso. naive_solver.
Qed.

Lemma ReadFull_loop_short fuel got n b :
  (length (avail b) < n)%nat -> (n + length (chunks (under b)) <= fuel)%nat ->
  exists b', ReadFull_loop fuel got n b = (short_read (term (under b)) (got ++ avail b), b') /\
    buffered b' = [] /\ under b' = mkSource [] (term (under b)).
Proof.
  revert got n b. induction fuel as [|fuel IH]; intros got n b Hlen Hfuel; [lia|].
  destruct n as [|n]; [lia|]. cbn [ReadFull_loop].
  destruct (decide (buffered b = [] /\ chunks (under b) = [])) as [[Hb Hc]|Hne].
  - rewrite bufio_Read_empty by (done || lia).
    exists b. unfold avail, short_read. rewrite Hb, Hc. cbn. rewrite app_nil_r.
    split_and!; [by destruct (term (under b))|done|].
    destruct b as [? [??]]; cbn in *; by subst.
  - destruct (bufio_Read_group (S n) b (chunks (under b)) []) as (c&b1&g1&->&?&Hcat&Hg1&Ht&Hp&_).
    { by rewrite app_nil_r. } { lia. }
    { destruct (buffered b); [right|by left]. intros E. by apply Hne. }
    rewrite app_nil_r in Hg1. unfold avail in Hlen. rewrite Hcat, length_app in Hlen.
    destruct (IH (got ++ c) (S n - length c)%nat b1) as (b'&->&?&?).
    { unfold avail. rewrite Hg1. lia. }
    { rewrite Hg1. destruct Hp as [[Hp ?]|?]; [|lia]. destruct c; [done|]. cbn in *. lia. }
    exists b'. rewrite Ht in *. split_and!; try done.
    unfold avail. by rewrite Hcat, Hg1, <- app_assoc.
Qed.

Lemma ReadFull_short n b :
  (length (avail b) < n)%nat ->
  exists b', ReadFull n b = (short_read (term (under b)) (avail b), b') /\
    buffered b' = [] /\ under b' = mkSource [] (term (under b)).
Proof. intros H. by apply (ReadFull_loop_short _ [] n b). Qed.

Lemma ReadFull_loop_done fuel got b : ReadFull_loop fuel got 0 b = (IoOk got, b).
Proof. by destruct fuel. Qed.

(** Reading what is already buffered touches nothing else. *)
Lemma ReadFull_buffered n b :
  (n <= length (buffered b))%nat ->
  ReadFull n b = (IoOk (take n (buffered b)), mkBuf (drop n (buffered b)) (under b)).
Proof.
  intros Hn. unfold ReadFull. destruct b as [buf s]; cbn in *.
  destruct n as [|n]; [apply ReadFull_loop_done|].
  destruct buf as [|x buf]; cbn in *; [lia|].
  rewrite (length_take_le buf n) by lia. rewrite Nat.sub_diag.
  apply ReadFull_loop_done.
Qed.

(** A read through a fresh [bufio.Reader] takes the whole of a small chunk. *)
Lemma ReadFull_fresh n c cs t :
  (0 < n <= length c)%nat -> (length c <= bufio_size)%nat -> (n < bufio_size)%nat ->
  ReadFull n (mkBuf [] (mkSource (c :: cs) t))
  = (IoOk (take n c), mkBuf (drop n c) (mkSource cs t)).
Proof.
  intros Hn Hc Hb. destruct n as [|n]; [lia|]. unfold ReadFull.
  cbn [Nat.add ReadFull_loop]. unfold bufio_Read, source_Read. cbn [buffered under chunks term].
  rewrite decide_False by lia. rewrite decide_True by done.
  rewrite length_take_le, Nat.sub_diag by lia. apply ReadFull_loop_done.
Qed.

(** ** Frames *)

Lemma length_frame data : length (frame data) = (8 + length data)%nat.
Proof. unfold frame. by rewrite length_app, length_be_put. Qed.

Lemma frame_header data :
  Z.of_nat (length data) < 2 ^ 64 ->
  be_get (take 8 (frame data)) = Z.of_nat (length data).
Proof.
  intros H. unfold frame. rewrite take_app_le by (rewrite length_be_put; lia).
  rewrite take_ge by (rewrite length_be_put; lia).
  unfold u64, wrap. rewrite Z.mod_small by lia. apply be_get_put. lia.
Qed.

Section frames.
Variable maxAlloc : Z.
Hypothesis maxAlloc_u64 : maxAlloc < 2 ^ 64.

(** One frame read at the head of a group of chunks. *)
Lemma ReadOneFrame_group rd g rest data more :
  chunks (under (NewReader rd)) = g ++ rest ->
  buffered (NewReader rd) ++ concat g = frame data ++ more ->
  Z.of_nat (length data) <= maxAlloc ->
  exists b' g',
    ReadOneFrameDataFromStream maxAlloc rd = (Val (Ok data), release rd b') /\
    buffered b' ++ concat g' = more /\ chunks (under b') = g' ++ rest /\
    term (under b') = term (under (NewReader rd)) /\
    (Forall nonempty g -> Forall nonempty g').
Proof.
  intros Hg Hcat Hlen. unfold ReadOneFrameDataFromStream.
  destruct (ReadFull_group 8 _ g rest Hg) as (b1&g1&->&Hcat1&Hg1&Ht1&Hn1).
  { rewrite Hcat, length_app, length_frame. lia. }
  rewrite Hcat in *. rewrite take_app_le by (rewrite length_frame; lia).
  rewrite frame_header, decide_False by lia.
  rewrite drop_app_le in Hcat1 by (rewrite length_frame; lia).
  assert (drop 8 (frame data) = data) as Hd by (apply drop_app_length'; by rewrite length_be_put).
  rewrite Hd in Hcat1. rewrite Nat2Z.id.
  destruct (ReadFull_group (length data) b1 g1 rest Hg1) as (b2&g2&->&Hcat2&Hg2&Ht2&Hn2).
  { rewrite Hcat1, length_app. lia. }
  rewrite Hcat1 in *. rewrite take_app_length. rewrite drop_app_length in Hcat2.
  exists b2, g2. split_and!; [done..|congruence|tauto].
Qed.

(** A reader of its own for one frame, at the head of the frame's chunks. *)
Lemma ReadOneFrame_fresh g rest data t :
  concat g = frame data -> Forall nonempty g -> Z.of_nat (length data) <= maxAlloc ->
  exists rd,
    ReadOneFrameDataFromStream maxAlloc (BufReader (NewReader (RawReader (mkSource (g ++ rest) t))))
    = (Val (Ok data), rd) /\ under (NewReader rd) = mkSource rest t.
Proof.
  intros Hg Hne Hd.
  destruct (ReadOneFrame_group (BufReader (mkBuf [] (mkSource (g ++ rest) t))) g rest data [])
    as (b'&g'&E&Hc&Hg'&Ht&Hn); [done|by rewrite app_nil_r|done|].
  cbn [NewReader]. rewrite E. eexists. split; [reflexivity|]. cbn [release NewReader].
  apply app_nil in Hc as [_ Hc]. specialize (Hn Hne). destruct g' as [|x g'].
  - destruct (under b') as [cs t']. cbn in *. by subst.
  - apply Forall_cons in Hn as [Hn _]. by destruct x.
Qed.

Lemma WriteBytesViaStream_buffer {E} data s :
  WriteBytesViaStream (E:=E) buffer_Write data s = (Val tt, s ++ frame data, []).
Proof. unfold WriteBytesViaStream, buffer_Write. run_handler. by rewrite <- app_assoc. Qed.

Lemma mapM_WriteBytesViaStream {E} ds s :
  mapM (WriteBytesViaStream (E:=E) buffer_Write) ds s
  = (Val (replicate (length ds) tt), s ++ concat (frame <$> ds), []).
Proof.
  revert s. induction ds as [|d ds IH]; intros s; cbn; [by rewrite app_nil_r|].
  erewrite bind_val by apply WriteBytesViaStream_buffer. cbn.
  unfold mbind at 1 2 3, M_bind. rewrite IH. cbn. by rewrite <- app_assoc.
Qed.

(** Frames read through one [*bufio.Reader]: the chunking does not matter. *)
Lemma ReadBytesViaStream_frames ds b more :
  avail b = concat (frame <$> ds) ++ more ->
  Forall (fun d : bytes => Z.of_nat (length d) <= maxAlloc) ds ->
  ReadBytesViaStream maxAlloc (length ds) (BufReader b) = ToDataCh <$> ds.
Proof.
  intros Ha Hall. revert b Ha. induction Hall as [|d ds Hd _ IH]; intros b Ha; [done|].
  cbn [ReadBytesViaStream length fmap list_fmap concat] in *. rewrite <- app_assoc in Ha.
  destruct (ReadOneFrame_group (BufReader b) (chunks (under b)) [] d
    (concat (frame <$> ds) ++ more)) as (b'&g'&->&Hc&Hg&_).
  { cbn. by rewrite app_nil_r. } { exact Ha. } { done. }
  cbn. f_equal. apply IH. unfold avail. by rewrite Hg, app_nil_r.
Qed.

(** Frames read through a fresh [bufio.Reader] each: all arrive when no chunk
    holds bytes of two frames. *)
Lemma ReadBytesViaStream_aligned gs ds s rest :
  chunks s = concat gs ++ rest ->
  Forall2 (fun g d => concat g = frame d /\ Forall nonempty g) gs ds ->
  Forall (fun d : bytes => Z.of_nat (length d) <= maxAlloc) ds ->
  ReadBytesViaStream maxAlloc (length ds) (RawReader s) = ToDataCh <$> ds.
Proof.
  intros Hs Hgs Hall. revert s Hs. induction Hgs as [|g d gs ds [Hg Hne] _ IH]; intros s Hs; [done|].
  apply Forall_cons in Hall as [Hd Hall].
  cbn [ReadBytesViaStream length fmap list_fmap concat] in *. rewrite <- app_assoc in Hs.
  destruct (ReadOneFrame_group (RawReader s) g (concat gs ++ rest) d [])
    as (b'&g'&->&Hc&Hg'&_&Hn); [done|by rewrite app_nil_r|done|].
  apply app_nil in Hc as [Hb Hc]. assert (g' = []) as ->.
  { specialize (Hn Hne). destruct g' as [|c g']; [done|].
    apply Forall_cons in Hn as [Hn _]. by destruct c. }
  cbn. f_equal. by apply IH.
Qed.
End frames.

(** ** Properties *)

(** C14: frames written one after the other by [WriteBytesViaStream] come back,
    unchanged and in order, from [ReadBytesViaStream] on a [*bufio.Reader],
    however the transport has cut the bytes into chunks. *)
Theorem frames_roundtrip (maxAlloc : Z) (ds : list bytes) (b : bufreader) (more : bytes)
    (Halloc : maxAlloc < 2 ^ 64)
    (Hsize : Forall (fun d : bytes => Z.of_nat (length d) <= maxAlloc) ds)
    (Hwire : avail b =
       state_of (mapM (WriteBytesViaStream (E:=unit) buffer_Write) ds []) ++ more) :
  ReadBytesViaStream maxAlloc (length ds) (BufReader b) = ToDataCh <$> ds.
Proof.
  apply (ReadBytesViaStream_frames maxAlloc Halloc ds b more); [|done].
  by rewrite Hwire, mapM_WriteBytesViaStream.
Qed.

(** A fresh [bufio.Reader] per frame, as the stream handlers have it, also
    delivers every frame in order provided that no chunk straddles two frames. *)
Theorem frames_roundtrip_raw (maxAlloc : Z) (gs : list (list bytes)) (ds : list bytes)
    (s : source)
    (Halloc : maxAlloc < 2 ^ 64)
    (Hsize : Forall (fun d : bytes => Z.of_nat (length d) <= maxAlloc) ds)
    (Hchunks : chunks s = concat gs)
    (Haligned : Forall2 (fun g d =>
       concat g = state_of (WriteBytesViaStream (E:=unit) buffer_Write d []) /\
       Forall nonempty g) gs ds) :
  ReadBytesViaStream maxAlloc (length ds) (RawReader s) = ToDataCh <$> ds.
Proof.
  apply (ReadBytesViaStream_aligned maxAlloc Halloc gs ds s []); [by rewrite app_nil_r| |done].
  eapply Forall2_impl; [exact Haligned|]. intros g d [H ?].
  by rewrite WriteBytesViaStream_buffer in H.
Qed.

(** The read-ahead of the fresh [bufio.Reader] loses data: when a whole frame
    and the start of the next ones arrive in one chunk, the frame is delivered
    and what came behind it never is; the reader then waits (or meets the end of
    the stream) as if it had not been sent. *)
Theorem frames_lost_raw (maxAlloc : Z) (d more : bytes) (s : source) (n : nat)
    (Halloc : maxAlloc < 2 ^ 64)
    (Hsize : Z.of_nat (length d) <= maxAlloc)
    (Hfits : (length (frame d ++ more) <= bufio_size)%nat)
    (Hchunk : chunks s = [state_of (WriteBytesViaStream (E:=unit) buffer_Write d []) ++ more])
    (Hopen : term s = None) :
  ReadBytesViaStream maxAlloc (S n) (RawReader s) = [ToDataCh d].
Proof.
  rewrite WriteBytesViaStream_buffer in Hchunk. cbn [state_of fst snd app] in Hchunk.
  destruct s as [cs t]; cbn in *; subst. rewrite length_app, length_frame in Hfits.
  cbn [ReadBytesViaStream]. unfold ReadOneFrameDataFromStream. cbn [NewReader release].
  rewrite ReadFull_fresh by (rewrite ?length_app, ?length_frame; unfold bufio_size in *; lia).
  rewrite take_app_le, frame_header, decide_False, Nat2Z.id by (rewrite ?length_frame; lia).
  assert (drop 8 (frame d ++ more) = d ++ more) as Hd.
  { unfold frame. rewrite <- app_assoc. apply drop_app_length'. by rewrite length_be_put. }
  rewrite ReadFull_buffered; cbn [buffered under]; rewrite Hd; [|rewrite length_app; lia].
  rewrite take_app_length. by destruct n.
Qed.

Example frames_roundtrip_witness :
  ReadBytesViaStream 100 2
    (BufReader (mkBuf [] (mkSource [take 3 (frame (str_bytes "ab") ++ frame (str_bytes "c"));
                                    drop 3 (frame (str_bytes "ab") ++ frame (str_bytes "c"))] None)))
  = ToDataCh <$> [str_bytes "ab"; str_bytes "c"].
Proof.
  apply (frames_roundtrip 100 [str_bytes "ab"; str_bytes "c"] _ []);
    [lia|repeat constructor; cbn; lia|vm_compute; reflexivity].
Defined.

Example frames_roundtrip_raw_witness :
  ReadBytesViaStream 100 2
    (RawReader (mkSource [take 8 (frame (str_bytes "ab")); str_bytes "ab"; frame (str_bytes "c")] None))
  = ToDataCh <$> [str_bytes "ab"; str_bytes "c"].
Proof.
  apply (frames_roundtrip_raw 100
    [[take 8 (frame (str_bytes "ab")); str_bytes "ab"]; [frame (str_bytes "c")]]
    [str_bytes "ab"; str_bytes "c"]); [lia|repeat constructor; cbn; lia|reflexivity|].
  repeat constructor; try (intros E; vm_compute in E; discriminate E); vm_compute; reflexivity.
Defined.

Example frames_lost_raw_witness :
  ReadBytesViaStream 100 5
    (RawReader (mkSource [frame (str_bytes "ab") ++ frame (str_bytes "c")] None))
  = [ToDataCh (str_bytes "ab")].
Proof.
  apply (frames_lost_raw 100 (str_bytes "ab") (frame (str_bytes "c")) _ 4);
    [lia|cbn; lia|vm_compute; lia|vm_compute; reflexivity|reflexivity].
Defined.

(** A stream cut inside a frame is an error, never a shorter payload: [EOF]
    at the two places where a read starts with nothing (before the header,
    between header and payload), [unexpected EOF] everywhere else. *)
Theorem truncated_frame (maxAlloc : Z) (d : bytes) (k : nat) (b : bufreader)
    (Halloc : maxAlloc < 2 ^ 64)
    (Hsize : Z.of_nat (length d) <= maxAlloc)
    (Hcut : (k < length (frame d))%nat)
    (Hwire : avail b = take k (frame d))
    (Hend : term (under b) = Some io_EOF) :
  (ReadOneFrameDataFromStream maxAlloc (BufReader b)).1
  = Val (Fail (if decide (k = 0 \/ k = 8)%nat then io_EOF else io_ErrUnexpectedEOF)).
Proof.
  unfold ReadOneFrameDataFromStream. cbn [NewReader]. rewrite length_frame in Hcut.
  assert (length (avail b) = k) as Hk by (rewrite Hwire, length_take, length_frame; lia).
  destruct (decide (k < 8)%nat) as [Hk8|Hk8].
  - destruct (ReadFull_short 8 b) as (b'&->&_); [lia|]. rewrite Hend, short_read_EOF, Hk. cbn.
    do 2 f_equal. apply decide_ext. lia.
  - destruct (ReadFull_enough 8 b) as (b1&->&Ha1&Ht1); [lia|].
    rewrite Hwire, take_take, Nat.min_l, frame_header, decide_False, Nat2Z.id by lia.
    destruct (ReadFull_short (length d) b1) as (b2&->&_).
    { rewrite Ha1, Hwire, length_drop, length_take, length_frame. lia. }
    rewrite Ht1, Hend, short_read_EOF, Ha1, length_drop, Hk. cbn. do 2 f_equal.
    apply decide_ext. lia.
Qed.

(** Once the stream has failed, the reading goroutine never stops: every turn
    sends the error and then an empty payload that nobody wrote. *)
Theorem failed_stream_spins (maxAlloc : Z) (e : goerror) (n : nat) (rd : reader)
    (Hempty : avail (NewReader rd) = [])
    (Hend : term (under (NewReader rd)) = Some e) :
  ReadBytesViaStream maxAlloc n rd = concat (replicate n [ToErrCh e; ToDataCh []]).
Proof.
  revert rd Hempty Hend. induction n as [|n IH]; intros rd Ha Ht; [done|].
  cbn [ReadBytesViaStream replicate concat]. unfold ReadOneFrameDataFromStream.
  destruct (ReadFull_short 8 (NewReader rd)) as (b'&->&Hb&Hu); [rewrite Ha; cbn; lia|].
  rewrite Ha, Ht in *. unfold short_read. cbn [app]. rewrite decide_False by (by intros [_ ?]).
  cbn. do 2 f_equal. apply IH; destruct rd; cbn; unfold avail; by rewrite ?Hb, Hu.
Qed.

(** A peer that announces a payload larger than the runtime can allocate
    makes the reader panic before a byte of payload is read. *)
Theorem oversized_frame_panics (maxAlloc len : Z) (b : bufreader) (more : bytes)
    (Hu64 : 0 <= len < 2 ^ 64) (Hlen : maxAlloc < len)
    (Hwire : avail b = be_put 8 len ++ more) :
  (ReadOneFrameDataFromStream maxAlloc (BufReader b)).1
  = Panic "runtime error: makeslice: len out of range".
Proof.
  unfold ReadOneFrameDataFromStream. cbn [NewReader].
  destruct (ReadFull_enough 8 b) as (b1&->&_).
  { rewrite Hwire, length_app, length_be_put. lia. }
  rewrite Hwire, take_app_length' by (by rewrite length_be_put).
  rewrite be_get_put by lia.
  by rewrite decide_True by lia.
Qed.

Example truncated_frame_witness :
  (ReadOneFrameDataFromStream 100 (BufReader (mkBuf []
     (mkSource [take 9 (frame (str_bytes "ab"))] (Some io_EOF))))).1
  = Val (Fail io_ErrUnexpectedEOF).
Proof.
  apply (truncated_frame 100 (str_bytes "ab") 9);
    [lia|cbn; lia|vm_compute; lia|vm_compute; reflexivity|reflexivity].
Defined.

Example failed_stream_spins_witness :
  ReadBytesViaStream 100 2 (RawReader (mkSource [] (Some io_EOF)))
  = [ToErrCh io_EOF; ToDataCh []; ToErrCh io_EOF; ToDataCh []].
Proof. apply (failed_stream_spins 100 io_EOF 2); reflexivity. Defined.

Example oversized_frame_panics_witness :
  (ReadOneFrameDataFromStream (2 ^ 48) (BufReader (mkBuf []
     (mkSource [be_put 8 (2 ^ 63)] None)))).1
  = Panic "runtime error: makeslice: len out of range".
Proof. apply (oversized_frame_panics (2 ^ 48) (2 ^ 63) _ []); [lia|lia|vm_compute; reflexivity]. Defined.
