(* ===== verification/Regexp.v ===== *)
(** The part of Go's [regexp] package that [request_detail.go] uses:
    [FindAllSubmatch] for patterns made of greedy repetitions of character
    classes and of capturing groups of them. Go's leftmost-first semantics is
    that of a backtracking matcher which tries the longest repetition first.

    The matcher works on bytes. The classes of the patterns are ASCII, and [.]
    accepts every byte of a multi-byte rune, so this is what matching on runes
    gives. *)

From S2P Require Import Prelude.

(** ** Patterns *)

(** [f{lo,hi}]; [hi = None] is unbounded. *)
Record atom := Rep { cls : ascii -> bool; lo : nat; hi : option nat }.

Inductive piece :=
  | One (a : atom)
  | Group (l : list atom).

Definition regex := list piece.

Definition lit (c : ascii) : atom := Rep (fun d => bool_decide (d = c)) 1 (Some 1%nat).
Definition byte_in (a b : Z) (c : ascii) : bool := (a <=? byte_val c) && (byte_val c <=? b).
(** [\w-]: letters, digits, underscore, minus. *)
Definition word_dash (c : ascii) : bool :=
  byte_in 48 57 c || byte_in 65 90 c || byte_in 97 122 c ||
  bool_decide (c = "_"%char) || bool_decide (c = "-"%char).
Definition digit (c : ascii) : bool := byte_in 48 57 c.
Definition digit19 (c : ascii) : bool := byte_in 49 57 c.
Definition letter (c : ascii) : bool := byte_in 65 90 c || byte_in 97 122 c.
Definition lower (c : ascii) : ascii := if byte_in 65 90 c then byte_of (byte_val c + 32) else c.
(** The value of a hexadecimal digit. *)
Definition unhex (c : ascii) : option Z :=
  if digit c then Some (byte_val c - 48)
  else if byte_in 97 102 c then Some (byte_val c - 87)
  else if byte_in 65 70 c then Some (byte_val c - 55)
  else None.
(** [.]: anything but a newline. *)
Definition newline : ascii := "010"%char.
Definition any (c : ascii) : bool := bool_decide (c <> newline).

(** ** Matching *)

Section matcher.
Context {R : Type}.

(** Greedy repetition; [k] takes what was consumed and the rest. *)
Fixpoint rep (f : ascii -> bool) (l : nat) (h : option nat) (s : bytes)
    (k : bytes -> bytes -> option R) : option R :=
  let stop := if decide (l = O) then k [] s else None in
  match s with
  | c :: s' =>
      if f c && bool_decide (h <> Some O) then
        match rep f (pred l) (pred <$> h) s' (fun m r => k (c :: m) r) with
        | Some x => Some x
        | None => stop
        end
      else stop
  | [] => stop
  end.

Fixpoint match_atoms (l : list atom) (s : bytes) (k : bytes -> bytes -> option R) : option R :=
  match l with
  | [] => k [] s
  | a :: l => rep (cls a) (lo a) (hi a) s (fun m r =>
                match_atoms l r (fun m' r' => k (m ++ m') r'))
  end.

(** [k] takes the whole match, the groups and the rest. *)
Fixpoint match_pieces (ps : regex) (s : bytes) (k : bytes -> list bytes -> bytes -> option R)
    : option R :=
  match ps with
  | [] => k [] [] s
  | One a :: ps => match_atoms [a] s (fun m r =>
                     match_pieces ps r (fun m' cs r' => k (m ++ m') cs r'))
  | Group l :: ps => match_atoms l s (fun m r =>
                       match_pieces ps r (fun m' cs r' => k (m ++ m') (m :: cs) r'))
  end.
End matcher.

(** A match at the start of [s]: whole match and groups, and the rest. *)
Definition match_here (ps : regex) (s : bytes) : option (list bytes * bytes) :=
  match_pieces ps s (fun m cs r => Some (m :: cs, r)).

Fixpoint find_first (ps : regex) (s : bytes) : option (list bytes * bytes) :=
  match match_here ps s with
  | Some x => Some x
  | None => match s with [] => None | _ :: s' => find_first ps s' end
  end.

(** Successive matches of a pattern that never matches the empty text. *)
Fixpoint find_all (fuel : nat) (ps : regex) (s : bytes) : list (list bytes) :=
  match fuel with
  | O => []
  | S fuel => match find_first ps s with
              | Some (cs, r) => cs :: find_all fuel ps r
              | None => []
              end
  end.

Definition FindAllSubmatch (ps : regex) (s : bytes) : list (list bytes) :=
  find_all (S (length s)) ps s.

(** ** Runs of a character class *)

(** The run of [f] that [s] starts with, and what follows it. *)
Fixpoint span (f : ascii -> bool) (s : bytes) : bytes * bytes :=
  match s with
  | c :: r => if f c then let '(m, r) := span f r in (c :: m, r) else ([], s)
  | [] => ([], [])
  end.

(** The maximal runs of [f] in [s], [cur] being the run already open. *)
Fixpoint runs_from (f : ascii -> bool) (cur : bytes) (s : bytes) : list bytes :=
  match s with
  | [] => if decide (cur = []) then [] else [cur]
  | c :: s => if f c then runs_from f (cur ++ [c]) s
              else (if decide (cur = []) then [] else [cur]) ++ runs_from f [] s
  end.

Definition runs (f : ascii -> bool) (s : bytes) : list bytes := runs_from f [] s.

(** [r] is where a run of [f] ends. *)
Definition ends_run (f : ascii -> bool) (r : bytes) : Prop :=
  match r with [] => True | c :: _ => f c = false end.

Abbreviation all_in f := (Forall (fun c => f c = true)).

Section lemmas.
Implicit Type f : ascii -> bool.

Lemma forallb_all_in f (m : bytes) : all_in f m -> forallb f m = true.
Proof. induction 1 as [|c m Hc _ IH]; cbn; [done|]. by rewrite Hc. Qed.

Lemma runs_from_app f cur m r : all_in f m -> runs_from f cur (m ++ r) = runs_from f (cur ++ m) r.
Proof.
  intros Hm. revert cur. induction Hm as [|c m Hc _ IH]; intros cur; cbn.
  - by rewrite app_nil_r.
  - rewrite Hc, IH, <- app_assoc. done.
Qed.

(** A run that ends is one of the runs; an empty one is none. *)
Lemma runs_app f m r :
  all_in f m -> ends_run f r -> runs f (m ++ r) = (if decide (m = []) then [] else [m]) ++ runs f r.
Proof.
  intros Hm Hr. unfold runs. rewrite runs_from_app by done. cbn [app].
  destruct r as [|c r]; cbn; [by rewrite app_nil_r|]. cbn in Hr. by rewrite Hr.
Qed.

Lemma runs_skip f c s : f c = false -> runs f (c :: s) = runs f s.
Proof. intros H. unfold runs. cbn. by rewrite H. Qed.

Lemma span_app f m r : all_in f m -> ends_run f r -> span f (m ++ r) = (m, r).
Proof.
  intros Hm Hr. induction Hm as [|c m Hc _ IH]; cbn.
  - destruct r as [|c r]; [done|]. cbn in *. by rewrite Hr.
  - by rewrite Hc, IH.
Qed.

Lemma span_spec f s m r : span f s = (m, r) -> s = m ++ r.
Proof.
  revert m. induction s as [|c s IH]; intros m; cbn; [by intros [= <- <-]|].
  destruct (f c); [|by intros [= <- <-]].
  destruct (span f s) as [m' r']. intros [= <- <-]. cbn. f_equal. by apply IH.
Qed.

(** Every text starts with a maximal run. *)
Lemma span_run f s : exists m r, s = m ++ r /\ all_in f m /\ ends_run f r.
Proof.
  induction s as [|c s (m&r&->&Hm&Hr)]; [by exists [], []|].
  destruct (f c) eqn:Hc.
  - exists (c :: m), r. split_and!; [done|by constructor|done].
  - by exists [], (c :: m ++ r).
Qed.

Context {R : Type}.
Implicit Type k : bytes -> bytes -> option R.

(** The greedy choice succeeds: the longest repetition is the result. *)
Lemma rep_greedy f l h m r k x :
  all_in f m -> (l <= length m)%nat ->
  match h with None => True | Some n => (length m <= n)%nat end ->
  (h = Some (length m) \/ ends_run f r) ->
  k m r = Some x -> rep f l h (m ++ r) k = Some x.
Proof.
  intros Hm. revert l h k. induction Hm as [|c m Hc _ IH]; intros l h k Hl Hh Hend Hk; cbn in *.
  - assert (l = O) as -> by lia.
    destruct r as [|c r]; cbn; [done|].
    destruct Hend as [->|Hend]; [by rewrite andb_false_r|]. cbn in Hend. by rewrite Hend.
  - rewrite Hc, bool_decide_true by (destruct h; [intros [= ->]; lia|done]). cbn [andb].
    rewrite (IH (pred l) (pred <$> h) (fun m r => k (c :: m) r)); [done|lia| | |done].
    + destruct h; cbn; [lia|done].
    + destruct Hend as [->|Hend]; [by left|by right].
Qed.

(** A fixed count [f{n}]: exactly [n] characters or no match at all. *)
Lemma rep_exact f n s k :
  rep f n (Some n) s k =
    if forallb f (take n s) && bool_decide (n <= length s)%nat then k (take n s) (drop n s) else None.
Proof.
  revert n k. induction s as [|c s IH]; intros [|n] k; cbn.
  - done.
  - done.
  - by rewrite andb_false_r.
  - destruct (f c) eqn:Hc; cbn [andb]; [|done].
    rewrite bool_decide_true by done. rewrite IH.
    destruct (forallb f (take n s)); cbn [andb]; [|done].
    repeat case_bool_decide; try lia; [|done].
    by destruct (k (c :: take n s) (drop n s)).
Qed.

(** Too short a run: no match. *)
Lemma rep_short f l m r k :
  all_in f m -> ends_run f r -> (length m < l)%nat -> rep f l None (m ++ r) k = None.
Proof.
  intros Hm Hr. revert l k. induction Hm as [|c m Hc _ IH]; intros l k Hl; cbn in *.
  - destruct r as [|c r]; cbn; [by rewrite decide_False by lia|].
    cbn in Hr. rewrite Hr. cbn. by rewrite decide_False by lia.
  - rewrite Hc. cbn. rewrite IH by lia. by rewrite decide_False by lia.
Qed.
End lemmas.

Lemma match_atoms_one {R} a s (k : bytes -> bytes -> option R) :
  match_atoms [a] s k = rep (cls a) (lo a) (hi a) s (fun m r => k (m ++ []) r).
Proof. done. Qed.
