(* ===== verification/Utf8.v ===== *)
(** UTF-8, as Go's [unicode/utf8] and [unicode/utf16] packages decode and encode
    it: the JSON codec works on runes, and replaces bytes that are not part of
    one. *)

From S2P Require Import Prelude Regexp.

(** ** Decoding *)

Definition cont (c : ascii) : bool := byte_in 128 191 c.

(** Whether the bytes that follow the first one complete a rune. *)
Definition conts (f : ascii -> bool) (n : nat) (s : bytes) : bool :=
  match s with
  | c :: s => f c && bool_decide (n <= length s)%nat && forallb cont (take n s)
  | [] => false
  end.

(** What a first byte above ASCII asks for: the range of the second byte, and
    how many continuation bytes come after that one. *)
Definition lead (c : ascii) : option ((ascii -> bool) * nat) :=
  if byte_in 194 223 c then Some (cont, 0%nat)
  else if byte_in 224 224 c then Some (byte_in 160 191, 1%nat)
  else if byte_in 237 237 c then Some (byte_in 128 159, 1%nat)
  else if byte_in 225 239 c then Some (cont, 1%nat)
  else if byte_in 240 240 c then Some (byte_in 144 191, 2%nat)
  else if byte_in 241 243 c then Some (cont, 2%nat)
  else if byte_in 244 244 c then Some (byte_in 128 143, 2%nat)
  else None.

(** The length of the rune at the head of [s], zero when there is none: what
    [utf8.DecodeRune] gives [RuneError] and one byte for. *)
Definition rune_len (s : bytes) : nat :=
  match s with
  | [] => 0
  | c :: r =>
      if byte_val c <? 128 then 1
      else match lead c with
           | Some (f, n) => if conts f n r then 2 + n else 0
           | None => 0
           end
  end.

(** How much one turn over a string takes. *)
Definition rune_size (s : bytes) : nat := Nat.max 1 (rune_len s).

(** The string cut into runes and stray bytes; every turn takes a byte. *)
Fixpoint runes_loop (fuel : nat) (s : bytes) : list bytes :=
  match fuel, s with
  | S fuel, _ :: _ => take (rune_size s) s :: runes_loop fuel (drop (rune_size s) s)
  | _, _ => []
  end.

Definition runes_of (s : bytes) : list bytes := runes_loop (length s) s.

(** A piece that is a whole rune. *)
Definition is_rune (r : bytes) : bool := bool_decide (r <> []) && bool_decide (rune_len r = length r).

Definition utf8_Valid (s : bytes) : bool := forallb is_rune (runes_of s).

(** ** Encoding: [utf8.EncodeRune] *)

Definition RuneError : Z := 65533.

(** What is not a code point, or is half of a surrogate pair, is replaced. *)
Definition rune_or_error (r : Z) : Z :=
  if (r <? 0) || (1114111 <? r) || ((55296 <=? r) && (r <=? 57343)) then RuneError else r.

Definition EncodeRune (r : Z) : bytes :=
  let r := rune_or_error r in
  byte_of <$>
    (if r <? 128 then [r]
     else if r <? 2048 then [192 + r / 64; 128 + r mod 64]
     else if r <? 65536 then [224 + r / 4096; 128 + r / 64 mod 64; 128 + r mod 64]
     else [240 + r / 262144; 128 + r / 4096 mod 64; 128 + r / 64 mod 64; 128 + r mod 64]).

(** [utf16.IsSurrogate] and [utf16.DecodeRune]. *)
Definition IsSurrogate (r : Z) : bool := (55296 <=? r) && (r <? 57344).

Definition utf16_DecodeRune (r1 r2 : Z) : Z :=
  if (55296 <=? r1) && (r1 <? 56320) && (56320 <=? r2) && (r2 <? 57344)
  then (r1 - 55296) * 1024 + (r2 - 56320) + 65536 else RuneError.

Definition replacement : bytes := EncodeRune RuneError.

(** ** Lemmas *)

Lemma conts_app f n s t : conts f n s = true -> conts f n (s ++ t) = true.
Proof.
  destruct s as [|c s]; [done|]. cbn. rewrite !andb_true_iff, !bool_decide_eq_true.
  intros [[-> Hn] Ha]. rewrite length_app, take_app_le by done. repeat split; [lia|done].
Qed.

Lemma conts_bound f n s : conts f n s = true -> (n < length s)%nat.
Proof.
  destruct s as [|c s]; [done|]. cbn. rewrite !andb_true_iff, !bool_decide_eq_true. lia.
Qed.

Lemma conts_take f n s : conts f n (take (S n) s) = conts f n s.
Proof.
  destruct s as [|c s]; [done|]. cbn [take conts]. rewrite take_take, Nat.min_id, length_take.
  do 2 f_equal. apply bool_decide_ext. lia.
Qed.

(** A rune is found whatever follows it. *)
Lemma rune_len_app s t : (0 < rune_len s)%nat -> rune_len (s ++ t) = rune_len s.
Proof.
  destruct s as [|c r]; [cbn; lia|]. cbn [app rune_len].
  destruct (byte_val c <? 128); [done|]. destruct (lead c) as [[f n]|]; [|done].
  destruct (conts f n r) eqn:E; [|lia]. by rewrite conts_app.
Qed.

Lemma rune_len_bound s : (rune_len s <= length s)%nat.
Proof.
  destruct s as [|c r]; [done|]. cbn [rune_len length].
  destruct (byte_val c <? 128); [lia|]. destruct (lead c) as [[f n]|]; [|lia].
  destruct (conts f n r) eqn:E; [|lia]. apply conts_bound in E. lia.
Qed.

Lemma rune_len_take s : rune_len (take (rune_len s) s) = rune_len s.
Proof.
  destruct s as [|c r]; [done|]. cbn [rune_len].
  destruct (byte_val c <? 128) eqn:Hc; [cbn; by rewrite Hc|].
  destruct (lead c) as [[f n]|] eqn:Hl; [|done].
  destruct (conts f n r) eqn:E; [|done]. cbn. by rewrite Hc, Hl, conts_take, E.
Qed.

Lemma rune_size_pos s : (1 <= rune_size s)%nat.
Proof. unfold rune_size. lia. Qed.

Lemma rune_size_bound s : s <> [] -> (rune_size s <= length s)%nat.
Proof. intros Hs. unfold rune_size. pose proof (rune_len_bound s). destruct s; [done|cbn in *; lia]. Qed.

(** The pieces of a string: a rune, or one stray byte. *)
Definition piece (r : bytes) : Prop := is_rune r = true \/ (length r = 1%nat /\ rune_len r = 0%nat).

Lemma is_rune_spec r : is_rune r = true <-> r <> [] /\ rune_len r = length r.
Proof. unfold is_rune. by rewrite andb_true_iff, !bool_decide_eq_true. Qed.

Lemma take_rune_piece s : s <> [] -> rune_len s <> 0%nat -> is_rune (take (rune_size s) s) = true.
Proof.
  intros Hs Hn. unfold rune_size. rewrite Nat.max_r by lia. apply is_rune_spec.
  rewrite rune_len_take, length_take. pose proof (rune_len_bound s). split; [|lia].
  intros E%(f_equal length). rewrite length_take in E. cbn in E. lia.
Qed.

Lemma lead_first c r : rune_len (c :: r) = 0%nat -> rune_len [c] = 0%nat.
Proof.
  cbn. destruct (byte_val c <? 128); [done|]. by destruct (lead c) as [[f n]|].
Qed.

Lemma runes_loop_spec fuel s :
  (length s <= fuel)%nat -> concat (runes_loop fuel s) = s.
Proof.
  revert s. induction fuel as [|fuel IH]; intros [|c s] Hl; cbn [runes_loop concat]; try done.
  { cbn in Hl. lia. }
  rewrite IH, take_drop; [done|]. rewrite length_drop. pose proof (rune_size_pos (c :: s)). cbn in *. lia.
Qed.

Lemma runes_of_concat s : concat (runes_of s) = s.
Proof. by apply runes_loop_spec. Qed.

Lemma runes_loop_pieces fuel s : Forall piece (runes_loop fuel s).
Proof.
  revert s. induction fuel as [|fuel IH]; intros [|c s]; cbn [runes_loop]; constructor; [|apply IH].
  destruct (decide (rune_len (c :: s) = 0%nat)) as [E|E].
  - right. unfold rune_size. rewrite E. split; [done|]. by eapply lead_first.
  - left. by apply take_rune_piece.
Qed.

Lemma runes_of_pieces s : Forall piece (runes_of s).
Proof. apply runes_loop_pieces. Qed.

(** More fuel than bytes changes nothing. *)
Lemma runes_loop_fuel fuel fuel' s :
  (length s <= fuel)%nat -> (length s <= fuel')%nat -> runes_loop fuel s = runes_loop fuel' s.
Proof.
  revert fuel' s. induction fuel as [|fuel IH]; intros [|fuel'] [|c s] H H'; cbn [runes_loop] in *;
    try done; cbn in H, H'; try lia.
  f_equal. pose proof (rune_size_pos (c :: s)).
  apply IH; rewrite length_drop; cbn in *; lia.
Qed.

Lemma runes_of_cons r t : is_rune r = true -> runes_of (r ++ t) = r :: runes_of t.
Proof.
  intros [Hne Hr]%is_rune_spec. unfold runes_of. destruct r as [|c r]; [done|].
  assert (rune_size ((c :: r) ++ t) = length (c :: r)) as E.
  { unfold rune_size. rewrite rune_len_app by (rewrite Hr; cbn; lia). rewrite Hr. cbn. lia. }
  cbn [app length]. cbn [runes_loop]. change (c :: r ++ t) with ((c :: r) ++ t).
  rewrite E, take_app_length, drop_app_length. f_equal. apply runes_loop_fuel; rewrite ?length_app; lia.
Qed.

Lemma utf8_Valid_cons r t : is_rune r = true -> utf8_Valid (r ++ t) = utf8_Valid t.
Proof. intros Hr. unfold utf8_Valid. rewrite runes_of_cons by done. cbn. by rewrite Hr. Qed.

Lemma utf8_Valid_concat rs : Forall (fun r => is_rune r = true) rs -> utf8_Valid (concat rs) = true.
Proof. induction 1 as [|r rs Hr _ IH]; [done|]. cbn [concat]. by rewrite utf8_Valid_cons. Qed.

Lemma byte_in_of a b z : 0 <= z < 256 -> byte_in a b (byte_of z) = (a <=? z) && (z <=? b).
Proof. intros Hz. unfold byte_in. by rewrite byte_val_of, Z.mod_small. Qed.

(** First bytes, by value. *)
Ltac byte_cases :=
  rewrite ?byte_in_of by (Z.to_euclidean_division_equations; lia);
  repeat match goal with
  | |- context [if ?b then _ else _] =>
      let E := fresh "E" in destruct b eqn:E; try (exfalso; Z.to_euclidean_division_equations; lia)
  end.

Lemma rune_len_lead z x f n :
  128 <= z < 256 -> lead (byte_of z) = Some (f, n) ->
  rune_len (byte_of z :: x) = if conts f n x then (2 + n)%nat else 0%nat.
Proof.
  intros Hz Hl. cbn [rune_len]. rewrite byte_val_small by lia.
  by replace (z <? 128) with false by lia; rewrite Hl.
Qed.

Lemma lead_of2 v : 128 <= v < 2048 -> lead (byte_of (192 + v / 64)) = Some (cont, 0%nat).
Proof. intros Hv. unfold lead. byte_cases; done. Qed.

Lemma lead_of3 v : 2048 <= v < 65536 -> ~ 55296 <= v <= 57343 ->
  exists f, lead (byte_of (224 + v / 4096)) = Some (f, 1%nat) /\ f (byte_of (128 + v / 64 mod 64)) = true.
Proof.
  intros Hv Hs. unfold lead. byte_cases; eexists; (split; [done|]);
    unfold cont; rewrite byte_in_of; Z.to_euclidean_division_equations; lia.
Qed.

Lemma lead_of4 v : 65536 <= v <= 1114111 ->
  exists f, lead (byte_of (240 + v / 262144)) = Some (f, 2%nat) /\ f (byte_of (128 + v / 4096 mod 64)) = true.
Proof.
  intros Hv. unfold lead. byte_cases; eexists; (split; [done|]);
    unfold cont; rewrite byte_in_of; Z.to_euclidean_division_equations; lia.
Qed.

(** The encoder gives runes. *)
Lemma EncodeRune_rune r : is_rune (EncodeRune r) = true.
Proof.
  unfold EncodeRune. set (v := rune_or_error r).
  assert (0 <= v <= 1114111 /\ ~ 55296 <= v <= 57343) as [Hv Hs].
  { unfold v, rune_or_error, RuneError. case_match; lia. }
  clearbody v. clear r. apply is_rune_spec.
  assert (forall x, 128 <= x < 192 -> cont (byte_of x) = true) as Hcont.
  { intros x Hx. unfold cont. rewrite byte_in_of; lia. }
  destruct (v <? 128) eqn:E1; [|destruct (v <? 2048) eqn:E2; [|destruct (v <? 65536) eqn:E3]];
    (split; [done|]); cbn [fmap list_fmap length].
  - cbn [rune_len]. rewrite byte_val_small by lia. by rewrite E1.
  - erewrite rune_len_lead by (try apply lead_of2; Z.to_euclidean_division_equations; lia).
    cbn [conts]. rewrite Hcont by (Z.to_euclidean_division_equations; lia). done.
  - destruct (lead_of3 v) as (f&Hf&Hc); [lia|done|].
    erewrite rune_len_lead by (exact Hf || (Z.to_euclidean_division_equations; lia)).
    cbn [conts take forallb]. rewrite Hc, Hcont by (Z.to_euclidean_division_equations; lia). done.
  - destruct (lead_of4 v) as (f&Hf&Hc); [lia|].
    erewrite rune_len_lead by (exact Hf || (Z.to_euclidean_division_equations; lia)).
    cbn [conts take forallb]. rewrite Hc, !Hcont by (Z.to_euclidean_division_equations; lia). done.
Qed.
