(* ===== verification/Json.v ===== *)
(** JSON text, as Go's [encoding/json] writes and reads it: values, the encoder
    with its HTML-safe strings, and the decoder up to values. What a value means
    for a struct is in [ServiceJson].

    A syntax error is one error value; Go's names the offending character. *)

From S2P Require Import Prelude Regexp Utf8.

(** ** Values *)

(** A number is kept as its text; an object's members are in the order of the
    text, with repetitions. *)
Unset Elimination Schemes.
Inductive json :=
  | JNull
  | JBool (b : bool)
  | JNumber (lit : bytes)
  | JString (s : bytes)
  | JArray (l : list json)
  | JObject (kvs : list (bytes * json)).
Set Elimination Schemes.

(** Induction through the lists of arrays and objects. *)
Section induction.
Variable P : json -> Prop.
Hypothesis (Hnull : P JNull) (Hbool : forall b, P (JBool b)) (Hnumber : forall lit, P (JNumber lit))
  (Hstring : forall s, P (JString s)) (Harray : forall l, Forall P l -> P (JArray l))
  (Hobject : forall kvs, Forall (fun kv => P kv.2) kvs -> P (JObject kvs)).

Fixpoint json_ind (j : json) : P j :=
  match j with
  | JNull => Hnull
  | JBool b => Hbool b
  | JNumber lit => Hnumber lit
  | JString s => Hstring s
  | JArray l => Harray l ((fix go l : Forall P l :=
      match l with [] => Forall_nil_2 _ | j :: l => Forall_cons_2 _ _ _ (json_ind j) (go l) end) l)
  | JObject kvs => Hobject kvs ((fix go kvs : Forall (fun kv => P kv.2) kvs :=
      match kvs with [] => Forall_nil_2 _ | kv :: kvs => Forall_cons_2 _ _ _ (json_ind kv.2) (go kvs) end) kvs)
  end.
End induction.

Definition quote : ascii := "034".
Definition backslash : ascii := "\".

(** ** The encoder *)

(** ASCII that goes into a string as it is: the encoder also escapes what HTML
    would take for markup. *)
Definition html_safe (c : ascii) : bool :=
  (32 <=? byte_val c) && bool_decide (c <> quote /\ c <> backslash) &&
  bool_decide (c <> "<"%char /\ c <> ">"%char /\ c <> "&"%char).

Definition line_separator : Z := 8232.
Definition paragraph_separator : Z := 8233.

(** One turn of the encoder, on a rune or a stray byte. *)
Definition encode_rune (r : bytes) : bytes :=
  match r with
  | [c] =>
      if byte_val c <? 128 then
        if html_safe c then [c]
        else if decide (c = quote \/ c = backslash) then [backslash; c]
        else if decide (byte_val c = 10) then [backslash; "n"%char]
        else if decide (byte_val c = 13) then [backslash; "r"%char]
        else if decide (byte_val c = 9) then [backslash; "t"%char]
        else str_bytes "\u00" ++ [hex_digit (byte_val c / 16); hex_digit (byte_val c mod 16)]
      else str_bytes "\ufffd"
  | _ =>
      if decide (r = EncodeRune line_separator) then str_bytes "\u2028"
      else if decide (r = EncodeRune paragraph_separator) then str_bytes "\u2029"
      else r
  end.

Definition encode_string (s : bytes) : bytes :=
  quote :: concat (encode_rune <$> runes_of s) ++ [quote].

(** Elements with commas between them. *)
Definition commas (l : list bytes) : bytes :=
  match l with
  | [] => []
  | x :: l => x ++ concat (cons ","%char <$> l)
  end.

Fixpoint json_print (j : json) : bytes :=
  match j with
  | JNull => str_bytes "null"
  | JBool b => str_bytes (if b then "true" else "false")
  | JNumber lit => lit
  | JString s => encode_string s
  | JArray l => "["%char :: commas (map json_print l) ++ ["]"%char]
  | JObject kvs =>
      "{"%char :: commas (map (fun kv => encode_string kv.1 ++ ":"%char :: json_print kv.2) kvs) ++ ["}"%char]
  end.

(** [strconv.FormatInt(z, 10)]; twenty digits are enough for 64 bits. *)
Definition decimal_digit (d : Z) : ascii := byte_of (48 + d).

Fixpoint format_digits (fuel : nat) (n : Z) : bytes :=
  match fuel with
  | O => []
  | S fuel => if n <? 10 then [decimal_digit n]
              else format_digits fuel (n / 10) ++ [decimal_digit (n mod 10)]
  end.

Definition FormatInt (z : Z) : bytes :=
  (if z <? 0 then ["-"%char] else []) ++ format_digits 20 (Z.abs z).

(** ** The decoder *)

Definition json_space (c : ascii) : bool :=
  bool_decide (c = " "%char) || (byte_val c =? 9) || (byte_val c =? 10) || (byte_val c =? 13).

Definition skip_ws (s : bytes) : bytes := (span json_space s).2.

Definition expect (c : ascii) (s : bytes) : option bytes :=
  match s with
  | x :: r => if decide (x = c) then Some r else None
  | [] => None
  end.

Fixpoint expect_all (p s : bytes) : option bytes :=
  match p with
  | [] => Some s
  | c :: p => expect c s ≫= expect_all p
  end.

(** Four hexadecimal digits. *)
Definition hex4 (s : bytes) : option (Z * bytes) :=
  match s with
  | a :: b :: c :: d :: r =>
      a ← unhex a; b ← unhex b; c ← unhex c; d ← unhex d;
      Some (((a * 16 + b) * 16 + c) * 16 + d, r)
  | _ => None
  end.

Definition getu4 (s : bytes) : option (Z * bytes) := expect_all (str_bytes "\u") s ≫= hex4.

(** The escapes of one character. *)
Definition simple_escape (e : ascii) : option ascii :=
  if decide (e = quote \/ e = backslash \/ e = "/"%char) then Some e
  else if decide (e = "b"%char) then Some (byte_of 8)
  else if decide (e = "f"%char) then Some (byte_of 12)
  else if decide (e = "n"%char) then Some (byte_of 10)
  else if decide (e = "r"%char) then Some (byte_of 13)
  else if decide (e = "t"%char) then Some (byte_of 9)
  else None.

(** The code point of a [\u] escape whose value is [v], and what follows it: a
    surrogate takes its other half along, or is replaced. *)
Definition unicode_escape (v : Z) (r : bytes) : Z * bytes :=
  if IsSurrogate v then
    match getu4 r with
    | Some (v2, r2) =>
        let dec := utf16_DecodeRune v v2 in
        if decide (dec = RuneError) then (RuneError, r) else (dec, r2)
    | None => (RuneError, r)
    end
  else (v, r).

Definition prepend (x : bytes) (m : option (bytes * bytes)) : option (bytes * bytes) :=
  '(s, r) ← m; Some (x ++ s, r).

(** A string behind its opening quote: its value, and what follows the closing
    one. Every turn takes a byte. *)
Fixpoint string_body (fuel : nat) (s : bytes) : option (bytes * bytes) :=
  match fuel, s with
  | S fuel, c :: r =>
      if decide (c = quote) then Some ([], r)
      else if decide (c = backslash) then
        match r with
        | e :: r =>
            match simple_escape e with
            | Some x => prepend [x] (string_body fuel r)
            | None =>
                if decide (e = "u"%char) then
                  match hex4 r with
                  | Some (v, r) =>
                      let '(v, r) := unicode_escape v r in
                      prepend (EncodeRune v) (string_body fuel r)
                  | None => None
                  end
                else None
            end
        | [] => None
        end
      else if byte_val c <? 32 then None
      else prepend (if decide (rune_len s = 0%nat) then replacement else take (rune_size s) s)
             (string_body fuel (drop (rune_size s) s))
  | _, _ => None
  end.

Definition parse_string (s : bytes) : option (bytes * bytes) :=
  r ← expect quote s; string_body (length r) r.

(** Numbers: the longest text of the grammar. *)
Definition some_digits (s : bytes) : option (bytes * bytes) :=
  match span digit s with
  | ([], _) => None
  | (d, r) => Some (d, r)
  end.

Definition scan_int (s : bytes) : option (bytes * bytes) :=
  match expect "0" s with
  | Some r => Some (["0"%char], r)
  | None => some_digits s
  end.

Definition scan_frac (s : bytes) : option (bytes * bytes) :=
  match expect "." s with
  | Some r => '(d, r) ← some_digits r; Some ("."%char :: d, r)
  | None => Some ([], s)
  end.

(** A character that may be left out. *)
Definition optional (f : ascii -> bool) (s : bytes) : bytes * bytes :=
  match s with
  | c :: r => if f c then ([c], r) else ([], s)
  | [] => ([], [])
  end.

Definition exp_sign (c : ascii) : bool := bool_decide (c = "+"%char \/ c = "-"%char).
Definition exp_char (c : ascii) : bool := bool_decide (c = "e"%char \/ c = "E"%char).
Definition minus (c : ascii) : bool := bool_decide (c = "-"%char).

Definition scan_exp (s : bytes) : option (bytes * bytes) :=
  match optional exp_char s with
  | ([], _) => Some ([], s)
  | (e, r) =>
      let '(sign, r) := optional exp_sign r in
      '(d, r) ← some_digits r; Some (e ++ sign ++ d, r)
  end.

Definition scan_number (s : bytes) : option (bytes * bytes) :=
  let '(sign, r) := optional minus s in
  '(i, r) ← scan_int r;
  '(f, r) ← scan_frac r;
  '(e, r) ← scan_exp r;
  Some (sign ++ i ++ f ++ e, r).

Definition maxNestingDepth : Z := 10000.

(** Values, elements behind an opening bracket or a comma, members likewise.
    Every call is on a shorter text than its caller's, except that the first call
    for an element is on the text of the elements. *)
Fixpoint parse_value (fuel : nat) (depth : Z) (s : bytes) {struct fuel} : option (json * bytes) :=
  match fuel with
  | O => None
  | S fuel =>
      let s := skip_ws s in
      match expect "{" s with
      | Some r =>
          if maxNestingDepth <? depth + 1 then None
          else match expect "}" (skip_ws r) with
               | Some r => Some (JObject [], r)
               | None => '(kvs, r) ← parse_members fuel (depth + 1) r; Some (JObject kvs, r)
               end
      | None =>
      match expect "[" s with
      | Some r =>
          if maxNestingDepth <? depth + 1 then None
          else match expect "]" (skip_ws r) with
               | Some r => Some (JArray [], r)
               | None => '(l, r) ← parse_elements fuel (depth + 1) r; Some (JArray l, r)
               end
      | None =>
      match expect_all (str_bytes "null") s with
      | Some r => Some (JNull, r)
      | None =>
      match expect_all (str_bytes "true") s with
      | Some r => Some (JBool true, r)
      | None =>
      match expect_all (str_bytes "false") s with
      | Some r => Some (JBool false, r)
      | None =>
      match parse_string s with
      | Some (v, r) => Some (JString v, r)
      | None => '(lit, r) ← scan_number s; Some (JNumber lit, r)
      end end end end end end
  end
with parse_elements (fuel : nat) (depth : Z) (s : bytes) {struct fuel} : option (list json * bytes) :=
  match fuel with
  | O => None
  | S fuel =>
      '(j, r) ← parse_value fuel depth s;
      match expect "]" (skip_ws r) with
      | Some r => Some ([j], r)
      | None =>
          r ← expect "," (skip_ws r);
          '(l, r) ← parse_elements fuel depth r;
          Some (j :: l, r)
      end
  end
with parse_members (fuel : nat) (depth : Z) (s : bytes) {struct fuel} : option (list (bytes * json) * bytes) :=
  match fuel with
  | O => None
  | S fuel =>
      '(k, r) ← parse_string (skip_ws s);
      r ← expect ":" (skip_ws r);
      '(j, r) ← parse_value fuel depth r;
      match expect "}" (skip_ws r) with
      | Some r => Some ([(k, j)], r)
      | None =>
          r ← expect "," (skip_ws r);
          '(kvs, r) ← parse_members fuel depth r;
          Some ((k, j) :: kvs, r)
      end
  end.

(** The whole text, as [checkValid] wants it. *)
Definition json_parse (s : bytes) : option json :=
  '(j, r) ← parse_value (S (2 * length s)) 0 s;
  if decide (skip_ws r = []) then Some j else None.

(** ** Lemmas *)

(** *** What is consumed *)

Lemma skip_ws_le s : (length (skip_ws s) <= length s)%nat.
Proof.
  unfold skip_ws. destruct (span json_space s) as [m r] eqn:E. apply span_spec in E as ->.
  rewrite length_app. cbn. lia.
Qed.

Lemma expect_length c s r : expect c s = Some r -> length s = S (length r).
Proof. destruct s; cbn; [done|]. case_decide; [|done]. by intros [= ->]. Qed.

Lemma expect_all_length p s r : expect_all p s = Some r -> length s = (length p + length r)%nat.
Proof.
  revert s. induction p as [|c p IH]; intros s; cbn; [by intros [= ->]|].
  intros (r'&->%expect_length&->%IH)%bind_Some. lia.
Qed.

Lemma hex4_length s v r : hex4 s = Some (v, r) -> length s = (4 + length r)%nat.
Proof.
  destruct s as [|a [|b [|c [|d s]]]]; cbn; try done.
  intros (?&_&(?&_&(?&_&(?&_&[= _ <-])%bind_Some)%bind_Some)%bind_Some)%bind_Some. done.
Qed.

Lemma unicode_escape_length v s : (length (unicode_escape v s).2 <= length s)%nat.
Proof.
  unfold unicode_escape. destruct (IsSurrogate v); [|done].
  destruct (getu4 s) as [[v2 r]|] eqn:E; [|done]. case_decide; [done|].
  apply bind_Some in E as (r'&->%expect_all_length&->%hex4_length). cbn. lia.
Qed.

Lemma prepend_Some x m v r : prepend x m = Some (v, r) -> exists v', m = Some (v', r) /\ v = x ++ v'.
Proof. unfold prepend. intros ([v' r']&->&[= <- <-])%bind_Some. eauto. Qed.

Lemma string_body_length fuel s v r : string_body fuel s = Some (v, r) -> (length r < length s)%nat.
Proof.
  revert s v. induction fuel as [|fuel IH]; intros [|c s] v; try done. cbn [string_body].
  case_decide; [intros [= <- <-]; cbn; lia|]. case_decide.
  { destruct s as [|e s]; [done|]. destruct (simple_escape e).
    - intros (v'&?%IH&_)%prepend_Some. cbn in *. lia.
    - case_decide; [|done]. destruct (hex4 s) as [[u s']|] eqn:E; [|done]. apply hex4_length in E.
      pose proof (unicode_escape_length u s'). destruct (unicode_escape u s') as [? ?].
      intros (v'&?%IH&_)%prepend_Some. cbn in *. lia. }
  destruct (byte_val c <? 32); [done|]. intros (v'&Hl%IH&_)%prepend_Some.
  rewrite length_drop in Hl. cbn in *. lia.
Qed.

Lemma parse_string_length s v r : parse_string s = Some (v, r) -> (length r < length s)%nat.
Proof. intros (s'&->%expect_length&?%string_body_length)%bind_Some. lia. Qed.

Lemma some_digits_length s d r : some_digits s = Some (d, r) -> (length r < length s)%nat.
Proof.
  unfold some_digits. destruct (span digit s) as [[|c m] r'] eqn:E; [done|].
  intros [= <- <-]. apply span_spec in E as ->. rewrite length_app. cbn. lia.
Qed.

Lemma scan_frac_length s d r : scan_frac s = Some (d, r) -> (length r <= length s)%nat.
Proof.
  unfold scan_frac. destruct (expect "." s) as [s'|] eqn:E; [|by intros [= _ <-]].
  apply expect_length in E. intros ([??]&?%some_digits_length&[= _ <-])%bind_Some. lia.
Qed.

Lemma optional_length f s : (length (optional f s).2 <= length s)%nat.
Proof. destruct s as [|c s]; cbn; [done|]. destruct (f c); cbn; lia. Qed.

Lemma scan_int_length s d r : scan_int s = Some (d, r) -> (length r < length s)%nat.
Proof.
  unfold scan_int. destruct (expect "0" s) as [s'|] eqn:E; [|apply some_digits_length].
  apply expect_length in E. intros [= _ <-]. lia.
Qed.

Lemma scan_exp_length s d r : scan_exp s = Some (d, r) -> (length r <= length s)%nat.
Proof.
  unfold scan_exp. pose proof (optional_length exp_char s) as H1.
  destruct (optional exp_char s) as [[|c e] s1]; [by intros [= _ <-]|].
  pose proof (optional_length exp_sign s1) as H2. destruct (optional exp_sign s1) as [sg s2].
  intros ([??]&?%some_digits_length&[= _ <-])%bind_Some. cbn in *. lia.
Qed.

Lemma scan_number_length s lit r : scan_number s = Some (lit, r) -> (length r < length s)%nat.
Proof.
  unfold scan_number. pose proof (optional_length minus s) as H1. destruct (optional minus s) as [sg s1].
  intros ([??]&?%scan_int_length&([??]&?%scan_frac_length&([??]&?%scan_exp_length&[= _ <-])
    %bind_Some)%bind_Some)%bind_Some. cbn in *. lia.
Qed.

(** Every parser consumes something. *)
Lemma parse_length fuel :
  (forall d s j r, parse_value fuel d s = Some (j, r) -> length r < length s)%nat /\
  (forall d s l r, parse_elements fuel d s = Some (l, r) -> length r < length s)%nat /\
  (forall d s l r, parse_members fuel d s = Some (l, r) -> length r < length s)%nat.
Proof.
  induction fuel as [|fuel (IHv&IHe&IHm)]; [done|]. split_and!.
  - intros d s j r. cbn [parse_value]. pose proof (skip_ws_le s) as Hws.
    destruct (expect "{" (skip_ws s)) as [s1|] eqn:E1.
    { apply expect_length in E1. pose proof (skip_ws_le s1). destruct (_ <? _); [done|].
      destruct (expect "}" (skip_ws s1)) as [s2|] eqn:E2.
      - apply expect_length in E2. intros [= _ <-]. lia.
      - intros ([??]&?%IHm&[= _ <-])%bind_Some. lia. }
    destruct (expect "[" (skip_ws s)) as [s1|] eqn:E2.
    { apply expect_length in E2. pose proof (skip_ws_le s1). destruct (_ <? _); [done|].
      destruct (expect "]" (skip_ws s1)) as [s2|] eqn:E3.
      - apply expect_length in E3. intros [= _ <-]. lia.
      - intros ([??]&?%IHe&[= _ <-])%bind_Some. lia. }
    destruct (expect_all (str_bytes "null") _) as [s1|] eqn:E3;
      [apply expect_all_length in E3; intros [= _ <-]; cbn in E3; lia|].
    destruct (expect_all (str_bytes "true") _) as [s1|] eqn:E4;
      [apply expect_all_length in E4; intros [= _ <-]; cbn in E4; lia|].
    destruct (expect_all (str_bytes "false") _) as [s1|] eqn:E5;
      [apply expect_all_length in E5; intros [= _ <-]; cbn in E5; lia|].
    destruct (parse_string _) as [[v s1]|] eqn:E6;
      [apply parse_string_length in E6; intros [= _ <-]; lia|].
    intros ([??]&?%scan_number_length&[= _ <-])%bind_Some. lia.
  - intros d s l r. cbn [parse_elements]. intros ([j s1]&?%IHv&Hr)%bind_Some.
    pose proof (skip_ws_le s1). destruct (expect "]" _) as [s2|] eqn:E.
    { apply expect_length in E. simplify_eq. lia. }
    apply bind_Some in Hr as (s2&?%expect_length&([??]&?%IHe&[= _ <-])%bind_Some). lia.
  - intros d s l r. cbn [parse_members]. pose proof (skip_ws_le s).
    intros ([k s1]&?%parse_string_length&(s2&?%expect_length&([j s3]&?%IHv&Hr)
      %bind_Some)%bind_Some)%bind_Some.
    pose proof (skip_ws_le s1). pose proof (skip_ws_le s3). destruct (expect "}" _) as [s4|] eqn:E.
    { apply expect_length in E. simplify_eq. lia. }
    apply bind_Some in Hr as (s4&?%expect_length&([??]&?%IHm&[= _ <-])%bind_Some). lia.
Qed.

(** *** Fuel *)

Lemma bind_option_ext {A B} (m : option A) (f g : A -> option B) :
  (forall a, m = Some a -> f a = g a) -> m ≫= f = m ≫= g.
Proof. intros H. destruct m; cbn; auto. Qed.

(** Twice the length of the text is enough fuel: more changes nothing. *)
Lemma parse_fuel fuel :
  (forall fuel' d s, 2 * length s < fuel -> 2 * length s < fuel' ->
     parse_value fuel d s = parse_value fuel' d s)%nat /\
  (forall fuel' d s, 2 * length s + 1 < fuel -> 2 * length s + 1 < fuel' ->
     parse_elements fuel d s = parse_elements fuel' d s)%nat /\
  (forall fuel' d s, 2 * length s < fuel -> 2 * length s < fuel' ->
     parse_members fuel d s = parse_members fuel' d s)%nat.
Proof.
  induction fuel as [|fuel (IHv&IHe&IHm)]; [split_and!; lia|].
  split_and!; intros [|fuel'] d s Hf Hf'; try lia.
  - cbn [parse_value]. pose proof (skip_ws_le s) as Hws.
    destruct (expect "{" (skip_ws s)) as [s1|] eqn:E1.
    { apply expect_length in E1. pose proof (skip_ws_le s1). destruct (_ <? _); [done|].
      destruct (expect "}" (skip_ws s1)) as [s2|] eqn:E2; [done|].
      by rewrite (IHm fuel') by lia. }
    destruct (expect "[" (skip_ws s)) as [s1|] eqn:E2; [|done].
    apply expect_length in E2. pose proof (skip_ws_le s1). destruct (_ <? _); [done|].
    destruct (expect "]" (skip_ws s1)) as [s2|] eqn:E3; [done|].
    by rewrite (IHe fuel') by lia.
  - cbn [parse_elements]. rewrite (IHv fuel') by lia. apply bind_option_ext. intros [j r] Hj.
    apply parse_length in Hj. pose proof (skip_ws_le r). destruct (expect "]" _); [done|].
    apply bind_option_ext. intros s2 E%expect_length. by rewrite (IHe fuel') by lia.
  - cbn [parse_members]. pose proof (skip_ws_le s).
    apply bind_option_ext. intros [k s1] E1%parse_string_length. pose proof (skip_ws_le s1).
    apply bind_option_ext. intros s2 E2%expect_length. rewrite (IHv fuel') by lia.
    apply bind_option_ext. intros [j s3] E3%parse_length. pose proof (skip_ws_le s3).
    destruct (expect "}" _); [done|].
    apply bind_option_ext. intros s4 E4%expect_length. by rewrite (IHm fuel') by lia.
Qed.

(** *** Strings *)

(** What a round trip leaves of a piece of a string. *)
Definition fix_rune (r : bytes) : bytes := if is_rune r then r else replacement.

Lemma string_body_ascii fuel c r :
  byte_val c <? 128 = true ->
  string_body (S fuel) (encode_rune [c] ++ r) = prepend [c] (string_body fuel r).
Proof.
  intros Hc. destruct c as [[][][][][][][][]]; vm_compute in Hc; try discriminate Hc; reflexivity.
Qed.

Lemma rune_len_single c : rune_len [c] = if byte_val c <? 128 then 1%nat else 0%nat.
Proof. cbn. destruct (byte_val c <? 128); [done|]. by destruct (lead c) as [[f n]|]. Qed.

Lemma rune_len_big c r : (2 <= rune_len (c :: r))%nat -> byte_val c <? 128 = false.
Proof. cbn. destruct (byte_val c <? 128); [lia|done]. Qed.

(** A byte above ASCII is no quote and no escape. *)
Lemma high_byte c : byte_val c <? 128 = false -> c <> quote /\ c <> backslash /\ byte_val c <? 32 = false.
Proof. intros Hc. split_and!; [by intros ->..|lia]. Qed.

Lemma string_body_rune fuel p r :
  is_rune p = true -> (2 <= length p)%nat ->
  string_body (S fuel) (p ++ r) = prepend p (string_body fuel r).
Proof.
  intros [_ Hr]%is_rune_spec Hl. destruct p as [|c p]; [cbn in Hl; lia|].
  assert (byte_val c <? 128 = false) as (?&?&Hc)%high_byte by (eapply rune_len_big; by rewrite Hr).
  assert (rune_len ((c :: p) ++ r) = length (c :: p)) as E by (rewrite rune_len_app; lia).
  cbn [string_body app]. rewrite !decide_False, Hc by done.
  change (c :: p ++ r) with ((c :: p) ++ r). unfold rune_size. rewrite E.
  rewrite decide_False by (cbn; lia). rewrite Nat.max_r by lia.
  by rewrite take_app_length, drop_app_length.
Qed.

Lemma encode_rune_long p : (2 <= length p)%nat ->
  encode_rune p = if decide (p = EncodeRune line_separator) then str_bytes "\u2028"
                  else if decide (p = EncodeRune paragraph_separator) then str_bytes "\u2029" else p.
Proof. intros H. destruct p as [|c [|c' p]]; cbn in H; [lia|lia|reflexivity]. Qed.

Lemma string_body_piece fuel p r :
  piece p -> string_body (S fuel) (encode_rune p ++ r) = prepend (fix_rune p) (string_body fuel r).
Proof.
  intros Hp. unfold fix_rune. destruct (is_rune p) eqn:E.
  - destruct (decide (2 <= length p)%nat) as [Hl|Hl].
    + rewrite encode_rune_long by done. case_decide; [subst; reflexivity|].
      case_decide; [subst; reflexivity|]. by apply string_body_rune.
    + apply is_rune_spec in E as [Hne Hr]. destruct p as [|c [|c' p]]; cbn in Hl; [done| |lia].
      apply string_body_ascii. rewrite rune_len_single in Hr. by destruct (byte_val c <? 128).
  - destruct Hp as [?|[Hl Hr]]; [congruence|]. destruct p as [|c [|c' p]]; try done.
    rewrite rune_len_single in Hr. cbn [encode_rune]. by destruct (byte_val c <? 128).
Qed.

Lemma string_body_pieces fuel ps r :
  Forall piece ps -> (length ps < fuel)%nat ->
  string_body fuel (concat (encode_rune <$> ps) ++ quote :: r) = Some (concat (fix_rune <$> ps), r).
Proof.
  intros Hps. revert fuel. induction Hps as [|p ps Hp _ IH]; intros [|fuel] Hf; cbn in Hf; try lia.
  - cbn. by rewrite decide_True.
  - cbn [fmap list_fmap concat]. rewrite <- app_assoc, string_body_piece, IH by (done || lia). done.
Qed.

Lemma piece_ne p : piece p -> p <> [].
Proof. intros [[? _]%is_rune_spec|[Hl _]]; [done|]. by intros ->. Qed.

Lemma encode_rune_ne p : piece p -> encode_rune p <> [].
Proof.
  intros Hp%piece_ne. destruct p as [|c [|c' p]]; [done| |].
  - cbn. repeat case_match; done.
  - rewrite encode_rune_long by (cbn; lia). repeat case_decide; done.
Qed.

Lemma pieces_le ps : Forall piece ps -> (length ps <= length (concat (encode_rune <$> ps)))%nat.
Proof.
  induction 1 as [|p ps Hp _ IH]; [done|]. cbn [fmap list_fmap concat length]. rewrite length_app.
  apply encode_rune_ne in Hp. destruct (encode_rune p); [done|cbn; lia].
Qed.

(** Reading back what the encoder wrote: bytes that are no UTF-8 come back as the
    replacement character. *)
Lemma parse_encode_string s r :
  parse_string (encode_string s ++ r) = Some (concat (fix_rune <$> runes_of s), r).
Proof.
  unfold parse_string, encode_string. cbn [app expect]. rewrite decide_True by done.
  cbn [mbind option_bind]. rewrite <- app_assoc. cbn [app].
  pose proof (runes_of_pieces s) as Hp. apply string_body_pieces; [done|].
  apply pieces_le in Hp. rewrite length_app. cbn. lia.
Qed.

Lemma fix_valid s : utf8_Valid s = true -> concat (fix_rune <$> runes_of s) = s.
Proof.
  unfold utf8_Valid. intros Hv. rewrite <- (runes_of_concat s) at 2. f_equal.
  induction (runes_of s) as [|p ps IH]; [done|]. cbn in Hv. apply andb_true_iff in Hv as [Hp Hv].
  cbn. unfold fix_rune at 1. by rewrite Hp, IH.
Qed.

Lemma parse_encode_valid s r : utf8_Valid s = true -> parse_string (encode_string s ++ r) = Some (s, r).
Proof. intros Hs. by rewrite parse_encode_string, fix_valid. Qed.

(** Whatever the text, a string that was read is valid UTF-8. *)
Lemma simple_escape_rune e x : simple_escape e = Some x -> is_rune [x] = true.
Proof.
  unfold simple_escape. repeat case_decide; intros [= <-]; try reflexivity.
  by destruct H as [->|[->| ->]].
Qed.

Lemma string_body_valid fuel s v r : string_body fuel s = Some (v, r) -> utf8_Valid v = true.
Proof.
  revert s v. induction fuel as [|fuel IH]; intros [|c s] v; try done. cbn [string_body].
  case_decide; [by intros [= <- _]|]. case_decide.
  { destruct s as [|e s]; [done|]. destruct (simple_escape e) eqn:E.
    - intros (v'&?%IH&->)%prepend_Some. rewrite utf8_Valid_cons; [done|]. by eapply simple_escape_rune.
    - case_decide; [|done]. destruct (hex4 s) as [[u s']|]; [|done].
      destruct (unicode_escape u s') as [? ?]. intros (v'&?%IH&->)%prepend_Some.
      rewrite utf8_Valid_cons; [done|]. apply EncodeRune_rune. }
  destruct (byte_val c <? 32); [done|]. intros (v'&?%IH&->)%prepend_Some.
  rewrite utf8_Valid_cons; [done|]. case_decide; [reflexivity|]. by apply take_rune_piece.
Qed.

Lemma parse_string_valid s v r : parse_string s = Some (v, r) -> utf8_Valid v = true.
Proof. intros (s'&_&?%string_body_valid)%bind_Some. done. Qed.

(** *** Numbers *)

Lemma digit_decimal d : 0 <= d < 10 -> digit (decimal_digit d) = true.
Proof. intros Hd. unfold digit, decimal_digit. rewrite byte_in_of; lia. Qed.

Lemma decimal_zero d : 0 <= d < 10 -> decimal_digit d = "0"%char -> d = 0.
Proof.
  intros Hd E%(f_equal byte_val). unfold decimal_digit in E. rewrite byte_val_small in E by lia.
  change (byte_val "0") with 48 in E. lia.
Qed.

(** The digits of a number, without a leading zero. *)
Lemma format_digits_spec fuel n :
  0 <= n < 10 ^ Z.of_nat fuel -> (0 < fuel)%nat ->
  exists c t, format_digits fuel n = c :: t /\ all_in digit (c :: t) /\ (c = "0"%char -> n = 0 /\ t = []).
Proof.
  revert n. induction fuel as [|fuel IH]; intros n Hn Hf; [lia|]. cbn [format_digits].
  destruct (n <? 10) eqn:E.
  - exists (decimal_digit n), []. split_and!; [done| |].
    + constructor; [apply digit_decimal; lia|done].
    + intros ?%decimal_zero; [done|lia].
  - assert (fuel <> O) by (intros ->; cbn in Hn; lia).
    rewrite Nat2Z.inj_succ, Z.pow_succ_r in Hn by lia.
    destruct (IH (n / 10)) as (c&t&->&Hall&Hc);
      [split; [apply Z.div_pos; lia|apply Z.div_lt_upper_bound; lia]|lia|].
    exists c, (t ++ [decimal_digit (n mod 10)]). split_and!; [done| |].
    + change (c :: t ++ ?x) with ((c :: t) ++ x). apply Forall_app. split; [done|].
      constructor; [apply digit_decimal; apply Z.mod_pos_bound; lia|done].
    + intros [? _]%Hc. pose proof (Z.div_mod n 10). pose proof (Z.mod_pos_bound n 10). lia.
Qed.

(** What can follow a number. *)
Definition num_end (r : bytes) : Prop :=
  match r with
  | [] => True
  | c :: _ => digit c = false /\ c <> "."%char /\ exp_char c = false
  end.

Lemma scan_digits c t r :
  all_in digit (c :: t) -> (c = "0"%char -> t = []) -> num_end r ->
  scan_int ((c :: t) ++ r) = Some (c :: t, r).
Proof.
  intros Hall Hz Hr. unfold scan_int. cbn [app expect]. case_decide as Hc.
  - rewrite (Hz Hc). by subst.
  - unfold some_digits. change (c :: t ++ r) with ((c :: t) ++ r). rewrite span_app; [done..|].
    destruct r as [|x r]; [done|]. by destruct Hr.
Qed.

Lemma num_end_tail r : num_end r -> scan_frac r = Some ([], r) /\ scan_exp r = Some ([], r).
Proof.
  unfold scan_frac, scan_exp. destruct r as [|c r]; [done|]. cbn.
  intros (_&Hc&->). by rewrite decide_False.
Qed.

Definition small_int (z : Z) : Prop := - 10 ^ 20 < z < 10 ^ 20.

Lemma FormatInt_head z : small_int z ->
  exists c t, FormatInt z = c :: t /\ (c = "-"%char \/ digit c = true).
Proof.
  intros Hz. unfold FormatInt. destruct (format_digits_spec 20 (Z.abs z)) as (c&t&->&Hall&_);
    [unfold small_int in Hz; lia|lia|].
  apply Forall_cons in Hall as [Hc _]. destruct (z <? 0); cbn; eauto.
Qed.

Lemma scan_FormatInt z r : small_int z -> num_end r -> scan_number (FormatInt z ++ r) = Some (FormatInt z, r).
Proof.
  intros Hz Hr. unfold FormatInt, scan_number.
  destruct (format_digits_spec 20 (Z.abs z)) as (c&t&->&Hall&Hc);
    [unfold small_int in Hz; lia|lia|].
  pose proof (num_end_tail r Hr) as [Hf He].
  assert (minus c = false) as Hm.
  { apply Forall_cons in Hall as [Hd _]. apply bool_decide_eq_false_2. by intros ->. }
  assert (scan_int ((c :: t) ++ r) = Some (c :: t, r)) as Hi by (apply scan_digits; [done|tauto|done]).
  destruct (z <? 0); cbn [app optional] in *.
  - change (minus "-") with true. cbn iota. rewrite Hi. cbn. rewrite Hf. cbn. rewrite He. cbn.
    by rewrite !app_nil_r.
  - rewrite Hm, Hi. cbn. rewrite Hf. cbn. rewrite He. cbn. by rewrite !app_nil_r.
Qed.

(** *** The round trip *)

(** Values that the encoder of the program gives out. *)
Inductive json_ok : json -> Prop :=
  | ok_null : json_ok JNull
  | ok_bool b : json_ok (JBool b)
  | ok_number z : small_int z -> json_ok (JNumber (FormatInt z))
  | ok_string s : utf8_Valid s = true -> json_ok (JString s)
  | ok_array l : Forall json_ok l -> json_ok (JArray l)
  | ok_object kvs : Forall (fun kv => utf8_Valid kv.1 = true /\ json_ok kv.2) kvs -> json_ok (JObject kvs).

Fixpoint json_depth (j : json) : Z :=
  match j with
  | JArray l => 1 + foldr Z.max 0 (map json_depth l)
  | JObject kvs => 1 + foldr Z.max 0 (map (fun kv => json_depth kv.2) kvs)
  | _ => 0
  end.

Lemma commas_cons x y l : commas (x :: y :: l) = x ++ ","%char :: commas (y :: l).
Proof. done. Qed.

Lemma print_head j : json_ok j ->
  exists c t, json_print j = c :: t /\ json_space c = false /\ c <> "]"%char.
Proof.
  destruct 1 as [|[]|z Hz|s Hs|l Hl|kvs Hkvs]; try (by eexists _, _).
  apply FormatInt_head in Hz as (c&t&E&Hc). exists c, t. split; [exact E|].
  destruct Hc as [->|Hc]; [done|].
  destruct c as [[][][][][][][][]]; vm_compute in Hc; try discriminate Hc; by split.
Qed.

Lemma skip_ws_head c t : json_space c = false -> skip_ws (c :: t) = c :: t.
Proof. intros Hc. unfold skip_ws. cbn. by rewrite Hc. Qed.

Lemma parse_value_number fuel d c t :
  c = "-"%char \/ digit c = true ->
  parse_value (S fuel) d (c :: t) = '(lit, r) ← scan_number (c :: t); Some (JNumber lit, r).
Proof.
  intros [->|Hc]; [reflexivity|].
  destruct c as [[][][][][][][][]]; vm_compute in Hc; try discriminate Hc; reflexivity.
Qed.

Lemma num_end_comma r : num_end (","%char :: r).
Proof. done. Qed.
Lemma num_end_bracket r : num_end ("]"%char :: r).
Proof. done. Qed.
Lemma num_end_brace r : num_end ("}"%char :: r).
Proof. done. Qed.
#[export] Hint Resolve num_end_comma num_end_bracket num_end_brace : gw.

Lemma expect_eq c r : expect c (c :: r) = Some r.
Proof. cbn. by rewrite decide_True. Qed.

Lemma expect_ne x c r : x <> c -> expect c (x :: r) = None.
Proof. intros H. cbn. by rewrite decide_False. Qed.

(** Reading back one value, whatever follows it. *)
Definition reads_back (j : json) : Prop :=
  json_ok j -> forall fuel d r,
  (2 * length (json_print j ++ r) < fuel)%nat -> d + json_depth j <= maxNestingDepth -> num_end r ->
  parse_value fuel d (json_print j ++ r) = Some (j, r).

Lemma elements_read_back l fuel d r :
  Forall reads_back l -> Forall json_ok l -> l <> [] ->
  (2 * length (commas (map json_print l) ++ "]"%char :: r) + 1 < fuel)%nat ->
  d + foldr Z.max 0 (map json_depth l) <= maxNestingDepth ->
  parse_elements fuel d (commas (map json_print l) ++ "]"%char :: r) = Some (l, r).
Proof.
  intros Hl. revert fuel. induction Hl as [|j l Hj Hl IH]; [done|].
  intros [|fuel] [Hok Hoks]%Forall_cons _ Hf Hd; [lia|]. cbn [map foldr] in Hd.
  destruct l as [|j' l].
  - cbn [map commas fmap list_fmap concat] in *. rewrite app_nil_r in *. cbn [parse_elements].
    rewrite Hj by (auto with gw || lia). reflexivity.
  - cbn [map] in *. rewrite commas_cons in *. rewrite <- app_assoc in *. cbn [app] in *.
    cbn [parse_elements]. rewrite Hj by (auto with gw || lia || (cbn in *; lia)).
    rewrite length_app in Hf. cbn [length] in Hf.
    cbn [mbind option_bind]. rewrite skip_ws_head by done.
    rewrite expect_ne, expect_eq by done. cbn [mbind option_bind].
    by rewrite IH by (done || lia).
Qed.

Lemma skip_ws_string s r : skip_ws (encode_string s ++ r) = encode_string s ++ r.
Proof. by apply skip_ws_head. Qed.

(** One member of an object. *)
Definition member_text (kv : bytes * json) : bytes := encode_string kv.1 ++ ":"%char :: json_print kv.2.

Lemma members_read_back kvs fuel d r :
  Forall (fun kv => reads_back kv.2) kvs ->
  Forall (fun kv => utf8_Valid kv.1 = true /\ json_ok kv.2) kvs -> kvs <> [] ->
  (2 * length (commas (map member_text kvs) ++ "}"%char :: r) < fuel)%nat ->
  d + foldr Z.max 0 (map (fun kv => json_depth kv.2) kvs) <= maxNestingDepth ->
  parse_members fuel d
    (commas (map member_text kvs) ++ "}"%char :: r) = Some (kvs, r).
Proof.
  intros Hl. revert fuel. induction Hl as [|[k j] kvs Hj Hl IH]; [done|].
  intros [|fuel] [[Hk Hok] Hoks]%Forall_cons _ Hf Hd; [lia|]. cbn [map foldr fst snd] in *.
  assert (forall t, parse_members (S fuel) d (member_text (k, j) ++ t)
    = '(j, r) ← parse_value fuel d (json_print j ++ t);
      match expect "}" (skip_ws r) with
      | Some r => Some ([(k, j)], r)
      | None => r ← expect "," (skip_ws r); '(kvs, r) ← parse_members fuel d r; Some ((k, j) :: kvs, r)
      end) as Hstep.
  { intros t. unfold member_text. cbn [parse_members fst snd]. rewrite <- app_assoc. cbn [app].
    rewrite skip_ws_string, parse_encode_valid by done. cbn [mbind option_bind].
    rewrite skip_ws_head, expect_eq by done. done. }
  assert (forall t, length (member_text (k, j) ++ t) = length (encode_string k) + S (length (json_print j ++ t)))%nat
    as Hlen by (intros t; unfold member_text; cbn [fst snd]; rewrite !length_app; cbn [length]; lia).
  destruct kvs as [|kv kvs].
  - cbn [map commas fmap list_fmap concat] in *. rewrite app_nil_r in *.
    rewrite Hstep. rewrite Hlen in Hf. rewrite Hj by (auto with gw || lia || (cbn in *; lia)). reflexivity.
  - cbn [map] in *. rewrite commas_cons in *. rewrite <- (app_assoc (member_text (k, j))) in *. cbn [app] in *.
    rewrite Hstep. rewrite Hlen in Hf.
    rewrite Hj by (auto with gw || lia || (cbn in *; lia)). cbn [mbind option_bind].
    rewrite skip_ws_head by done. rewrite expect_ne, expect_eq by done. cbn [mbind option_bind].
    rewrite length_app in Hf. cbn [length] in Hf. by rewrite IH by (done || lia || (cbn in *; lia)).
Qed.

Lemma foldr_max_nonneg l : 0 <= foldr Z.max 0 l.
Proof. induction l; cbn; lia. Qed.

Lemma print_reads_back j : reads_back j.
Proof.
  induction j as [|b|lit|s|l IH|kvs IH] using json_ind; intros Hok [|fuel] d r Hf Hd Hr; try lia.
  - reflexivity.
  - destruct b; reflexivity.
  - inversion Hok as [| |z Hz| | |]; subst. cbn [json_print].
    destruct (FormatInt_head z Hz) as (c&t&E&Hc). rewrite E. cbn [app].
    rewrite parse_value_number by done. change (c :: t ++ r) with ((c :: t) ++ r). rewrite <- E.
    by rewrite scan_FormatInt.
  - inversion Hok; subst. cbn [json_print parse_value]. rewrite skip_ws_string.
    rewrite parse_encode_valid by done. reflexivity.
  - inversion Hok as [| | | |? Hl|]; subst. cbn [json_print app json_depth] in *. rewrite <- app_assoc in *.
    cbn [app parse_value] in *. rewrite skip_ws_head, expect_ne, expect_eq by done.
    replace (maxNestingDepth <? d + 1) with false
      by (pose proof (foldr_max_nonneg (map json_depth l)); lia).
    destruct l as [|j l]; [reflexivity|].
    rewrite (elements_read_back (j :: l)); [|done..|cbn in *; lia|lia].
    destruct (print_head j) as (c&t&E&Hs&Hc); [by apply Forall_cons in Hl as [? _]|].
    cbn [map commas]. rewrite E. cbn [app]. by rewrite skip_ws_head, expect_ne.
  - inversion Hok as [| | | | |? Hl]; subst. cbn [json_print app json_depth] in *. rewrite <- app_assoc in *.
    change (map (fun kv => _) kvs) with (map member_text kvs) in Hf |- *.
    cbn [app parse_value] in *. rewrite skip_ws_head, expect_eq by done.
    replace (maxNestingDepth <? d + 1) with false
      by (pose proof (foldr_max_nonneg (map (fun kv => json_depth kv.2) kvs)); lia).
    destruct kvs as [|[k j] kvs]; [reflexivity|].
    rewrite (members_read_back ((k, j) :: kvs)); [|done..|cbn in *; lia|lia].
    cbn [map commas]. unfold member_text at 1. cbn [fst snd].
    by rewrite <- !app_assoc, skip_ws_string.
Qed.

(** The decoder reads back what the encoder wrote. *)
Lemma json_parse_print j :
  json_ok j -> json_depth j <= maxNestingDepth -> json_parse (json_print j) = Some j.
Proof.
  intros Hok Hd. unfold json_parse.
  pose proof (print_reads_back j Hok (S (2 * length (json_print j))) 0 []) as H.
  rewrite app_nil_r in H. rewrite H by (cbn; lia). reflexivity.
Qed.

(** More fuel than [json_parse] takes changes nothing. *)
Lemma json_parse_fuel fuel s :
  (2 * length s < fuel)%nat -> parse_value fuel 0 s = parse_value (S (2 * length s)) 0 s.
Proof. intros Hf. apply parse_fuel; lia. Qed.
