(* ===== verification/ServiceJson.v ===== *)
(** What JSON is to the structs [ApronService] and [ApronServiceProvider]: the
    [encoding/json] codec as their struct tags direct it. The management API and
    the agents that register themselves use nothing else.

    A type mismatch is one error value; Go's names the field. The decoder goes on
    after one, but the error is what it returns in the end. A [providers] list
    that is given more than once is decoded into what the last one left; what
    Go keeps beyond the length of a slice is not modelled. *)

From stdpp Require Import sorting.
From S2P Require Import Prelude Messages Regexp Utf8 Json.

(** ** Encoding *)

(** A member with [omitempty]. *)
Definition member (name : string) (empty : bool) (j : json) : list (bytes * json) :=
  if empty then [] else [(str_bytes name, j)].

Definition opt_string (name s : string) : list (bytes * json) :=
  member name (bool_decide (s = "")) (JString (str_bytes s)).

Definition opt_int (name : string) (z : Z) : list (bytes * json) :=
  member name (bool_decide (z = 0)) (JNumber (FormatInt z)).

Definition provider_members (p : ApronServiceProvider) : list (bytes * json) :=
  (opt_string "id" (Provider_Id p) ++
   opt_string "name" (Provider_Name p) ++
   opt_string "desc" (Provider_Desc p) ++
   opt_int "created_at" (Provider_CreatedAt p) ++
   opt_int "updated_at" (Provider_UpdatedAt p) ++
   opt_string "extra_detail" (Provider_ExtraDetail p) ++
   opt_string "base_url" (Provider_BaseUrl p) ++
   opt_string "schema" (Provider_Schema p) ++
   opt_int "network_type" (Provider_NetworkType p)).

(** An element of [Providers] is a pointer. *)
Definition provider_value (p : option ApronServiceProvider) : json :=
  match p with Some p => JObject (provider_members p) | None => JNull end.

Definition service_members (s : ApronService) : list (bytes * json) :=
  (opt_string "id" (Service_Id s) ++
   opt_string "name" (Service_Name s) ++
   opt_string "desc" (Service_Desc s) ++
   opt_string "logo" (Service_Logo s) ++
   opt_string "usage" (Service_Usage s) ++
   opt_string "user_id" (Service_UserId s) ++
      member "providers" (bool_decide (Service_Providers s = [])) (JArray (provider_value <$>
       Service_Providers s)) ++
   member "is_deleted" (negb (Service_IsDeleted s)) (JBool (Service_IsDeleted s))).

Definition service_value (s : ApronService) : json := JObject (service_members s).

(** [json.Marshal] of a service, of a slice of services, and of a map from strings
    to strings, whose keys are sorted. *)
Definition json_Marshal_service (s : ApronService) : bytes := json_print (service_value s).

Definition json_Marshal_services (l : list ApronService) : bytes :=
  json_print (JArray (service_value <$> l)).

Definition key_le (a b : string * string) : Prop := String.leb a.1 b.1 = true.
#[export] Instance key_le_dec a b : Decision (key_le a b).
Proof. unfold key_le. apply _. Defined.

Definition json_Marshal_strings (m : gmap string string) : bytes :=
  json_print (JObject ((fun kv => (str_bytes kv.1, JString (str_bytes kv.2))) <$>
                       merge_sort key_le (map_to_list m))).

(** ** Decoding *)

Definition syntax_error : goerror := errors_New "invalid JSON".
Definition type_error : goerror := errors_New "json: cannot unmarshal value into Go value".

(** Field names are matched without regard to case; two letters outside ASCII
    fold to [s] and [k]. *)
Fixpoint fold_name (s : bytes) : bytes :=
  match s with
  | [] => []
  | c :: r =>
      match r with
      | d :: r1 =>
          if decide (c = byte_of 197 /\ d = byte_of 191) then "s"%char :: fold_name r1
          else match r1 with
               | e :: r2 =>
                   if decide (c = byte_of 226 /\ d = byte_of 132 /\ e = byte_of 170)
                   then "k"%char :: fold_name r2 else lower c :: fold_name r
               | [] => lower c :: fold_name r
               end
      | [] => lower c :: fold_name r
      end
  end.

(** Into a field that holds [cur]: null leaves it as it is. *)
Definition json_string (cur : string) (j : json) : result string :=
  match j with
  | JString s => Ok (bytes_str s)
  | JNull => Ok cur
  | _ => Fail type_error
  end.

Definition json_bool (cur : bool) (j : json) : result bool :=
  match j with
  | JBool b => Ok b
  | JNull => Ok cur
  | _ => Fail type_error
  end.

Definition digits_val (s : bytes) : Z := fold_left (fun acc c => acc * 10 + (byte_val c - 48)) s 0.

(** [strconv.ParseInt(lit, 10, 64)] on a number of the grammar. *)
Definition ParseInt (lit : bytes) : option Z :=
  let '(sign, d) := optional minus lit in
  if bool_decide (d <> []) && forallb digit d then
    Some (if decide (sign = []) then digits_val d else - digits_val d)
  else None.

Definition json_int (bits : Z) (cur : Z) (j : json) : result Z :=
  match j with
  | JNumber lit =>
      match ParseInt lit with
      | Some z => if decide (- 2 ^ (bits - 1) <= z < 2 ^ (bits - 1)) then Ok z else Fail type_error
      | None => Fail type_error
      end
  | JNull => Ok cur
  | _ => Fail type_error
  end.

(** The members of an object, one after the other, into a struct; names that it
    does not have are skipped. *)
Fixpoint json_members {T} (set : T -> bytes * json -> result T) (kvs : list (bytes * json)) (cur :
    T)
    : result T :=
  match kvs with
  | [] => Ok cur
  | kv :: kvs => cur ← set cur kv; json_members set kvs cur
  end.

Definition set_provider_field (p : ApronServiceProvider) (kv : bytes * json)
    : result ApronServiceProvider :=
  let k := bytes_str (fold_name kv.1) in
  if decide (k = "id") then
        (fun v => mkProvider v (Provider_Name p) (Provider_Desc p) (Provider_CreatedAt p)
        (Provider_UpdatedAt p) (Provider_ExtraDetail p) (Provider_BaseUrl p) (Provider_Schema p)
        (Provider_NetworkType p))
    <$> json_string (Provider_Id p) kv.2
  else if decide (k = "name") then
        (fun v => mkProvider (Provider_Id p) v (Provider_Desc p) (Provider_CreatedAt p)
        (Provider_UpdatedAt p) (Provider_ExtraDetail p) (Provider_BaseUrl p) (Provider_Schema p)
        (Provider_NetworkType p))
    <$> json_string (Provider_Name p) kv.2
  else if decide (k = "desc") then
        (fun v => mkProvider (Provider_Id p) (Provider_Name p) v (Provider_CreatedAt p)
        (Provider_UpdatedAt p) (Provider_ExtraDetail p) (Provider_BaseUrl p) (Provider_Schema p)
        (Provider_NetworkType p))
    <$> json_string (Provider_Desc p) kv.2
  else if decide (k = "created_at") then
        (fun v => mkProvider (Provider_Id p) (Provider_Name p) (Provider_Desc p) v
        (Provider_UpdatedAt p) (Provider_ExtraDetail p) (Provider_BaseUrl p) (Provider_Schema p)
        (Provider_NetworkType p))
    <$> json_int 64 (Provider_CreatedAt p) kv.2
  else if decide (k = "updated_at") then
        (fun v => mkProvider (Provider_Id p) (Provider_Name p) (Provider_Desc p)
        (Provider_CreatedAt p) v (Provider_ExtraDetail p) (Provider_BaseUrl p) (Provider_Schema p)
        (Provider_NetworkType p))
    <$> json_int 64 (Provider_UpdatedAt p) kv.2
  else if decide (k = "extra_detail") then
        (fun v => mkProvider (Provider_Id p) (Provider_Name p) (Provider_Desc p)
        (Provider_CreatedAt p) (Provider_UpdatedAt p) v (Provider_BaseUrl p) (Provider_Schema p)
        (Provider_NetworkType p))
    <$> json_string (Provider_ExtraDetail p) kv.2
  else if decide (k = "base_url") then
        (fun v => mkProvider (Provider_Id p) (Provider_Name p) (Provider_Desc p)
        (Provider_CreatedAt p) (Provider_UpdatedAt p) (Provider_ExtraDetail p) v (Provider_Schema
        p) (Provider_NetworkType p))
    <$> json_string (Provider_BaseUrl p) kv.2
  else if decide (k = "schema") then
        (fun v => mkProvider (Provider_Id p) (Provider_Name p) (Provider_Desc p)
        (Provider_CreatedAt p) (Provider_UpdatedAt p) (Provider_ExtraDetail p) (Provider_BaseUrl
        p) v (Provider_NetworkType p))
    <$> json_string (Provider_Schema p) kv.2
  else if decide (k = "network_type") then
        (fun v => mkProvider (Provider_Id p) (Provider_Name p) (Provider_Desc p)
        (Provider_CreatedAt p) (Provider_UpdatedAt p) (Provider_ExtraDetail p) (Provider_BaseUrl
        p) (Provider_Schema p) v)
    <$> json_int 32 (Provider_NetworkType p) kv.2
  else Ok p.

Definition json_provider (cur : option ApronServiceProvider) (j : json)
    : result (option ApronServiceProvider) :=
  match j with
    | JObject kvs => Some <$> json_members set_provider_field kvs (default
      zero_ApronServiceProvider cur)
  | JNull => Ok None
  | _ => Fail type_error
  end.

Fixpoint json_provider_list (cur : list (option ApronServiceProvider)) (l : list json)
    : result (list (option ApronServiceProvider)) :=
  match l with
  | [] => Ok []
  | j :: l =>
      p ← json_provider (default None (head cur)) j;
      ps ← json_provider_list (tail cur) l;
      Ok (p :: ps)
  end.

Definition json_providers (cur : list (option ApronServiceProvider)) (j : json)
    : result (list (option ApronServiceProvider)) :=
  match j with
  | JArray l => json_provider_list cur l
  | JNull => Ok []
  | _ => Fail type_error
  end.

Definition set_service_field (s : ApronService) (kv : bytes * json) : result ApronService :=
  let k := bytes_str (fold_name kv.1) in
  if decide (k = "id") then
        (fun v => mkService v (Service_Name s) (Service_Desc s) (Service_Logo s) (Service_Usage s)
        (Service_UserId s) (Service_Providers s) (Service_IsDeleted s))
    <$> json_string (Service_Id s) kv.2
  else if decide (k = "name") then
        (fun v => mkService (Service_Id s) v (Service_Desc s) (Service_Logo s) (Service_Usage s)
        (Service_UserId s) (Service_Providers s) (Service_IsDeleted s))
    <$> json_string (Service_Name s) kv.2
  else if decide (k = "desc") then
        (fun v => mkService (Service_Id s) (Service_Name s) v (Service_Logo s) (Service_Usage s)
        (Service_UserId s) (Service_Providers s) (Service_IsDeleted s))
    <$> json_string (Service_Desc s) kv.2
  else if decide (k = "logo") then
        (fun v => mkService (Service_Id s) (Service_Name s) (Service_Desc s) v (Service_Usage s)
        (Service_UserId s) (Service_Providers s) (Service_IsDeleted s))
    <$> json_string (Service_Logo s) kv.2
  else if decide (k = "usage") then
        (fun v => mkService (Service_Id s) (Service_Name s) (Service_Desc s) (Service_Logo s) v
        (Service_UserId s) (Service_Providers s) (Service_IsDeleted s))
    <$> json_string (Service_Usage s) kv.2
  else if decide (k = "user_id") then
        (fun v => mkService (Service_Id s) (Service_Name s) (Service_Desc s) (Service_Logo s)
        (Service_Usage s) v (Service_Providers s) (Service_IsDeleted s))
    <$> json_string (Service_UserId s) kv.2
  else if decide (k = "providers") then
        (fun v => mkService (Service_Id s) (Service_Name s) (Service_Desc s) (Service_Logo s)
        (Service_Usage s) (Service_UserId s) v (Service_IsDeleted s))
    <$> json_providers (Service_Providers s) kv.2
  else if decide (k = "is_deleted") then
        (fun v => mkService (Service_Id s) (Service_Name s) (Service_Desc s) (Service_Logo s)
        (Service_Usage s) (Service_UserId s) (Service_Providers s) v)
    <$> json_bool (Service_IsDeleted s) kv.2
  else Ok s.

Definition service_of (j : json) : result ApronService :=
  match j with
  | JObject kvs => json_members set_service_field kvs zero_ApronService
  | JNull => Ok zero_ApronService
  | _ => Fail type_error
  end.

(** [json.Unmarshal(body, &service)] into a zero [ApronService]. *)
Definition json_Unmarshal_service (body : bytes) : result ApronService :=
  match json_parse body with
  | Some j => service_of j
  | None => Fail syntax_error
  end.

(** What a reply says: the same for a slice of services. *)
Definition json_Unmarshal_services (body : bytes) : result (list ApronService) :=
  match json_parse body with
  | Some (JArray l) => mapM service_of l
  | Some _ => Fail type_error
  | None => Fail syntax_error
  end.

(** ** Lemmas *)

(** *** Numbers *)

Lemma digits_val_snoc s c : digits_val (s ++ [c]) = digits_val s * 10 + (byte_val c - 48).
Proof. unfold digits_val. by rewrite fold_left_app. Qed.

Lemma digits_val_format fuel n :
  0 <= n < 10 ^ Z.of_nat fuel -> (0 < fuel)%nat -> digits_val (format_digits fuel n) = n.
Proof.
  revert n. induction fuel as [|fuel IH]; intros n Hn Hf; [lia|]. cbn [format_digits].
  assert (forall d, 0 <= d < 10 -> byte_val (decimal_digit d) = 48 + d) as Hd
    by (intros d ?; apply byte_val_small; lia).
  destruct (n <? 10) eqn:E.
  - unfold digits_val. cbn [fold_left]. rewrite Hd by lia. lia.
  - rewrite Nat2Z.inj_succ, Z.pow_succ_r in Hn by lia. rewrite digits_val_snoc, Hd, IH.
    + Z.to_euclidean_division_equations; lia.
    + Z.to_euclidean_division_equations; lia.
    + destruct fuel; [cbn in *; lia|lia].
    + Z.to_euclidean_division_equations; lia.
Qed.

Lemma ParseInt_FormatInt z : small_int z -> ParseInt (FormatInt z) = Some z.
Proof.
  intros Hz. unfold ParseInt, FormatInt. unfold small_int in Hz.
  assert (0 <= Z.abs z < 10 ^ Z.of_nat 20) as Habs by lia.
  pose proof (digits_val_format 20 (Z.abs z) Habs ltac:(lia)) as Hv.
  destruct (format_digits_spec 20 (Z.abs z) Habs) as (c&t&E&Hall&_); [lia|]. rewrite E in *.
  assert (forallb digit (c :: t) = true) as Hb.
  { apply List.forallb_forall. intros x Hx%list_elem_of_In. by apply (proj1 (Forall_forall _ _) Hall). }
  assert (minus c = false) as Hm.
  { apply Forall_cons in Hall as [Hd _]. apply bool_decide_eq_false_2. by intros ->. }
  destruct (z <? 0) eqn:Hz0; cbn [app optional].
  - change (minus "-") with true. cbn iota. rewrite Hb, Hv. rewrite bool_decide_true by done. cbn [andb]. rewrite decide_False by done. f_equal. lia.
  - rewrite Hm, Hb, Hv, bool_decide_true by done. cbn [andb]. rewrite decide_True by done. f_equal. lia.
Qed.

Lemma json_int_FormatInt bits cur z :
  0 < bits <= 64 -> - 2 ^ (bits - 1) <= z < 2 ^ (bits - 1) ->
  json_int bits cur (JNumber (FormatInt z)) = Ok z.
Proof.
  intros Hb Hz. unfold json_int. rewrite ParseInt_FormatInt; [by rewrite decide_True|].
  unfold small_int. assert (2 ^ (bits - 1) <= 2 ^ 63) by (apply Z.pow_le_mono_r; lia). lia.
Qed.

(** *** What a value of the Go types is *)

Definition text (s : string) : Prop := utf8_Valid (str_bytes s) = true.
Definition int_range (bits z : Z) : Prop := - 2 ^ (bits - 1) <= z < 2 ^ (bits - 1).

(** The strings are UTF-8 and the integers in the range of their types. *)
Definition provider_typed (p : ApronServiceProvider) : Prop :=
  Forall text [Provider_Id p; Provider_Name p; Provider_Desc p; Provider_ExtraDetail p;
               Provider_BaseUrl p; Provider_Schema p] /\
  int_range 64 (Provider_CreatedAt p) /\ int_range 64 (Provider_UpdatedAt p) /\
  int_range 32 (Provider_NetworkType p).

Definition from_option_typed (p : option ApronServiceProvider) : Prop :=
  from_option provider_typed True p.

Definition service_typed (s : ApronService) : Prop :=
  Forall text [Service_Id s; Service_Name s; Service_Desc s; Service_Logo s; Service_Usage s;
               Service_UserId s] /\
  Forall from_option_typed (Service_Providers s).

(** *** Encode, then decode *)

Section members.
Context {T : Type} (set : T -> bytes * json -> result T).

Lemma members_member {A} (dec : json -> result A) name b j v rest cur upd :
  dec j = Ok v -> (b = true -> upd v = cur) ->
  (forall j, set cur (str_bytes name, j) = upd <$> dec j) ->
  json_members set (member name b j ++ rest) cur = json_members set rest (upd v).
Proof.
  intros Hdec Hcur Hset. unfold member. destruct b; [by rewrite Hcur|].
  cbn [app json_members]. by rewrite Hset, Hdec.
Qed.

Lemma members_string name s rest cur upd :
  (forall j, set cur (str_bytes name, j) = upd <$> json_string "" j) -> upd "" = cur ->
  json_members set (opt_string name s ++ rest) cur = json_members set rest (upd s).
Proof.
  intros Hset Hcur. eapply members_member; [|intros ->%bool_decide_eq_true; exact Hcur|exact Hset].
  cbn. by rewrite str_bytes_inv.
Qed.

Lemma members_int bits name z rest cur upd :
  0 < bits <= 64 -> int_range bits z ->
  (forall j, set cur (str_bytes name, j) = upd <$> json_int bits 0 j) -> upd 0 = cur ->
  json_members set (opt_int name z ++ rest) cur = json_members set rest (upd z).
Proof.
  intros Hb Hz Hset Hcur. eapply members_member; [|intros ->%bool_decide_eq_true; exact Hcur|exact Hset].
  by apply json_int_FormatInt.
Qed.

(** What every accepted member keeps. *)
Lemma json_members_inv (P : T -> Prop) (Q : json -> Prop) kvs cur r :
  (forall cur kv r, P cur -> Q kv.2 -> set cur kv = Ok r -> P r) ->
  Forall (fun kv => Q kv.2) kvs -> P cur -> json_members set kvs cur = Ok r -> P r.
Proof.
  intros Hset HQ. revert cur. induction HQ as [|kv kvs Hkv _ IH]; intros cur HP; cbn.
  - by intros [= <-].
  - destruct (set cur kv) as [c|] eqn:E; cbn; [|done]. apply IH. by eapply Hset.
Qed.
End members.

(** The field that a name selects. *)
Ltac select_name :=
  cbn [fst snd];
  repeat first [rewrite decide_True by (vm_compute; reflexivity)
               |rewrite decide_False by (vm_compute; discriminate)];
  cbn [Provider_Id Provider_Name Provider_Desc Provider_CreatedAt Provider_UpdatedAt
       Provider_ExtraDetail Provider_BaseUrl Provider_Schema Provider_NetworkType
       Service_Id Service_Name Service_Desc Service_Logo Service_Usage Service_UserId
       Service_Providers Service_IsDeleted json_providers].
Ltac select_field := intros j; unfold set_provider_field, set_service_field; select_name; reflexivity.

Lemma provider_round_trip p cur :
  provider_typed p -> cur = None -> json_provider cur (provider_value (Some p)) = Ok (Some p).
Proof.
  intros (_&Hc&Hu&Hn) ->. cbn [provider_value json_provider]. unfold provider_members.
  rewrite <- (app_nil_r (_ ++ _)), <- !app_assoc.
  do 3 (erewrite members_string; [|select_field|reflexivity]).
  do 2 (erewrite (members_int _ 64); [|lia|assumption|select_field|reflexivity]).
  do 3 (erewrite members_string; [|select_field|reflexivity]).
  erewrite (members_int _ 32); [|lia|assumption|select_field|reflexivity].
  by destruct p.
Qed.

Lemma provider_list_round_trip l :
  Forall from_option_typed l -> json_provider_list [] (provider_value <$> l) = Ok l.
Proof.
  induction 1 as [|p l Hp _ IH]; [done|]. cbn [fmap list_fmap json_provider_list head default].
  change (default None (head [])) with (@None ApronServiceProvider). cbn [tail].
  destruct p as [p|].
  - rewrite provider_round_trip by done. cbn. by rewrite IH.
  - cbn. by rewrite IH.
Qed.

Lemma service_of_value s : service_typed s -> service_of (service_value s) = Ok s.
Proof.
  intros [_ Hp]. unfold service_value, service_members. cbn [service_of].
  rewrite <- (app_nil_r (_ ++ _)), <- !app_assoc.
  do 6 (erewrite members_string; [|select_field|reflexivity]).
  erewrite (members_member _ (json_providers [])); [|by apply provider_list_round_trip| |select_field].
  2: { intros ->%bool_decide_eq_true. reflexivity. }
  erewrite (members_member _ (json_bool false)); [|reflexivity| |select_field].
  2: { by intros ->%negb_true_iff. }
  by destruct s.
Qed.

(** The members of the structs, by their form. *)
Lemma member_forall (Q : bytes * json -> Prop) name b j :
  (b = false -> Q (str_bytes name, j)) -> Forall Q (member name b j).
Proof. unfold member. destruct b; [constructor|]. intros H. constructor; auto. Qed.

Lemma depth_object d kvs :
  0 <= d -> Forall (fun kv => json_depth kv.2 <= d) kvs -> json_depth (JObject kvs) <= 1 + d.
Proof. intros Hd H. cbn. induction H; cbn; lia. Qed.

Lemma depth_array d l : 0 <= d -> Forall (fun j => json_depth j <= d) l -> json_depth (JArray l) <= 1 + d.
Proof. intros Hd H. cbn. induction H; cbn; lia. Qed.

Ltac each_member := unfold provider_members, service_members, opt_string, opt_int;
  rewrite !Forall_app; split_and!; apply member_forall; intros ?.

Lemma depth_provider p : json_depth (provider_value p) <= 1.
Proof.
  destruct p as [p|]; [|cbn; lia]. apply (depth_object 0); [lia|]. each_member; cbn; lia.
Qed.

Lemma depth_service s : json_depth (service_value s) <= 3.
Proof.
  apply (depth_object 2); [lia|]. each_member; try (cbn; lia).
  apply (depth_array 1); [lia|]. apply Forall_fmap, Forall_true. intros p. apply depth_provider.
Qed.

Lemma int_range_small bits z : bits <= 64 -> int_range bits z -> small_int z.
Proof.
  intros Hb Hz. unfold small_int, int_range in *.
  assert (2 ^ (bits - 1) <= 2 ^ 63); [|lia].
  destruct (decide (bits < 1)); [rewrite Z.pow_neg_r by lia; lia|apply Z.pow_le_mono_r; lia].
Qed.

Lemma ok_text s : text s -> json_ok (JString (str_bytes s)).
Proof. apply ok_string. Qed.

Lemma ok_int bits z : bits <= 64 -> int_range bits z -> json_ok (JNumber (FormatInt z)).
Proof. intros Hb Hz. apply ok_number. by eapply int_range_small. Qed.

Lemma provider_ok p : from_option_typed p -> json_ok (provider_value p).
Proof.
  destruct p as [p|]; [|constructor]. intros (Ht&Hc&Hu&Hn). apply ok_object.
  rewrite !Forall_cons in Ht. destruct_and!.
  each_member; (split; [reflexivity|]);
    first [by apply ok_text|by apply (ok_int 64)|by apply (ok_int 32)].
Qed.

Lemma service_ok s : service_typed s -> json_ok (service_value s).
Proof.
  intros (Ht&Hp). apply ok_object. rewrite !Forall_cons in Ht. destruct_and!.
  each_member; (split; [reflexivity|]); eauto using ok_text, ok_bool.
  apply ok_array, Forall_fmap. eapply Forall_impl; [exact Hp|]. intros q. apply provider_ok.
Qed.

Lemma parse_Marshal_service s : service_typed s -> json_parse (json_Marshal_service s) = Some (service_value s).
Proof.
  intros Hs. apply json_parse_print; [by apply service_ok|].
  pose proof (depth_service s). unfold maxNestingDepth. lia.
Qed.

Lemma Unmarshal_Marshal_service s : service_typed s -> json_Unmarshal_service (json_Marshal_service s) = Ok s.
Proof.
  intros Hs. unfold json_Unmarshal_service. rewrite parse_Marshal_service by done. by apply service_of_value.
Qed.

Lemma Unmarshal_Marshal_services l :
  Forall service_typed l -> json_Unmarshal_services (json_Marshal_services l) = Ok l.
Proof.
  intros Hl. unfold json_Unmarshal_services, json_Marshal_services. rewrite json_parse_print.
  - induction Hl as [|s l Hs _ IH]; [done|]. cbn [fmap list_fmap mapM]. rewrite service_of_value by done.
    cbn. by rewrite IH.
  - apply ok_array, Forall_fmap. eapply Forall_impl; [exact Hl|]. intros s. apply service_ok.
  - transitivity (1 + 3); [|unfold maxNestingDepth; lia]. apply depth_array; [lia|].
    apply Forall_fmap, Forall_true. intros s. apply depth_service.
Qed.

(** *** What decoding gives is typed *)

(** Every string of a value that was read is UTF-8. *)
Inductive json_texts : json -> Prop :=
  | texts_null : json_texts JNull
  | texts_bool b : json_texts (JBool b)
  | texts_number lit : json_texts (JNumber lit)
  | texts_string s : utf8_Valid s = true -> json_texts (JString s)
  | texts_array l : Forall json_texts l -> json_texts (JArray l)
  | texts_object kvs : Forall (fun kv => json_texts kv.2) kvs -> json_texts (JObject kvs).
#[local] Hint Constructors json_texts : core.

Lemma parse_texts fuel :
  (forall d s j r, parse_value fuel d s = Some (j, r) -> json_texts j) /\
  (forall d s l r, parse_elements fuel d s = Some (l, r) -> Forall json_texts l) /\
  (forall d s l r, parse_members fuel d s = Some (l, r) -> Forall (fun kv => json_texts kv.2) l).
Proof.
  induction fuel as [|fuel (IHv&IHe&IHm)]; [done|]. split_and!.
  - intros d s j r. cbn [parse_value].
    destruct (expect "{" _); [destruct (_ <? _); [done|]; destruct (expect "}" _);
      [intros [= <- _]; auto|intros ([? ?]&?%IHm&[= <- _])%bind_Some; auto]|].
    destruct (expect "[" _); [destruct (_ <? _); [done|]; destruct (expect "]" _);
      [intros [= <- _]; auto|intros ([? ?]&?%IHe&[= <- _])%bind_Some; auto]|].
    do 3 (destruct (expect_all _ _); [intros [= <- _]; auto|]).
    destruct (parse_string _) as [[v r']|] eqn:E; [intros [= <- _]; apply parse_string_valid in E; auto|].
    intros ([? ?]&_&[= <- _])%bind_Some. auto.
  - intros d s l r. cbn [parse_elements]. intros ([j r1]&?%IHv&H)%bind_Some. revert H.
    destruct (expect "]" _); [intros [= <- _]; auto|].
    intros (?&_&([? ?]&?%IHe&[= <- _])%bind_Some)%bind_Some. auto.
  - intros d s l r. cbn [parse_members].
    intros ([k r1]&_&(?&_&([j r2]&?%IHv&H)%bind_Some)%bind_Some)%bind_Some. revert H.
    destruct (expect "}" _); [intros [= <- _]; auto|].
    intros (?&_&([? ?]&?%IHm&[= <- _])%bind_Some)%bind_Some. auto.
Qed.

Lemma json_parse_texts s j : json_parse s = Some j -> json_texts j.
Proof.
  intros ([j' r]&H&Hr)%bind_Some. apply (proj1 (parse_texts _)) in H. case_decide; by simplify_eq.
Qed.

Lemma json_string_text cur j v : text cur -> json_texts j -> json_string cur j = Ok v -> text v.
Proof.
  intros Hc Hj. destruct j; cbn; try done; intros [= <-]; [done|]. inversion Hj.
  unfold text. by rewrite bytes_str_inv.
Qed.

Lemma json_int_range bits cur j z : int_range bits cur -> json_int bits cur j = Ok z -> int_range bits z.
Proof.
  intros Hc. destruct j; cbn; try done; [by intros [= <-]|].
  destruct (ParseInt lit); [|done]. case_decide; [|done]. by intros [= <-].
Qed.

Lemma fmap_result_Ok {A B} (f : A -> B) (m : result A) b : f <$> m = Ok b -> exists a, m = Ok a /\ b = f a.
Proof. destruct m; [|done]. intros [= <-]. eauto. Qed.

(** The branches of a field setter. *)
Ltac field_cases :=
  repeat (case_decide;
    [intros (v&Hv&->)%fmap_result_Ok|]);
  [..|by intros [= <-]].

Lemma set_provider_field_typed p kv r :
  provider_typed p -> json_texts kv.2 -> set_provider_field p kv = Ok r -> provider_typed r.
Proof.
  intros Hp Hkv. pose proof Hp as (Ht&Hc&Hu&Hn). rewrite !Forall_cons in Ht. destruct_and! Ht. unfold set_provider_field.
  field_cases; unfold provider_typed; rewrite !Forall_cons; cbn;
    first [apply json_string_text in Hv; auto using Forall_nil_2; tauto
          |apply json_int_range in Hv; auto using Forall_nil_2; tauto].
Qed.

Lemma zero_provider_typed : provider_typed zero_ApronServiceProvider.
Proof. unfold provider_typed, int_range. rewrite !Forall_cons. by split_and!. Qed.

Lemma json_provider_typed cur j p :
  from_option_typed cur -> json_texts j -> json_provider cur j = Ok p -> from_option_typed p.
Proof.
  intros Hc Hj. destruct j; cbn [json_provider]; try done; [by intros [= <-]|].
  intros (q&Hq&->)%fmap_result_Ok. cbn.
  eapply (json_members_inv _ provider_typed json_texts); [apply set_provider_field_typed| | |exact Hq].
  - by inversion Hj.
  - destruct cur; [exact Hc|apply zero_provider_typed].
Qed.

Lemma json_provider_list_typed cur l ps :
  Forall from_option_typed cur -> Forall json_texts l -> json_provider_list cur l = Ok ps ->
  Forall from_option_typed ps.
Proof.
  intros Hc Hl. revert cur ps Hc. induction Hl as [|j l Hj _ IH]; intros cur ps Hc; cbn.
  { intros [= <-]. constructor. }
  destruct (json_provider _ j) as [p|] eqn:Ep; cbn; [|done].
  destruct (json_provider_list _ l) as [qs|] eqn:Eq; cbn; [|done]. intros [= <-].
  constructor; [eapply json_provider_typed; [|exact Hj|exact Ep]|eapply IH; [|exact Eq]].
  - by destruct Hc.
  - by destruct Hc.
Qed.

Lemma set_service_field_typed s kv r :
  service_typed s -> json_texts kv.2 -> set_service_field s kv = Ok r -> service_typed r.
Proof.
  intros Hs Hkv. pose proof Hs as (Ht&Hp). rewrite !Forall_cons in Ht. destruct_and! Ht.
  unfold set_service_field.
  field_cases; unfold service_typed; rewrite !Forall_cons; cbn;
    try (apply json_string_text in Hv; auto using Forall_nil_2; tauto); auto 9 using Forall_nil_2.
  enough (Forall from_option_typed v) by auto 9 using Forall_nil_2.
  destruct kv as [k j]. destruct j; cbn in Hv; try done; [simplify_eq; constructor|].
  eapply json_provider_list_typed; [exact Hp| |exact Hv]. by inversion Hkv.
Qed.

Lemma zero_service_typed : service_typed zero_ApronService.
Proof. split; [|constructor]. rewrite !Forall_cons. by split_and!. Qed.

Lemma service_of_typed j s : json_texts j -> service_of j = Ok s -> service_typed s.
Proof.
  intros Hj. destruct j; cbn [service_of]; try done; [by intros [= <-]; apply zero_service_typed|].
  apply (json_members_inv _ service_typed json_texts); [apply set_service_field_typed| |apply zero_service_typed].
  by inversion Hj.
Qed.

Lemma Unmarshal_service_typed body s : json_Unmarshal_service body = Ok s -> service_typed s.
Proof.
  unfold json_Unmarshal_service. destruct (json_parse body) as [j|] eqn:E; [|done].
  apply service_of_typed. by eapply json_parse_texts.
Qed.

(** ** Properties *)

(** C24: a service survives its JSON: the encoder leaves out what is empty, escapes
    what HTML would take for markup, writes nil providers as null, and the
    decoder gives back the same struct; so it does for the lists. *)
Theorem service_json_round_trip (s : ApronService) (l : list ApronService)
    (Hs : service_typed s) (Hl : Forall service_typed l) :
  json_Unmarshal_service (json_Marshal_service s) = Ok s /\
  json_Unmarshal_services (json_Marshal_services l) = Ok l.
Proof. split; [by apply Unmarshal_Marshal_service|by apply Unmarshal_Marshal_services]. Qed.

(** A service with characters that the encoder escapes, and a nil provider. *)
Definition example_json_service : ApronService :=
  mkService "a<b" (String quote "&") "" "" "" ""
    [None; Some (mkProvider "p" "" "" (-12) (2 ^ 63 - 1) "" "h:1" "http" 1)] true.

Lemma example_json_typed : service_typed example_json_service.
Proof.
  split; [rewrite !Forall_cons; by split_and!|].
  constructor; [exact I|]. constructor; [|constructor].
  unfold from_option_typed, provider_typed, int_range. cbn. rewrite !Forall_cons. by split_and!.
Qed.

Example service_json_round_trip_witness :
  service_typed example_json_service /\
  json_Unmarshal_service (json_Marshal_service example_json_service) = Ok example_json_service.
Proof.
  split; [exact example_json_typed|].
  apply (service_json_round_trip example_json_service []); [exact example_json_typed|constructor].
Defined.

(** C25: whatever the body, a service that is accepted has UTF-8 strings and
    integers in the range of their Go types, stray bytes and lone surrogates
    replaced; encoded again, it is read back unchanged. *)
Theorem decoded_service_typed (body : bytes) (s : ApronService)
    (Hbody : json_Unmarshal_service body = Ok s) :
  service_typed s /\ json_Unmarshal_service (json_Marshal_service s) = Ok s.
Proof.
  apply Unmarshal_service_typed in Hbody. split; [done|]. by apply Unmarshal_Marshal_service.
Qed.

(** An escape that is half of a pair, capitals in a name, an unknown member and a
    null. *)
Definition example_json_body : bytes :=
  str_bytes "{ " ++ encode_string (str_bytes "ID") ++ str_bytes " : " ++
  [quote] ++ str_bytes "\ud83d!" ++ [quote] ++ str_bytes ", " ++
  encode_string (str_bytes "other") ++ str_bytes ": [1.5e3, {}], " ++
  encode_string (str_bytes "name") ++ str_bytes ":null}".

Example decoded_service_typed_witness : exists s,
  json_Unmarshal_service example_json_body = Ok s /\ service_typed s /\
  str_bytes (Service_Id s) = replacement ++ str_bytes "!".
Proof.
  destruct (json_Unmarshal_service example_json_body) as [s|] eqn:E; [|by vm_compute in E].
  exists s. split_and!; [reflexivity|by apply (decoded_service_typed example_json_body)|].
  vm_compute in E. injection E as <-. vm_compute. reflexivity.
Defined.

(** Decoding a body always ends. The two mutually recursive readers of nested
    values make at most two calls for each byte of the text, so that any fuel
    above twice its length gives the same answer: no body, however nested, makes
    the handler run for ever, and none is refused for want of fuel. *)
Theorem decoding_terminates (body : bytes) (fuel : nat) (Hfuel : (2 * length body < fuel)%nat) :
  json_Unmarshal_service body =
    match parse_value fuel 0 body with
    | Some (j, r) => if decide (skip_ws r = []) then service_of j else Fail syntax_error
    | None => Fail syntax_error
    end.
Proof.
  rewrite (json_parse_fuel fuel body Hfuel). unfold json_Unmarshal_service, json_parse.
  destruct (parse_value _ 0 body) as [[j r]|]; cbn; [|done]. by case_decide.
Qed.

Example decoding_terminates_witness :
  json_Unmarshal_service (str_bytes "{}") = Ok zero_ApronService.
Proof.
  rewrite (decoding_terminates (str_bytes "{}") 100); [vm_compute; reflexivity|].
  apply (bool_decide_unpack _). vm_compute. exact I.
Defined.
