(* ===== verification/Url.v ===== *)
(** The parts of Go's [net/url] and [path] packages that
    [BuildHttpRequestToService] uses: [url.Parse], [URL.String] and [path.Join].

    Errors carry the inner message only, without the quoted URL that
    [url.Error] puts in front of it. *)

From S2P Require Import Prelude Regexp.

(** ** [strings] *)

(** [strings.Cut] at a one-byte separator: before, after, found. *)
Definition Cut (sep : ascii) (s : bytes) : bytes * bytes * bool :=
  match cut sep s with
  | Some (before, after) => (before, after, true)
  | None => (s, [], false)
  end.

(** What is before and after the last separator, if there is one. *)
Fixpoint CutLast (sep : ascii) (s : bytes) : option (bytes * bytes) :=
  match s with
  | [] => None
  | c :: s =>
      match CutLast sep s with
      | Some (before, after) => Some (c :: before, after)
      | None => if decide (c = sep) then Some ([], s) else None
      end
  end.

(** What is before a text and what starts with it. *)
Fixpoint split_at (p : bytes) (s : bytes) : option (bytes * bytes) :=
  if bool_decide (take (length p) s = p) then Some ([], s)
  else match s with
       | [] => None
       | c :: s => prod_map (cons c) id <$> split_at p s
       end.

Definition contains (c : ascii) (s : bytes) : bool := bool_decide (c ∈ s).

(** ** Escaping *)

Inductive encoding := encodePath | encodeHost | encodeZone | encodeUserPassword | encodeFragment.

#[export] Instance encoding_eq_dec : EqDecision encoding.
Proof. solve_decision. Defined.

Definition one_of (chars : string) (c : ascii) : bool := contains c (str_bytes chars).

(** The double quote is the byte 34. *)
Definition host_char (c : ascii) : bool := one_of "!$&'()*+,;=:[]<>" c || (byte_val c =? 34).

Definition shouldEscape (c : ascii) (mode : encoding) : bool :=
  if letter c || digit c then false
  else if bool_decide (mode = encodeHost \/ mode = encodeZone) && host_char c then false
  else if one_of "-_.~" c then false
  else if one_of "$&+,/:;=?@" c && bool_decide (mode <> encodeHost /\ mode <> encodeZone) then
    match mode with
    | encodePath => one_of "?" c
    | encodeUserPassword => one_of "@/?:" c
    | _ => false
    end
  else if bool_decide (mode = encodeFragment) && one_of "!()*" c then false
  else true.

Definition upper_hex (d : Z) : ascii := byte_of (if d <? 10 then 48 + d else 55 + d).

Definition escape_byte (mode : encoding) (c : ascii) : bytes :=
  if shouldEscape c mode then
    ["%"%char; upper_hex (byte_val c / 16); upper_hex (byte_val c mod 16)]
  else [c].

Definition escape (s : bytes) (mode : encoding) : bytes := concat (escape_byte mode <$> s).

Definition EscapeError (s : bytes) : goerror :=
  errors_New ("invalid URL escape " +:+ bytes_str s).
Definition InvalidHostError (s : bytes) : goerror :=
  errors_New ("invalid character " +:+ bytes_str s +:+ " in host name").

(** Whether an escape of the byte [h * 16 + l] is refused in this mode. *)
Definition bad_escape (mode : encoding) (h l : Z) : bool :=
  let is25 := (h =? 2) && (l =? 5) in
  match mode with
  | encodeHost => (h <? 8) && negb is25
  | encodeZone =>
      let v := byte_of (h * 16 + l) in
      negb is25 && negb (one_of " " v) && shouldEscape v encodeHost
  | _ => false
  end.

Fixpoint unescape (s : bytes) (mode : encoding) : result bytes :=
  match s with
  | [] => Ok []
  | c :: s' =>
      if decide (c = "%"%char) then
        match s' with
        | x :: y :: s'' =>
            match unhex x, unhex y with
            | Some h, Some l =>
                if bad_escape mode h l then Fail (EscapeError [c; x; y])
                else cons (byte_of (h * 16 + l)) <$> unescape s'' mode
            | _, _ => Fail (EscapeError (take 3 s))
            end
        | _ => Fail (EscapeError s)
        end
      else if bool_decide (mode = encodeHost \/ mode = encodeZone) && (byte_val c <? 128) &&
              shouldEscape c mode
      then Fail (InvalidHostError [c])
      else cons c <$> unescape s' mode
  end.

Definition validEncoded (s : bytes) (mode : encoding) : bool :=
  forallb (fun c => one_of "!$&'()*+,;=:@[]%" c || negb (shouldEscape c mode)) s.

(** ** [url.URL] *)

Record Userinfo := mkUserinfo { username : bytes; password : option bytes }.

Record URL := mkURL {
  URL_Scheme : bytes;
  URL_Opaque : bytes;
  URL_User : option Userinfo;
  URL_Host : bytes;
  URL_Path : bytes;
  URL_RawPath : bytes;
  URL_OmitHost : bool;
  URL_ForceQuery : bool;
  URL_RawQuery : bytes;
  URL_Fragment : bytes;
  URL_RawFragment : bytes
}.

Definition set_Path (path : bytes) (u : URL) : URL :=
  mkURL (URL_Scheme u) (URL_Opaque u) (URL_User u) (URL_Host u) path (URL_RawPath u) (URL_OmitHost u) (URL_ForceQuery u)
    (URL_RawQuery u) (URL_Fragment u) (URL_RawFragment u).

Definition set_Fragment (fragment raw : bytes) (u : URL) : URL :=
  mkURL (URL_Scheme u) (URL_Opaque u) (URL_User u) (URL_Host u) (URL_Path u) (URL_RawPath u) (URL_OmitHost u) (URL_ForceQuery u)
    (URL_RawQuery u) fragment raw.

(** ** [url.Parse] *)

(** [acc] is what was read: nothing yet is [i == 0]. *)
Fixpoint scan_scheme (acc s : bytes) : result (option (bytes * bytes)) :=
  match s with
  | [] => Ok None
  | c :: s =>
      if letter c then scan_scheme (acc ++ [c]) s
      else if digit c || one_of "+-." c then
        if decide (acc = []) then Ok None else scan_scheme (acc ++ [c]) s
      else if decide (c = ":"%char) then
        if decide (acc = []) then Fail (errors_New "missing protocol scheme") else Ok (Some (acc, s))
      else Ok None
  end.

Definition getScheme (rawURL : bytes) : result (bytes * bytes) :=
  default ([], rawURL) <$> scan_scheme [] rawURL.

Definition validOptionalPort (port : bytes) : bool :=
  match port with
  | [] => true
  | c :: port => bool_decide (c = ":"%char) && forallb digit port
  end.

Definition invalid_port (colonPort : bytes) : goerror :=
  errors_New ("invalid port " +:+ bytes_str colonPort +:+ " after host").

Definition parseHost (host : bytes) : result bytes :=
  if bool_decide (head host = Some "["%char) then
    match CutLast "]" host with
    | None => Fail (errors_New "missing ']' in host")
    | Some (inner, colonPort) =>
        if validOptionalPort colonPort then
          match split_at (str_bytes "%25") inner with
          | Some (addr, zone) =>
              host1 ← unescape addr encodeHost;
              host2 ← unescape zone encodeZone;
              host3 ← unescape ("]"%char :: colonPort) encodeHost;
              Ok (host1 ++ host2 ++ host3)
          | None => unescape host encodeHost
          end
        else Fail (invalid_port colonPort)
    end
  else
    match CutLast ":" host with
    | Some (_, port) =>
        if validOptionalPort (":"%char :: port) then unescape host encodeHost
        else Fail (invalid_port (":"%char :: port))
    | None => unescape host encodeHost
    end.

Definition validUserinfo (s : bytes) : bool :=
  forallb (fun c => letter c || digit c || one_of "-._:~!$&'()*+,;=%@" c) s.

Definition parseUserinfo (userinfo : bytes) : result Userinfo :=
  if validUserinfo userinfo then
    match Cut ":" userinfo with
    | (name, pass, true) =>
        name ← unescape name encodeUserPassword;
        pass ← unescape pass encodeUserPassword;
        Ok (mkUserinfo name (Some pass))
    | (_, _, false) =>
        name ← unescape userinfo encodeUserPassword;
        Ok (mkUserinfo name None)
    end
  else Fail (errors_New "net/url: invalid userinfo").

Definition parseAuthority (authority : bytes) : result (option Userinfo * bytes) :=
  match CutLast "@" authority with
  | None => pair None <$> parseHost authority
  | Some (userinfo, host) =>
      host ← parseHost host;
      user ← parseUserinfo userinfo;
      Ok (Some user, host)
  end.

(** [setPath] and [setFragment]: what is kept raw, when it is not what escaping
    would give. *)
Definition set_raw (p : bytes) (mode : encoding) : result (bytes * bytes) :=
  path ← unescape p mode;
  Ok (path, if decide (p = escape path mode) then [] else p).

Definition CTL (c : ascii) : bool := (byte_val c <? 32) || (byte_val c =? 127).

(** The query: a single trailing [?] is only remembered. *)
Definition cut_query (rest : bytes) : bytes * bytes * bool :=
  match Cut "?" rest with
  | (before, [], true) => (before, [], true)
  | (before, query, _) => (before, query, false)
  end.

Definition has_prefix (p s : bytes) : bool := bool_decide (take (length p) s = p).

Definition parse (rawURL : bytes) : result URL :=
  if existsb CTL rawURL then Fail (errors_New "net/url: invalid control character in URL")
  else if decide (rawURL = ["*"%char]) then
    Ok (mkURL [] [] None [] ["*"%char] [] false false [] [] [])
  else
    '(scheme, rest) ← getScheme rawURL;
    let scheme := lower <$> scheme in
    let '(rest, query, force) := cut_query rest in
    let rootless := negb (has_prefix (str_bytes "/") rest) in
    if rootless && bool_decide (scheme <> []) then
      Ok (mkURL scheme rest None [] [] [] false force query [] [])
    else if rootless && contains ":" (Cut "/" rest).1.1 then
      Fail (errors_New "first path segment in URL cannot contain colon")
    else if (bool_decide (scheme <> []) || negb (has_prefix (str_bytes "///") rest)) &&
            has_prefix (str_bytes "//") rest then
      let '(authority, path, found) := Cut "/" (drop 2 rest) in
      let path := if found then "/"%char :: path else [] in
      '(user, host) ← parseAuthority authority;
      '(path, raw) ← set_raw path encodePath;
      Ok (mkURL scheme [] user host path raw false force query [] [])
    else
      let omit := bool_decide (scheme <> []) && has_prefix (str_bytes "/") rest in
      '(path, raw) ← set_raw rest encodePath;
      Ok (mkURL scheme [] None [] path raw omit force query [] []).

Definition Parse (rawURL : bytes) : result URL :=
  let '(u, frag, _) := Cut "#" rawURL in
  url ← parse u;
  if decide (frag = []) then Ok url
  else
    '(fragment, raw) ← set_raw frag encodeFragment;
    Ok (set_Fragment fragment raw url).

(** ** [URL.String] *)

(** The raw form, when there is one that stands for the value. *)
Definition usable_raw (value raw : bytes) (mode : encoding) : bool :=
  bool_decide (raw <> []) && validEncoded raw mode && bool_decide (unescape raw mode = Ok value).

Definition EscapedPath (u : URL) : bytes :=
  if usable_raw (URL_Path u) (URL_RawPath u) encodePath then URL_RawPath u
  else if decide (URL_Path u = ["*"%char]) then ["*"%char]
  else escape (URL_Path u) encodePath.

Definition EscapedFragment (u : URL) : bytes :=
  if usable_raw (URL_Fragment u) (URL_RawFragment u) encodeFragment then URL_RawFragment u
  else escape (URL_Fragment u) encodeFragment.

Definition Userinfo_String (ui : Userinfo) : bytes :=
  if decide (username ui = [] /\ default [] (password ui) = []) then []
  else escape (username ui) encodeUserPassword ++
       match password ui with
       | Some pass => ":"%char :: escape pass encodeUserPassword
       | None => []
       end.

Definition authority_String (u : URL) : bytes :=
  let nobody := bool_decide (URL_Host u = []) && match URL_User u with Some _ => false | None => true end in
  if bool_decide (URL_Scheme u = []) && nobody then []
  else if URL_OmitHost u && nobody then []
  else (if nobody && bool_decide (URL_Path u = []) then [] else str_bytes "//") ++
       match URL_User u with Some ui => Userinfo_String ui ++ ["@"%char] | None => [] end ++
       escape (URL_Host u) encodeHost.

Definition URL_String (u : URL) : bytes :=
  let scheme := if decide (URL_Scheme u = []) then [] else URL_Scheme u ++ [":"%char] in
  let body :=
    if decide (URL_Opaque u <> []) then scheme ++ URL_Opaque u
    else
      let front := scheme ++ authority_String u in
      let path := EscapedPath u in
      let front :=
        if decide (path <> [] /\ head path <> Some "/"%char /\ URL_Host u <> [])
        then front ++ ["/"%char] else front in
      let front := if bool_decide (front = []) && contains ":" (Cut "/" path).1.1
                   then str_bytes "./" else front in
      front ++ path in
  body ++
  (if URL_ForceQuery u || bool_decide (URL_RawQuery u <> []) then "?"%char :: URL_RawQuery u else []) ++
  (if decide (URL_Fragment u <> []) then "#"%char :: EscapedFragment u else []).

(** ** [path.Join] *)

Definition slash : ascii := "/".

(** The elements between slashes; no text has one, empty. *)
Fixpoint elements_of (s : bytes) : list bytes :=
  match s with
  | [] => [[]]
  | c :: s =>
      match elements_of s with
      | e :: es => if decide (c = slash) then [] :: e :: es else (c :: e) :: es
      | [] => []
      end
  end.

Definition join (es : list bytes) : bytes :=
  match es with
  | [] => []
  | e :: es => e ++ concat (cons slash <$> es)
  end.

Definition dotdot : bytes := str_bytes "..".

(** One element, on the cleaned path so far (the last element first). *)
Definition clean_step (rooted : bool) (out : list bytes) (e : bytes) : list bytes :=
  if decide (e = [] \/ e = str_bytes ".") then out
  else if decide (e = dotdot) then
    match out with
    | o :: out' => if decide (o = dotdot) then e :: out else out'
    | [] => if rooted then [] else [e]
    end
  else e :: out.

Definition path_Clean (path : bytes) : bytes :=
  let rooted := bool_decide (head path = Some slash) in
  let out := (if rooted then [slash] else []) ++
             join (rev (fold_left (clean_step rooted) (elements_of path) [])) in
  if decide (out = []) then str_bytes "." else out.

Definition path_Join (elem : list bytes) : bytes :=
  let buf := fold_left (fun buf e =>
    if decide (buf <> []) then buf ++ slash :: e else e) elem [] in
  if decide (concat elem = []) then [] else path_Clean buf.

(** ** The address of a service

    What [BuildHttpRequestToService] sets as the request URI: the base URL with
    the path joined to its own. *)
Definition service_url (base : string) (path : bytes) : result string :=
  serviceUrl ← Parse (str_bytes base);
  Ok (bytes_str (URL_String (set_Path (path_Join [URL_Path serviceUrl; path]) serviceUrl))).

Example url_plain : service_url "http://localhost:8080/base" (str_bytes "a/b") = Ok "http://localhost:8080/base/a/b"%string.
Proof. vm_compute. reflexivity. Qed.
Example url_rooted : service_url "http://localhost:8080" (str_bytes "a/b/../c/") = Ok "http://localhost:8080/a/c"%string.
Proof. vm_compute. reflexivity. Qed.
Example url_escaped :
  service_url "HTTP://u:p@[::1%25eth0]:80/a%2Fb?x=1#fr" (str_bytes "../c d") = Ok "http://u:p@[::1%25eth0]:80/a/c%20d?x=1#fr"%string.
Proof. vm_compute. reflexivity. Qed.
Example url_raw : service_url "http://h/a%2Fb?" (str_bytes "") = Ok "http://h/a%2Fb?"%string.
Proof. vm_compute. reflexivity. Qed.
Example url_climbs : service_url "http://h" (str_bytes "../x") = Ok "http://h/../x"%string.
Proof. vm_compute. reflexivity. Qed.
Example url_bad_port : service_url "tcp://1.2.3.4:8a" (str_bytes "") = Fail (errors_New "invalid port :8a after host").
Proof. vm_compute. reflexivity. Qed.
Example url_no_scheme : service_url "://h/" (str_bytes "") = Fail (errors_New "missing protocol scheme").
Proof. vm_compute. reflexivity. Qed.

(** ** Joining below a base *)

Section plain.

(** Characters that stand for themselves everywhere, and an element made of
    them that names something. *)
Definition unreserved (c : ascii) : bool := letter c || digit c || one_of "-_.~" c.
Definition lower_letter (c : ascii) : bool := byte_in 97 122 c.

Definition element_ok (e : bytes) : Prop :=
  e <> [] /\ e <> str_bytes "." /\ e <> dotdot /\ all_in unreserved e.

#[export] Instance element_ok_dec e : Decision (element_ok e).
Proof. unfold element_ok. apply _. Defined.

Definition hostport_ok (h : bytes) : Prop :=
  exists name port, h = name ++ port /\ name <> [] /\ all_in unreserved name /\
    (port = [] \/ exists ds, port = ":"%char :: ds /\ all_in digit ds).

Definition scheme_ok (s : bytes) : Prop := s <> [] /\ all_in lower_letter s.

Definition plain_char (c : ascii) : bool := unreserved c || one_of ":/" c.

(** The text of elements, each behind a slash. *)
Definition slashed (es : list bytes) : bytes := concat (cons slash <$> es).

Ltac by_char c H :=
  destruct c as [[][][][][][][][]]; vm_compute in H; try discriminate H; vm_compute;
  repeat split; (reflexivity || discriminate).

Lemma plain_neutral c :
  plain_char c = true ->
  CTL c = false /\ c <> "#"%char /\ c <> "?"%char /\ c <> "%"%char /\ c <> "@"%char /\ c <> "["%char /\
  shouldEscape c encodePath = false.
Proof. intros H. by_char c H. Qed.

Lemma unreserved_plain c : unreserved c = true -> plain_char c = true.
Proof. unfold plain_char. by intros ->. Qed.

Lemma unreserved_host c : unreserved c = true ->
  c <> slash /\ c <> ":"%char /\ shouldEscape c encodeHost = false.
Proof. intros H. by_char c H. Qed.

Lemma digit_host c : digit c = true -> unreserved c = true.
Proof. intros H. by_char c H. Qed.

Lemma colon_host : shouldEscape ":" encodeHost = false.
Proof. reflexivity. Qed.

Lemma lower_plain c : lower_letter c = true ->
  plain_char c = true /\ letter c = true /\ lower c = c /\ c <> "*"%char.
Proof. intros H. by_char c H. Qed.

(** *** Cutting *)

Lemma Cut_none sep s : sep ∉ s -> Cut sep s = (s, [], false).
Proof. intros Hs. unfold Cut. by apply cut_none in Hs as ->. Qed.

Lemma Cut_found sep a b : sep ∉ a -> Cut sep (a ++ sep :: b) = (a, b, true).
Proof. intros Ha. unfold Cut. by rewrite cut_app. Qed.

Lemma CutLast_none sep s : sep ∉ s -> CutLast sep s = None.
Proof.
  induction s as [|c s IH]; [done|]. rewrite not_elem_of_cons. intros [Hc Hs]. cbn.
  by rewrite IH, decide_False by congruence.
Qed.

Lemma CutLast_found sep a b : sep ∉ b -> CutLast sep (a ++ sep :: b) = Some (a, b).
Proof.
  intros Hb. induction a as [|c a IH]; cbn; [by rewrite CutLast_none, decide_True|]. by rewrite IH.
Qed.

Lemma all_in_not (f : ascii -> bool) c s : f c = false -> all_in f s -> c ∉ s.
Proof. intros Hc Hs Hin. rewrite Forall_forall in Hs. rewrite (Hs c Hin) in Hc. done. Qed.

(** *** Escaping *)

Lemma escape_id mode s : all_in (fun c => negb (shouldEscape c mode)) s -> escape s mode = s.
Proof.
  unfold escape. induction 1 as [|c s Hc _ IH]; [done|]. cbn. rewrite IH. unfold escape_byte.
  by destruct (shouldEscape c mode).
Qed.

Lemma unescape_id mode s :
  "%"%char ∉ s ->
  (mode = encodeHost \/ mode = encodeZone -> all_in (fun c => negb (shouldEscape c mode)) s) ->
  unescape s mode = Ok s.
Proof.
  induction s as [|c s IH]; [done|]. rewrite not_elem_of_cons. intros [Hc Hs] Hm.
  cbn [unescape]. rewrite decide_False, IH; [|done|by intros [_ ?]%Hm%Forall_cons|congruence].
  case_bool_decide as Hmode; cbn; [|done]. apply Hm, Forall_cons in Hmode as [Hc' _].
  destruct (shouldEscape c mode); [done|]. by rewrite andb_false_r.
Qed.

(** *** [url.Parse] *)

Lemma scan_scheme_plain acc s r :
  all_in lower_letter s -> acc ++ s <> [] -> scan_scheme acc (s ++ ":"%char :: r) = Ok (Some (acc ++ s, r)).
Proof.
  intros Hs. revert acc. induction Hs as [|c s Hc _ IH]; intros acc Hne.
  - rewrite app_nil_r in *. cbn [app scan_scheme].
    change (letter ":") with false. change (digit ":" || one_of "+-." ":") with false. cbn iota.
    by rewrite (decide_True (P := ":"%char = ":"%char)), decide_False by done.
  - apply lower_plain in Hc as (_&Hc&_). cbn [app scan_scheme]. rewrite Hc, IH.
    + by rewrite <- app_assoc.
    + rewrite <- app_assoc. done.
Qed.

Lemma lower_id s : all_in lower_letter s -> lower <$> s = s.
Proof.
  induction 1 as [|c s Hc _ IH]; [done|]. cbn [fmap list_fmap] in *.
  apply lower_plain in Hc as (_&_&->&_). by rewrite IH.
Qed.

Lemma hostport_chars h : hostport_ok h ->
  h <> [] /\ all_in plain_char h /\ slash ∉ h /\ all_in (fun c => negb (shouldEscape c encodeHost)) h.
Proof.
  intros (name&port&->&Hne&Hname&Hport).
  assert (all_in (fun c => unreserved c || bool_decide (c = ":"%char)) (name ++ port)) as Hall.
  { apply Forall_app. split; [by eapply Forall_impl; [exact Hname|]; cbn; intros c ->|].
    destruct Hport as [->|(ds&->&Hds)]; constructor; [done|].
    eapply Forall_impl; [exact Hds|]. cbn. intros c Hc%digit_host. by rewrite Hc. }
  assert (forall c, unreserved c || bool_decide (c = ":"%char) = true ->
    plain_char c = true /\ c <> slash /\ negb (shouldEscape c encodeHost) = true) as Hchar.
  { intros c [Hc|Hc%bool_decide_eq_true]%orb_true_iff; [|by subst].
    pose proof (unreserved_host c Hc) as (?&_&->). by apply unreserved_plain in Hc. }
  split_and!.
  - by destruct name.
  - eapply Forall_impl; [exact Hall|]. cbn. intros c Hc. by apply Hchar.
  - rewrite Forall_forall in Hall. intros Hin%Hall%Hchar. tauto.
  - eapply Forall_impl; [exact Hall|]. cbn. intros c Hc. by apply Hchar.
Qed.

Lemma parseHost_plain h : hostport_ok h -> parseHost h = Ok h.
Proof.
  intros Hh. pose proof (hostport_chars h Hh) as (_&Hplain&_&Hesc).
  assert (unescape h encodeHost = Ok h) as E.
  { apply unescape_id; [|done]. by eapply all_in_not; [|exact Hplain]. }
  destruct Hh as (name&port&->&Hne&Hname&Hport). unfold parseHost. rewrite E.
  rewrite bool_decide_false.
  - destruct Hport as [->|(ds&->&Hds)].
    + rewrite app_nil_r, CutLast_none by (by eapply all_in_not; [|exact Hname]). done.
    + rewrite CutLast_found by (by eapply all_in_not; [|exact Hds]). cbn.
      by rewrite forallb_all_in.
  - destruct name as [|c name]; [done|]. cbn. intros [= ->]. by apply Forall_cons in Hname as [? _].
Qed.

Lemma parseAuthority_plain h : hostport_ok h -> parseAuthority h = Ok (None, h).
Proof.
  intros Hh. pose proof (hostport_chars h Hh) as (_&Hplain&_). unfold parseAuthority.
  rewrite CutLast_none by (by eapply all_in_not; [|exact Hplain]). by rewrite parseHost_plain.
Qed.

Lemma plain_path p :
  all_in plain_char p -> set_raw p encodePath = Ok (p, []) /\ escape p encodePath = p.
Proof.
  intros Hp.
  assert (escape p encodePath = p) as E.
  { apply escape_id. eapply Forall_impl; [exact Hp|]. cbn. intros c Hc.
    by apply plain_neutral in Hc as (_&_&_&_&_&_&->). }
  split; [|done]. unfold set_raw. rewrite unescape_id.
  - cbn. rewrite E. by rewrite decide_True.
  - by eapply all_in_not; [|exact Hp].
  - by intros [].
Qed.

(** The text of the URL of a service: everything in it is plain. *)
Definition url_text (scheme host : bytes) (es : list bytes) : bytes :=
  scheme ++ str_bytes "://" ++ host ++ slashed es.

Definition plain_url (scheme host path : bytes) : URL :=
  mkURL scheme [] None host path [] false false [] [] [].

Lemma url_text_colon scheme host es :
  url_text scheme host es = scheme ++ ":"%char :: "/"%char :: "/"%char :: host ++ slashed es.
Proof. done. Qed.

Lemma getScheme_plain s r : scheme_ok s -> getScheme (s ++ ":"%char :: r) = Ok (s, r).
Proof. intros [Hne Hs]. unfold getScheme. by rewrite scan_scheme_plain. Qed.

Lemma slashed_plain es : Forall element_ok es -> all_in plain_char (slashed es).
Proof.
  unfold slashed. induction 1 as [|e es (_&_&_&He) _ IH]; cbn; [constructor|].
  constructor; [done|]. apply Forall_app. split; [|done].
  eapply Forall_impl; [exact He|]. intros c. apply unreserved_plain.
Qed.

Lemma url_text_plain scheme host es :
  scheme_ok scheme -> hostport_ok host -> Forall element_ok es -> all_in plain_char (url_text scheme host es).
Proof.
  intros [_ Hs] (_&Hh&_)%hostport_chars Hes%slashed_plain. unfold url_text.
  rewrite !Forall_app. split_and!; [|by repeat constructor|done|done].
  eapply Forall_impl; [exact Hs|]. cbn. by intros c (?&_)%lower_plain.
Qed.

Lemma Cut_slashed host es :
  slash ∉ host ->
  Cut "/" (host ++ slashed es)
  = (host, drop 1 (slashed es), bool_decide (es <> [])).
Proof.
  intros Hh. destruct es as [|e es].
  - unfold slashed. cbn. by rewrite app_nil_r, Cut_none.
  - unfold slashed. cbn [fmap list_fmap concat app]. by rewrite Cut_found.
Qed.

Lemma CTL_plain s : all_in plain_char s -> existsb CTL s = false.
Proof.
  induction 1 as [|c s Hc _ IH]; [done|]. cbn [existsb]. rewrite IH.
  by apply plain_neutral in Hc as (->&_).
Qed.

Lemma plain_not c s : plain_char c = false -> all_in plain_char s -> c ∉ s.
Proof. apply all_in_not. Qed.

Lemma Parse_plain scheme host es :
  scheme_ok scheme -> hostport_ok host -> Forall element_ok es ->
  Parse (url_text scheme host es) = Ok (plain_url scheme host (slashed es)).
Proof.
  intros Hs Hh Hes. pose proof (url_text_plain _ _ _ Hs Hh Hes) as Hall.
  unfold Parse. rewrite Cut_none by (by eapply plain_not; [|exact Hall]).
  enough (parse (url_text scheme host es) = Ok (plain_url scheme host (slashed es))) as -> by done.
  unfold parse. rewrite CTL_plain by done. pose proof Hs as [Hne Hs'].
  rewrite decide_False.
  2: { destruct scheme as [|c scheme]; [done|]. intros [= -> _].
       by apply Forall_cons in Hs' as [(_&_&_&?)%lower_plain _]. }
  rewrite url_text_colon, getScheme_plain by done. cbn [mbind result_bind].
  rewrite lower_id by done. set (rest := "/"%char :: "/"%char :: host ++ slashed es).
  assert (all_in plain_char rest) as Hrest.
  { unfold url_text in Hall. by apply Forall_app in Hall as [_ [_ Hall]%Forall_cons]. }
  unfold cut_query. rewrite Cut_none by (by eapply plain_not; [|exact Hrest]).
  change (has_prefix (str_bytes "/") rest) with true.
  change (has_prefix (str_bytes "//") rest) with true. cbn [negb andb].
  rewrite (bool_decide_true (scheme <> [])) by done. cbn [orb andb].
  change (drop 2 rest) with (host ++ slashed es).
  pose proof (hostport_chars host Hh) as (_&_&Hslash&_).
  rewrite Cut_slashed by done. rewrite parseAuthority_plain by done. cbn [mbind result_bind].
  assert ((if bool_decide (es <> []) then "/"%char :: drop 1 (slashed es) else []) = slashed es) as ->.
  { by destruct es. }
  destruct (plain_path (slashed es)) as [-> _]; [by apply slashed_plain|]. done.
Qed.

(** *** [path.Join] *)

Lemma elements_of_ne s : elements_of s <> [].
Proof. induction s as [|c s IH]; cbn; [done|]. destruct (elements_of s); [done|by case_decide]. Qed.

Lemma elements_of_one e : slash ∉ e -> elements_of e = [e].
Proof.
  induction e as [|c e IH]; [done|]. rewrite not_elem_of_cons. intros [Hc He]. cbn.
  by rewrite IH, decide_False by congruence.
Qed.

Lemma elements_of_app e r : slash ∉ e -> elements_of (e ++ slash :: r) = e :: elements_of r.
Proof.
  induction e as [|c e IH]; cbn [app].
  - intros _. cbn [elements_of]. destruct (elements_of r) eqn:E; [|by rewrite decide_True].
    by destruct (elements_of_ne r).
  - rewrite not_elem_of_cons. intros [Hc He]. cbn [elements_of].
    rewrite IH by done. by rewrite decide_False by congruence.
Qed.

Lemma elements_of_join es :
  es <> [] -> Forall (fun e => slash ∉ e) es -> elements_of (join es) = es.
Proof.
  intros Hne Hes. destruct es as [|e es]; [done|]. clear Hne. revert e Hes.
  induction es as [|e' es IH]; intros e [He Hes]%Forall_cons.
  - cbn. rewrite app_nil_r. by apply elements_of_one.
  - change (join (e :: e' :: es)) with (e ++ slash :: join (e' :: es)).
    by rewrite elements_of_app, IH.
Qed.

Lemma clean_empty rooted out : clean_step rooted out [] = out.
Proof. unfold clean_step. by rewrite decide_True by (by left). Qed.

Lemma clean_plain rooted es out :
  Forall element_ok es -> fold_left (clean_step rooted) es out = rev es ++ out.
Proof.
  intros Hes. revert out. induction Hes as [|e es (?&?&?&_) _ IH]; intros out; [done|].
  cbn. rewrite IH. unfold clean_step. rewrite !decide_False by tauto. by rewrite <- app_assoc.
Qed.

Lemma element_no_slash e : element_ok e -> slash ∉ e.
Proof. intros (_&_&_&He). by eapply all_in_not; [|exact He]. Qed.

(** Elements, with the empty element that a trailing slash leaves. *)
Definition trailing (t : bool) : list bytes := if t then [[]] else [].

Lemma fold_clean_trailing rooted t es out :
  Forall element_ok es -> fold_left (clean_step rooted) (es ++ trailing t) out = rev es ++ out.
Proof.
  intros Hes. rewrite fold_left_app, (clean_plain _ es) by done. destruct t; [|done].
  apply clean_empty.
Qed.

Lemma join_slashed e es : join (e :: es) = e ++ slashed es.
Proof. done. Qed.

Lemma slashed_app es es' : slashed (es ++ es') = slashed es ++ slashed es'.
Proof. unfold slashed. by rewrite fmap_app, concat_app. Qed.

Lemma trailing_no_slash t : Forall (fun e => slash ∉ e) (trailing t).
Proof. destruct t; repeat constructor. by intros ?%not_elem_of_nil. Qed.

Lemma no_slashes es : Forall element_ok es -> Forall (fun e => slash ∉ e) es.
Proof. intros H. eapply Forall_impl; [exact H|]. apply element_no_slash. Qed.

Lemma join_ne e es : e <> [] -> join (e :: es) <> [].
Proof. by destruct e. Qed.

(** Without a base the path is relative. *)
Lemma path_Join_relative ps t :
  Forall element_ok ps -> path_Join [slashed []; join (ps ++ trailing t)] = join ps.
Proof.
  intros Hps. unfold path_Join. cbn [fold_left]. rewrite (decide_False (P := [] <> [])) by tauto.
  rewrite (decide_False (P := slashed [] <> [])) by (unfold slashed; cbn; tauto).
  destruct ps as [|p ps]; [by destruct t|].
  pose proof Hps as [(Hne&_&_&Hall) _]%Forall_cons.
  rewrite decide_False by (cbn; rewrite app_nil_r; by destruct p).
  unfold path_Clean. rewrite bool_decide_false.
  - rewrite elements_of_join; [|done|].
    + rewrite fold_clean_trailing, app_nil_r, rev_involutive by done. cbn [app].
      by rewrite decide_False by (by apply join_ne).
    + apply Forall_app. split; [by apply no_slashes|apply trailing_no_slash].
  - destruct p as [|c p]; [done|]. cbn. intros [= ->]. by apply Forall_cons in Hall as [? _].
Qed.

(** Below a base the path stays below it, and a trailing slash is lost. *)
Lemma path_Join_below bs ps t :
  bs <> [] -> Forall element_ok bs -> Forall element_ok ps ->
  path_Join [slashed bs; join (ps ++ trailing t)] = slashed (bs ++ ps).
Proof.
  intros Hne Hbs Hps. unfold path_Join. cbn [fold_left].
  rewrite (decide_False (P := [] <> [])) by tauto.
  assert (slashed bs <> []) as Hs by (by destruct bs).
  rewrite (decide_True (P := slashed bs <> [])) by done. rewrite decide_False.
  2: { cbn. intros [? _]%app_nil. done. }
  assert (exists t', join (ps ++ trailing t) = join (ps ++ trailing t') /\ ps ++ trailing t' <> [])
    as (t'&->&Hne').
  { destruct ps; [exists true; split; [by destruct t|done]|by exists t]. }
  assert (slashed bs ++ slash :: join (ps ++ trailing t') = join ([] :: bs ++ ps ++ trailing t')) as ->.
  { rewrite join_slashed, slashed_app. by destruct (ps ++ trailing t'). }
  unfold path_Clean. rewrite bool_decide_true by (by destruct bs).
  rewrite elements_of_join; [|done|].
  - cbn [fold_left]. rewrite clean_empty, app_assoc, fold_clean_trailing, app_nil_r, rev_involutive by (by apply Forall_app).
    rewrite decide_False by done. by destruct bs.
  - constructor; [by intros ?%not_elem_of_nil|]. rewrite !Forall_app.
    split_and!; auto using no_slashes, trailing_no_slash.
Qed.

(** *** [URL.String] *)

Lemma String_plain scheme host path :
  scheme_ok scheme -> hostport_ok host -> all_in plain_char path ->
  URL_String (plain_url scheme host path)
  = scheme ++ str_bytes "://" ++ host ++
    (if decide (path <> [] /\ head path <> Some slash) then [slash] else []) ++ path.
Proof.
  intros [Hs _] Hh Hpath. pose proof (hostport_chars host Hh) as (Hne&_&_&Hesc).
  unfold URL_String, EscapedPath, usable_raw, authority_String, plain_url.
  cbn [URL_Scheme URL_Opaque URL_User URL_Host URL_Path URL_RawPath URL_OmitHost URL_ForceQuery
       URL_RawQuery URL_Fragment URL_RawFragment].
  rewrite (decide_False (P := scheme = [])), (bool_decide_false (scheme = [])),
    (bool_decide_false (host = [])), (decide_False (P := [] <> [])) by tauto.
  rewrite !(bool_decide_false (@nil ascii <> [])) by tauto. cbn [andb orb].
  rewrite (decide_False (P := path = ["*"%char])) by (intros ->; by apply Forall_cons in Hpath as [? _]).
  destruct (plain_path path) as [_ ->]; [done|]. rewrite (escape_id encodeHost) by done.
  rewrite !app_nil_r. cbn [app].
  destruct scheme as [|c scheme]; [done|]. cbn [app].
  case_decide as Hp; rewrite bool_decide_false by done; cbn [andb];
    [rewrite decide_True by tauto|rewrite decide_False by (unfold slash in *; tauto)];
    cbn; by rewrite <- !app_assoc.
Qed.

(** The text of a URL after a path was joined to it. *)
Lemma joined_plain_url scheme host bs ps t :
  scheme_ok scheme -> hostport_ok host -> Forall element_ok bs -> Forall element_ok ps ->
  exists u, Parse (url_text scheme host bs) = Ok u /\
    URL_String (set_Path (path_Join [URL_Path u; join (ps ++ trailing t)]) u)
    = url_text scheme host (bs ++ ps).
Proof.
  intros Hs Hh Hbs Hps. eexists. split; [by apply Parse_plain|].
  unfold plain_url. cbn [URL_Path]. unfold set_Path. cbn -[URL_String path_Join].
  fold (plain_url scheme host (path_Join [slashed bs; join (ps ++ trailing t)])).
  destruct (decide (bs = [])) as [->|Hne].
  - rewrite path_Join_relative by done. rewrite String_plain; [|done..|].
    + unfold url_text. do 3 f_equal. destruct ps as [|p ps]; [by rewrite decide_False by (by intros [])|].
      apply Forall_cons in Hps as [(?&_&_&Hp) _].
      rewrite decide_True; [done|]. destruct p as [|c p]; [done|]. split; [done|].
      intros [= ->]. by apply Forall_cons in Hp as [? _].
    + destruct ps as [|p ps]; [constructor|]. pose proof (slashed_plain _ Hps) as H.
      by apply Forall_cons in H as [_ H].
  - rewrite path_Join_below, String_plain by (try done; apply slashed_plain; by apply Forall_app).
    rewrite decide_False; [done|]. intros [_ Hd]. apply Hd. by destruct bs.
Qed.
End plain.
