(* ===== verification/RequestDetail.v ===== *)
(** [internal/models/request_detail.go] and the request identifiers of
    [internal/models/helper.go] and [usage_record.go]: what the client-side
    gateway reads out of a request path, and the identifier that carries it. *)

From S2P Require Import Prelude Regexp.

(** ** Patterns *)

(** A slash, [v], a version of one to four digits without a leading zero
    (group 1), a slash, word characters (group 2), an optional slash, and the
    rest of the line (group 3). *)
Definition ProxyRequestPathPattern : regex :=
  [One (lit "/"); One (lit "v");
   Group [Rep digit19 1 (Some 1%nat); Rep digit 0 (Some 3%nat)]; One (lit "/");
   Group [Rep word_dash 1 None]; One (Rep (fun c => bool_decide (c = "/"%char)) 0 (Some 1%nat));
   Group [Rep any 0 None]].

(** Ten word characters (group 1), then one or more (group 2). *)
Definition ServiceIdUserKeyPattern : regex :=
  [Group [Rep word_dash 10 (Some 10%nat)]; Group [Rep word_dash 1 None]].

Definition errors_invalid_path : goerror := errors_New "invalid path format".

Definition ExtractServiceIdAndUserKey (combinedServiceIdUserKey : bytes) : result (bytes * bytes) :=
  match FindAllSubmatch ServiceIdUserKeyPattern combinedServiceIdUserKey with
  | [[_; g1; g2]] => Ok (g1, g2)
  | _ => Fail errors_invalid_path
  end.

(** ** Request details *)

(** The parts of a [*fasthttp.Request] the function asks for, as fasthttp
    parsed them; headers and query arguments in the order [VisitAll] gives. *)
Record HttpRequest := mkHttpRequest {
  req_Host : bytes;
  req_Path : bytes;
  req_Method : bytes;
  req_Headers : list (bytes * bytes);
  req_QueryArgs : list (bytes * bytes);
  req_Body : bytes
}.

(** The fields of [RequestDetail] that some code assigns ([URI], [Cookies],
    [ServiceNameStr] and [ApiKeyStr] keep their zero values). *)
Record RequestDetail := mkRequestDetail {
  Host : bytes;
  Path : bytes;
  Method : bytes;
  Headers : gmap string (list string);
  QueryParams : gmap string (list string);
  FormParams : gmap string (list string);
  RequestBody : bytes;
  Version : Z;
  ServiceName : bytes;
  UserKey : bytes;
  ProxyRequestPath : bytes
}.

(** [strconv.ParseUint(s, 10, 32)] on a string of digits, its error ignored: a
    value out of range gives the largest one. *)
Definition ParseUint10_32 (s : bytes) : Z :=
  Z.min (fold_left (fun acc c => acc * 10 + (byte_val c - 48)) s 0) (2 ^ 32 - 1).

(** [m[string(key)] = append(base[string(key)], string(value))]. *)
Definition append_kv (base : gmap string (list string)) (m : gmap string (list string))
    (kv : bytes * bytes) : gmap string (list string) :=
  <[bytes_str kv.1 := default [] (base !! bytes_str kv.1) ++ [bytes_str kv.2]]> m.

(** [bytes.HasPrefix]. *)
Definition HasPrefix (s p : bytes) : bool := bool_decide (take (length p) s = p).

(** The detail structure starts zeroed; it is filled as far as the function
    gets, also when it returns an error. *)
Definition ExtractRequestDetailFromFasthttpRequest (req : HttpRequest)
    : RequestDetail * option goerror :=
  let headers := fold_left (fun m kv => append_kv m m kv) (req_Headers req) ∅ in
  let query := fold_left (fun m kv => append_kv headers m kv) (req_QueryArgs req) ∅ in
  let detail := mkRequestDetail (req_Host req) (req_Path req) (req_Method req) headers query ∅
                  (req_Body req) in
  let pathWithKey :=
    if HasPrefix (req_Path req) (str_bytes "/ws") then drop 3 (req_Path req) else req_Path req in
  match FindAllSubmatch ProxyRequestPathPattern pathWithKey with
  | [[_; g1; _; g3]] =>
      let version := ParseUint10_32 g1 in
      match ExtractServiceIdAndUserKey (req_Path req) with
      | Ok (name, key) => (detail version name key g3, None)
      | Fail err => (detail version [] [] [], Some err)
      end
  | _ => (detail 0 [] [] [], Some errors_invalid_path)
  end.

(** ** Request identifiers *)

(** [fmt.Sprintf("%s.%s.%s", userKey, serviceId, uuid)], as both client-side
    servers build it. *)
Definition dot : ascii := ".".
Definition build_request_id (userKey serviceId uuid : string) : string :=
  userKey +:+ "." +:+ serviceId +:+ "." +:+ uuid.

Definition ExtractServiceInfoFromRequestID (requestId : string) : outcome (string * string) :=
  match strings_SplitN requestId dot 3 with
  | [a; b; _] => Val (a, b)
  | _ => Panic ("invalid format of request id (" +:+ requestId +:+ "), please contract admin")
  end.

Definition GenerateUsageRecordKey (serviceId userKey : string) : string :=
  serviceId +:+ "." +:+ userKey.

(** ** The service and user key of a path *)

(** The runs of word characters long enough to be a service id and a key. *)
Definition long_runs (path : bytes) : list bytes :=
  filter (fun m => 11 <= length m)%nat (runs word_dash path).

Lemma match_here_run m r :
  all_in word_dash m -> ends_run word_dash r ->
  match_here ServiceIdUserKeyPattern (m ++ r) =
    if decide (11 <= length m)%nat then Some ([m; take 10 m; drop 10 m], r) else None.
Proof.
  intros Hm Hr. unfold match_here, ServiceIdUserKeyPattern. cbn [match_pieces].
  rewrite match_atoms_one. cbn [cls lo hi]. rewrite rep_exact.
  destruct (decide (10 <= length m)%nat) as [Hlen|Hlen].
  - rewrite take_app_le, drop_app_le by lia.
    rewrite forallb_all_in, bool_decide_true
      by (first [by apply Forall_take|rewrite length_app; lia]).
    cbn [andb]. rewrite match_atoms_one. cbn [cls lo hi]. case_decide.
    + apply rep_greedy; [by apply Forall_drop|rewrite length_drop; lia|done|by right|].
      cbn [match_pieces]. by rewrite !app_nil_r, take_drop.
    + apply rep_short; [by apply Forall_drop|done|rewrite length_drop; lia].
  - rewrite decide_False by lia. destruct r as [|c r].
    { rewrite bool_decide_false, andb_false_r; [done|]. rewrite app_nil_r. lia. }
    rewrite take_app_ge, forallb_app by lia.
    destruct (10 - length m)%nat eqn:E; [lia|]. cbn in Hr |- *. by rewrite Hr, andb_false_r.
Qed.

(** Inside a run that is too short there is no match either. *)
Lemma find_first_short m r :
  all_in word_dash m -> ends_run word_dash r -> (length m < 11)%nat ->
  find_first ServiceIdUserKeyPattern (m ++ r) = find_first ServiceIdUserKeyPattern r.
Proof.
  induction 1 as [|c m Hc Hm IH]; intros Hr Hlen; [done|].
  pose proof (match_here_run (c :: m) r ltac:(by constructor) Hr) as Hmatch.
  rewrite decide_False in Hmatch by lia. cbn [app find_first] in *. rewrite Hmatch.
  apply IH; [done|]. cbn in Hlen. lia.
Qed.

Lemma find_first_skip c r :
  word_dash c = false ->
  find_first ServiceIdUserKeyPattern (c :: r) = find_first ServiceIdUserKeyPattern r.
Proof.
  intros Hc. pose proof (match_here_run [] (c :: r) ltac:(constructor) Hc) as Hmatch.
  cbn [app find_first] in *. by rewrite Hmatch.
Qed.

(** The first match, by the first run: skipped, or matched, or stepped over. *)
Lemma find_first_run m r :
  all_in word_dash m -> ends_run word_dash r ->
  find_first ServiceIdUserKeyPattern (m ++ r) =
    if decide (11 <= length m)%nat then Some ([m; take 10 m; drop 10 m], r)
    else match r with [] => None | _ :: r => find_first ServiceIdUserKeyPattern r end.
Proof.
  intros Hm Hr. case_decide as Hlen.
  - pose proof (match_here_run m r Hm Hr) as E. rewrite decide_True in E by done.
    destruct m as [|c m]; [cbn in Hlen; lia|]. cbn [app find_first] in *. by rewrite E.
  - rewrite find_first_short by (done || lia). destruct r as [|c r]; [|by apply find_first_skip].
    pose proof (match_here_run [] [] ltac:(constructor) I) as E. cbn [app find_first] in *. by rewrite E.
Qed.

(** The pattern finds exactly the long runs, each cut after ten characters. *)
Lemma find_all_runs fuel s :
  (length s < fuel)%nat ->
  find_all fuel ServiceIdUserKeyPattern s = (fun m => [m; take 10 m; drop 10 m]) <$> long_runs s.
Proof.
  revert s. induction fuel as [|fuel IH]; intros s Hs; [lia|]. cbn [find_all].
  induction s as [s IHs] using (induction_ltof1 _ (@length ascii)). unfold ltof in IHs.
  destruct (span_run word_dash s) as (m&r&->&Hm&Hr).
  rewrite find_first_run by done. unfold long_runs.
  rewrite runs_app, filter_app by done. rewrite length_app in Hs.
  case_decide as Hlen.
  - rewrite decide_False by (by intros ->; cbn in Hlen; lia).
    rewrite filter_cons_True by done. cbn [filter list_filter app fmap list_fmap].
    f_equal. apply IH. lia.
  - assert (filter (fun m => 11 <= length m)%nat (if decide (m = []) then [] else [m]) = []) as ->.
    { case_decide; [done|]. by rewrite filter_cons_False. }
    destruct r as [|c r]; [done|]. cbn in Hr. rewrite runs_skip by done. cbn [app].
    apply IHs; rewrite ?length_app in *; cbn in *; lia.
Qed.

Lemma FindAll_long_runs s :
  FindAllSubmatch ServiceIdUserKeyPattern s = (fun m => [m; take 10 m; drop 10 m]) <$> long_runs s.
Proof. apply find_all_runs. lia. Qed.

Lemma ExtractServiceIdAndUserKey_runs path :
  ExtractServiceIdAndUserKey path =
    match long_runs path with
    | [m] => Ok (take 10 m, drop 10 m)
    | _ => Fail errors_invalid_path
    end.
Proof.
  unfold ExtractServiceIdAndUserKey. rewrite FindAll_long_runs.
  by destruct (long_runs path) as [|m [|m' l]].
Qed.

(** ** The shape of a proxied path *)

(** A version number as the pattern wants it. *)
Definition version_ok (ver : bytes) : Prop :=
  match ver with
  | d :: ds => digit19 d = true /\ all_in digit ds /\ (length ds <= 3)%nat
  | [] => False
  end.

(** [/v<ver>/<name><rest>] *)
Definition proxied_path (ver name rest : bytes) : bytes :=
  str_bytes "/v" ++ ver ++ str_bytes "/" ++ name ++ rest.

Definition strip_slash (rest : bytes) : bytes :=
  match rest with c :: t => if decide (c = "/"%char) then t else rest | [] => [] end.

Definition is_word_text (name : bytes) : Prop := name <> [] /\ all_in word_dash name.

Lemma rep_lit {R} c s (k : bytes -> bytes -> option R) x :
  k [c] s = Some x -> rep (cls (lit c)) 1 (Some 1%nat) (c :: s) k = Some x.
Proof.
  intros Hk. rewrite rep_exact. cbn. rewrite bool_decide_true by done. cbn.
  by rewrite take_0, drop_0.
Qed.

Lemma match_here_path ver name rest :
  version_ok ver -> is_word_text name -> ends_run word_dash rest -> all_in any rest ->
  match_here ProxyRequestPathPattern (proxied_path ver name rest)
  = Some ([proxied_path ver name rest; ver; name; strip_slash rest], []).
Proof.
  intros Hver [Hne Hname] Hrest Hany. destruct ver as [|d ds]; [done|].
  destruct Hver as (Hd&Hds&Hlen).
  unfold match_here, ProxyRequestPathPattern, proxied_path.
  cbn [match_pieces match_atoms cls lo hi].
  apply rep_lit. apply rep_lit.
  apply (rep_greedy _ _ _ [d]); [by constructor|cbn; lia|cbn; lia|by left|].
  apply rep_greedy; [done|lia|done|by right|]. apply rep_lit.
  apply rep_greedy; [done|by destruct name; cbn; [done|lia]|done|by right|].
  set (sl := match rest with c :: _ => if decide (c = "/"%char) then ["/"%char] else [] | [] => [] end).
  assert (rest = sl ++ strip_slash rest) as Hsplit.
  { unfold sl, strip_slash. destruct rest; [done|]. by case_decide; subst. }
  rewrite Hsplit at 1.
  apply rep_greedy.
  - unfold sl. destruct rest; [by constructor|]. case_decide; by repeat constructor.
  - lia.
  - unfold sl. destruct rest; [cbn; lia|]. case_decide; cbn; lia.
  - unfold sl, strip_slash. destruct rest; [by right|]. case_decide; [by left|]. right. cbn.
    by apply bool_decide_eq_false_2.
  - rewrite <- (app_nil_r (strip_slash rest)) at 1.
    apply rep_greedy; [|lia|done|by right|].
    { rewrite Hsplit in Hany. by apply Forall_app in Hany as [_ ?]. }
    rewrite !app_nil_r. cbn. by rewrite <- Hsplit.
Qed.

Lemma FindAll_path ver name rest :
  version_ok ver -> is_word_text name -> ends_run word_dash rest -> all_in any rest ->
  FindAllSubmatch ProxyRequestPathPattern (proxied_path ver name rest)
  = [[proxied_path ver name rest; ver; name; strip_slash rest]].
Proof.
  intros Hver Hname Hrest Hany. unfold FindAllSubmatch.
  pose proof (match_here_path ver name rest Hver Hname Hrest Hany) as Hm.
  destruct (proxied_path ver name rest) as [|c p] eqn:E; [done|].
  cbn [find_all find_first]. rewrite Hm. cbn [find_all length]. by destruct (length p).
Qed.

Lemma digit_word c : digit c = true -> word_dash c = true.
Proof. unfold word_dash, digit. by intros ->. Qed.

Lemma version_word ver : version_ok ver -> all_in word_dash ver /\ (1 <= length ver <= 4)%nat.
Proof.
  destruct ver as [|d ds]; [done|]. intros (Hd&Hds&Hlen). split; [|cbn; lia].
  constructor; [|by eapply Forall_impl; [exact Hds|]; intros c; apply digit_word].
  apply digit_word. unfold digit19, digit, byte_in in *. lia.
Qed.

Lemma long_runs_cons_skip c s : word_dash c = false -> long_runs (c :: s) = long_runs s.
Proof. intros H. unfold long_runs. by rewrite runs_skip. Qed.

Lemma long_runs_app m r :
  all_in word_dash m -> ends_run word_dash r ->
  long_runs (m ++ r) = (if decide (11 <= length m)%nat then [m] else []) ++ long_runs r.
Proof.
  intros Hm Hr. unfold long_runs. rewrite runs_app, filter_app by done. f_equal.
  destruct m as [|c m]; [done|]. rewrite (decide_False (P := _ = [])) by done. case_decide.
  - by rewrite filter_cons_True.
  - by rewrite filter_cons_False.
Qed.

(** The long runs of a proxied path: the name, and those of what follows. *)
Lemma long_runs_path ver name rest :
  version_ok ver -> is_word_text name -> (11 <= length name)%nat -> ends_run word_dash rest ->
  long_runs (proxied_path ver name rest) = name :: long_runs rest.
Proof.
  intros [Hver Hl]%version_word [_ Hname] Hlen Hrest. unfold proxied_path. cbn [str_bytes list_ascii_of_string app].
  rewrite long_runs_cons_skip by done.
  change ("v"%char :: ver ++ "/"%char :: name ++ rest) with (("v"%char :: ver) ++ "/"%char :: name ++ rest).
  rewrite long_runs_app by (try done; by constructor).
  rewrite decide_False by (cbn; lia). cbn [app].
  rewrite long_runs_cons_skip, long_runs_app, decide_True by done. done.
Qed.

Lemma long_runs_ws p : 
  long_runs (str_bytes "/ws" ++ "/"%char :: p) = long_runs ("/"%char :: p).
Proof.
  cbn [str_bytes list_ascii_of_string app]. rewrite long_runs_cons_skip by done.
  change ("w"%char :: "s"%char :: "/"%char :: p) with (str_bytes "ws" ++ "/"%char :: p).
  by rewrite long_runs_app by (done || by repeat constructor).
Qed.

(** What both kinds of paths, [/v...] and [/ws/v...], give to the two patterns. *)
Definition ws_prefix (ws : bool) : bytes := if ws then str_bytes "/ws" else [].

Lemma ExtractRequestDetail_path ws ver name rest req :
  version_ok ver -> is_word_text name -> (11 <= length name)%nat ->
  ends_run word_dash rest -> all_in any rest ->
  req_Path req = ws_prefix ws ++ proxied_path ver name rest ->
  let '(d, err) := ExtractRequestDetailFromFasthttpRequest req in
  Version d = ParseUint10_32 ver /\
  match long_runs rest with
  | [] => err = None /\ ServiceName d = take 10 name /\ UserKey d = drop 10 name /\
          ProxyRequestPath d = strip_slash rest
  | _ => err = Some errors_invalid_path /\ ServiceName d = [] /\ UserKey d = [] /\
         ProxyRequestPath d = []
  end.
Proof.
  intros Hver Hname Hlen Hrest Hany Hpath. unfold ExtractRequestDetailFromFasthttpRequest.
  assert ((if HasPrefix (req_Path req) (str_bytes "/ws") then drop 3 (req_Path req) else req_Path req)
          = proxied_path ver name rest) as ->.
  { rewrite Hpath. by destruct ws. }
  rewrite FindAll_path, ExtractServiceIdAndUserKey_runs by done.
  assert (long_runs (req_Path req) = name :: long_runs rest) as ->.
  { rewrite <- (long_runs_path ver) by done. rewrite Hpath. destruct ws; [|done]. apply long_runs_ws. }
  by destruct (long_runs rest).
Qed.

(** ** Properties: paths *)

(** C37: the search with the pattern, which tries every position and every length in
    the order of a backtracking matcher, is equivalent to a reading of the path in
    one pass: cut it into its maximal runs of word characters; when exactly one is
    longer than ten, its first ten characters are the service and the rest is the
    key; otherwise the path is invalid. *)
Theorem service_and_key_reference (path : bytes) :
  ExtractServiceIdAndUserKey path =
    match filter (fun m => 11 <= length m)%nat (runs word_dash path) with
    | [m] => Ok (take 10 m, drop 10 m)
    | _ => Fail errors_invalid_path
    end.
Proof. apply ExtractServiceIdAndUserKey_runs. Qed.

(** A request for [/v<version>/<service id><user key>/<rest>], with or
    without the [/ws] prefix, gives the version, the ten-character service id,
    the user key and the path to ask the service for, provided that no later
    part of the path has eleven word characters in a row. *)
Theorem extract_request_detail (ws : bool) (ver name rest : bytes) (req : HttpRequest)
    (Hver : version_ok ver) (Hname : is_word_text name) (Hlen : (11 <= length name)%nat)
    (Hend : ends_run word_dash rest) (Hline : all_in any rest)
    (Hshort : long_runs rest = [])
    (Hpath : req_Path req = ws_prefix ws ++ proxied_path ver name rest) :
  let '(d, err) := ExtractRequestDetailFromFasthttpRequest req in
  err = None /\ Version d = ParseUint10_32 ver /\ 1 <= Version d <= 9999 /\
  ServiceName d = take 10 name /\ UserKey d = drop 10 name /\
  ProxyRequestPath d = strip_slash rest.
Proof.
  pose proof (ExtractRequestDetail_path ws ver name rest req Hver Hname Hlen Hend Hline Hpath) as H.
  destruct (ExtractRequestDetailFromFasthttpRequest req) as [d err].
  rewrite Hshort in H. destruct H as (Hv&->&?&?&?). split_and!; try done; rewrite Hv;
    destruct ver as [|c0 ds]; try done; destruct Hver as (Hd&Hds&Hl);
    unfold ParseUint10_32, digit19, byte_in in *;
    do 4 (destruct ds as [|? ds]; cbn in *; [decompose_Forall_hyps; unfold digit, byte_in in *; lia|]);
    lia.
Qed.

(** A request whose path has the documented form is refused all the same, and
    no service is found, when a later part of the path has a run of eleven word
    characters or more: [ExtractServiceIdAndUserKey] is given the whole path, not
    the group that the path pattern matched. *)
Theorem extract_refuses_long_segment (ws : bool) (ver name rest : bytes) (req : HttpRequest)
    (Hver : version_ok ver) (Hname : is_word_text name) (Hlen : (11 <= length name)%nat)
    (Hend : ends_run word_dash rest) (Hline : all_in any rest)
    (Hlong : long_runs rest <> [])
    (Hpath : req_Path req = ws_prefix ws ++ proxied_path ver name rest) :
  let '(d, err) := ExtractRequestDetailFromFasthttpRequest req in
  err = Some errors_invalid_path /\ ServiceName d = [] /\ UserKey d = [].
Proof.
  pose proof (ExtractRequestDetail_path ws ver name rest req Hver Hname Hlen Hend Hline Hpath) as H.
  destruct (ExtractRequestDetailFromFasthttpRequest req) as [d err].
  destruct (long_runs rest); [done|]. by destruct H as (?&?&?&?&?).
Qed.

Definition example_request (path : string) : HttpRequest :=
  mkHttpRequest (str_bytes "gw") (str_bytes path) (str_bytes "GET") [] [] [].

Example extract_request_detail_witness :
  let '(d, err) := ExtractRequestDetailFromFasthttpRequest
                     (example_request "/ws/v12/abcdefghij_user-1/a/b.c?") in
  err = None /\ Version d = 12 /\ 1 <= Version d <= 9999 /\
  ServiceName d = str_bytes "abcdefghij" /\ UserKey d = str_bytes "_user-1" /\
  ProxyRequestPath d = str_bytes "a/b.c?".
Proof.
  apply (extract_request_detail true (str_bytes "12") (str_bytes "abcdefghij_user-1")
           (str_bytes "/a/b.c?")); try (vm_compute; reflexivity).
  - repeat constructor.
  - split; [discriminate|repeat constructor].
  - vm_compute; lia.
  - repeat constructor.
Defined.

Example extract_refuses_long_segment_witness :
  let '(d, err) := ExtractRequestDetailFromFasthttpRequest
                     (example_request "/v1/abcdefghij_user-1/anything/long-segment-1") in
  err = Some errors_invalid_path /\ ServiceName d = [] /\ UserKey d = [].
Proof.
  apply (extract_refuses_long_segment false (str_bytes "1") (str_bytes "abcdefghij_user-1")
           (str_bytes "/anything/long-segment-1")); try (vm_compute; reflexivity).
  - repeat constructor.
  - split; [discriminate|repeat constructor].
  - vm_compute; lia.
  - repeat constructor.
  - vm_compute; discriminate.
Defined.

(** ** Request identifiers *)

Abbreviation no_dot s := (dot ∉ str_bytes s).

Lemma split_request_id a b c :
  no_dot a -> no_dot b -> strings_SplitN (build_request_id a b c) dot 3 = [a; b; c].
Proof.
  intros Ha Hb. unfold strings_SplitN, build_request_id. rewrite !str_bytes_app.
  change (str_bytes ".") with [dot]. cbn [splitN app].
  rewrite cut_app by done. rewrite cut_app by done. cbn. by rewrite !str_bytes_inv.
Qed.

Lemma word_dash_no_dot m : all_in word_dash m -> dot ∉ m.
Proof.
  intros Hm Hdot. rewrite Forall_forall in Hm. by specialize (Hm _ Hdot).
Qed.

Lemma runs_from_all f cur s : all_in f cur -> Forall (all_in f) (runs_from f cur s).
Proof.
  revert cur. induction s as [|c s IH]; intros cur Hcur; cbn.
  - case_decide; by repeat constructor.
  - destruct (f c) eqn:E.
    + apply IH, Forall_app. by repeat constructor.
    + apply Forall_app. split; [case_decide; by repeat constructor|]. apply IH. constructor.
Qed.

(** Whatever the path, the two parts are word characters, ten and at least one. *)
Lemma ExtractServiceIdAndUserKey_ok path sid key :
  ExtractServiceIdAndUserKey path = Ok (sid, key) ->
  length sid = 10%nat /\ key <> [] /\ all_in word_dash sid /\ all_in word_dash key.
Proof.
  rewrite ExtractServiceIdAndUserKey_runs. unfold long_runs. intros H.
  destruct (filter _ (runs word_dash path)) as [|m [|??]] eqn:E; simplify_eq.
  assert (m ∈ filter (fun m => 11 <= length m)%nat (runs word_dash path)) as Hin
    by (rewrite E; set_solver).
  apply list_elem_of_filter in Hin as [Hlen Hin].
  pose proof (runs_from_all word_dash [] path ltac:(constructor)) as Hall.
  rewrite Forall_forall in Hall. specialize (Hall _ Hin). split_and!.
  - rewrite length_take. lia.
  - intros Ek%(f_equal length). rewrite length_drop in Ek. cbn in Ek. lia.
  - by apply Forall_take.
  - by apply Forall_drop.
Qed.

Lemma ExtractRequestDetail_ok req d :
  ExtractRequestDetailFromFasthttpRequest req = (d, None) ->
  ExtractServiceIdAndUserKey (req_Path req) = Ok (ServiceName d, UserKey d).
Proof.
  unfold ExtractRequestDetailFromFasthttpRequest. intros H.
  destruct (ExtractServiceIdAndUserKey (req_Path req)) as [[]|]; repeat case_match; by simplify_eq/=.
Qed.

(** The service and key that a request gives have no dot, so the identifier
    built from them gives them back. *)
Lemma request_info req d uuid :
  ExtractRequestDetailFromFasthttpRequest req = (d, None) ->
  ExtractServiceInfoFromRequestID
    (build_request_id (bytes_str (UserKey d)) (bytes_str (ServiceName d)) uuid)
  = Val (bytes_str (UserKey d), bytes_str (ServiceName d)).
Proof.
  intros H. apply ExtractRequestDetail_ok, ExtractServiceIdAndUserKey_ok in H
    as (_&_&Hs%word_dash_no_dot&Hk%word_dash_no_dot).
  unfold ExtractServiceInfoFromRequestID. by rewrite split_request_id by (by rewrite bytes_str_inv).
Qed.

(** Whoever can be billed is billed: for every request whose path gives a
    service and a user key, the request id that the client-side gateway builds
    from them, whatever the uuid, gives back the same key and service. *)
Theorem request_id_roundtrip (req : HttpRequest) (d : RequestDetail) (uuid : string)
    (Hextract : ExtractRequestDetailFromFasthttpRequest req = (d, None)) :
  ExtractServiceInfoFromRequestID
    (build_request_id (bytes_str (UserKey d)) (bytes_str (ServiceName d)) uuid)
  = Val (bytes_str (UserKey d), bytes_str (ServiceName d)).
Proof. by eapply request_info. Qed.

Example request_id_roundtrip_witness :
  ExtractServiceInfoFromRequestID "_user-1.abcdefghij.123e4567-e89b"
  = Val ("_user-1", "abcdefghij")%string.
Proof.
  apply (request_id_roundtrip (example_request "/v1/abcdefghij_user-1/get")
           (ExtractRequestDetailFromFasthttpRequest (example_request "/v1/abcdefghij_user-1/get")).1
           "123e4567-e89b").
  vm_compute. reflexivity.
Defined.

(** Only service ids of exactly ten word characters can be reached over
    HTTP, and the user key is never empty. *)
Theorem service_name_shape (req : HttpRequest) (d : RequestDetail)
    (Hextract : ExtractRequestDetailFromFasthttpRequest req = (d, None)) :
  length (ServiceName d) = 10%nat /\ all_in word_dash (ServiceName d) /\
  UserKey d <> [] /\ all_in word_dash (UserKey d).
Proof.
  apply ExtractRequestDetail_ok, ExtractServiceIdAndUserKey_ok in Hextract. tauto.
Qed.

Example service_name_shape_witness :
  let d := (ExtractRequestDetailFromFasthttpRequest (example_request "/v1/abcdefghij_user-1/get")).1 in
  length (ServiceName d) = 10%nat /\ all_in word_dash (ServiceName d) /\
  UserKey d <> [] /\ all_in word_dash (UserKey d).
Proof. apply (service_name_shape (example_request "/v1/abcdefghij_user-1/get")). vm_compute. reflexivity. Defined.

(** ** Headers and query parameters *)

(** The values given for a key, in order. *)
Definition values_of (k : string) (kvs : list (bytes * bytes)) : list string :=
  omap (fun kv => if decide (bytes_str kv.1 = k) then Some (bytes_str kv.2) else None) kvs.

Lemma fold_headers m0 kvs k :
  default [] (fold_left (fun m kv => append_kv m m kv) kvs m0 !! k)
  = default [] (m0 !! k) ++ values_of k kvs.
Proof.
  revert m0. induction kvs as [|[a b] kvs IH]; intros m0; cbn; [by rewrite app_nil_r|].
  rewrite IH. unfold append_kv; cbn. case_decide as E.
  - rewrite E, lookup_insert_eq. cbn. by rewrite <- app_assoc.
  - by rewrite lookup_insert_ne.
Qed.

Lemma fold_query (h m0 : gmap string (list string)) kvs k :
  fold_left (fun m kv => append_kv h m kv) kvs m0 !! k
  = match last (values_of k kvs) with
    | Some v => Some (default [] (h !! k) ++ [v])
    | None => m0 !! k
    end.
Proof.
  revert m0. induction kvs as [|[a b] kvs IH]; intros m0; cbn; [done|].
  rewrite IH. unfold append_kv; cbn. case_decide as E; cbn.
  - rewrite E, lookup_insert_eq. fold (values_of k kvs). rewrite last_cons.
    by destruct (last (values_of k kvs)).
  - by rewrite lookup_insert_ne.
Qed.

Lemma ExtractRequestDetail_maps req :
  Headers (ExtractRequestDetailFromFasthttpRequest req).1
  = fold_left (fun m kv => append_kv m m kv) (req_Headers req) ∅ /\
  QueryParams (ExtractRequestDetailFromFasthttpRequest req).1
  = fold_left (fun m kv => append_kv (fold_left (fun m kv => append_kv m m kv) (req_Headers req) ∅) m kv)
      (req_QueryArgs req) ∅.
Proof. unfold ExtractRequestDetailFromFasthttpRequest. by repeat case_match. Qed.

(** The header map keeps every value of every header, in the order of the
    request. *)
Theorem headers_complete (req : HttpRequest) (k : string) :
  default [] (Headers (ExtractRequestDetailFromFasthttpRequest req).1 !! k)
  = values_of k (req_Headers req).
Proof. rewrite (proj1 (ExtractRequestDetail_maps req)), fold_headers. by rewrite lookup_empty. Qed.

(** The query map does not: of a repeated argument only the last value is
    left, and it stands behind the values of the header of the same name. *)
Theorem query_params_last_and_headers (req : HttpRequest) (k : string) :
  QueryParams (ExtractRequestDetailFromFasthttpRequest req).1 !! k
  = (fun v => values_of k (req_Headers req) ++ [v]) <$> last (values_of k (req_QueryArgs req)).
Proof.
  rewrite (proj2 (ExtractRequestDetail_maps req)), fold_query, fold_headers, !lookup_empty.
  by destruct (last _).
Qed.
