(* ===== verification/UsageRecord.v ===== *)
(** [internal/models/usage_record.go] and [usage_record_manager.go]: the usage
    records kept per service and user, and their export.

    The methods run one at a time here: the per-record mutexes do not protect
    the two maps, so this is what the code relies on. A mutex is therefore free
    whenever a method starts, and the [locks] map is the set of its keys; locking
    through a missing entry dereferences a nil pointer. *)

From S2P Require Import Prelude Messages RequestDetail.

Definition DoRecord (r : ApronUsageRecord) (count upSize dwSize : Z) : ApronUsageRecord :=
  mkUsageRecord (Usage_UserKey r) (Usage_ServiceId r) (Usage_StartTs r) (Usage_EndTs r)
    (u64_add (Usage_AccessCount r) count) (u64_add (Usage_UploadTraffic r) upSize)
    (u64_add (Usage_DownloadTraffic r) dwSize).

Record UsageRecordManager := mkManager {
  records : gmap string ApronUsageRecord;
  locks : gset string
}.

Definition Init : UsageRecordManager := mkManager ∅ ∅.

Section manager.
Context {E : Type}.
Abbreviation Mgr := (M UsageRecordManager E).

(** [m.locks[recordKey].Lock()]. *)
Definition lock (recordKey : string) : Mgr unit :=
  m ← get;
  if decide (recordKey ∈ locks m) then mret tt else panic nil_deref.

Definition set_record (recordKey : string) (r : ApronUsageRecord) : Mgr unit :=
  modify (fun m => mkManager (<[recordKey := r]> (records m)) (locks m)).

Definition add_lock (recordKey : string) : Mgr unit :=
  modify (fun m => mkManager (records m) ({[recordKey]} ∪ locks m)).

(** [now] is [time.Now().UnixMilli()]. *)
Definition RecordUsageFromInitHttpProxyRequest (now : Z) (requestId : string)
    (requestBody : bytes) : Mgr unit :=
  '(userKey, serviceId) ← lift_outcome (ExtractServiceInfoFromRequestID requestId);
  let recordKey := GenerateUsageRecordKey serviceId userKey in
  let size := u64 (Z.of_nat (length requestBody)) in
  m ← get;
  match records m !! recordKey with
  | Some rcd => lock recordKey;; set_record recordKey (DoRecord rcd 1 size 0)
  | None =>
      add_lock recordKey;; lock recordKey;;
      set_record recordKey (mkUsageRecord userKey serviceId now 0 1 size 0)
  end.

Definition RecordUsageHttpProxyData (requestId : string) (rawData : bytes)
    (isClientToService : bool) : Mgr unit :=
  '(userKey, serviceId) ← lift_outcome (ExtractServiceInfoFromRequestID requestId);
  let recordKey := GenerateUsageRecordKey serviceId userKey in
  let size := u64 (Z.of_nat (length rawData)) in
  m ← get;
  lock recordKey;;
  match records m !! recordKey with
  | Some rcd =>
      set_record recordKey
        (if isClientToService then DoRecord rcd 0 size 0 else DoRecord rcd 0 0 size)
  | None => panic nil_deref
  end.

Definition RecordUsageFromSocket (now : Z) (requestId : string) : Mgr unit :=
  '(userKey, serviceId) ← lift_outcome (ExtractServiceInfoFromRequestID requestId);
  let recordKey := GenerateUsageRecordKey serviceId userKey in
  m ← get;
  match records m !! recordKey with
  | Some rcd => lock recordKey;; set_record recordKey (DoRecord rcd 1 0 0)
  | None =>
      add_lock recordKey;; lock recordKey;;
      set_record recordKey (mkUsageRecord userKey serviceId now 0 1 0 0)
  end.

Definition set_EndTs (now : Z) (r : ApronUsageRecord) : ApronUsageRecord :=
  mkUsageRecord (Usage_UserKey r) (Usage_ServiceId r) (Usage_StartTs r) now
    (Usage_AccessCount r) (Usage_UploadTraffic r) (Usage_DownloadTraffic r).

(** The loop over [m.locks], in the order [order] that the iteration takes;
    [now k] is the clock when the loop is at [k]. *)
Fixpoint export_keys (now : string -> Z) (order : list string) (result : list ApronUsageRecord)
    : Mgr (list ApronUsageRecord) :=
  match order with
  | [] => mret result
  | recordKey :: order =>
      m ← get;
      match records m !! recordKey with
      | Some r =>
          modify (fun m => mkManager (delete recordKey (records m)) (locks m ∖ {[recordKey]}));;
          export_keys now order (result ++ [set_EndTs (now recordKey) r])
      | None => panic nil_deref
      end
  end.

Definition ExportAllUsage (now : string -> Z) (order : list string) (nodeId : string) : Mgr NodeReport :=
  result ← export_keys now order [];
  mret (mkNodeReport nodeId result).
End manager.

(** ** Histories *)

Inductive usage_op :=
  | OpHttp (requestId : string) (requestBody : bytes)
  | OpData (requestId : string) (rawData : bytes) (isClientToService : bool)
  | OpSocket (requestId : string)
  | OpExport (nodeId : string).

Abbreviation Mgr := (M UsageRecordManager Empty_set).

(** One call that returns, with the reports it gives out. Map iteration makes
    the order of the export arbitrary. *)
Inductive usage_step : UsageRecordManager -> usage_op -> list NodeReport -> UsageRecordManager -> Prop :=
  | step_http m m' now rid body :
      (RecordUsageFromInitHttpProxyRequest now rid body : Mgr unit) m = (Val tt, m', []) ->
      usage_step m (OpHttp rid body) [] m'
  | step_data m m' rid data up :
      (RecordUsageHttpProxyData rid data up : Mgr unit) m = (Val tt, m', []) ->
      usage_step m (OpData rid data up) [] m'
  | step_socket m m' now rid :
      (RecordUsageFromSocket now rid : Mgr unit) m = (Val tt, m', []) ->
      usage_step m (OpSocket rid) [] m'
  | step_export m m' now order nodeId report :
      order ≡ₚ elements (locks m) ->
      (ExportAllUsage now order nodeId : Mgr NodeReport) m = (Val report, m', []) ->
      usage_step m (OpExport nodeId) [report] m'.

Inductive usage_run : UsageRecordManager -> list usage_op -> list NodeReport -> UsageRecordManager -> Prop :=
  | run_nil m : usage_run m [] [] m
  | run_cons m m1 m2 op ops rs rs' :
      usage_step m op rs m1 -> usage_run m1 ops rs' m2 -> usage_run m (op :: ops) (rs ++ rs') m2.

(** The invariant: one lock per record, each record under the key of its own
    service and user, neither of which has a dot, with counters of 64 bits. *)
Definition counter_ok (v : Z) : Prop := 0 <= v < 2 ^ 64.

Definition record_ok (k : string) (r : ApronUsageRecord) : Prop :=
  k = GenerateUsageRecordKey (Usage_ServiceId r) (Usage_UserKey r) /\
  no_dot (Usage_ServiceId r) /\ no_dot (Usage_UserKey r) /\
  counter_ok (Usage_AccessCount r) /\ counter_ok (Usage_UploadTraffic r) /\ counter_ok (Usage_DownloadTraffic r).

Definition manager_ok (m : UsageRecordManager) : Prop :=
  locks m = dom (records m) /\ map_Forall record_ok (records m).

(** ** What is billed *)

Inductive counter := Access | Upload | Download.

Definition count (c : counter) (r : ApronUsageRecord) : Z :=
  match c with
  | Access => Usage_AccessCount r
  | Upload => Usage_UploadTraffic r
  | Download => Usage_DownloadTraffic r
  end.

(** What a call adds to the account of a user with a service. *)
Definition billed (c : counter) (user service : string) (op : usage_op) : Z :=
  match op with
  | OpHttp rid body =>
      if decide (ExtractServiceInfoFromRequestID rid = Val (user, service)) then
        match c with Access => 1 | Upload => Z.of_nat (length body) | Download => 0 end
      else 0
  | OpData rid data up =>
      if decide (ExtractServiceInfoFromRequestID rid = Val (user, service)) then
        match c, up with
        | Upload, true | Download, false => Z.of_nat (length data)
        | _, _ => 0
        end
      else 0
  | OpSocket rid =>
      if decide (ExtractServiceInfoFromRequestID rid = Val (user, service)) then
        match c with Access => 1 | _ => 0 end
      else 0
  | OpExport _ => 0
  end.

(** What the manager holds, and what a list of records says, for an account. *)
Definition held (c : counter) (user service : string) (m : UsageRecordManager) : Z :=
  match records m !! GenerateUsageRecordKey service user with
  | Some r => count c r
  | None => 0
  end.

Definition account_of (user service : string) (r : ApronUsageRecord) : bool :=
  bool_decide (Usage_UserKey r = user /\ Usage_ServiceId r = service).

Definition sum (l : list Z) : Z := foldr Z.add 0 l.

Definition reported_in (c : counter) (user service : string) (l : list ApronUsageRecord) : Z :=
  sum ((fun r => if account_of user service r then count c r else 0) <$> l).

Definition reported (c : counter) (user service : string) (rs : list NodeReport) : Z :=
  sum ((fun rep => reported_in c user service (Report_Records rep)) <$> rs).

(** ** Keys *)

Lemma ExtractServiceInfo_no_dot rid u s :
  ExtractServiceInfoFromRequestID rid = Val (u, s) -> no_dot u /\ no_dot s.
Proof.
  unfold ExtractServiceInfoFromRequestID, strings_SplitN. cbn [splitN]. intros H.
  destruct (cut dot (str_bytes rid)) as [[a b]|] eqn:E1; [|done].
  destruct (cut dot b) as [[a' b']|] eqn:E2; [|done]. cbn in H. simplify_eq.
  apply cut_spec in E1 as [_ ?], E2 as [_ ?]. by rewrite !bytes_str_inv.
Qed.

(** A dot-free service id can be read back from a record key. *)
Lemma record_key_inj s u s' u' :
  no_dot s -> no_dot s' ->
  GenerateUsageRecordKey s u = GenerateUsageRecordKey s' u' -> s = s' /\ u = u'.
Proof.
  unfold GenerateUsageRecordKey. intros Hs Hs' H%(f_equal str_bytes).
  rewrite !str_bytes_app in H. change (str_bytes ".") with [dot] in H. cbn [app] in H.
  pose proof (cut_app dot (str_bytes s) (str_bytes u) Hs) as E.
  rewrite H, cut_app in E by done. simplify_eq.
  split; by apply str_bytes_inj.
Qed.

(** ** The recording calls *)

(** They all have one shape: one record is created or updated under its key. *)
Definition touches (m : UsageRecordManager) (op : usage_op) (m' : UsageRecordManager) : Prop :=
  exists u s r,
    no_dot u /\ no_dot s /\ Usage_UserKey r = u /\ Usage_ServiceId r = s /\
    (forall c, counter_ok (count c r)) /\
    (forall c, kept64 (count c r) (held c u s m + billed c u s op)) /\
    (forall c u' s', (u', s') <> (u, s) -> billed c u' s' op = 0) /\
    m' = mkManager (<[GenerateUsageRecordKey s u := r]> (records m))
                   ({[GenerateUsageRecordKey s u]} ∪ locks m).

Lemma manager_ok_locked m k r : manager_ok m -> records m !! k = Some r -> k ∈ locks m.
Proof. intros [-> _] H. by apply elem_of_dom_2 in H. Qed.

Lemma manager_ok_key m s u r :
  manager_ok m -> no_dot s -> records m !! GenerateUsageRecordKey s u = Some r ->
  Usage_ServiceId r = s /\ Usage_UserKey r = u.
Proof.
  intros [_ Hall] Hs Hr. destruct (Hall _ _ Hr) as (Hk&Hs'&_).
  by apply record_key_inj in Hk as [-> ->].
Qed.

Lemma union_locked m k r : manager_ok m -> records m !! k = Some r -> {[k]} ∪ locks m = locks m.
Proof. intros Hm Hr. pose proof (manager_ok_locked m k r Hm Hr). set_solver. Qed.

Lemma manager_ok_count m k r c : manager_ok m -> records m !! k = Some r -> counter_ok (count c r).
Proof. intros [_ Hall] Hr. destruct (Hall _ _ Hr) as (_&_&_&?&?&?). by destruct c. Qed.

Lemma held_nonneg c u s m : manager_ok m -> 0 <= held c u s m.
Proof.
  intros Hm. unfold held. destruct (records m !! _) as [r|] eqn:Hr; [|done].
  by apply (manager_ok_count m _ r c Hm Hr).
Qed.

Lemma kept64_new a : 0 <= a -> kept64 (u64 a) (0 + a).
Proof. apply kept64_u64. Qed.

Lemma kept64_added a b : 0 <= a -> 0 <= b -> kept64 (u64_add a (u64 b)) (a + b).
Proof.
  intros Ha Hb. etrans; [apply kept64_u64_add; [done|apply u64_range]|]. by rewrite (kept64_u64 b).
Qed.

Ltac solve_kept := cbn [count DoRecord Usage_AccessCount Usage_UploadTraffic Usage_DownloadTraffic];
  first [ reflexivity | apply kept64_new; lia
        | first [apply kept64_added|apply kept64_u64_add]; [first [by eapply (manager_ok_count _ _ _ Access)
            |by eapply (manager_ok_count _ _ _ Upload)|by eapply (manager_ok_count _ _ _ Download)]|lia] ].

Definition op_rid (op : usage_op) : option string :=
  match op with
  | OpHttp rid _ | OpData rid _ _ | OpSocket rid => Some rid
  | OpExport _ => None
  end.

Lemma touches_intro m op rid u s r ls :
  op_rid op = Some rid -> ExtractServiceInfoFromRequestID rid = Val (u, s) ->
  Usage_UserKey r = u -> Usage_ServiceId r = s ->
  (forall c, counter_ok (count c r)) ->
  (forall c, kept64 (count c r) (held c u s m + billed c u s op)) ->
  ls = {[GenerateUsageRecordKey s u]} ∪ locks m ->
  touches m op (mkManager (<[GenerateUsageRecordKey s u := r]> (records m)) ls).
Proof.
  intros Hop Hrid Hu Hs Hr Hc ->. destruct (ExtractServiceInfo_no_dot _ _ _ Hrid).
  exists u, s, r. split_and!; try done. intros c u' s' Hne.
  destruct op; cbn in *; simplify_eq; rewrite ?decide_False by congruence; done.
Qed.

Lemma usage_step_touches m op rs m' :
  manager_ok m -> usage_step m op rs m' ->
  match op with OpExport _ => True | _ => rs = [] /\ touches m op m' end.
Proof.
  intros Hm Hstep. destruct Hstep as [m m' now rid body H|m m' rid data up H|m m' now rid H|];
    [| | |done]; (split; [done|]);
    unfold RecordUsageFromInitHttpProxyRequest, RecordUsageHttpProxyData, RecordUsageFromSocket in H;
    run_handler;
    destruct (ExtractServiceInfoFromRequestID rid) as [[u s]|msg|] eqn:Hrid; try done;
    destruct (ExtractServiceInfo_no_dot _ _ _ Hrid) as [Hu Hs];
    cbn in H; unfold lock, set_record, add_lock in H; run_handler;
    destruct (records m !! GenerateUsageRecordKey s u) as [r|] eqn:Hr; cbn in H;
    (* the record's lock is there, or has just been made *)
    first [ rewrite (decide_True (P := _ ∈ locks m)) in H by (by eapply manager_ok_locked);
            destruct (manager_ok_key _ _ _ _ Hm Hs Hr)
          | rewrite decide_True in H by set_solver
          | exfalso; destruct (decide (_ ∈ locks m)); cbn in H; discriminate H ];
    cbn in H; simplify_eq;
    (eapply touches_intro; [reflexivity|exact Hrid|..];
     [by (try destruct up)|by (try destruct up)|
      intros c; destruct c; try destruct up; first [apply u64_range|done]|
      intros c; unfold held, billed; rewrite Hr, decide_True by done;
      destruct c; try destruct up; solve_kept|
      by erewrite ?union_locked by done]).
Qed.

Lemma touches_ok m op m' : manager_ok m -> touches m op m' -> manager_ok m'.
Proof.
  intros [Hl Hall] (u&s&r&Hu&Hs&<-&<-&Hc&_&_&->). split; cbn.
  - by rewrite dom_insert_L, Hl.
  - apply map_Forall_insert_2; [|done].
    split_and!; [done..|apply (Hc Access)|apply (Hc Upload)|apply (Hc Download)].
Qed.

Lemma touches_held c m op m' u s :
  manager_ok m -> no_dot s -> touches m op m' ->
  kept64 (held c u s m') (held c u s m + billed c u s op).
Proof.
  intros Hm Hs (u0&s0&r&Hu0&Hs0&_&_&_&Hc&Ho&->). unfold held at 1. cbn.
  destruct (decide ((u, s) = (u0, s0))) as [[= -> ->]|Hne].
  - by rewrite lookup_insert_eq.
  - rewrite lookup_insert_ne, (Ho c u s Hne), Z.add_0_r; [done|].
    intros Hk. by apply record_key_inj in Hk as [-> ->].
Qed.

(** ** The export *)

Lemma export_keys_all now order acc m :
  NoDup order -> (forall k, k ∈ order -> k ∈ dom (records m)) ->
  (export_keys now order acc : Mgr _) m =
    (Val (acc ++ omap (fun k => set_EndTs (now k) <$> records m !! k) order),
     mkManager (filter (fun kr => kr.1 ∉ order) (records m)) (locks m ∖ list_to_set order), []).
Proof.
  revert acc m. induction order as [|k order IH]; intros acc m Hnd Hin.
  - cbn. rewrite app_nil_r, difference_empty_L, map_filter_id by set_solver. by destruct m.
  - apply NoDup_cons in Hnd as [Hk Hnd].
    assert (is_Some (records m !! k)) as [r Hr] by (apply elem_of_dom, Hin; set_solver).
    cbn [export_keys]. run_handler. rewrite Hr. cbn [omap list_omap fmap option_fmap option_map].
    cbn. rewrite IH; [|done|].
    2: { intros k' Hk'. cbn. rewrite dom_delete_L. specialize (Hin k' ltac:(set_solver)). set_solver. }
    cbn [records locks fst snd app]. rewrite <- app_assoc. cbn [app].
    assert (omap (fun k' => set_EndTs (now k') <$> delete k (records m) !! k') order
            = omap (fun k' => set_EndTs (now k') <$> records m !! k') order) as ->.
    { clear -Hk. induction order as [|k' order IH]; [done|]. cbn.
      rewrite lookup_delete_ne by set_solver. by rewrite IH by set_solver. }
    do 3 f_equal.
    + apply map_eq. intros i. apply option_eq. intros x.
      rewrite !map_lookup_filter_Some, lookup_delete_Some. set_solver.
    + cbn. set_solver.
Qed.

(** The records of the table, each with the time its export reached it. *)
Definition closed (now : string -> Z) (m : UsageRecordManager) : list ApronUsageRecord :=
  (fun kr => set_EndTs (now kr.1) kr.2) <$> map_to_list (records m).

Lemma omap_records now order (m : UsageRecordManager) :
  order ≡ₚ elements (dom (records m)) ->
  omap (fun k => set_EndTs (now k) <$> records m !! k) order ≡ₚ closed now m.
Proof.
  intros ->. rewrite elements_dom. apply Permutation_refl'. unfold closed.
  assert (Forall (fun kr => records m !! kr.1 = Some kr.2) (map_to_list (records m))) as Hall.
  { apply Forall_forall. intros [k r]. apply elem_of_map_to_list. }
  induction Hall as [|[k r] l Hk _ IH]; [done|]. cbn in *. by rewrite Hk, IH.
Qed.

Lemma ExportAllUsage_all now order nodeId m :
  manager_ok m -> order ≡ₚ elements (locks m) ->
  exists recs, (ExportAllUsage now order nodeId : Mgr _) m = (Val (mkNodeReport nodeId recs), Init, []) /\
    recs ≡ₚ closed now m.
Proof.
  intros [Hl _] Horder. rewrite Hl in Horder.
  eexists. unfold ExportAllUsage. erewrite bind_val.
  2: { apply export_keys_all.
       - rewrite Horder. apply NoDup_elements.
       - intros k. by rewrite Horder, elem_of_elements. }
  split; [|by apply omap_records]. cbn. do 3 f_equal. unfold Init. f_equal.
  - apply map_empty. intros k. apply map_lookup_filter_None. right. intros r Hr Hn. apply Hn. cbn.
    rewrite Horder, elem_of_elements. by apply elem_of_dom_2 in Hr.
  - rewrite Horder, list_to_set_elements_L, Hl. set_solver.
Qed.

Lemma sum_app l l' : sum (l ++ l') = sum l + sum l'.
Proof. unfold sum. induction l as [|x l IH]; cbn; [done|]. rewrite IH. lia. Qed.

#[export] Instance sum_perm : Proper ((≡ₚ) ==> (=)) sum.
Proof. unfold sum. intros l l'. induction 1; cbn in *; lia. Qed.

#[export] Instance reported_in_perm c u s : Proper ((≡ₚ) ==> (=)) (reported_in c u s).
Proof. intros l l' H. unfold reported_in. by rewrite H. Qed.

(** What a report says about an account is what was held for it. *)
Lemma reported_held c u s now m :
  manager_ok m -> no_dot s -> reported_in c u s (closed now m) = held c u s m.
Proof.
  intros [_ Hall] Hs. unfold held, reported_in, closed. rewrite <- list_fmap_compose.
  revert Hall. generalize (records m). clear m. intros m.
  induction m as [|k r m Hk IH] using map_ind; intros Hall.
  - by rewrite map_to_list_empty, lookup_empty.
  - rewrite map_to_list_insert by done. apply map_Forall_insert in Hall as [Hr Hall]; [|done].
    unfold sum in *. cbn [fmap list_fmap foldr]. cbn in IH |- *. rewrite IH by done.
    destruct Hr as (->&Hs'&_). unfold account_of. cbn. case_bool_decide as E.
    + destruct E as [<- <-]. rewrite lookup_insert_eq, Hk. destruct c; cbn; lia.
    + rewrite lookup_insert_ne; [done|]. intros [? ?]%record_key_inj; [naive_solver|done|done].
Qed.

Lemma usage_step_ok m op rs m' : manager_ok m -> usage_step m op rs m' -> manager_ok m'.
Proof.
  intros Hm Hstep. pose proof (usage_step_touches _ _ _ _ Hm Hstep) as Ht.
  destruct Hstep; try (eapply touches_ok; [done|apply Ht]).
  edestruct ExportAllUsage_all as (recs&E&_); [exact Hm|done|]. rewrite E in *. simplify_eq.
  split; cbn; [by rewrite dom_empty_L|apply map_Forall_empty].
Qed.

Lemma usage_step_conserves c u s m op rs m' :
  manager_ok m -> no_dot s -> usage_step m op rs m' ->
  0 <= reported c u s rs /\ kept64 (reported c u s rs + held c u s m') (held c u s m + billed c u s op).
Proof.
  intros Hm Hs Hstep. pose proof (usage_step_touches _ _ _ _ Hm Hstep) as Ht.
  destruct Hstep as [m m' now rid body H|m m' rid data up H|m m' now rid H|m m' now order n rep Ho H];
    [by (split; [done|apply (touches_held c _ _ _ _ _ Hm Hs), Ht])..|].
  destruct (ExportAllUsage_all now order n m Hm Ho) as (recs&E&Hp). rewrite E in H. simplify_eq.
  assert (reported c u s [mkNodeReport n recs] = held c u s m) as ->.
  { rewrite <- (reported_held c u s now m Hm Hs), <- Hp. unfold reported, sum. cbn [fmap list_fmap foldr Report_Records]. lia. }
  split; [by apply held_nonneg|]. unfold held at 2. cbn. by rewrite lookup_empty.
Qed.

Lemma reported_app c u s rs rs' : reported c u s (rs ++ rs') = reported c u s rs + reported c u s rs'.
Proof. unfold reported. by rewrite fmap_app, sum_app. Qed.

Lemma usage_run_ok m ops rs m' : manager_ok m -> usage_run m ops rs m' -> manager_ok m'.
Proof. intros Hm Hrun. induction Hrun; eauto using usage_step_ok. Qed.

Lemma usage_run_conserves c u s m ops rs m' :
  manager_ok m -> no_dot s -> usage_run m ops rs m' ->
  0 <= reported c u s rs /\
  kept64 (reported c u s rs + held c u s m') (held c u s m + sum (billed c u s <$> ops)).
Proof.
  intros Hm Hs Hrun. induction Hrun as [m|m m1 m2 op ops rs rs' Hstep _ IH].
  - split; [done|]. change (kept64 (held c u s m) (held c u s m + 0)). by rewrite Z.add_0_r.
  - destruct (IH (usage_step_ok _ _ _ _ Hm Hstep)) as [H2 H3].
    destruct (usage_step_conserves c u s _ _ _ _ Hm Hs Hstep) as [H0 H1].
    rewrite reported_app. split; [lia|]. change (sum (billed c u s <$> op :: ops))
      with (billed c u s op + sum (billed c u s <$> ops)).
    by rewrite <- Z.add_assoc, H3, !Z.add_assoc, H1.
Qed.

Lemma Init_ok : manager_ok Init.
Proof. split; [cbn; by rewrite dom_empty_L|apply map_Forall_empty]. Qed.

(** What a recording call does when the record is there, and when it is not. *)
Lemma data_ok m rid u s data up :
  manager_ok m -> ExtractServiceInfoFromRequestID rid = Val (u, s) ->
  result_of ((RecordUsageHttpProxyData rid data up : Mgr unit) m)
  = if decide (GenerateUsageRecordKey s u ∈ dom (records m)) then Val tt else Panic nil_deref.
Proof.
  intros [Hl _] Hrid. unfold RecordUsageHttpProxyData, lock, set_record. run_handler. rewrite Hrid. cbn.
  rewrite Hl. case_decide as Hk; cbn; [|done].
  apply elem_of_dom in Hk as [r ->]. by destruct up.
Qed.

Lemma usage_init_ok m rid u s now body :
  manager_ok m -> ExtractServiceInfoFromRequestID rid = Val (u, s) ->
  exists m', (RecordUsageFromInitHttpProxyRequest now rid body : Mgr unit) m = (Val tt, m', []) /\
    GenerateUsageRecordKey s u ∈ dom (records m').
Proof.
  intros [Hl _] Hrid. unfold RecordUsageFromInitHttpProxyRequest, lock, set_record, add_lock.
  run_handler. rewrite Hrid. cbn.
  destruct (records m !! GenerateUsageRecordKey s u) as [r|] eqn:Hr; cbn;
    (rewrite decide_True; [|first [rewrite Hl; by apply elem_of_dom_2 in Hr | set_solver]]);
    eexists; (split; [reflexivity|]); cbn; set_solver.
Qed.

(** ** Properties *)

(** C13: usage is conserved. Over any history of calls that return, whatever the
    interleaving of recordings and exports and whatever order the exports go
    through the maps, what the reports say about a user and a service plus what
    the manager still holds is what the calls billed, up to the 64-bit width of
    the counters: nothing is billed twice or put on another account, and nothing is
    lost but multiples of 2^64, and these only when the whole bill reaches 2^64. *)
Theorem usage_conserved (c : counter) (user service : string) (ops : list usage_op)
    (rs : list NodeReport) (m' : UsageRecordManager)
    (Hservice : no_dot service) (Hrun : usage_run Init ops rs m') :
  let accounted := reported c user service rs + held c user service m' in
  let bill := sum (billed c user service <$> ops) in
  cong64 accounted bill /\ 0 <= accounted <= bill /\ (bill < 2 ^ 64 -> accounted = bill).
Proof.
  destruct (usage_run_conserves c user service _ _ _ _ Init_ok Hservice Hrun) as [Hr Hk].
  change (held c user service Init) with 0 in Hk. rewrite Z.add_0_l in Hk.
  pose proof (held_nonneg c user service m' (usage_run_ok _ _ _ _ Init_ok Hrun)) as Hh. cbn zeta.
  split_and!; [by apply kept64_cong|lia|by apply kept64_le|].
  intros Hb. apply kept64_exact; [done|lia|done].
Qed.

Definition example_ops : list usage_op :=
  [OpHttp "u.svc.1" (str_bytes "body"); OpData "u.svc.1" (str_bytes "answer") false;
   OpExport "node"; OpSocket "u.svc.2"].

Lemma example_usage_run : exists rs m', usage_run Init example_ops rs m' /\
  reported Download "u" "svc" rs = 6 /\ held Access "u" "svc" m' = 1.
Proof.
  eexists _, _. split.
  - eapply run_cons; [eapply (step_http _ _ 7); vm_compute; reflexivity|].
    eapply run_cons; [eapply step_data; vm_compute; reflexivity|].
    eapply run_cons; [eapply (step_export _ _ (fun _ => 9) ["svc.u"%string]); vm_compute; reflexivity|].
    eapply run_cons; [eapply (step_socket _ _ 8); vm_compute; reflexivity|]. constructor.
  - split; vm_compute; reflexivity.
Qed.

Example usage_conserved_witness : exists rs m', usage_run Init example_ops rs m' /\
  reported Download "u" "svc" rs + held Download "u" "svc" m' = 6.
Proof.
  destruct example_usage_run as (rs&m'&Hrun&_). exists rs, m'. split; [exact Hrun|].
  refine (proj2 (proj2 (usage_conserved Download "u" "svc" example_ops rs m' _ Hrun)) _).
  - apply (bool_decide_unpack _). vm_compute. exact I.
  - vm_compute. reflexivity.
Defined.

(** In every state that a history reaches, each record has its mutex, is
    stored under the key of its own service and user, and no mutex is left
    behind by a record that is gone. *)
Theorem usage_reachable_ok (ops : list usage_op) (rs : list NodeReport) (m' : UsageRecordManager)
    (Hrun : usage_run Init ops rs m') :
  locks m' = dom (records m') /\
  forall k r, records m' !! k = Some r -> k = GenerateUsageRecordKey (Usage_ServiceId r) (Usage_UserKey r).
Proof.
  destruct (usage_run_ok _ _ _ _ Init_ok Hrun) as [Hl Hall]. split; [done|].
  intros k r Hr. by destruct (Hall k r Hr).
Qed.

Example usage_reachable_ok_witness : exists rs m', usage_run Init example_ops rs m' /\
  locks m' = dom (records m').
Proof.
  destruct example_usage_run as (rs&m'&Hrun&_). exists rs, m'. split; [exact Hrun|].
  apply (usage_reachable_ok example_ops rs m' Hrun).
Defined.

(** An export gives out every record exactly once, closed at the time the loop
    reached it, and leaves the manager as [Init] leaves it, in whatever order
    the iteration visits the keys. *)
Theorem export_complete (now : string -> Z) (order : list string) (nodeId : string)
    (m : UsageRecordManager) (Hm : manager_ok m) (Horder : order ≡ₚ elements (locks m)) :
  exists recs,
    (ExportAllUsage now order nodeId : Mgr NodeReport) m = (Val (mkNodeReport nodeId recs), Init, []) /\
    recs ≡ₚ (fun kr => set_EndTs (now kr.1) kr.2) <$> map_to_list (records m).
Proof. by apply ExportAllUsage_all. Qed.

Definition example_manager : UsageRecordManager :=
  state_of ((RecordUsageFromInitHttpProxyRequest 7 "u.svc.1" (str_bytes "body");;
             RecordUsageFromSocket 8 "v.svc.2" : Mgr unit) Init).

Lemma example_manager_ok : manager_ok example_manager.
Proof.
  split; [by vm_compute|]. apply (bool_decide_unpack _). vm_compute. exact I.
Qed.

Example export_complete_witness : exists recs,
  (ExportAllUsage (fun _ => 9) ["svc.v"; "svc.u"]%string "node" : Mgr NodeReport) example_manager
  = (Val (mkNodeReport "node" recs), Init, []).
Proof.
  destruct (export_complete (fun _ => 9) ["svc.v"; "svc.u"]%string "node" example_manager) as (recs&H&_).
  - apply example_manager_ok.
  - apply (bool_decide_unpack _). vm_compute. exact I.
  - exists recs. exact H.
Defined.

(** Recording the first request of an account creates its record, after which
    data of the same account can be recorded; but data that arrives when an
    export has already taken the record dereferences a nil pointer, which in
    Go ends the process. *)
Theorem data_needs_record (now : Z) (clock : string -> Z) (rid : string) (user service : string)
    (body data : bytes) (up : bool) (order : list string) (nodeId : string) (m : UsageRecordManager)
    (Hm : manager_ok m) (Hrid : ExtractServiceInfoFromRequestID rid = Val (user, service))
    (Horder : order ≡ₚ elements (locks m)) :
  result_of ((RecordUsageFromInitHttpProxyRequest now rid body;;
              RecordUsageHttpProxyData rid data up : Mgr unit) m) = Val tt /\
  result_of ((_ ← ExportAllUsage clock order nodeId;
              RecordUsageHttpProxyData rid data up : Mgr unit) m) = Panic nil_deref.
Proof.
  split.
  - destruct (usage_init_ok m rid user service now body Hm Hrid) as (m'&E&Hin).
    erewrite bind_val by exact E. cbn.
    assert (manager_ok m') as Hm' by (eapply usage_step_ok; [exact Hm|by eapply step_http]).
    pose proof (data_ok m' rid user service data up Hm' Hrid) as H.
    rewrite decide_True in H by done. exact H.
  - destruct (ExportAllUsage_all clock order nodeId m Hm Horder) as (recs&E&_).
    erewrite bind_val by exact E.
    pose proof (data_ok Init rid user service data up Init_ok Hrid) as H.
    rewrite decide_False in H by (cbn; set_solver). exact H.
Qed.

Example data_needs_record_witness :
  result_of ((_ ← ExportAllUsage (fun _ => 9) ["svc.v"; "svc.u"]%string "node";
              RecordUsageHttpProxyData "u.svc.1" (str_bytes "late") true : Mgr unit) example_manager)
  = Panic nil_deref.
Proof.
  apply (data_needs_record 7 (fun _ => 9) "u.svc.1" "u" "svc" [] (str_bytes "late") true
           ["svc.v"; "svc.u"]%string "node" example_manager).
  - apply example_manager_ok.
  - vm_compute. reflexivity.
  - apply (bool_decide_unpack _). vm_compute. exact I.
Defined.
