(* ===== verification/Report.v ===== *)
(** [internal/trans_network/node_user_report.go]: the task that exports the usage
    records and pins them, one turn of its endless loop. *)

From S2P Require Import Prelude Messages RequestDetail UsageRecord.
From S2P Require WireFormat.

(** What a turn does outside the node. *)
Inductive report_effect := Pinned (content : bytes) | Slept (nanoseconds : Z).

(** [time.Duration(uploadInterval) * time.Second], a product of [int64]s. *)
Definition report_pause (uploadInterval : Z) : Z := i64 (uploadInterval * 10 ^ 9).

Section report.
Context {L : ProtoLib}.

(** [now] and [order] as in [ExportAllUsage]; [PinContent] is the agent's answer,
    a hash. [log.Fatal] ends the process. *)
Definition StartUploadUsageReportTask (uploadInterval : Z) (PinContent : bytes -> result string) (nodeId : string)
    (now : string -> Z) (order : list string) : M UsageRecordManager report_effect unit :=
  nodeReport ← ExportAllUsage now order nodeId;
  (if decide (length (Report_Records nodeReport) <> 0)%nat then
     reportBytes ← must (Marshal nodeReport);
     _ ← must (PinContent reportBytes);
     emit (Pinned reportBytes)
   else mret tt);;
  emit (Slept (report_pause uploadInterval)).
End report.

(** The export does the same whatever effects its caller can have. *)
Lemma export_keys_effects {E E'} now order acc m :
  exists o m', (export_keys now order acc : M UsageRecordManager E _) m = (o, m', []) /\
    (export_keys now order acc : M UsageRecordManager E' _) m = (o, m', []).
Proof.
  revert acc m. induction order as [|k order IH]; intros acc m; [by eexists _, _|].
  cbn [export_keys]. run_handler. destruct (records m !! k) as [r|]; cbn; [|by eexists _, _].
  destruct (IH (acc ++ [set_EndTs (now k) r])
    (mkManager (delete k (records m)) (locks m ∖ {[k]}))) as (o&m'&E1&E2).
  exists o, m'. by rewrite E1, E2.
Qed.

Lemma ExportAllUsage_effects {E} now order nodeId m r m' :
  (ExportAllUsage now order nodeId : M UsageRecordManager Empty_set _) m = (Val r, m', []) ->
  (ExportAllUsage now order nodeId : M UsageRecordManager E _) m = (Val r, m', []).
Proof.
  unfold ExportAllUsage. intros (recs&m1&?&?&H1&H2&_)%bind_inv.
  destruct (export_keys_effects (E := Empty_set) (E' := E) now order [] m) as (o&m2&E1&E2).
  rewrite E1 in H1. simplify_eq. erewrite bind_val by exact E2.
  unfold mret, M_ret in *. by simplify_eq/=.
Qed.

(** [time.Sleep] returns at once when it is given nothing or less. *)
Definition waits (e : report_effect) : Z :=
  match e with Pinned _ => 0 | Slept ns => Z.max 0 ns end.

(** The interval is waited for as long as an [int64] can count its nanoseconds:
    292 years. Just above, and for what is not positive, the task does not wait at
    all: it exports and pins as fast as it can. *)
Lemma report_pause_waits uploadInterval :
  0 <= uploadInterval <= 9223372036 -> waits (Slept (report_pause uploadInterval)) = uploadInterval * 10 ^ 9.
Proof. intros H. unfold waits, report_pause. rewrite i64_id; lia. Qed.

Lemma report_pause_none uploadInterval :
  - 9223372036 <= uploadInterval <= 0 \/ 9223372037 <= uploadInterval <= 18446744073 ->
  waits (Slept (report_pause uploadInterval)) = 0.
Proof.
  intros [H|H]; unfold waits, report_pause.
  - rewrite i64_id; lia.
  - pose proof (i64_above (uploadInterval * 10 ^ 9)). lia.
Qed.

(** ** Properties *)

(** One turn of the report task takes everything the manager holds. If there
    are records and pinning works, exactly one file is pinned; it decodes to a
    report of this node with every record once, closed at the time its export
    reached it; the manager is left empty. If there are none, nothing is
    pinned. Then it waits, for the interval as an [int64] has it. *)
Theorem report_uploaded {L : ProtoLib} (uploadInterval : Z) (PinContent : bytes -> result string)
    (nodeId : string) (now : string -> Z) (order : list string) (m : UsageRecordManager)
    (Hm : manager_ok m) (Horder : order ≡ₚ elements (locks m))
    (Hranges : Forall proto_wf (closed now m))
    (Hmarshal : forall recs, recs ≡ₚ closed now m -> exists b, Marshal (mkNodeReport nodeId recs) = Ok b)
    (Hpin : forall b, exists hash, PinContent b = Ok hash) :
  exists es,
    StartUploadUsageReportTask uploadInterval PinContent nodeId now order m
      = (Val tt, Init, es ++ [Slept (report_pause uploadInterval)]) /\
    (records m = ∅ -> es = []) /\
    (records m <> ∅ -> exists b recs, es = [Pinned b] /\
       Unmarshal b = Ok (mkNodeReport nodeId recs) /\ recs ≡ₚ closed now m).
Proof.
  destruct (ExportAllUsage_all now order nodeId m Hm Horder) as (recs&E&Hrecs).
  apply (ExportAllUsage_effects (E := report_effect)) in E.
  assert (length recs = size (records m)) as Hlen.
  { rewrite Hrecs. unfold closed. by rewrite length_fmap, length_map_to_list. }
  destruct (Hmarshal recs Hrecs) as [b Hb]. destruct (Hpin b) as [hash Hhash].
  unfold StartUploadUsageReportTask. erewrite bind_val by exact E. cbn [Report_Records].
  case_decide as Hne.
  - exists [Pinned b]. split_and!.
    + rewrite Hb. cbn [must]. unfold mbind, M_bind, mret, M_ret. cbn. by rewrite Hhash.
    + intros Hempty. rewrite Hlen, Hempty, map_size_empty in Hne. done.
    + intros _. exists b, recs. split_and!; [done| |done].
      apply Unmarshal_Marshal; [|done]. cbn. by rewrite Hrecs.
  - exists []. split_and!; [reflexivity|done|].
    intros Hn. exfalso. apply Hn. apply map_size_empty_inv. lia.
Qed.

Definition example_manager : UsageRecordManager :=
  mkManager {["svc.u" := mkUsageRecord "u" "svc" 7 0 1 4 0]} {["svc.u"]}.

Lemma example_closed : closed (fun _ => 9) example_manager = [mkUsageRecord "u" "svc" 7 9 1 4 0].
Proof. vm_compute. reflexivity. Qed.

Example report_uploaded_witness : exists b recs,
  StartUploadUsageReportTask (L := WireFormat.wire_lib) 15 (fun _ => Ok "hash"%string) "node" (fun _ => 9)
    ["svc.u"%string] example_manager = (Val tt, Init, [Pinned b; Slept (15 * 10 ^ 9)]) /\
  Unmarshal (H := WireFormat.wire_lib) b = Ok (mkNodeReport "node" recs) /\
  recs ≡ₚ [mkUsageRecord "u" "svc" 7 9 1 4 0].
Proof.
  destruct (report_uploaded (L := WireFormat.wire_lib) 15 (fun _ => Ok "hash"%string) "node" (fun _ => 9)
    ["svc.u"%string] example_manager) as (es&E&_&H).
  - split; [by vm_compute|]. apply (bool_decide_unpack _). vm_compute. exact I.
  - apply (bool_decide_unpack _). vm_compute. exact I.
  - rewrite example_closed. constructor; [cbn; lia|constructor].
  - intros recs Hrecs. rewrite example_closed in Hrecs. apply Permutation_singleton_r in Hrecs. subst recs.
    eexists. vm_compute. reflexivity.
  - intros b. eexists. reflexivity.
  - destruct H as (b&recs&->&Hb&Hrecs); [vm_compute; discriminate|].
    exists b, recs. split; [exact E|]. split; [exact Hb|]. rewrite <- example_closed. exact Hrecs.
Defined.
