(* ===== verification/Pinning.v ===== *)
(** Where usage reports go: [internal/ipfs_agent], the agents that pin a report,
    and [cmd/report_generator], which reads back what the local one has written.

    Files are kept by the elements of their path, cleaned as in [Url]; there are
    no symbolic links. [log.Fatal] ends the process, as a panic does. *)

From stdpp Require Import sorting.
From S2P Require Import Prelude Messages RequestDetail UsageRecord Report Regexp Url Utf8 Json ServiceJson.
From S2P Require WireFormat.

(** ** Files *)

Abbreviation path := (list bytes) (only parsing).

Record FS := mkFS {
  files : gmap path bytes;
  dirs : gset path
}.

(** The elements of an absolute path. *)
Definition resolve (p : bytes) : path := rev (fold_left (clean_step true) (elements_of p) []).

Fixpoint prefixes_of (p : path) : list path :=
  [] :: match p with [] => [] | e :: p => cons e <$> prefixes_of p end.

Definition err_not_dir : goerror := errors_New "not a directory".
Definition err_not_exist : goerror := errors_New "no such file or directory".
Definition err_exist : goerror := errors_New "file exists".

(** What else can go wrong: the answer of the system to a new directory, a new
    file, and a write, which can stop half way. *)
Record Disk := mkDisk {
  mkdir_err : option goerror;
  create_err : option goerror;
  write_err : bytes -> option (nat * goerror)
}.

Definition os_MkdirAll (d : Disk) (p : bytes) (fs : FS) : result FS :=
  if decide (Exists (fun q => q ∈ dom (files fs)) (prefixes_of (resolve p))) then Fail err_not_dir
  else match mkdir_err d with
       | Some err => Fail err
       | None => Ok (mkFS (files fs) (list_to_set (prefixes_of (resolve p)) ∪ dirs fs))
       end.

(** [ioutil.TempFile]: the first of the names it draws that is free. It draws ten
    thousand at most; [randoms] are what it draws. *)
Definition joinPath (dir name : bytes) : bytes :=
  if decide (last dir = Some slash) then dir ++ name else dir ++ slash :: name.

Fixpoint ioutil_TempFile (d : Disk) (dir prefix : bytes) (randoms : list bytes) (fs : FS)
    : result (bytes * FS) :=
  match randoms with
  | [] => Fail err_exist
  | r :: randoms =>
      let name := joinPath dir (prefix ++ r) in
      if decide (resolve dir ∉ dirs fs) then Fail err_not_exist
      else if decide (resolve name ∈ dom (files fs) \/ resolve name ∈ dirs fs)
      then ioutil_TempFile d dir prefix randoms fs
      else match create_err d with
           | Some err => Fail err
           | None => Ok (name, mkFS (<[resolve name := []]> (files fs)) (dirs fs))
           end
  end.

(** [os.File.Write] on a new file: how many bytes, and an error. *)
Definition file_Write (d : Disk) (name data : bytes) (fs : FS) : nat * option goerror * FS :=
  match write_err d data with
  | Some (k, err) => (k, Some err, mkFS (<[resolve name := take k data]> (files fs)) (dirs fs))
  | None => (length data, None, mkFS (<[resolve name := data]> (files fs)) (dirs fs))
  end.

(** ** local_file_agent.go *)

Record LocalFileAgent := mkLocalFileAgent {
  APIKey : string;
  APISecret : string;
  storageBase : string
}.

Abbreviation Pin := (M (LocalFileAgent * FS) Empty_set).

Definition storage_dir (key secret : string) : string := "/tmp/" +:+ key +:+ "/" +:+ secret.

(** The defaults are filled in for good. *)
Definition with_defaults (a : LocalFileAgent) : LocalFileAgent :=
  let key := if decide (APIKey a = "") then "agTestKey"%string else APIKey a in
  let secret := if decide (APISecret a = "") then "agTestSecret"%string else APISecret a in
  mkLocalFileAgent key secret (storage_dir key secret).

Section local.
Context (d : Disk).

Definition prepareStorage : Pin unit :=
  modify (fun s => (with_defaults s.1, s.2));;
  s ← get;
  fs ← must (os_MkdirAll d (str_bytes (storageBase s.1)) s.2);
  modify (fun s => (s.1, fs)).

Definition LocalFileAgent_PinContent (randoms : list bytes) (data : bytes) : Pin string :=
  prepareStorage;;
  s ← get;
  targetFile ← must (ioutil_TempFile d (str_bytes (storageBase s.1)) (str_bytes "apron-") randoms s.2);
  let '(bytesWritten, err, fs) := file_Write d targetFile.1 data targetFile.2 in
  modify (fun s => (s.1, fs));;
  CheckError err;;
  mret (bytes_str targetFile.1).

Definition os_ReadFile (p : bytes) (fs : FS) : result bytes :=
  match files fs !! resolve p with Some data => Ok data | None => Fail err_not_exist end.

Definition LocalFileAgent_PinFile (randoms : list bytes) (filepath : string) : Pin string :=
  s ← get;
  data ← must (os_ReadFile (str_bytes filepath) s.2);
  LocalFileAgent_PinContent randoms data.
End local.

(** ** pinata.go *)

(** What goes to the service: the address, two of the headers, and the file of the
    form. *)
Record PinRequest := mkPinRequest {
  Pin_URL : string;
  pinata_secret_api_key : string;
  pinata_api_key : string;
  Pin_FileName : bytes;
  Pin_Content : bytes
}.

Record PinataService := mkPinataService {
  Pinata_APIKey : string;
  Pinata_APISecret : string
}.

Definition PIN_FILE_ENDPOINT : string := "https://api.pinata.cloud/pinning/pinFileToIPFS".

(** [filepath.Base]: the last element that is not empty. *)
Definition fp_Base (p : bytes) : bytes :=
  match last (filter (fun e => e <> []) (elements_of p)) with
  | Some e => e
  | None => if decide (p = []) then str_bytes "." else [slash]
  end.

(** [json.Unmarshal] into a [map[string]interface{}]: any object, or null; a number
    that is too large for a [float64] is an error, wherever it is. *)
Definition float_overflow : Z := 2 ^ 1024 - 2 ^ 970.

Definition float_ok (lit : bytes) : bool :=
  let '(_, r) := optional minus lit in
  let '(i, r) := span digit r in
  let '(f, r) := match expect "." r with Some r => span digit r | None => ([], r) end in
  let '(e, r) := optional exp_char r in
  let '(sign, r) := optional exp_sign r in
  let e10 := (if decide (sign = ["-"%char]) then - digits_val r else digits_val r) - Z.of_nat (length f) in
  let m := digits_val (i ++ f) in
  if 0 <=? e10 then m * 10 ^ e10 <? float_overflow else m <? float_overflow * 10 ^ (- e10).

Fixpoint floats_ok (j : json) : bool :=
  match j with
  | JNumber lit => float_ok lit
  | JArray l => forallb floats_ok l
  | JObject kvs => forallb (fun kv => floats_ok kv.2) kvs
  | _ => true
  end.

Definition json_Unmarshal_map (data : bytes) : result (list (bytes * json)) :=
  match json_parse data with
  | None => Fail syntax_error
  | Some (JObject kvs) => if floats_ok (JObject kvs) then Ok kvs else Fail type_error
  | Some JNull => Ok []
  | Some _ => Fail type_error
  end.

(** [json_data[name].(string)]; of a repeated name the last member counts. *)
Definition string_member (name : string) (kvs : list (bytes * json)) : option bytes :=
  match last (filter (fun kv => kv.1 = str_bytes name) kvs) with
  | Some (_, JString s) => Some s
  | _ => None
  end.

Section pinata.
(** [copied]: how much of a file [io.Copy] gets through, whose error the goroutine
    drops: the form is closed as if it were complete. [Do] is the response's body,
    or the error of the call, or of reading the body. [Errorf] is what
    [fmt.Errorf] makes of a text from the service, taken for a format. *)
Context (d : Disk) (p : PinataService) (copied : bytes -> nat) (Do : PinRequest -> result bytes)
        (Errorf : string -> goerror).

Abbreviation Upload := (M FS PinRequest).

Definition pinata_reply (data : bytes) : result string :=
  match json_Unmarshal_map data with
  | Fail err => Fail err
  | Ok json_data =>
      match string_member "error" json_data with
      | Some out => Fail (Errorf (bytes_str out))
      | None =>
          match string_member "IpfsHash" json_data with
          | Some hash => Ok (bytes_str hash)
          | None => Fail (errors_New "pinata pin file failure")
          end
      end
  end.

Definition Pinata_PinFile (filepath : bytes) : Upload (result string) :=
  fs ← get;
  match os_ReadFile filepath fs with
  | Fail err => mret (Fail err)
  | Ok data =>
      let req := mkPinRequest PIN_FILE_ENDPOINT (Pinata_APISecret p) (Pinata_APIKey p)
                   (fp_Base filepath) (take (copied data) data) in
      emit req;;
      match Do req with
      | Fail err => mret (Fail err)
      | Ok data => mret (pinata_reply data)
      end
  end.

Definition os_Remove (name : bytes) (fs : FS) : FS := mkFS (delete (resolve name) (files fs)) (dirs fs).

(** [tempDir] is [os.TempDir()]. The file is removed on every way out. *)
Definition Pinata_PinContent (tempDir : bytes) (randoms : list bytes) (content : bytes)
    : Upload (result string) :=
  fs ← get;
  match ioutil_TempFile d tempDir (str_bytes "ipfs-agent-pinata-pinner-") randoms fs with
  | Fail _ => mret (Fail (errors_New "pinata pin content create tempfile failure"))
  | Ok (tmpfile, fs) =>
      let '(_, err, fs) := file_Write d tmpfile content fs in
      modify (fun _ => fs);;
      rslt ← (if err then mret (Fail (errors_New "pinata pin content write failure"))
              else Pinata_PinFile tmpfile);
      modify (os_Remove tmpfile);;
      mret rslt
  end.
End pinata.

(** ** cmd/report_generator *)

(** [filepath.Walk] goes through a directory in the order of the names. *)
Fixpoint path_leb (p q : path) : bool :=
  match p, q with
  | [], _ => true
  | _ :: _, [] => false
  | e :: p, f :: q =>
      if decide (e = f) then path_leb p q else String.leb (bytes_str e) (bytes_str f)
  end.

Definition walk_le (a b : path * bytes) : Prop := path_leb a.1 b.1 = true.
#[export] Instance walk_le_dec a b : Decision (walk_le a b).
Proof. unfold walk_le. apply _. Defined.

Definition under (base : path) (f : path * bytes) : Prop := take (length base) f.1 = base.
#[export] Instance under_dec base f : Decision (under base f).
Proof. unfold under. apply _. Defined.

(** The files that a walk over [base] hands to the function. *)
Definition walk_files (base : path) (fs : FS) : list bytes :=
  (merge_sort walk_le (filter (under base) (map_to_list (files fs)))).*2.

Section generator.
Context {L : ProtoLib}.

(** The function of the walk, on one file after the other: the reports it
    prints, and the error that ends the walk. *)
Fixpoint read_reports (contents : list bytes) : list NodeReport * option goerror :=
  match contents with
  | [] => ([], None)
  | content :: contents =>
      match Unmarshal (T := NodeReport) content with
      | Fail err => ([], Some err)
      | Ok report =>
          let '(reports, err) := read_reports contents in
          if decide (length (Report_Records report) <> 0%nat) then (report :: reports, err)
          else (reports, err)
      end
  end.

(** For a base that is not there the function is called without file
    information, which it uses before it looks at the error. *)
Definition report_generator (apiKey apiSecret : string) (fs : FS)
    : outcome (list NodeReport * option goerror) :=
  let base := resolve (str_bytes (storage_dir apiKey apiSecret)) in
  if decide (base ∈ dom (files fs) \/ base ∈ dirs fs)
  then Val (read_reports (walk_files base fs))
  else Panic nil_deref.
End generator.

(** ** Lemmas *)

#[local] Arguments with_defaults : simpl never.
#[local] Arguments resolve : simpl never.
#[local] Arguments joinPath : simpl never.
#[local] Arguments str_bytes : simpl never.
#[local] Arguments prefixes_of : simpl never.

(** *** Paths *)

Lemma elements_of_slash p r : elements_of (p ++ slash :: r) = elements_of p ++ elements_of r.
Proof.
  induction p as [|c p IH]; cbn [app elements_of].
  - destruct (elements_of r) eqn:E; [by apply elements_of_ne in E|]. by rewrite decide_True.
  - rewrite IH. destruct (elements_of p) as [|e es] eqn:E; [by apply elements_of_ne in E|].
    cbn. by case_decide.
Qed.

(** A name that stands for itself in a path. *)
Definition plain_name (e : bytes) : Prop := slash ∉ e /\ e <> [] /\ e <> str_bytes "." /\ e <> dotdot.

Lemma clean_plain_name rooted out e : plain_name e -> clean_step rooted out e = e :: out.
Proof.
  intros (_&H1&H2&H3). unfold clean_step. rewrite decide_False by tauto. by rewrite decide_False.
Qed.

Lemma resolve_slash p e : plain_name e -> resolve (p ++ slash :: e) = resolve p ++ [e].
Proof.
  intros He. unfold resolve. rewrite elements_of_slash, (elements_of_one e) by apply He.
  rewrite fold_left_app. cbn [fold_left]. by rewrite clean_plain_name.
Qed.

Lemma resolve_joinPath dir e : plain_name e -> resolve (joinPath dir e) = resolve dir ++ [e].
Proof.
  intros He. unfold joinPath. case_decide as E; [|by apply resolve_slash].
  apply last_Some in E as [l ->]. rewrite <- app_assoc. cbn [app]. rewrite resolve_slash by done.
  unfold resolve. rewrite elements_of_slash, fold_left_app. reflexivity.
Qed.

Definition temp_name (r : bytes) : bytes := str_bytes "apron-" ++ r.

#[local] Arguments temp_name : simpl never.

Lemma random_plain pre r : slash ∉ pre -> (2 < length pre)%nat -> all_in digit r -> plain_name (pre ++ r).
Proof.
  intros Hpre Hlen Hr. split.
  - rewrite not_elem_of_app. split; [done|]. intros Hin.
    by apply (proj1 (Forall_forall _ _) Hr) in Hin.
  - pose proof (eq_refl : length (str_bytes ".") = 1%nat). pose proof (eq_refl : length dotdot = 2%nat).
    split_and!; intros E%(f_equal length); rewrite length_app in E; cbn [length] in *; lia.
Qed.

Lemma temp_plain r : all_in digit r -> plain_name (temp_name r).
Proof. apply random_plain; [apply (bool_decide_unpack _); vm_compute; exact I|vm_compute; lia]. Qed.

Lemma prefixes_self p : p ∈ prefixes_of p.
Proof.
  induction p as [|e p IH]; cbn [prefixes_of]; [by left|]. right. apply list_elem_of_fmap. by exists p.
Qed.

Lemma prefixes_length p q : q ∈ prefixes_of p -> (length q <= length p)%nat.
Proof.
  revert q. induction p as [|e p IH]; intros q; cbn [prefixes_of].
  - by intros ->%list_elem_of_singleton.
  - intros [-> |Hq]%elem_of_cons; [cbn; lia|]. apply list_elem_of_fmap in Hq as (q'&->&Hq').
    apply IH in Hq'. cbn. lia.
Qed.

(** *** The agent *)

Definition healthy (d : Disk) : Prop :=
  mkdir_err d = None /\ create_err d = None /\ forall data, write_err d data = None.

Lemma with_defaults_idemp a : with_defaults (with_defaults a) = with_defaults a.
Proof.
  unfold with_defaults. cbn [APIKey APISecret].
  destruct (decide (APIKey a = "")) as [E|E], (decide (APISecret a = "")) as [F|F]; cbn;
    by rewrite ?(decide_False (P := APIKey a = "")), ?(decide_False (P := APISecret a = "")) by done.
Qed.

(** Where the agent keeps its files. *)
Definition base_of (a : LocalFileAgent) : path := resolve (str_bytes (storageBase (with_defaults a))).

(** Files do not stand in the way of the directories of the base. *)
Definition no_file_above (p : path) (fs : FS) : Prop :=
  Forall (fun q => q ∉ dom (files fs)) (prefixes_of p).

Definition made (p : path) (fs : FS) : FS := mkFS (files fs) (list_to_set (prefixes_of p) ∪ dirs fs).

Lemma MkdirAll_ok d p fs :
  healthy d -> no_file_above (resolve p) fs -> os_MkdirAll d p fs = Ok (made (resolve p) fs).
Proof.
  intros (Hm&_&_) Hp. unfold os_MkdirAll. rewrite decide_False; [by rewrite Hm|].
  rewrite Exists_exists. intros (q&Hq&Hin). by apply (proj1 (Forall_forall _ _) Hp) in Hq.
Qed.

Definition pinned_file (a : LocalFileAgent) (r data : bytes) (fs : FS) : FS :=
  mkFS (<[base_of a ++ [temp_name r] := data]> (files fs)) (list_to_set (prefixes_of (base_of a)) ∪ dirs fs).

Lemma PinContent_ok d a fs r rest data :
  healthy d -> no_file_above (base_of a) fs -> all_in digit r ->
  base_of a ++ [temp_name r] ∉ dom (files fs) -> base_of a ++ [temp_name r] ∉ dirs fs ->
  exists name, LocalFileAgent_PinContent d (r :: rest) data (a, fs)
    = (Val name, (with_defaults a, pinned_file a r data fs), []) /\
    resolve (str_bytes name) = base_of a ++ [temp_name r].
Proof.
  intros Hd Hp Hr Hf Hdirs.
  exists (bytes_str (joinPath (str_bytes (storageBase (with_defaults a))) (temp_name r))).
  assert (resolve (joinPath (str_bytes (storageBase (with_defaults a))) (temp_name r))
          = base_of a ++ [temp_name r]) as Hname by (by apply resolve_joinPath, temp_plain).
  split; [|by rewrite bytes_str_inv].
  assert (base_of a ++ [temp_name r] ∉ prefixes_of (base_of a)) as Hnp.
  { intros H%prefixes_length. rewrite length_app in H. cbn in H. lia. }
  unfold LocalFileAgent_PinContent, prepareStorage, pinned_file. unfold base_of in *. run_handler.
  cbn [fst snd]. remember (with_defaults a) as a' eqn:Ea. clear Ea.
  rewrite MkdirAll_ok by done. cbn [fst snd ioutil_TempFile]. fold (temp_name r).
  rewrite decide_False.
  2: { cbn [made dirs]. intros H. apply H. apply elem_of_union_l, elem_of_list_to_set, prefixes_self. }
  rewrite decide_False.
  2: { rewrite Hname. cbn [made files dirs]. rewrite elem_of_union, elem_of_list_to_set. tauto. }
  destruct Hd as (_&Hc&Hw). rewrite Hc. cbn [fst snd]. unfold file_Write. rewrite Hw.
  cbn [fst snd files dirs made]. by rewrite Hname, insert_insert_eq.
Qed.

(** One report after another; what is drawn for each, and its bytes. *)
Fixpoint pin_all (d : Disk) (pins : list (list bytes * bytes)) : Pin (list string) :=
  match pins with
  | [] => mret []
  | (randoms, data) :: pins =>
      name ← LocalFileAgent_PinContent d randoms data;
      names ← pin_all d pins;
      mret (name :: names)
  end.

(** What a walk over [base] finds, in any order. *)
Definition found (base : path) (fs : FS) : list bytes := (filter (under base) (map_to_list (files fs))).*2.

Lemma walk_found base fs : walk_files base fs ≡ₚ found base fs.
Proof. unfold walk_files, found. by rewrite merge_sort_Permutation. Qed.

Lemma found_pinned a r data fs :
  base_of a ++ [temp_name r] ∉ dom (files fs) ->
  found (base_of a) (pinned_file a r data fs) ≡ₚ data :: found (base_of a) fs.
Proof.
  intros Hf. unfold found, pinned_file. cbn [files].
  rewrite map_to_list_insert by (by apply not_elem_of_dom). rewrite filter_cons_True; [done|].
  unfold under. cbn [fst]. by rewrite take_app_length.
Qed.

(** The file names that a list of pins takes. *)
Definition fresh_names (a : LocalFileAgent) (rs : list bytes) (fs : FS) : Prop :=
  NoDup rs /\ Forall (all_in digit) rs /\
  Forall (fun r => base_of a ++ [temp_name r] ∉ dom (files fs) /\ base_of a ++ [temp_name r] ∉ dirs fs) rs.

Lemma with_defaults_base a : base_of (with_defaults a) = base_of a.
Proof. unfold base_of. by rewrite with_defaults_idemp. Qed.

Lemma pinned_no_file_above a r data fs :
  no_file_above (base_of a) fs -> no_file_above (base_of a) (pinned_file a r data fs).
Proof.
  intros H. apply Forall_forall. intros q Hq. unfold pinned_file. cbn [files].
  rewrite dom_insert, elem_of_union, elem_of_singleton. intros [-> |Hin].
  - apply prefixes_length in Hq. rewrite length_app in Hq. cbn in Hq. lia.
  - by apply (proj1 (Forall_forall _ _) H) in Hq.
Qed.

Lemma pinned_fresh_names a r rs data fs :
  fresh_names a (r :: rs) fs -> fresh_names (with_defaults a) rs (pinned_file a r data fs).
Proof.
  intros ([Hr Hrs]%NoDup_cons&[_ Hd]%Forall_cons&[_ Hf]%Forall_cons). split_and!; [done..|].
  rewrite Forall_forall in *. intros r' Hr'. rewrite with_defaults_base. unfold pinned_file. cbn [files dirs].
  rewrite dom_insert, !elem_of_union, elem_of_singleton, elem_of_list_to_set. split.
  - intros [E|Hin]; [|by apply Hf in Hr' as [? _]]. apply app_inv_head in E.
    injection E as E. by subst.
  - intros [Hin%prefixes_length|Hin]; [rewrite length_app in Hin; cbn in Hin; lia|by apply Hf in Hr' as [_ ?]].
Qed.

Lemma pin_all_ok d a fs (pins : list (bytes * list bytes * bytes)) :
  healthy d -> no_file_above (base_of a) fs -> fresh_names a pins.*1.*1 fs ->
  exists names a' fs', pin_all d ((fun p => (p.1.1 :: p.1.2, p.2)) <$> pins) (a, fs) = (Val names, (a', fs'), []) /\
    found (base_of a) fs' ≡ₚ pins.*2 ++ found (base_of a) fs /\
    dirs fs ⊆ dirs fs' /\ (pins <> [] -> base_of a ∈ dirs fs') /\ length names = length pins.
Proof.
  intros Hd. revert a fs. induction pins as [|[[r rest] data] pins IH]; intros a fs Hp Hf.
  { exists [], a, fs. by split_and!. }
  pose proof Hf as (_&[Hr _]%Forall_cons&[[Hn1 Hn2] _]%Forall_cons).
  destruct (PinContent_ok d a fs r rest data) as (name&E&_); [done..|].
  destruct (IH (with_defaults a) (pinned_file a r data fs)) as (names&a'&fs'&E'&Hfound&Hdirs&_&Hlen).
  - rewrite with_defaults_base. by apply pinned_no_file_above.
  - by apply pinned_fresh_names.
  - exists (name :: names), a', fs'. rewrite with_defaults_base in Hfound. split_and!.
    + cbn [fmap list_fmap pin_all fst snd]. erewrite bind_val by exact E. cbn [app].
      erewrite bind_val by exact E'. reflexivity.
    + rewrite Hfound, found_pinned by done. cbn. by rewrite Permutation_middle.
    + etransitivity; [|exact Hdirs]. cbn. set_solver.
    + intros _. apply Hdirs. cbn [pinned_file dirs].
      apply elem_of_union_l, elem_of_list_to_set, prefixes_self.
    + cbn. by rewrite Hlen.
Qed.

(** *** The generator *)

Section generator_lemmas.
Context {L : ProtoLib}.

Definition is_report (content : bytes) : Prop :=
  exists r, Unmarshal content = Ok r /\ Report_Records r <> [].

Definition report_of (content : bytes) : NodeReport :=
  match Unmarshal content with Ok r => r | Fail _ => mkNodeReport "" [] end.

Lemma read_reports_app before rest :
  Forall is_report before ->
  read_reports (before ++ rest) = ((report_of <$> before) ++ (read_reports rest).1, (read_reports rest).2).
Proof.
  induction 1 as [|c cs (r&Hr&Hne) _ IH]; cbn [app read_reports fmap list_fmap]; [by destruct (read_reports rest)|].
  assert (report_of c = r) as -> by (unfold report_of; by rewrite Hr).
  rewrite Hr, IH, decide_True; [done|]. by destruct (Report_Records r).
Qed.

Lemma read_reports_ok contents :
  Forall is_report contents -> read_reports contents = (report_of <$> contents, None).
Proof.
  intros H. rewrite <- (app_nil_r contents) at 1. rewrite read_reports_app by done.
  cbn. by rewrite app_nil_r.
Qed.
End generator_lemmas.

(** ** Properties *)

(** C27: what is pinned is read back. The local agent pins any number of reports,
    under its keys or, where one is empty, its defaults; each gets a file of its
    own. The report generator, started with those keys, prints every one of
    these reports and every one that was there before, each once, and ends
    without an error. *)
Theorem pinned_reports_read_back {L : ProtoLib} (d : Disk) (a : LocalFileAgent) (fs : FS)
    (pins : list (bytes * list bytes * bytes)) (reports : list NodeReport)
    (Hd : healthy d) (Hp : no_file_above (base_of a) fs) (Hfresh : fresh_names a pins.*1.*1 fs)
    (Hold : Forall is_report (found (base_of a) fs))
    (Hnew : Forall2 (fun r data => proto_wf r /\ Report_Records r <> [] /\ Marshal r = Ok data) reports pins.*2)
    (Hsome : pins <> []) :
  exists names a' fs' printed,
    pin_all d ((fun p => (p.1.1 :: p.1.2, p.2)) <$> pins) (a, fs) = (Val names, (a', fs'), []) /\
    length names = length pins /\
    report_generator (APIKey (with_defaults a)) (APISecret (with_defaults a)) fs' = Val (printed, None) /\
    printed ≡ₚ reports ++ (report_of <$> found (base_of a) fs).
Proof.
  destruct (pin_all_ok d a fs pins Hd Hp Hfresh) as (names&a'&fs'&E&Hfound&_&Hbase&Hlen).
  exists names, a', fs', (report_of <$> walk_files (base_of a) fs'). split_and!; [exact E|done| |].
  - unfold report_generator. change (resolve _) with (base_of a). rewrite decide_True by (right; auto).
    rewrite read_reports_ok; [done|]. rewrite walk_found, Hfound. apply Forall_app. split; [|done].
    clear -Hnew. induction Hnew as [|r c rs cs (Hwf&Hne&Hm) _ IH]; constructor; [|done].
    exists r. split; [|done]. by apply Unmarshal_Marshal.
  - rewrite walk_found, Hfound, fmap_app. apply Permutation_app_tail. apply Permutation_refl'.
    clear -Hnew. induction Hnew as [|r c rs cs (Hwf&Hne&Hm) _ IH]; [done|]. cbn. f_equal; [|done].
    unfold report_of. by rewrite (Unmarshal_Marshal r c Hwf Hm).
Qed.

Definition example_report : NodeReport := mkNodeReport "node" [mkUsageRecord "u" "svc" 7 9 1 4 0].
Definition example_report_bytes : bytes :=
  match Marshal (H := WireFormat.wire_lib) example_report with Ok b => b | Fail _ => [] end.

Definition example_disk : Disk := mkDisk None None (fun _ => None).
Definition example_fs : FS := mkFS ∅ {[[]; [str_bytes "tmp"]]}.
Definition example_local_agent : LocalFileAgent := mkLocalFileAgent "" "s" "".

Example pinned_reports_read_back_witness : exists names a' fs' printed,
  pin_all example_disk [([str_bytes "1"], example_report_bytes); ([str_bytes "23"; str_bytes "4"], example_report_bytes)]
    (example_local_agent, example_fs) = (Val names, (a', fs'), []) /\
  report_generator (L := WireFormat.wire_lib) "agTestKey" "s" fs' = Val (printed, None) /\
  length printed = 2%nat.
Proof.
  destruct (pinned_reports_read_back (L := WireFormat.wire_lib) example_disk example_local_agent example_fs
              [(str_bytes "1", [], example_report_bytes); (str_bytes "23", [str_bytes "4"], example_report_bytes)]
              [example_report; example_report]) as (names&a'&fs'&printed&E&_&G&Hp).
  - done.
  - apply Forall_true. intros q. unfold example_fs. cbn [files]. rewrite dom_empty_L. apply not_elem_of_empty.
  - split_and!.
    + apply (bool_decide_unpack _). vm_compute. exact I.
    + repeat constructor.
    + apply (bool_decide_unpack _). vm_compute. exact I.
  - constructor.
  - repeat constructor; try discriminate; cbn; lia.
  - done.
  - exists names, a', fs', printed. split_and!; [exact E|exact G|]. by rewrite Hp.
Defined.

(** *** The generator on what it cannot read *)

(** The generator gives up on the first file that is no report: it prints the
    reports before it in the order of the walk and none of those after it; a
    report whose write was cut off half way is enough. Without the directory of
    its keys it dereferences nil. Started without keys it does not look where the
    gateway, started without keys, puts its reports, but at everything in [/tmp]. *)
Theorem generator_failures {L : ProtoLib} (key secret : string) (fs : FS)
    (before after : list bytes) (bad : bytes) (err : goerror)
    (base := resolve (str_bytes (storage_dir key secret)))
    (Hbase : base ∈ dirs fs) (Hwalk : walk_files base fs = before ++ bad :: after)
    (Hbefore : Forall is_report before) (Hbad : Unmarshal (T := NodeReport) bad = Fail err) :
  report_generator key secret fs = Val (report_of <$> before, Some err) /\
  (forall key' secret', let b := resolve (str_bytes (storage_dir key' secret')) in
     b ∉ dom (files fs) -> b ∉ dirs fs -> report_generator key' secret' fs = Panic nil_deref) /\
  resolve (str_bytes (storage_dir "" "")) = [str_bytes "tmp"] /\
  base_of (mkLocalFileAgent "" "" "") = [str_bytes "tmp"; str_bytes "agTestKey"; str_bytes "agTestSecret"].
Proof.
  split_and!; [| |reflexivity|reflexivity].
  - unfold report_generator. fold base. rewrite decide_True by tauto.
    rewrite Hwalk, read_reports_app by done. cbn [read_reports]. rewrite Hbad. cbn. by rewrite app_nil_r.
  - intros key' secret' b H1 H2. unfold report_generator. fold b. by rewrite decide_False by tauto.
Qed.

Definition example_broken_fs : FS :=
  mkFS {[ [str_bytes "tmp"; str_bytes "k"; str_bytes "s"; str_bytes "apron-1"] := example_report_bytes;
          [str_bytes "tmp"; str_bytes "k"; str_bytes "s"; str_bytes "apron-2"] := take 3 example_report_bytes;
          [str_bytes "tmp"; str_bytes "k"; str_bytes "s"; str_bytes "apron-3"] := example_report_bytes ]}
    {[ [str_bytes "tmp"; str_bytes "k"; str_bytes "s"] ]}.

Example generator_failures_witness : exists err,
  report_generator (L := WireFormat.wire_lib) "k" "s" example_broken_fs = Val ([example_report], Some err) /\
  report_generator (L := WireFormat.wire_lib) "k" "other" example_broken_fs = Panic nil_deref.
Proof.
  destruct (Unmarshal (H := WireFormat.wire_lib) (T := NodeReport) (take 3 example_report_bytes)) as [|err] eqn:E;
    [by vm_compute in E|].
  destruct (generator_failures (L := WireFormat.wire_lib) "k" "s" example_broken_fs [example_report_bytes]
              [example_report_bytes] (take 3 example_report_bytes) err) as (E1&E2&_).
  - apply (bool_decide_unpack _). vm_compute. exact I.
  - vm_compute. reflexivity.
  - apply Forall_singleton. exists example_report. split; [vm_compute; reflexivity|discriminate].
  - exact E.
  - exists err. split.
    + by rewrite E1.
    + apply E2; apply (bool_decide_unpack _); vm_compute; exact I.
Defined.

(** *** Pinata *)

Lemma float_small m : 0 <= m < 10 ^ 20 ->
  (let e10 := (if decide (@nil ascii = ["-"%char]) then - digits_val [] else digits_val []) - Z.of_nat 0 in
   if 0 <=? e10 then m * 10 ^ e10 <? float_overflow else m <? float_overflow * 10 ^ (- e10)) = true.
Proof.
  intros [_ Hm]. assert (10 ^ 20 < float_overflow) as H by (vm_compute; reflexivity).
  change (m * 10 ^ 0 <? float_overflow = true). rewrite Z.pow_0_r, Z.mul_1_r.
  apply Z.ltb_lt. exact (Z.lt_trans _ _ _ Hm H).
Qed.

Lemma float_ok_FormatInt z : small_int z -> float_ok (FormatInt z) = true.
Proof.
  intros Hz. unfold float_ok, FormatInt. unfold small_int in Hz.
  assert (0 <= Z.abs z < 10 ^ Z.of_nat 20) as Habs by lia.
  pose proof (digits_val_format 20 (Z.abs z) Habs ltac:(lia)) as Hv.
  destruct (format_digits_spec 20 (Z.abs z) Habs) as (c&t&E&Hall&_); [lia|]. rewrite E in *.
  assert (span digit (c :: t) = (c :: t, [])) as Hspan.
  { rewrite <- (app_nil_r (c :: t)) at 1. by apply span_app. }
  assert (minus c = false) as Hm.
  { apply Forall_cons in Hall as [Hd _]. apply bool_decide_eq_false_2. by intros ->. }
  destruct (z <? 0); cbn [app optional].
  - change (minus "-") with true. cbn iota. rewrite Hspan. cbn [expect optional length].
    rewrite app_nil_r, Hv. apply float_small; lia.
  - rewrite Hm, Hspan. cbn [expect optional length]. rewrite app_nil_r, Hv.
    apply float_small; lia.
Qed.

Definition pinner_name (r : bytes) : bytes := str_bytes "ipfs-agent-pinata-pinner-" ++ r.
#[local] Arguments pinner_name : simpl never.

Lemma pinner_plain r : all_in digit r -> plain_name (pinner_name r).
Proof. apply random_plain; [apply (bool_decide_unpack _); vm_compute; exact I|vm_compute; lia]. Qed.

Lemma elements_joinPath dir e :
  plain_name e -> exists es, elements_of (joinPath dir e) = es ++ [e].
Proof.
  intros He. unfold joinPath. case_decide as E.
  - apply last_Some in E as [l ->]. rewrite <- app_assoc. cbn [app]. rewrite elements_of_slash.
    rewrite (elements_of_one e) by apply He. by eexists.
  - rewrite elements_of_slash, (elements_of_one e) by apply He. by eexists.
Qed.

Lemma fp_Base_joinPath dir e : plain_name e -> fp_Base (joinPath dir e) = e.
Proof.
  intros He. unfold fp_Base. destruct (elements_joinPath dir e He) as [es ->].
  rewrite filter_app, filter_cons_True by apply He. cbn. by rewrite last_snoc.
Qed.

(** The object that Pinata answers with. *)
Definition pinata_answer (hash timestamp : string) (size : Z) : bytes :=
  json_print (JObject [(str_bytes "IpfsHash", JString (str_bytes hash));
                       (str_bytes "PinSize", JNumber (FormatInt size));
                       (str_bytes "Timestamp", JString (str_bytes timestamp))]).

Lemma pinata_answer_ok Errorf hash timestamp size :
  text hash -> text timestamp -> small_int size -> pinata_reply Errorf (pinata_answer hash timestamp size) = Ok hash.
Proof.
  intros Hh Ht Hs. unfold pinata_reply, json_Unmarshal_map, pinata_answer.
  rewrite json_parse_print.
  - cbn [floats_ok forallb snd]. rewrite float_ok_FormatInt by done. cbn [andb].
    set (kvs := [_; _; _]).
    assert (string_member "error" kvs = None) as -> by reflexivity.
    assert (string_member "IpfsHash" kvs = Some (str_bytes hash)) as -> by reflexivity.
    by rewrite str_bytes_inv.
  - apply ok_object. repeat (apply Forall_cons_2; [split; [reflexivity|]|]); [..|constructor].
    + by apply ok_string.
    + by apply ok_number.
    + by apply ok_string.
  - cbn. unfold maxNestingDepth. lia.
Qed.

(** Pinning with Pinata. The content goes through a temporary file, which is
    gone afterwards whatever the service does; there is one request, with the
    agent's keys and the name of that file; an answer of the service's form gives
    the hash, the error of the call is passed on, an answer that is no JSON is an
    error. What [io.Copy] does not get through is left out of the form, and the
    pin of the cut content counts as a success. *)
Theorem pinata_upload (d : Disk) (p : PinataService) (copied : bytes -> nat)
    (Do : PinRequest -> result bytes) (Errorf : string -> goerror)
    (tempDir r content : bytes) (rest : list bytes) (fs : FS)
    (Hd : healthy d) (Hdir : resolve tempDir ∈ dirs fs) (Hr : all_in digit r)
    (Hfree : resolve tempDir ++ [pinner_name r] ∉ dom (files fs))
    (Hfree' : resolve tempDir ++ [pinner_name r] ∉ dirs fs) :
  let req := mkPinRequest PIN_FILE_ENDPOINT (Pinata_APISecret p) (Pinata_APIKey p) (pinner_name r)
               (take (copied content) content) in
  exists rslt,
    Pinata_PinContent d p copied Do Errorf tempDir (r :: rest) content fs = (Val rslt, fs, [req]) /\
    (forall hash timestamp size, text hash -> text timestamp -> small_int size ->
       Do req = Ok (pinata_answer hash timestamp size) -> rslt = Ok hash) /\
    (forall err, Do req = Fail err -> rslt = Fail err) /\
    (forall body, Do req = Ok body -> json_parse body = None -> rslt = Fail syntax_error).
Proof.
  intros req. exists (match Do req with Ok body => pinata_reply Errorf body | Fail err => Fail err end).
  pose proof (resolve_joinPath tempDir (pinner_name r) (pinner_plain r Hr)) as Hname.
  split_and!.
  - unfold Pinata_PinContent, Pinata_PinFile. run_handler. cbn [ioutil_TempFile]. fold (pinner_name r).
    rewrite decide_False by tauto. rewrite decide_False by (rewrite Hname; tauto).
    destruct Hd as (_&Hc&Hw). rewrite Hc. unfold file_Write. rewrite Hw.
    unfold os_ReadFile. rewrite Hname. cbn [fst snd files dirs]. rewrite insert_insert_eq, lookup_insert_eq.
    rewrite fp_Base_joinPath by (by apply pinner_plain). fold req.
    assert (os_Remove (joinPath tempDir (pinner_name r))
              (mkFS (<[resolve tempDir ++ [pinner_name r] := content]> (files fs)) (dirs fs)) = fs) as Hfs.
    { unfold os_Remove. rewrite Hname. cbn [files dirs]. rewrite delete_insert_id by (by apply not_elem_of_dom).
      by destruct fs. }
    by destruct (Do req); cbn; rewrite Hfs.
  - intros hash ts size Hh Ht Hs ->. by apply pinata_answer_ok.
  - by intros err ->.
  - intros body -> Hj. unfold pinata_reply, json_Unmarshal_map. by rewrite Hj.
Qed.

Definition example_pinata (req : PinRequest) : result bytes :=
  if decide (Pin_Content req = str_bytes "abc") then Ok (pinata_answer "Qm" "2021" 3)
  else Fail (errors_New "timeout").

Example pinata_upload_witness :
  Pinata_PinContent example_disk (mkPinataService "key" "secret") (fun data => length data) example_pinata
    errors_New (str_bytes "/tmp") [str_bytes "7"] (str_bytes "abc") example_fs
  = (Val (Ok "Qm"%string), example_fs,
     [mkPinRequest PIN_FILE_ENDPOINT "secret" "key" (pinner_name (str_bytes "7")) (str_bytes "abc")]).
Proof.
  destruct (pinata_upload example_disk (mkPinataService "key" "secret") (fun data => length data) example_pinata
              errors_New (str_bytes "/tmp") (str_bytes "7") (str_bytes "abc") [] example_fs)
    as (rslt&E&H&_).
  - done.
  - apply (bool_decide_unpack _). vm_compute. exact I.
  - repeat constructor.
  - apply (bool_decide_unpack _). vm_compute. exact I.
  - apply (bool_decide_unpack _). vm_compute. exact I.
  - assert (rslt = Ok "Qm"%string) as -> by
      (apply (H "Qm"%string "2021"%string 3); [reflexivity|reflexivity|split; reflexivity|reflexivity]).
    exact E.
Defined.
