(* ===== verification/Node.v ===== *)
(** [internal/trans_network/node.go], [node_mgmt_handler.go] and [topics.go]: the
    state of a gateway node and its service registry, which the management API,
    the gossip listener and the peer monitor write.

    Every critical section of [n.mutex] is one atomic definition. Maps iterate
    in an arbitrary order, which is an argument where the code ranges over one. *)

From S2P Require Import Prelude Messages RequestDetail UsageRecord ServiceJson.
From S2P Require WireFormat.

(** ** topics.go *)

Definition BroadcastServiceChannel : string := "broadcast_local_services".
Definition ProxyHttpInitReq : string := "/proxy_req/1.0".
Definition ProxyWsDataFromClientSide : string := "/proxy_client_ws_data".
Definition ProxyWsDataFromServiceSide : string := "/proxy_service_ws_data".
Definition ProxyHttpRespFromServiceSide : string := "/proxy_service_http_data".
Definition ProxySocketInitReq : string := "/proxy_client_socket_init".
Definition ProxySocketDataFromClientSide : string := "/proxy_client_socket_data".
Definition ProxySocketDataFromServiceSide : string := "/proxy_service_socket_data".

(** ** The node *)

(** [peer.ID] is a string type; channels, connections and streams are handles. *)
Abbreviation peer_ID := string (only parsing).
Abbreviation chan := N (only parsing).
Abbreviation conn := N (only parsing).

(** The fields that handlers use; the libp2p host, the configuration, the pubsub
    objects, the mutex and the logger are left out. *)
Record Node := mkNode {
  selfID : peer_ID;
  services : gmap string ApronService;
  namedServices : gmap string (list ApronService);
  servicePeerMapping : gmap string peer_ID;
  requestIdChanMapping : gmap string chan;
  clientWsConns : gmap string conn;
  serviceWsConns : gmap string conn;
  clientSocketConns : gmap string conn;
  serviceSocketConns : gmap string conn;
  clientHttpDataChan : gmap string chan;
  serviceUsageRecordManager : UsageRecordManager
}.

(** [NewNode], with the [selfID] that [SetupServiceBroadcastListener] fills in
    from the host; until then it is the zero value. *)
Definition NewNode : Node := mkNode "" ∅ ∅ ∅ ∅ ∅ ∅ ∅ ∅ ∅ Init.

(** The fields the registry writes. *)
Definition set_registry (svcs : gmap string ApronService) (peers : gmap string peer_ID)
    (n : Node) : Node :=
  mkNode (selfID n) svcs (namedServices n) peers (requestIdChanMapping n) (clientWsConns n)
    (serviceWsConns n) (clientSocketConns n) (serviceSocketConns n) (clientHttpDataChan n)
    (serviceUsageRecordManager n).

Definition SetupServiceBroadcastListener (hostID : peer_ID) (n : Node) : Node :=
  mkNode hostID (services n) (namedServices n) (servicePeerMapping n) (requestIdChanMapping n)
    (clientWsConns n) (serviceWsConns n) (clientSocketConns n) (serviceSocketConns n)
    (clientHttpDataChan n) (serviceUsageRecordManager n).

(** What a handler does to the world outside the node, in order. *)
Inductive effect :=
  | Published (topic : string) (data : bytes)
  | CtxError (msg : string) (status : Z)
  | CtxWrite (b : bytes)
  | StreamOpened (s : conn) (to : peer_ID) (protocol : string)
  | Written (c : conn) (b : bytes)
  | WsMessage (c : conn) (b : bytes)
  | Upgraded (c : conn)
  | Dialed (addr : string) (c : conn)
  | Closed (c : conn)
  | Sent (ch : chan) (b : bytes)
  | HttpDo (uri : string) (args : list (bytes * bytes)) (client : HttpRequest).

Abbreviation Handler := (M Node effect).

(** ** node.go *)

Definition put_service (owner : peer_ID) (service : ApronService) (n : Node) : Node :=
  set_registry (<[Service_Id service := service]> (services n))
               (<[Service_Id service := owner]> (servicePeerMapping n)) n.

Definition drop_service (k : string) (n : Node) : Node :=
  set_registry (delete k (services n)) (delete k (servicePeerMapping n)) n.

(** The body that [RegisterLocalService] and [RegisterRemoteService] share. *)
Definition store_service (owner : peer_ID) (service : ApronService) (n : Node) : Node :=
  if Service_IsDeleted service then drop_service (Service_Id service) n
  else put_service owner service n.

Section registry.
Context {L : ProtoLib}.

(** [publish] is the answer of [broadcastServiceTopic.Publish]. *)
Definition BroadcastService (publish : bytes -> option goerror) (service : ApronService)
    : Handler (option goerror) :=
  match Marshal service with
  | Fail err => mret (Some err)
  | Ok data =>
      match publish data with
      | Some err => mret (Some err)
      | None => emit (Published BroadcastServiceChannel data);; mret None
      end
  end.

Definition RegisterLocalService (publish : bytes -> option goerror) (service : ApronService)
    : Handler unit :=
  modify (fun n => store_service (selfID n) service n);;
  err ← BroadcastService publish service;
  CheckError err.

Definition RegisterRemoteService (peerId : peer_ID) (service : ApronService) : Handler unit :=
  modify (store_service peerId service).

(** What [serviceBroadcastSub.Next] returns. *)
Inductive broadcast :=
  | NextErr (err : goerror)
  | NextMsg (ReceivedFrom : peer_ID) (Data : bytes).

(** One turn of the loop of [StartListeningOnServiceBroadcast]. *)
Definition StartListeningOnServiceBroadcast (next : broadcast) : Handler unit :=
  match next with
  | NextErr _ => mret tt
  | NextMsg ReceivedFrom Data =>
      n ← get;
      if decide (ReceivedFrom = selfID n) then mret tt
      else match Unmarshal (T := ApronService) Data with
           | Fail _ => mret tt
           | Ok service => RegisterRemoteService ReceivedFrom service
           end
  end.

(** The inner loop of [UpdatePeers]: it runs to the end of the list. *)
Fixpoint peer_found (v : peer_ID) (availablePeers : list peer_ID) (found : bool) : bool :=
  match availablePeers with
  | [] => found
  | p :: ps => peer_found v ps (if decide (v = p) then true else found)
  end.

Fixpoint invalid_services (self : peer_ID) (availablePeers : list peer_ID)
    (order : list (string * peer_ID)) (invaildService : list string) : list string :=
  match order with
  | [] => invaildService
  | (k, v) :: order =>
      invalid_services self availablePeers order
        (if decide (v = self) then invaildService
         else if peer_found v availablePeers false then invaildService
         else invaildService ++ [k])
  end.

(** One tick of [UpdatePeers]; [order] is how it ranges over the mapping. *)
Definition UpdatePeers (availablePeers : list peer_ID) (order : list (string * peer_ID))
    : Handler unit :=
  modify (fun n =>
    fold_left (fun n service => drop_service service n)
      (invalid_services (selfID n) availablePeers order []) n).

(** ** node_mgmt_handler.go *)

(** [order]: how the handler ranges over its map. [json.Marshal] of these
    values does not fail. *)
Definition listServiceHandler (order : list (string * ApronService)) : Handler unit :=
  emit (CtxWrite (json_Marshal_services (order.*2))).

(** [pretty] is [peer.ID.Pretty]. *)
Definition listServicePeerHandler (pretty : peer_ID -> string)
    (order : list (string * peer_ID)) : Handler unit :=
  emit (CtxWrite (json_Marshal_strings
    (fold_left (fun rslt kv => <[kv.1 := pretty kv.2]> rslt) order ∅))).

Definition filter_services (keep : peer_ID -> bool) (n : Node)
    (order : list (string * peer_ID)) : list ApronService :=
  fold_left (fun rslt kv =>
    if keep kv.2 then rslt ++ [default zero_ApronService (services n !! kv.1)] else rslt) order [].

Definition listLocalServiceHandler (order : list (string * peer_ID)) : Handler unit :=
  n ← get;
  emit (CtxWrite (json_Marshal_services
    (filter_services (fun v => bool_decide (v = selfID n)) n order))).

Definition listRemoteServiceHandler (order : list (string * peer_ID)) : Handler unit :=
  n ← get;
  emit (CtxWrite (json_Marshal_services
    (filter_services (fun v => negb (bool_decide (v = selfID n))) n order))).

Definition newOrUpdateServiceHandler (publish : bytes -> option goerror) (body : bytes)
    : Handler unit :=
  service ← must (json_Unmarshal_service body);
  RegisterLocalService publish service.

Definition deleted (service : ApronService) : ApronService :=
  mkService (Service_Id service) (Service_Name service) (Service_Desc service)
    (Service_Logo service) (Service_Usage service) (Service_UserId service)
    (Service_Providers service) true.

Definition deleteServiceHandler (publish : bytes -> option goerror) (body : bytes)
    : Handler unit :=
  service ← must (json_Unmarshal_service body);
  RegisterLocalService publish (deleted service).
End registry.

(** ** Specification: the registry is one directory *)

(** The two maps stand for one: who offers a service, and what it is. *)
Abbreviation entry := (peer_ID * ApronService)%type.

Definition directory (n : Node) : gmap string entry := map_zip (servicePeerMapping n) (services n).

(** The invariant: the two maps have the same keys, and a service is stored
    under its own id and is not marked as deleted. *)
Definition registry_ok (n : Node) : Prop :=
  dom (services n) = dom (servicePeerMapping n) /\
  map_Forall (fun k s => k = Service_Id s /\ Service_IsDeleted s = false) (services n).

Inductive registry_op :=
  | OpPost (body : bytes)
  | OpDelete (body : bytes)
  | OpBroadcast (next : broadcast)
  | OpTick (availablePeers : list peer_ID).

Section specification.
Context {L : ProtoLib}.

(** A call that returns. *)
Inductive registry_step : Node -> registry_op -> Node -> Prop :=
  | step_post n n' publish body es :
      newOrUpdateServiceHandler publish body n = (Val tt, n', es) ->
      registry_step n (OpPost body) n'
  | step_delete n n' publish body es :
      deleteServiceHandler publish body n = (Val tt, n', es) ->
      registry_step n (OpDelete body) n'
  | step_broadcast n n' next es :
      StartListeningOnServiceBroadcast next n = (Val tt, n', es) ->
      registry_step n (OpBroadcast next) n'
  | step_tick n n' availablePeers order es :
      order ≡ₚ map_to_list (servicePeerMapping n) ->
      UpdatePeers availablePeers order n = (Val tt, n', es) ->
      registry_step n (OpTick availablePeers) n'.

Inductive registry_run : Node -> list registry_op -> Node -> Prop :=
  | registry_nil n : registry_run n [] n
  | registry_cons n n1 n2 op ops :
      registry_step n op n1 -> registry_run n1 ops n2 -> registry_run n (op :: ops) n2.

Definition dir_store (owner : peer_ID) (service : ApronService) (d : gmap string entry)
    : gmap string entry :=
  if Service_IsDeleted service then delete (Service_Id service) d
  else <[Service_Id service := (owner, service)]> d.

Definition dir_step (self : peer_ID) (d : gmap string entry) (op : registry_op)
    : gmap string entry :=
  match op with
  | OpPost body =>
      match json_Unmarshal_service body with
      | Ok service => dir_store self service d
      | Fail _ => d
      end
  | OpDelete body =>
      match json_Unmarshal_service body with
      | Ok service => delete (Service_Id service) d
      | Fail _ => d
      end
  | OpBroadcast (NextErr _) => d
  | OpBroadcast (NextMsg from data) =>
      if decide (from = self) then d
      else match Unmarshal (T := ApronService) data with
           | Ok service => dir_store from service d
           | Fail _ => d
           end
  | OpTick availablePeers =>
      filter (fun e => e.2.1 = self \/ e.2.1 ∈ availablePeers) d
  end.
End specification.

(** ** Lemmas *)

Lemma directory_put owner s n :
  directory (put_service owner s n) = <[Service_Id s := (owner, s)]> (directory n).
Proof. unfold directory. cbn. by rewrite map_insert_zip_with. Qed.

Lemma directory_drop k n : directory (drop_service k n) = delete k (directory n).
Proof. unfold directory. cbn. by rewrite map_delete_zip_with. Qed.

Lemma directory_store owner s n : directory (store_service owner s n) = dir_store owner s (directory n).
Proof.
  unfold store_service, dir_store. destruct (Service_IsDeleted s);
    [apply directory_drop|apply directory_put].
Qed.

Lemma drop_ok k n : registry_ok n -> registry_ok (drop_service k n).
Proof.
  intros [Hd Hall]. split; cbn.
  - by rewrite !dom_delete_L, Hd.
  - by apply map_Forall_delete.
Qed.

Lemma store_ok owner s n : registry_ok n -> registry_ok (store_service owner s n).
Proof.
  intros [Hd Hall]. unfold store_service. destruct (Service_IsDeleted s) eqn:E; [by apply drop_ok|].
  split; cbn; [by rewrite !dom_insert_L, Hd|by apply map_Forall_insert_2].
Qed.

(** Registry operations touch the two maps only. *)
Definition registry_frame (n n' : Node) : Prop :=
  n' = set_registry (services n') (servicePeerMapping n') n.

Lemma frame_refl n : registry_frame n n.
Proof. by destruct n. Qed.

Lemma frame_trans n n1 n2 : registry_frame n n1 -> registry_frame n1 n2 -> registry_frame n n2.
Proof. unfold registry_frame. intros H1 H2. rewrite H2, H1. done. Qed.

Lemma frame_self n n' : registry_frame n n' -> selfID n' = selfID n.
Proof. by intros ->. Qed.

Lemma drop_frame k n : registry_frame n (drop_service k n).
Proof. done. Qed.

Lemma store_frame owner s n : registry_frame n (store_service owner s n).
Proof. unfold store_service. by destruct (Service_IsDeleted s). Qed.

#[export] Hint Resolve drop_ok store_ok frame_refl drop_frame store_frame : gw.

(** *** The peer monitor *)

Lemma peer_found_spec v ps found : peer_found v ps found = found || bool_decide (v ∈ ps).
Proof.
  revert found. induction ps as [|p ps IH]; intros found; cbn [peer_found].
  - by rewrite orb_false_r.
  - rewrite IH. destruct (decide (v = p)) as [E|E].
    + by rewrite (bool_decide_true (v ∈ p :: ps)), orb_true_r by (subst; left).
    + f_equal. apply bool_decide_ext. set_solver.
Qed.

Lemma elem_of_invalid_services self ps order acc k :
  k ∈ invalid_services self ps order acc <->
  k ∈ acc \/ exists v, (k, v) ∈ order /\ v <> self /\ v ∉ ps.
Proof.
  revert acc. induction order as [|[k' v'] order IH]; intros acc; cbn.
  - split; [tauto|]. intros [?|(?&?%not_elem_of_nil&_)]; done.
  - rewrite IH, peer_found_spec. cbn.
    setoid_rewrite elem_of_cons.
    destruct (decide (v' = self)), (decide (v' ∈ ps));
      rewrite ?bool_decide_true, ?bool_decide_false by done; set_solver.
Qed.

(** Dropping a list of services, in any order and with repetitions. *)
Definition drop_services (ks : list string) (n : Node) : Node :=
  fold_left (fun n k => drop_service k n) ks n.

Lemma drop_services_ok ks n : registry_ok n -> registry_ok (drop_services ks n).
Proof. revert n. induction ks; cbn; eauto with gw. Qed.

Lemma drop_services_frame ks n : registry_frame n (drop_services ks n).
Proof.
  revert n. induction ks as [|k ks IH]; intros n; cbn; [apply frame_refl|].
  eapply frame_trans; [apply drop_frame|apply IH].
Qed.

Lemma lookup_drop_services ks n k :
  directory (drop_services ks n) !! k = if decide (k ∈ ks) then None else directory n !! k.
Proof.
  revert n. induction ks as [|k' ks IH]; intros n; cbn.
  - by rewrite decide_False by set_solver.
  - fold (drop_services ks (drop_service k' n)). rewrite IH, directory_drop.
    destruct (decide (k = k')) as [->|Hne].
    + rewrite lookup_delete_eq, (decide_True (P := k' ∈ k' :: ks)) by set_solver. by case_decide.
    + rewrite lookup_delete_ne by done.
      repeat case_decide; try done; set_solver.
Qed.

Lemma directory_lookup_Some n k o s :
  directory n !! k = Some (o, s) <-> servicePeerMapping n !! k = Some o /\ services n !! k = Some s.
Proof.
  unfold directory. rewrite map_lookup_zip_with_Some. split.
  - intros (?&?&[= <- <-]&?&?). done.
  - intros []. by exists o, s.
Qed.

Lemma directory_tick n ps order :
  order ≡ₚ map_to_list (servicePeerMapping n) ->
  directory (drop_services (invalid_services (selfID n) ps order []) n)
  = filter (fun e => e.2.1 = selfID n \/ e.2.1 ∈ ps) (directory n).
Proof.
  intros Horder. apply map_eq. intros k. rewrite lookup_drop_services.
  apply option_eq. intros [o s]. rewrite map_lookup_filter_Some. cbn.
  assert (forall v, (k, v) ∈ order <-> servicePeerMapping n !! k = Some v) as Hin.
  { intros v. by rewrite Horder, elem_of_map_to_list. }
  case_decide as Hk; rewrite elem_of_invalid_services in Hk; setoid_rewrite Hin in Hk.
  - split; [done|]. intros [[Ho _]%directory_lookup_Some Hor].
    destruct Hk as [Hk%not_elem_of_nil|(v&Hv&?&?)]; [done|]. simplify_eq. tauto.
  - split; [|tauto]. intros Hd. split; [done|]. apply directory_lookup_Some in Hd as [Ho _].
    destruct (decide (o = selfID n)); [by left|]. destruct (decide (o ∈ ps)); [by right|].
    exfalso. apply Hk. right. by exists o.
Qed.

(** *** Steps *)

Section steps.
Context {L : ProtoLib}.

(** A registration that returns stores the service and broadcasts it. *)
Lemma RegisterLocalService_returns publish s n n' es :
  RegisterLocalService publish s n = (Val tt, n', es) ->
  n' = store_service (selfID n) s n /\
  exists data, Marshal s = Ok data /\ publish data = None /\
    es = [Published BroadcastServiceChannel data].
Proof.
  unfold RegisterLocalService, BroadcastService. run_handler.
  destruct (Marshal s) as [data|]; cbn; [|done].
  destruct (publish data) eqn:Hp; cbn; [done|]. intros [= <- <-]. eauto.
Qed.

Lemma registry_step_spec n op n' :
  registry_step n op n' ->
  directory n' = dir_step (selfID n) (directory n) op /\
  (registry_ok n -> registry_ok n') /\ registry_frame n n'.
Proof.
  intros [m m' publish body es H|m m' publish body es H|m m' next es H|m m' ps order es Ho H].
  - unfold newOrUpdateServiceHandler, must in H. cbn [dir_step]. destruct (json_Unmarshal_service body); [|done].
    rewrite bind_pure in H. apply RegisterLocalService_returns in H as [-> _].
    split; [apply directory_store|auto with gw].
  - unfold deleteServiceHandler, must in H. cbn [dir_step]. destruct (json_Unmarshal_service body); [|done].
    rewrite bind_pure in H. apply RegisterLocalService_returns in H as [-> _].
    split; [apply directory_store|auto with gw].
  - unfold StartListeningOnServiceBroadcast, RegisterRemoteService in H. run_handler.
    repeat case_match; simplify_eq/=; auto with gw; (split; [apply directory_store|auto with gw]).
  - unfold UpdatePeers in H. run_handler. simplify_eq. fold (drop_services
      (invalid_services (selfID m) ps order []) m).
    split; [by apply directory_tick|]. split; [apply drop_services_ok|apply drop_services_frame].
Qed.

Lemma registry_run_spec n ops n' :
  registry_run n ops n' ->
  directory n' = fold_left (dir_step (selfID n)) ops (directory n) /\
  (registry_ok n -> registry_ok n') /\ registry_frame n n'.
Proof.
  intros Hrun. induction Hrun as [|n n1 n2 op ops Hstep _ (IHd&IHo&IHf)]; [auto with gw|].
  apply registry_step_spec in Hstep as (Hd&Ho&Hf). split_and!; [|tauto|by eapply frame_trans].
  cbn. by rewrite IHd, Hd, (frame_self _ _ Hf).
Qed.

Lemma directory_fst n : registry_ok n -> fst <$> directory n = servicePeerMapping n.
Proof.
  intros [Hd _]. apply fst_map_zip. intros k. rewrite <- !elem_of_dom, Hd. done.
Qed.

Lemma directory_snd n : registry_ok n -> snd <$> directory n = services n.
Proof.
  intros [Hd _]. apply snd_map_zip. intros k. rewrite <- !elem_of_dom, Hd. done.
Qed.

Lemma NewNode_ok hostID : registry_ok (SetupServiceBroadcastListener hostID NewNode).
Proof. split; cbn; [by rewrite !dom_empty_L|apply map_Forall_empty]. Qed.

(** Looking a service up: the branch for a peer without service data is dead. *)
Lemma registry_lookup n k :
  registry_ok n -> is_Some (servicePeerMapping n !! k) <-> is_Some (services n !! k).
Proof. intros [Hd _]. by rewrite <- !elem_of_dom, Hd. Qed.
End steps.

(** *** Typed services *)

Section typed.
Context {L : ProtoLib}.

Definition dir_typed (d : gmap string entry) : Prop := map_Forall (fun _ e => service_typed e.2) d.

(** The library checks the strings of a message it decodes, and its integers are
    of their types. *)
Definition op_typed (op : registry_op) : Prop :=
  match op with
  | OpBroadcast (NextMsg _ data) => forall s, Unmarshal (T := ApronService) data = Ok s -> service_typed s
  | _ => True
  end.

Lemma dir_store_typed owner s d : service_typed s -> dir_typed d -> dir_typed (dir_store owner s d).
Proof.
  intros Hs Hd. unfold dir_store. destruct (Service_IsDeleted s).
  - by apply map_Forall_delete.
  - by apply map_Forall_insert_2.
Qed.

Lemma dir_step_typed self op d : op_typed op -> dir_typed d -> dir_typed (dir_step self d op).
Proof.
  intros Hop Hd. destruct op as [body|body|[err|from data]|ps]; cbn [dir_step]; auto.
  - destruct (json_Unmarshal_service body) eqn:E; [|done].
    apply dir_store_typed; [by eapply Unmarshal_service_typed|done].
  - destruct (json_Unmarshal_service body); [by apply map_Forall_delete|done].
  - case_decide; [done|]. destruct (Unmarshal data) eqn:E; [|done]. by apply dir_store_typed; [apply Hop|].
  - by intros k e [? _]%map_lookup_filter_Some; apply (Hd k).
Qed.

Lemma typed_run n ops n' :
  registry_run n ops n' -> Forall op_typed ops -> dir_typed (directory n) -> dir_typed (directory n').
Proof.
  intros (->&_&_)%registry_run_spec Hops. generalize (directory n) as d.
  induction Hops; cbn; eauto using dir_step_typed.
Qed.

Lemma NewNode_typed hostID : dir_typed (directory (SetupServiceBroadcastListener hostID NewNode)).
Proof. intros k [o s] [He _]%directory_lookup_Some. done. Qed.

Lemma services_typed n :
  registry_ok n -> dir_typed (directory n) -> Forall service_typed (map_to_list (services n)).*2.
Proof.
  intros Hn Hd. apply Forall_fmap, Forall_forall. intros [k s] Hk%elem_of_map_to_list. cbn.
  rewrite <- directory_snd, lookup_fmap in Hk by done.
  apply fmap_Some in Hk as (e&He&->). exact (Hd _ _ He).
Qed.

Lemma filter_services_typed keep n order :
  registry_ok n -> dir_typed (directory n) -> Forall service_typed (filter_services keep n order).
Proof.
  intros Hn Hd. unfold filter_services.
  cut (forall acc, Forall service_typed acc -> Forall service_typed (fold_left (fun rslt kv =>
    if keep kv.2 then rslt ++ [default zero_ApronService (services n !! kv.1)] else rslt) order acc)).
  { intros H. by apply H. }
  induction order as [|[k v] order IH]; intros acc Hacc; cbn [fold_left fst snd]; [done|].
  apply IH. destruct (keep v); [|done]. apply Forall_app. split; [done|].
  constructor; [|done]. destruct (services n !! k) as [s|] eqn:E; [|apply zero_service_typed].
  rewrite <- directory_snd, lookup_fmap in E by done.
  apply fmap_Some in E as (e&He&->). exact (Hd _ _ He).
Qed.
End typed.

(** *** Lists *)

Lemma filter_services_spec keep n order :
  filter_services keep n order
  = (fun kv => default zero_ApronService (services n !! kv.1)) <$> filter (fun kv => keep kv.2) order.
Proof.
  unfold filter_services. set (step := fun _ _ => _).
  assert (forall acc, fold_left step order acc = acc ++
    ((fun kv => default zero_ApronService (services n !! kv.1)) <$> filter (fun kv => keep kv.2) order))
    as Hacc; [|apply (Hacc [])].
  induction order as [|[k v] order IH]; intros acc; cbn [fold_left].
  - cbn. by rewrite app_nil_r.
  - rewrite IH. unfold step. cbn [fst snd]. destruct (keep v) eqn:E.
    + rewrite filter_cons_True by (cbn; rewrite E; exact I). by rewrite <- app_assoc.
    + rewrite filter_cons_False by (cbn; rewrite E; tauto). done.
Qed.

Lemma filter_partition {A} (p : A -> bool) (l : list A) :
  filter (fun x => p x) l ++ filter (fun x => negb (p x)) l ≡ₚ l.
Proof.
  induction l as [|x l IH]; [done|]. destruct (p x) eqn:E.
  - rewrite filter_cons_True, filter_cons_False by (rewrite E; cbn; tauto). cbn. by rewrite IH.
  - rewrite filter_cons_False, filter_cons_True by (rewrite E; cbn; tauto).
    by rewrite <- Permutation_middle, IH.
Qed.

(** The data of all the services, read through the other map. *)
Lemma services_via_mapping n :
  registry_ok n ->
  (fun kv => default zero_ApronService (services n !! kv.1)) <$> map_to_list (servicePeerMapping n)
  ≡ₚ (map_to_list (services n)).*2.
Proof.
  intros [Hd _].
  set (read := fun k => default zero_ApronService (services n !! k)).
  change (fun kv : string * peer_ID => default zero_ApronService (services n !! kv.1))
    with (read ∘ fst (B := peer_ID)).
  rewrite list_fmap_compose, <- (elements_dom (servicePeerMapping n)), <- Hd, elements_dom.
  rewrite <- list_fmap_compose. apply Permutation_refl'.
  apply list_fmap_ext. intros i [k s] Hi. unfold read. cbn.
  assert ((k, s) ∈ map_to_list (services n)) as ->%elem_of_map_to_list; [|done].
  by eapply list_elem_of_lookup_2.
Qed.

(** ** Properties *)

(** C3: the registry refines a single directory. After any sequence of
    management calls, gossip messages and monitor ticks, in whatever order the
    ticks range over the maps, the two maps of the node are the two halves of
    the directory that the specification computes, and nothing else of the node
    has changed. *)
Theorem registry_refines {L : ProtoLib} (n n' : Node) (ops : list registry_op)
    (Hn : registry_ok n) (Hrun : registry_run n ops n') :
  let d := fold_left (dir_step (selfID n)) ops (directory n) in
  servicePeerMapping n' = fst <$> d /\ services n' = snd <$> d /\ registry_frame n n'.
Proof.
  apply registry_run_spec in Hrun as (Hd&Hok&Hf). cbn zeta. rewrite <- Hd.
  by rewrite directory_fst, directory_snd by auto.
Qed.

Definition example_service (id : string) : ApronService :=
  mkService id "svc" "" "" "" "owner"
    [Some (mkProvider "p" "" "" 0 0 "" "localhost:8080/base" "http" NetworkType_Tcp4)] false.

Definition example_data : bytes :=
  match Marshal (H := WireFormat.wire_lib) (example_service "remote_svc") with
  | Ok data => data
  | Fail _ => []
  end.

Definition example_node : Node := SetupServiceBroadcastListener "self" NewNode.

Definition example_ops : list registry_op :=
  [OpPost (json_Marshal_service (example_service "local_svc1")); OpBroadcast (NextMsg "peer" example_data)].

Definition example_full : Node :=
  put_service "peer" (example_service "remote_svc")
    (put_service "self" (example_service "local_svc1") example_node).

Lemma example_run : registry_run (L := WireFormat.wire_lib) example_node example_ops example_full.
Proof.
  eapply registry_cons; [|eapply registry_cons; [|constructor]].
  - by eapply (step_post _ (put_service "self" (example_service "local_svc1") example_node) (fun _ => None));
      vm_compute.
  - by eapply step_broadcast; vm_compute.
Qed.

Example registry_refines_witness : exists n',
  registry_run (L := WireFormat.wire_lib) example_node example_ops n' /\
  servicePeerMapping n' = {["local_svc1" := "self"; "remote_svc" := "peer"]}%string.
Proof.
  pose proof example_run as Hrun. exists example_full. split; [exact Hrun|].
  destruct (registry_refines (L := WireFormat.wire_lib) example_node example_full example_ops
              (NewNode_ok "self") Hrun) as [E _].
  rewrite E. vm_compute. reflexivity.
Defined.

(** C39: in every state a node reaches, a service has an owner exactly when its
    data is stored, it is stored under its own id, and it is not one that was
    marked as deleted. *)
Theorem registry_reachable_ok {L : ProtoLib} (hostID : peer_ID) (ops : list registry_op) (n' : Node)
    (Hrun : registry_run (SetupServiceBroadcastListener hostID NewNode) ops n') (k : string) :
  (is_Some (servicePeerMapping n' !! k) <-> is_Some (services n' !! k)) /\
  (forall s, services n' !! k = Some s -> Service_Id s = k /\ Service_IsDeleted s = false).
Proof.
  apply registry_run_spec in Hrun as (_&Hok&_). specialize (Hok (NewNode_ok hostID)).
  split; [by apply registry_lookup|]. destruct Hok as [_ Hall]. by intros s [-> ?]%Hall.
Qed.

Example registry_reachable_ok_witness : exists n',
  registry_run (L := WireFormat.wire_lib) example_node example_ops n' /\
  (is_Some (servicePeerMapping n' !! "remote_svc"%string) <->
   is_Some (services n' !! "remote_svc"%string)).
Proof.
  pose proof example_run as Hrun. exists example_full. split; [exact Hrun|].
  apply (registry_reachable_ok (L := WireFormat.wire_lib) "self" example_ops example_full Hrun).
Defined.

(** C35: a tick of the peer monitor always completes, keeps every service of the
    node itself and of a connected peer, owner and data, drops every other one,
    and does so whatever the order in which it ranges over the mapping. *)
Theorem update_peers_exact (availablePeers : list peer_ID) (order : list (string * peer_ID)) (n : Node)
    (Horder : order ≡ₚ map_to_list (servicePeerMapping n)) :
  exists n', UpdatePeers availablePeers order n = (Val tt, n', []) /\
    directory n' = filter (fun e => e.2.1 = selfID n \/ e.2.1 ∈ availablePeers) (directory n) /\
    (registry_ok n -> registry_ok n') /\ registry_frame n n'.
Proof.
  eexists. split; [reflexivity|].
  split; [by apply directory_tick|]. split; [apply drop_services_ok|apply drop_services_frame].
Qed.

Example update_peers_exact_witness : exists n',
  UpdatePeers [] [("remote_svc", "peer"); ("local_svc1", "self")]%string example_full = (Val tt, n', []) /\
  directory n' = {["local_svc1" := ("self", example_service "local_svc1")]}%string.
Proof.
  destruct (update_peers_exact [] [("remote_svc", "peer"); ("local_svc1", "self")]%string example_full)
    as (n'&E&D&_).
  - apply (bool_decide_unpack _). vm_compute. exact I.
  - exists n'. split; [exact E|]. rewrite D. vm_compute. reflexivity.
Defined.

(** The replies of the three lists, read as JSON, are lists of services; the
    local and the remote one together are the full one, which is every service
    of the directory with its own data, in whatever order the three range over
    the maps. [Htyped] is what protobuf promises of the broadcasts it accepts;
    that the services of registrations are typed is proved. *)
Theorem lists_partition {L : ProtoLib} (hostID : peer_ID) (ops : list registry_op) (n : Node)
    (all : list (string * ApronService)) (order1 order2 : list (string * peer_ID))
    (Hrun : registry_run (SetupServiceBroadcastListener hostID NewNode) ops n)
    (Htyped : Forall op_typed ops)
    (Hall : all ≡ₚ map_to_list (services n))
    (H1 : order1 ≡ₚ map_to_list (servicePeerMapping n))
    (H2 : order2 ≡ₚ map_to_list (servicePeerMapping n)) :
  exists b1 b2 b3 rslt local remote,
    listServiceHandler all n = (Val tt, n, [CtxWrite b1]) /\
    listLocalServiceHandler order1 n = (Val tt, n, [CtxWrite b2]) /\
    listRemoteServiceHandler order2 n = (Val tt, n, [CtxWrite b3]) /\
    json_Unmarshal_services b1 = Ok rslt /\ json_Unmarshal_services b2 = Ok local /\
    json_Unmarshal_services b3 = Ok remote /\
    local ++ remote ≡ₚ rslt /\ rslt ≡ₚ (snd <$> map_to_list (directory n)).*2.
Proof.
  assert (registry_ok n) as Hn by (apply registry_run_spec in Hrun as (_&Hok&_); auto using NewNode_ok).
  apply typed_run in Hrun; [|done|apply NewNode_typed].
  eexists _, _, _, _, _, _. split_and!; [reflexivity..| | | | |].
  - apply Unmarshal_Marshal_services. rewrite Hall. by apply services_typed.
  - apply Unmarshal_Marshal_services. by apply filter_services_typed.
  - apply Unmarshal_Marshal_services. by apply filter_services_typed.
  - rewrite !filter_services_spec, <- fmap_app, H1, H2, filter_partition, Hall.
    by apply services_via_mapping.
  - rewrite Hall, <- (directory_snd n Hn), map_to_list_fmap, <- !list_fmap_compose. done.
Qed.

Example lists_partition_witness : exists b1 rslt,
  listServiceHandler (map_to_list (services example_full)) example_full
  = (Val tt, example_full, [CtxWrite b1]) /\
  json_Unmarshal_services b1 = Ok rslt /\ length rslt = 2%nat.
Proof.
  destruct (lists_partition (L := WireFormat.wire_lib) "self" example_ops example_full
              (map_to_list (services example_full)) (map_to_list (servicePeerMapping example_full))
              (map_to_list (servicePeerMapping example_full)))
    as (b1&b2&b3&rslt&local&remote&E1&_&_&J1&_&_&_&E); [exact example_run| |apply Permutation_refl..|].
  - constructor; [exact I|constructor; [|constructor]]. intros s E. vm_compute in E. injection E as <-.
    split; [rewrite !Forall_cons; by split_and!|]. constructor; [|constructor].
    unfold from_option_typed, provider_typed, int_range. cbn. rewrite !Forall_cons. by split_and!.
  - exists b1, rslt. split_and!; [exact E1|exact J1|]. rewrite E. vm_compute. reflexivity.
Defined.

(** A service that one node registers reaches every other: the bytes it
    publishes, received by a node from another peer, put that very service (or
    take it away, if it is marked as deleted) under that peer. The owner that
    is recorded is the peer the message came through, so it is the registering
    node only when the two are neighbours. *)
Theorem broadcast_delivers {L : ProtoLib} (publish : bytes -> option goerror) (s : ApronService)
    (a a' b : Node) (es : list effect) (from : peer_ID)
    (Hwf : proto_wf s) (Hreg : RegisterLocalService publish s a = (Val tt, a', es))
    (Hfrom : from <> selfID b) :
  exists data b',
    es = [Published BroadcastServiceChannel data] /\
    StartListeningOnServiceBroadcast (NextMsg from data) b = (Val tt, b', []) /\
    directory a' = dir_store (selfID a) s (directory a) /\
    directory b' = dir_store from s (directory b) /\ registry_frame b b'.
Proof.
  apply RegisterLocalService_returns in Hreg as (->&data&Hdata&_&->).
  exists data, (store_service from s b). split_and!; [done| |apply directory_store..|apply store_frame].
  unfold StartListeningOnServiceBroadcast, RegisterRemoteService. run_handler.
  by rewrite decide_False, (Unmarshal_Marshal s data) by done.
Qed.

Example broadcast_delivers_witness : exists b',
  StartListeningOnServiceBroadcast (L := WireFormat.wire_lib)
    (NextMsg "peer" example_data) example_node = (Val tt, b', []) /\
  directory b' = {["remote_svc" := ("peer", example_service "remote_svc")]}%string.
Proof.
  destruct (broadcast_delivers (L := WireFormat.wire_lib) (fun _ => None) (example_service "remote_svc")
              (SetupServiceBroadcastListener "peer" NewNode)
              (put_service "peer" (example_service "remote_svc")
                 (SetupServiceBroadcastListener "peer" NewNode))
              example_node [Published BroadcastServiceChannel example_data] "peer")
    as (data&b'&[= <-]&E&_&D&_).
  - apply Forall_singleton. eexists. split; [reflexivity|]. cbn. unfold NetworkType_Tcp4. lia.
  - vm_compute. reflexivity.
  - vm_compute. discriminate.
  - exists b'. split; [exact E|]. rewrite D. vm_compute. reflexivity.
Defined.

(** Ids are not owned. A gossip message from any peer takes over the id of a
    service that the node itself registered, and when that peer leaves, the
    node's own service goes with it, though nobody deleted it. *)
Theorem remote_takes_over_local {L : ProtoLib} (n : Node) (from : peer_ID) (s s' : ApronService)
    (data : bytes) (availablePeers : list peer_ID) (n' : Node)
    (Hfrom : from <> selfID n) (Hleft : from ∉ availablePeers)
    (Hlocal : directory n !! Service_Id s = Some (selfID n, s))
    (Hdata : Unmarshal data = Ok s') (Hid : Service_Id s' = Service_Id s)
    (Halive : Service_IsDeleted s' = false)
    (Hrun : registry_run n [OpBroadcast (NextMsg from data)] n') :
  directory n' !! Service_Id s = Some (from, s') /\
  forall n'', registry_run n' [OpTick availablePeers] n'' -> directory n'' !! Service_Id s = None.
Proof.
  apply registry_run_spec in Hrun as (Hd&_&Hf). cbn in Hd.
  rewrite decide_False, Hdata in Hd by done. unfold dir_store in Hd. rewrite Halive, Hid in Hd.
  assert (directory n' !! Service_Id s = Some (from, s')) as E by (by rewrite Hd, lookup_insert_eq).
  split; [done|]. intros n'' (Hd'&_&_)%registry_run_spec. cbn in Hd'. rewrite Hd'.
  apply map_lookup_filter_None. right. intros e He. rewrite E in He. simplify_eq. cbn.
  rewrite (frame_self _ _ Hf). tauto.
Qed.

Lemma example_takeover : exists n',
  registry_run (L := WireFormat.wire_lib)
    (put_service "self" (example_service "remote_svc") example_node)
    [OpBroadcast (NextMsg "peer" example_data)] n'.
Proof.
  eexists. eapply registry_cons; [eapply step_broadcast; vm_compute; reflexivity|constructor].
Qed.

Example remote_takes_over_local_witness : exists n',
  registry_run (L := WireFormat.wire_lib)
    (put_service "self" (example_service "remote_svc") example_node)
    [OpBroadcast (NextMsg "peer" example_data)] n' /\
  directory n' !! "remote_svc"%string = Some ("peer"%string, example_service "remote_svc").
Proof.
  destruct example_takeover as [n' Hrun]. exists n'. split; [exact Hrun|].
  apply (remote_takes_over_local (L := WireFormat.wire_lib)
           (put_service "self" (example_service "remote_svc") example_node)
           "peer" (example_service "remote_svc")
           (example_service "remote_svc") example_data [] n'); [..|exact Hrun].
  - vm_compute. discriminate.
  - apply not_elem_of_nil.
  - vm_compute. reflexivity.
  - vm_compute. reflexivity.
  - reflexivity.
  - reflexivity.
Defined.

(** Registering and broadcasting are not one step: when the service cannot be
    encoded or published, the node has already changed its own registry by the
    time it panics, and no other node hears of it. *)
Theorem register_not_atomic {L : ProtoLib} (publish : bytes -> option goerror) (s : ApronService)
    (n : Node) (err : goerror)
    (Hfail : Marshal s = Fail err \/ exists data, Marshal s = Ok data /\ publish data = Some err) :
  RegisterLocalService publish s n = (Panic (Error err), store_service (selfID n) s n, []).
Proof.
  unfold RegisterLocalService, BroadcastService. run_handler.
  by destruct Hfail as [->|(data&->&->)].
Qed.

Example register_not_atomic_witness :
  RegisterLocalService (L := WireFormat.wire_lib) (fun _ => Some (errors_New "closed"))
    (example_service "local_svc1") example_node
  = (Panic "closed", put_service "self" (example_service "local_svc1") example_node, []).
Proof.
  apply (register_not_atomic (L := WireFormat.wire_lib) (fun _ => Some (errors_New "closed"))
           (example_service "local_svc1") example_node (errors_New "closed")).
  right. eexists. split; [vm_compute; reflexivity|reflexivity].
Defined.
