(* ===== verification/Locking.v ===== *)
(** The goroutines of a gateway and the maps they share ([trans_network/node.go],
    [node_mgmt_handler.go], [csgw_http.go], [csgw_socket.go],
    [node_proxy_handler.go]), access by access.

    The other files run a critical section in one step and take single accesses
    as atomic. Here every call is the sequence of its accesses to the maps of
    [Node] and to [n.mutex]; an access takes time, and goroutines interleave in
    any way. Two accesses to one map that overlap, one of them a write, are a data
    race, which Go's runtime may answer by ending the process ("concurrent map
    writes" and the like). Calls that do nothing to the maps, and waiting, are left
    out; a log line that prints a map reads it. *)

From stdpp Require Import relations.
From S2P Require Import Prelude Messages UsageRecord Node.

(** ** Shared maps *)

Inductive map_name :=
  | Services | ServicePeerMapping | RequestIdChanMapping | ClientWsConns | ServiceWsConns
  | ClientSocketConns | ServiceSocketConns | ClientHttpDataChan.

#[export] Instance map_name_eq_dec : EqDecision map_name.
Proof. solve_decision. Defined.

Definition contents (m : map_name) : Type :=
  match m with
  | Services => gmap string ApronService
  | ServicePeerMapping => gmap string peer_ID
  | RequestIdChanMapping | ClientHttpDataChan => gmap string chan
  | ClientWsConns | ServiceWsConns | ClientSocketConns | ServiceSocketConns => gmap string conn
  end.

Definition get_map (m : map_name) (n : Node) : contents m :=
  match m with
  | Services => services n
  | ServicePeerMapping => servicePeerMapping n
  | RequestIdChanMapping => requestIdChanMapping n
  | ClientWsConns => clientWsConns n
  | ServiceWsConns => serviceWsConns n
  | ClientSocketConns => clientSocketConns n
  | ServiceSocketConns => serviceSocketConns n
  | ClientHttpDataChan => clientHttpDataChan n
  end.

Definition set_map (m : map_name) : contents m -> Node -> Node :=
  match m with
  | Services => fun x n => mkNode (selfID n) x (namedServices n) (servicePeerMapping n)
      (requestIdChanMapping n) (clientWsConns n) (serviceWsConns n) (clientSocketConns n)
      (serviceSocketConns n) (clientHttpDataChan n) (serviceUsageRecordManager n)
  | ServicePeerMapping => fun x n => mkNode (selfID n) (services n) (namedServices n) x
      (requestIdChanMapping n) (clientWsConns n) (serviceWsConns n) (clientSocketConns n)
      (serviceSocketConns n) (clientHttpDataChan n) (serviceUsageRecordManager n)
  | RequestIdChanMapping => fun x n => mkNode (selfID n) (services n) (namedServices n)
      (servicePeerMapping n) x (clientWsConns n) (serviceWsConns n) (clientSocketConns n)
      (serviceSocketConns n) (clientHttpDataChan n) (serviceUsageRecordManager n)
  | ClientWsConns => fun x n => mkNode (selfID n) (services n) (namedServices n)
      (servicePeerMapping n) (requestIdChanMapping n) x (serviceWsConns n) (clientSocketConns n)
      (serviceSocketConns n) (clientHttpDataChan n) (serviceUsageRecordManager n)
  | ServiceWsConns => fun x n => mkNode (selfID n) (services n) (namedServices n)
      (servicePeerMapping n) (requestIdChanMapping n) (clientWsConns n) x (clientSocketConns n)
      (serviceSocketConns n) (clientHttpDataChan n) (serviceUsageRecordManager n)
  | ClientSocketConns => fun x n => mkNode (selfID n) (services n) (namedServices n)
      (servicePeerMapping n) (requestIdChanMapping n) (clientWsConns n) (serviceWsConns n) x
      (serviceSocketConns n) (clientHttpDataChan n) (serviceUsageRecordManager n)
  | ServiceSocketConns => fun x n => mkNode (selfID n) (services n) (namedServices n)
      (servicePeerMapping n) (requestIdChanMapping n) (clientWsConns n) (serviceWsConns n)
      (clientSocketConns n) x (clientHttpDataChan n) (serviceUsageRecordManager n)
  | ClientHttpDataChan => fun x n => mkNode (selfID n) (services n) (namedServices n)
      (servicePeerMapping n) (requestIdChanMapping n) (clientWsConns n) (serviceWsConns n)
      (clientSocketConns n) (serviceSocketConns n) x (serviceUsageRecordManager n)
  end.

(** ** Goroutines *)

(** What is left of a call. A read gives the whole map to what follows, a write
    changes one map and nothing else. *)
Inductive prog (R : Type) : Type :=
  | Ret (r : R)
  | Lock (k : prog R)
  | Unlock (k : prog R)
  | Read (m : map_name) (k : contents m -> prog R)
  | Write (m : map_name) (f : contents m -> contents m) (k : prog R).
Arguments Ret {R} r.
Arguments Lock {R} k.
Arguments Unlock {R} k.
Arguments Read {R} m k.
Arguments Write {R} m f k.

(** Between two accesses, or in the middle of the first that is left. *)
Inductive thread (R : Type) : Type :=
  | Running (p : prog R)
  | Accessing (p : prog R).
Arguments Running {R} p.
Arguments Accessing {R} p.

Definition program {R} (t : thread R) : prog R :=
  match t with Running p | Accessing p => p end.

(** The node's maps, the goroutine that holds [n.mutex], and all goroutines. *)
Record pool (R : Type) : Type := mkPool {
  mem : Node;
  holder : option nat;
  threads : list (thread R)
}.
Arguments mkPool {R} mem holder threads.
Arguments mem {R} p.
Arguments holder {R} p.
Arguments threads {R} p.

Inductive pool_step {R} : pool R -> pool R -> Prop :=
  | step_lock n ts i k :
      ts !! i = Some (Running (Lock k)) ->
      pool_step (mkPool n None ts) (mkPool n (Some i) (<[i := Running k]> ts))
  | step_unlock n h ts i k :
      ts !! i = Some (Running (Unlock k)) ->
      pool_step (mkPool n h ts) (mkPool n None (<[i := Running k]> ts))
  | step_begin_read n h ts i m k :
      ts !! i = Some (Running (Read m k)) ->
      pool_step (mkPool n h ts) (mkPool n h (<[i := Accessing (Read m k)]> ts))
  | step_end_read n h ts i m k :
      ts !! i = Some (Accessing (Read m k)) ->
      pool_step (mkPool n h ts) (mkPool n h (<[i := Running (k (get_map m n))]> ts))
  | step_begin_write n h ts i m f k :
      ts !! i = Some (Running (Write m f k)) ->
      pool_step (mkPool n h ts) (mkPool n h (<[i := Accessing (Write m f k)]> ts))
  | step_end_write n h ts i m f k :
      ts !! i = Some (Accessing (Write m f k)) ->
      pool_step (mkPool n h ts) (mkPool (set_map m (f (get_map m n)) n) h (<[i := Running k]> ts)).

Definition start {R} (n : Node) (ps : list (prog R)) : pool R := mkPool n None (Running <$> ps).

(** ** Data races *)

Definition reads {R} (m : map_name) (p : prog R) : Prop :=
  match p with Read m' _ => m = m' | _ => False end.
Definition writes {R} (m : map_name) (p : prog R) : Prop :=
  match p with Write m' _ _ => m = m' | _ => False end.

(** Two goroutines are at a map at once, and one of them writes. *)
Definition race {R} (m : map_name) (s : pool R) : Prop :=
  exists i j p q, i <> j /\ threads s !! i = Some (Accessing p) /\ threads s !! j = Some (Accessing q) /\
    writes m p /\ (reads m q \/ writes m q).

(** ** Locking discipline *)

(** [p] goes at the maps of [shared] with the mutex only, and gives the mutex back;
    [held]: whether it has it. *)
Fixpoint guarded {R} (shared : map_name -> bool) (held : bool) (p : prog R) : Prop :=
  match p with
  | Ret _ => held = false
  | Lock k => held = false /\ guarded shared true k
  | Unlock k => held = true /\ guarded shared false k
  | Read m k => (shared m = true -> held = true) /\ forall v, guarded shared held (k v)
  | Write m _ k => (shared m = true -> held = true) /\ guarded shared held k
  end.

(** The same goroutine, alone: what it gives and leaves. *)
Fixpoint run {R} (p : prog R) (n : Node) : R * Node :=
  match p with
  | Ret r => (r, n)
  | Lock k | Unlock k => run k n
  | Read m k => run (k (get_map m n)) n
  | Write m f k => run k (set_map m (f (get_map m n)) n)
  end.

(** Goroutines one after the other, in an order. *)
Fixpoint sequential {R} (ps : list (prog R)) (order : list nat) (n : Node) : list (nat * R) * Node :=
  match order with
  | [] => ([], n)
  | i :: order =>
      match ps !! i with
      | None => sequential ps order n
      | Some p =>
          let '(r, n) := run p n in
          let '(rs, n) := sequential ps order n in ((i, r) :: rs, n)
      end
  end.

(** One critical section and nothing else. *)
Fixpoint section_body {R} (p : prog R) : Prop :=
  match p with
  | Unlock (Ret _) => True
  | Read m k => forall v, section_body (k v)
  | Write m f k => section_body k
  | _ => False
  end.

Definition critical {R} (p : prog R) : Prop :=
  match p with Lock k => section_body k | _ => False end.

(** ** Lemmas *)

Lemma set_map_self m x n : selfID (set_map m x n) = selfID n.
Proof. by destruct m. Qed.

Section discipline.
Context {R : Type} (shared : map_name -> bool).
Implicit Types (s : pool R) (p : prog R) (t : thread R).

(** Only reads and writes take time. *)
Definition in_access t : Prop :=
  match t with
  | Accessing (Read _ _) | Accessing (Write _ _ _) | Running _ => True
  | _ => False
  end.

(** The invariant: every goroutine keeps to the discipline from where it is. *)
Record disciplined s : Prop := {
  disc_guarded i t : threads s !! i = Some t ->
    guarded shared (bool_decide (holder s = Some i)) (program t) /\ in_access t;
  disc_holder i : holder s = Some i -> is_Some (threads s !! i)
}.

Lemma start_disciplined n ps : Forall (guarded shared false) ps -> disciplined (start n ps).
Proof.
  intros Hps. split; cbn; [|done]. intros i t Ht.
  apply list_lookup_fmap_Some in Ht as (p&->&Hp). split; [|done].
  by apply (Forall_lookup_1 _ _ _ _ Hps Hp).
Qed.

(** One goroutine moves, the others stay where they are. *)
Lemma disciplined_update s n h i t t' :
  disciplined s -> threads s !! i = Some t ->
  guarded shared (bool_decide (h = Some i)) (program t') -> in_access t' ->
  (forall j, j <> i -> h = Some j <-> holder s = Some j) ->
  disciplined (mkPool n h (<[i := t']> (threads s))).
Proof.
  intros [Hg Hh] Hi Ht' Ha Hj. split; cbn.
  - intros j u [(<-&->&_)|[Hne Hu]]%list_lookup_insert_Some; [done|].
    destruct (Hg j u Hu) as [Hgu Hau]. split; [|done].
    by rewrite (bool_decide_ext _ _ (Hj j (not_eq_sym Hne))).
  - intros j Hholder. destruct (decide (i = j)) as [<-|Hne].
    + rewrite list_lookup_insert_eq; [by eexists|by eapply lookup_lt_Some].
    + rewrite list_lookup_insert_ne by done. apply Hh. by apply Hj.
Qed.

Lemma disciplined_step s s' : disciplined s -> pool_step s s' -> disciplined s'.
Proof.
  intros Hs Hstep.
  destruct Hstep as [n ts i k Hi|n h ts i k Hi|n h ts i m k Hi|n h ts i m k Hi|n h ts i m f k Hi|n h ts i m f k Hi];
    destruct (disc_guarded _ Hs i _ Hi) as [Hg _]; cbn in Hg.
  - destruct Hg as [_ Hk]. eapply (disciplined_update (mkPool n None ts)); [done..| |done|].
    + by rewrite bool_decide_true.
    + cbn. naive_solver.
  - destruct Hg as [Hheld Hk]. apply bool_decide_eq_true_1 in Hheld. subst h.
    eapply (disciplined_update (mkPool n (Some i) ts)); [done..|].
    cbn. naive_solver.
  - by eapply (disciplined_update (mkPool n h ts)).
  - eapply (disciplined_update (mkPool n h ts)); [done..| |done|done]. cbn. naive_solver.
  - by eapply (disciplined_update (mkPool n h ts)).
  - eapply (disciplined_update (mkPool n h ts)); [done..| |done|done]. cbn. naive_solver.
Qed.

Lemma disciplined_run s s' : disciplined s -> rtc pool_step s s' -> disciplined s'.
Proof. intros Hs Hrun. induction Hrun; eauto using disciplined_step. Qed.

Lemma disciplined_no_race s m : disciplined s -> shared m = true -> ~ race m s.
Proof.
  intros Hs Hm (i&j&p&q&Hij&Hi&Hj&Hp&Hq).
  destruct (disc_guarded _ Hs i _ Hi) as [Gi _], (disc_guarded _ Hs j _ Hj) as [Gj _]. cbn in Gi, Gj.
  assert (forall (r : prog R) h, guarded shared h r -> reads m r \/ writes m r -> h = true) as Hheld.
  { intros r h Hr Hw. destruct r; cbn in Hr, Hw; destruct Hw; subst; try done; by apply Hr. }
  pose proof (Hheld _ _ Gi (or_intror Hp)) as Ei%bool_decide_eq_true_1.
  pose proof (Hheld _ _ Gj Hq) as Ej%bool_decide_eq_true_1. congruence.
Qed.

(** *** Progress *)

Definition returned t : bool := match t with Running (Ret _) => true | _ => false end.

Lemma thread_can_step s i t :
  threads s !! i = Some t -> in_access t -> returned t = false ->
  (forall k, program t = Lock k -> holder s = None) -> exists s', pool_step s s'.
Proof.
  destruct s as [n h ts]. cbn. intros Hi Ha Hr Hl.
  destruct t as [[r|k|k|m k|m f k]|[r|k|k|m k|m f k]]; try done; cbn in Hl.
  - specialize (Hl k eq_refl). subst h. eexists. by eapply step_lock.
  - eexists. by eapply step_unlock.
  - eexists. by eapply step_begin_read.
  - eexists. by eapply step_begin_write.
  - eexists. by eapply step_end_read.
  - eexists. by eapply step_end_write.
Qed.

Lemma disciplined_progress s :
  disciplined s -> Forall (fun t => returned t = true) (threads s) \/ exists s', pool_step s s'.
Proof.
  intros Hs. destruct (holder s) as [i|] eqn:Hh.
  - right. destruct (disc_holder _ Hs i Hh) as [t Ht]. destruct (disc_guarded _ Hs i t Ht) as [Hg Ha].
    rewrite bool_decide_true in Hg by done. eapply thread_can_step; [exact Ht|done| |].
    + destruct t as [[]|[]]; done.
    + intros k E. rewrite E in Hg. by destruct Hg.
  - destruct (decide (Forall (fun t => returned t = true) (threads s))) as [|Hn]; [by left|right].
    apply not_Forall_Exists in Hn; [|apply _]. apply Exists_exists in Hn as (t&Hin&Ht).
    apply list_elem_of_lookup in Hin as [i Hi]. destruct (disc_guarded _ Hs i t Hi) as [_ Ha].
    eapply thread_can_step; [exact Hi|done|by apply not_true_is_false|done].
Qed.
End discipline.

(** *** Every run ends *)

Section termination.
Context {R : Type}.
Implicit Types (s : pool R) (p : prog R) (t : thread R).

(** What one goroutine can become. *)
Inductive thread_step : thread R -> thread R -> Prop :=
  | thread_lock k : thread_step (Running (Lock k)) (Running k)
  | thread_unlock k : thread_step (Running (Unlock k)) (Running k)
  | thread_begin_read m k : thread_step (Running (Read m k)) (Accessing (Read m k))
  | thread_begin_write m f k : thread_step (Running (Write m f k)) (Accessing (Write m f k))
  | thread_end_read m k v : thread_step (Accessing (Read m k)) (Running (k v))
  | thread_end_write m f k : thread_step (Accessing (Write m f k)) (Running k).

Lemma prog_ends p : sn thread_step (Running p) /\ sn thread_step (Accessing p).
Proof.
  induction p as [r|k [IH _]|k [IH _]|m k IH|m f k [IH _]].
  - split; constructor; intros t Ht; inversion Ht.
  - split; constructor; intros t Ht; inversion Ht; by subst.
  - split; constructor; intros t Ht; inversion Ht; by subst.
  - assert (sn thread_step (Accessing (Read m k))) as Ha.
    { constructor. intros t Ht. inversion Ht. simplify_eq.
      match goal with H : existT _ _ = existT _ _ |- _ =>
        apply (Eqdep_dec.inj_pair2_eq_dec _ map_name_eq_dec) in H; subst end. apply IH. }
    split; [|done]. constructor. intros t Ht. inversion Ht. simplify_eq.
    match goal with H : existT _ _ = existT _ _ |- _ =>
      apply (Eqdep_dec.inj_pair2_eq_dec _ map_name_eq_dec) in H; subst end. done.
  - assert (sn thread_step (Accessing (Write m f k))) as Ha
      by (constructor; intros t Ht; inversion Ht; by simplify_eq).
    split; [|done]. constructor. intros t Ht. inversion Ht. simplify_eq.
    match goal with H : existT _ _ = existT _ _ |- _ =>
      apply (Eqdep_dec.inj_pair2_eq_dec _ map_name_eq_dec) in H; subst end. done.
Qed.

Lemma thread_ends t : sn thread_step t.
Proof. destruct t as [p|p]; apply prog_ends. Qed.

(** One of a list of goroutines moves. *)
Inductive list_step : list (thread R) -> list (thread R) -> Prop :=
  | list_head t t' ts : thread_step t t' -> list_step (t :: ts) (t' :: ts)
  | list_tail t ts ts' : list_step ts ts' -> list_step (t :: ts) (t :: ts').

Lemma list_step_insert ts i t t' :
  ts !! i = Some t -> thread_step t t' -> list_step ts (<[i := t']> ts).
Proof.
  revert i. induction ts as [|u ts IH]; intros [|i] Hi Ht; simplify_eq/=; constructor; auto.
Qed.

Lemma list_ends ts : sn list_step ts.
Proof.
  induction ts as [|t ts IH].
  { constructor. intros ts' H. inversion H. }
  revert ts IH. induction (thread_ends t) as [t _ IHt]. intros ts Hts.
  induction Hts as [ts Hts IHts]. constructor. intros ts' H. inversion H; subst.
  - apply IHt; [done|]. by constructor.
  - by apply IHts.
Qed.

Lemma pool_step_list s s' : pool_step s s' -> list_step (threads s) (threads s').
Proof. intros H. destruct H; cbn; (eapply list_step_insert; [done|constructor]). Qed.

(** No schedule goes on for ever. *)
Lemma pool_ends s : sn pool_step s.
Proof.
  remember (threads s) as ts eqn:E. revert s E.
  induction (list_ends ts) as [ts _ IH]. intros s ->. constructor. intros s' Hs.
  by eapply IH; [apply pool_step_list|].
Qed.
End termination.

(** *** One critical section after the other *)

Section serial.
Context {R : Type} (ps : list (prog R)) (n0 : Node).
Implicit Types (s : pool R) (t : thread R).

Lemma sequential_snoc order i p n :
  ps !! i = Some p ->
  sequential ps (order ++ [i]) n
  = (let '(rs, n1) := sequential ps order n in let '(r, n2) := run p n1 in (rs ++ [(i, r)], n2)).
Proof.
  intros Hi. revert n. induction order as [|j order IH]; intros n; cbn.
  - rewrite Hi. by destruct (run p n).
  - destruct (ps !! j) as [q|]; [|apply IH]. destruct (run q n) as [r n']. rewrite IH.
    destruct (sequential ps order n') as [rs n'']. by destruct (run p n'').
Qed.

(** [order]: who has taken the mutex so far, and [rs] what the finished ones gave. *)
Record serialized s (order : list nat) (rs : list (nat * R)) : Prop := {
  ser_length : length (threads s) = length ps;
  ser_nodup : NoDup order;
  ser_before i p : ps !! i = Some p -> i ∉ order -> threads s !! i = Some (Running p);
  ser_done i r : (i, r) ∈ rs -> threads s !! i = Some (Running (Ret r));
  ser_mem :
    match holder s with
    | None => sequential ps order n0 = (rs, mem s) /\ rs.*1 = order
    | Some i => exists n1 p t,
        order = rs.*1 ++ [i] /\ sequential ps (rs.*1) n0 = (rs, n1) /\
        ps !! i = Some p /\ threads s !! i = Some t /\
        section_body (program t) /\ in_access t /\ run (program t) (mem s) = run p n1
    end
}.

Hypothesis Hcritical : Forall critical ps.

Lemma start_serialized : serialized (start n0 ps) [] [].
Proof.
  split; cbn; [apply length_fmap|constructor| |by intros ?? ?%not_elem_of_nil|done].
  intros i p Hi _. by rewrite list_lookup_fmap, Hi.
Qed.

Lemma serialized_fst s order rs i r : serialized s order rs -> (i, r) ∈ rs -> i ∈ order.
Proof.
  intros Hs Hin. apply (list_elem_of_fmap_2 fst) in Hin. cbn in Hin.
  pose proof (ser_mem _ _ _ Hs) as Hm. destruct (holder s) as [j|].
  - destruct Hm as (n1&p&t&->&_). set_solver.
  - by destruct Hm as [_ <-].
Qed.

(** Whoever is in the middle of a call has the mutex. *)
Lemma serialized_active s order rs i t :
  serialized s order rs -> threads s !! i = Some t ->
  match t with Running (Lock _) | Running (Ret _) => True | _ => holder s = Some i end.
Proof.
  intros Hs Hi. assert (holder s = Some i \/ (exists k, t = Running (Lock k)) \/ exists r, t = Running (Ret r))
    as [E|[[k ->]|[r ->]]]; [|by destruct t as [[]|[]]|done..].
  destruct (decide (i ∈ order)) as [Hin|Hout].
  - pose proof (ser_mem _ _ _ Hs) as Hm. destruct (holder s) as [j|].
    + destruct Hm as (n1&p&u&E&_). rewrite E in Hin. apply elem_of_app in Hin as [Hin| ->%list_elem_of_singleton].
      * right. right. apply list_elem_of_fmap in Hin as ((i'&r)&->&Hr). exists r.
        apply (ser_done _ _ _ Hs) in Hr. cbn in Hi. congruence.
      * by left.
    + destruct Hm as [_ E]. rewrite <- E in Hin. right. right.
      apply list_elem_of_fmap in Hin as ((i'&r)&->&Hr). exists r.
      apply (ser_done _ _ _ Hs) in Hr. cbn in Hi. congruence.
  - assert (i < length ps)%nat as Hlt by (rewrite <- (ser_length _ _ _ Hs); by eapply lookup_lt_Some).
    apply lookup_lt_is_Some in Hlt as [p Hp]. rewrite (ser_before _ _ _ Hs i p Hp Hout) in Hi. simplify_eq.
    pose proof (Forall_lookup_1 _ _ _ _ Hcritical Hp) as Hc. right. left. destruct p; try done. by eexists.
Qed.

Lemma serialized_update s order rs i t t' n' :
  serialized s order rs -> holder s = Some i -> threads s !! i = Some t ->
  (section_body (program t) -> section_body (program t')) -> in_access t' ->
  run (program t') n' = run (program t) (mem s) ->
  serialized (mkPool n' (Some i) (<[i := t']> (threads s))) order rs.
Proof.
  intros Hs Hh Hi Hb Ha Hr. pose proof (ser_mem _ _ _ Hs) as Hm. rewrite Hh in Hm.
  destruct Hm as (n1&p&u&Eo&Eseq&Hp&Hu&Hbody&_&Hrun). rewrite Hi in Hu. injection Hu as <-.
  split; cbn; [by rewrite length_insert, (ser_length _ _ _ Hs)|apply Hs| | |].
  - intros j q Hq Hj. rewrite list_lookup_insert_ne by set_solver. by apply (ser_before _ _ _ Hs).
  - intros j r Hj. rewrite list_lookup_insert_ne; [by apply (ser_done _ _ _ Hs)|]. intros <-.
    pose proof (ser_nodup _ _ _ Hs) as Hnd. rewrite Eo in Hnd. apply NoDup_app in Hnd as (_&Hnd&_).
    apply (Hnd i); [|by left]. by apply (list_elem_of_fmap_2 fst) in Hj.
  - exists n1, p, t'. split_and!; try done; [|by apply Hb|by rewrite Hr].
    apply list_lookup_insert_eq. by eapply lookup_lt_Some.
Qed.

Lemma serialized_step s s' order rs :
  serialized s order rs -> pool_step s s' -> exists order' rs', serialized s' order' rs'.
Proof.
  intros Hs Hstep.
  destruct Hstep as [n ts i k Hi|n h ts i k Hi|n h ts i m k Hi|n h ts i m k Hi|n h ts i m f k Hi|n h ts i m f k Hi];
    pose proof (serialized_active _ _ _ i _ Hs Hi) as Hact; cbn in Hact; try subst h.
  3-6: exists order, rs; (eapply (serialized_update (mkPool n (Some i) ts)); cbn; try done; cbn; auto).
  - pose proof (ser_mem _ _ _ Hs) as [Hseq Hrs]. cbn in Hseq.
    assert (i ∉ order) as Hout.
    { rewrite <- Hrs. intros ((i'&r)&->&Hr)%list_elem_of_fmap. apply (ser_done _ _ _ Hs) in Hr. cbn in *. congruence. }
    assert (i < length ps)%nat as Hlt by (rewrite <- (ser_length _ _ _ Hs); by eapply lookup_lt_Some).
    apply lookup_lt_is_Some in Hlt as [p Hp].
    pose proof (ser_before _ _ _ Hs i p Hp Hout) as Hip. cbn in Hip. rewrite Hi in Hip. injection Hip as <-.
    exists (order ++ [i]), rs. split; cbn.
    + rewrite length_insert. apply (ser_length _ _ _ Hs).
    + apply NoDup_app. split_and!; [apply Hs|set_solver|apply NoDup_singleton].
    + intros j q Hq Hj. rewrite list_lookup_insert_ne by set_solver. apply (ser_before _ _ _ Hs); [done|set_solver].
    + intros j r Hj. rewrite list_lookup_insert_ne; [by apply (ser_done _ _ _ Hs)|]. intros <-.
      apply Hout. by eapply serialized_fst.
    + exists n, (Lock k), (Running k). rewrite Hrs. split_and!; try done.
      * apply list_lookup_insert_eq. by eapply lookup_lt_Some.
      * exact (Forall_lookup_1 _ _ _ _ Hcritical Hp).
  - pose proof (ser_mem _ _ _ Hs) as (n1&p&t&Eo&Eseq&Hp&Ht&Hbody&_&Hrun). cbn in *.
    rewrite Hi in Ht. injection Ht as <-. cbn in Hbody, Hrun. destruct k as [r| | | |]; try done.
    exists order, (rs ++ [(i, r)]). split; cbn.
    + rewrite length_insert. apply (ser_length _ _ _ Hs).
    + apply Hs.
    + intros j q Hq Hj. rewrite list_lookup_insert_ne by set_solver. by apply (ser_before _ _ _ Hs).
    + intros j r' [Hj|[= -> ->]%list_elem_of_singleton]%elem_of_app.
      * rewrite list_lookup_insert_ne; [by apply (ser_done _ _ _ Hs)|]. intros <-.
        apply (ser_done _ _ _ Hs) in Hj. cbn in Hj. congruence.
      * apply list_lookup_insert_eq. by eapply lookup_lt_Some.
    + rewrite fmap_app. cbn. split; [|done]. rewrite Eo, (sequential_snoc _ i p) by done.
      rewrite Eseq, <- Hrun. done.
Qed.

(** When all have returned, they have run one after the other. *)
Lemma serialized_end s :
  rtc pool_step (start n0 ps) s -> Forall (fun t => returned t = true) (threads s) ->
  exists order rs, order ≡ₚ List.seq 0 (length ps) /\ sequential ps order n0 = (rs, mem s) /\
    forall i r, (i, r) ∈ rs <-> threads s !! i = Some (Running (Ret r)).
Proof.
  intros Hrun Hret.
  assert (exists order rs, serialized s order rs) as (order&rs&Hs).
  { assert (exists order rs, serialized (start n0 ps) order rs) as H by (eexists _, _; apply start_serialized).
    clear Hret. induction Hrun as [|s1 s2 s3 Hstep _ IH]; [done|]. apply IH.
    destruct H as (order&rs&H). by eapply serialized_step. }
  assert (forall i t, threads s !! i = Some t -> exists r, t = Running (Ret r)) as Hall.
  { intros i t Hi. pose proof (Forall_lookup_1 _ _ _ _ Hret Hi) as Hr. destruct t as [[]|[]]; try done. by eexists. }
  pose proof (ser_mem _ _ _ Hs) as Hm. destruct (holder s) as [i|] eqn:Hh.
  { destruct Hm as (n1&p&t&_&_&_&Ht&Hbody&_). destruct (Hall i t Ht) as [r ->]. done. }
  destruct Hm as [Hseq Hrs].
  assert (forall i, i ∈ order <-> (i < length ps)%nat) as Hin.
  { intros i. split.
    - rewrite <- Hrs. intros ((i'&r)&->&Hr)%list_elem_of_fmap. rewrite <- (ser_length _ _ _ Hs).
      apply (ser_done _ _ _ Hs) in Hr. by eapply lookup_lt_Some.
    - intros [p Hp]%lookup_lt_is_Some. destruct (decide (i ∈ order)) as [|Hout]; [done|exfalso].
      pose proof (ser_before _ _ _ Hs i p Hp Hout) as Hi. destruct (Hall i _ Hi) as [r [= ->]].
      by pose proof (Forall_lookup_1 _ _ _ _ Hcritical Hp). }
  exists order, rs. split_and!; [|done|].
  - apply NoDup_Permutation; [apply Hs|apply NoDup_ListNoDup, List.seq_NoDup|].
    intros i. rewrite Hin, list_elem_of_In, List.in_seq. lia.
  - intros i r. split; [apply (ser_done _ _ _ Hs)|]. intros Hi.
    assert (i ∈ order) as Hio by (apply Hin; rewrite <- (ser_length _ _ _ Hs); by eapply lookup_lt_Some).
    rewrite <- Hrs in Hio. apply list_elem_of_fmap in Hio as ((i'&r')&->&Hr). cbn in *.
    pose proof (ser_done _ _ _ Hs _ _ Hr) as Hi'. congruence.
Qed.
End serial.
