(* ===== verification/Goroutines.v ===== *)
(** The goroutines of a gateway in terms of [Locking]: each call that touches the
    maps of [Node], as the sequence of its accesses to them and to [n.mutex], on
    the path on which what it asks of the outside succeeds. *)

From stdpp Require Import relations.
From S2P Require Import Prelude Messages NetworkHelper RequestDetail UsageRecord ServiceJson Node Locking.
From S2P Require WireFormat.

(** What a call answers: nothing, or the body of a reply. *)
Inductive response :=
  | NoReply
  | Reply (b : bytes).

Section goroutines.
(** The node's own id, and how it ranges over its maps. *)
Context (self : peer_ID) (pretty : peer_ID -> string)
  (range_services : gmap string ApronService -> list (string * ApronService))
  (range_peers : gmap string peer_ID -> list (string * peer_ID)).

Abbreviation Goroutine := (prog response).

(** ** node.go: the registry *)

(** [RegisterLocalService] up to the broadcast, and [RegisterRemoteService]. *)
Definition register_prog (owner : peer_ID) (service : ApronService) : Goroutine :=
  Lock (if Service_IsDeleted service then
          Write Services (delete (Service_Id service))
          (Write ServicePeerMapping (delete (Service_Id service))
          (Unlock (Ret NoReply)))
        else
          Write Services <[Service_Id service := service]>
          (Write ServicePeerMapping <[Service_Id service := owner]>
          (Unlock (Ret NoReply)))).

(** The loop over the services of peers that are gone; its log lines read both maps. *)
Fixpoint drop_loop (ks : list string) : Goroutine :=
  match ks with
  | [] => Unlock (Ret NoReply)
  | k :: ks =>
      Read ServicePeerMapping (fun _ =>
      Read Services (fun _ =>
      Write Services (delete k)
      (Write ServicePeerMapping (delete k) (drop_loop ks))))
  end.

Definition UpdatePeers_prog (availablePeers : list peer_ID) : Goroutine :=
  Lock (Read ServicePeerMapping (fun peers =>
    drop_loop (invalid_services self availablePeers (range_peers peers) []))).

(** ** node_mgmt_handler.go *)

Definition listService_prog : Goroutine :=
  Lock (Read Services (fun _ => Read Services (fun svcs =>
    Unlock (Ret (Reply (json_Marshal_services (range_services svcs).*2)))))).

Definition listServicePeer_prog : Goroutine :=
  Lock (Read ServicePeerMapping (fun _ => Read ServicePeerMapping (fun peers =>
    Unlock (Ret (Reply (json_Marshal_strings
      (fold_left (fun rslt kv => <[kv.1 := pretty kv.2]> rslt) (range_peers peers) ∅))))))).

(** The loops of the local and the remote list: they look every service up. *)
Fixpoint list_loop (keep : peer_ID -> bool) (order : list (string * peer_ID)) (rslt : list ApronService)
    : Goroutine :=
  match order with
  | [] => Unlock (Ret (Reply (json_Marshal_services rslt)))
  | (k, v) :: order =>
      if keep v then
        Read Services (fun svcs =>
          list_loop keep order (rslt ++ [default zero_ApronService (svcs !! k)]))
      else list_loop keep order rslt
  end.

Definition listLocal_prog : Goroutine :=
  Lock (Read ServicePeerMapping (fun peers =>
    list_loop (fun v => bool_decide (v = self)) (range_peers peers) [])).

Definition listRemote_prog : Goroutine :=
  Lock (Read ServicePeerMapping (fun peers =>
    list_loop (fun v => negb (bool_decide (v = self))) (range_peers peers) [])).

(** ** csgw_http.go, csgw_socket.go *)

(** The lookup of a service in its critical section, then [found] or [missing]; the
    HTTP handler logs the mapping in it once more. *)
Definition lookup_section (logged : bool) (name : string) (found : ApronService -> Goroutine)
    (missing : Goroutine) : Goroutine :=
  Lock (Read ServicePeerMapping (fun peers =>
    let rest := match peers !! name with
      | None => Unlock missing
      | Some _ => Read Services (fun svcs =>
          match svcs !! name with None => Unlock (Ret NoReply) | Some service => Unlock (found service) end)
      end in
    if logged then Read ServicePeerMapping (fun _ => rest) else rest)).

(** A client request: the line that logs the mapping comes before the mutex is
    taken. [k] is what the kind of request does after its own registration. *)
Definition forward_prog (name : string) (rid : ApronService -> string) (msgCh : chan)
    (k : string -> Goroutine) : Goroutine :=
  Read ServicePeerMapping (fun _ =>
  lookup_section true name (fun service =>
    if decide (length (Service_Providers service) < 1)%nat then Ret NoReply
    else Write RequestIdChanMapping <[rid service := msgCh]> (k (rid service))) (Ret NoReply)).

Definition http_request_prog (name : string) (rid : ApronService -> string) (msgCh dataCh : chan) : Goroutine :=
  forward_prog name rid msgCh (fun rid =>
    Write ClientHttpDataChan <[rid := dataCh]>
    (Read ClientHttpDataChan (fun _ =>
     Write ClientHttpDataChan (delete rid) (Ret NoReply)))).

Definition ws_request_prog (name : string) (rid : ApronService -> string) (msgCh : chan) (c : conn) : Goroutine :=
  forward_prog name rid msgCh (fun rid => Write ClientWsConns <[rid := c]> (Ret NoReply)).

(** An accepted socket client; the mapping is logged after the mutex is given
    back when the service is not known. *)
Definition socket_client_prog (name : string) (rid : ApronService -> string) (msgCh : chan) (c : conn) : Goroutine :=
  lookup_section false name (fun service =>
    if decide (length (Service_Providers service) < 1)%nat then Ret NoReply
    else Write RequestIdChanMapping <[rid service := msgCh]>
         (Write ClientSocketConns <[rid service := c]> (Ret NoReply)))
    (Read ServicePeerMapping (fun _ => Ret NoReply)).

(** ** node_proxy_handler.go *)

Definition http_init_prog : Goroutine := Read Services (fun _ => Ret NoReply).
Definition ws_init_prog (rid : string) (c : conn) : Goroutine :=
  Read Services (fun _ => Write ServiceWsConns <[rid := c]> (Ret NoReply)).
Definition ws_data_prog (from_client : bool) : Goroutine :=
  if from_client then Read ServiceWsConns (fun _ => Ret NoReply) else Read ClientWsConns (fun _ => Ret NoReply).
Definition http_resp_prog : Goroutine := Read ClientHttpDataChan (fun _ => Ret NoReply).
Definition socket_init_prog (rid : string) (c : conn) : Goroutine :=
  Read Services (fun _ => Read ServiceSocketConns (fun _ =>
  Write ServiceSocketConns <[rid := c]> (Ret NoReply))).
Definition socket_data_prog (from_client : bool) : Goroutine :=
  if from_client then Read ServiceSocketConns (fun _ => Ret NoReply)
  else Read ClientSocketConns (fun _ => Ret NoReply).

(** ** All the calls *)

Inductive registry_call :=
  | CallRegisterLocal (service : ApronService)
  | CallRegisterRemote (owner : peer_ID) (service : ApronService)
  | CallTick (availablePeers : list peer_ID)
  | CallListServices
  | CallListPeers
  | CallListLocal
  | CallListRemote.

Inductive proxy_call :=
  | CallHttp (name : string) (rid : ApronService -> string) (msgCh dataCh : chan)
  | CallWs (name : string) (rid : ApronService -> string) (msgCh : chan) (c : conn)
  | CallSocket (name : string) (rid : ApronService -> string) (msgCh : chan) (c : conn)
  | CallHttpInit
  | CallWsInit (rid : string) (c : conn)
  | CallWsData (from_client : bool)
  | CallHttpResp
  | CallSocketInit (rid : string) (c : conn)
  | CallSocketData (from_client : bool).

Definition registry_prog (c : registry_call) : Goroutine :=
  match c with
  | CallRegisterLocal service => register_prog self service
  | CallRegisterRemote owner service => register_prog owner service
  | CallTick availablePeers => UpdatePeers_prog availablePeers
  | CallListServices => listService_prog
  | CallListPeers => listServicePeer_prog
  | CallListLocal => listLocal_prog
  | CallListRemote => listRemote_prog
  end.

Definition proxy_prog (c : proxy_call) : Goroutine :=
  match c with
  | CallHttp name rid msgCh dataCh => http_request_prog name rid msgCh dataCh
  | CallWs name rid msgCh c => ws_request_prog name rid msgCh c
  | CallSocket name rid msgCh c => socket_client_prog name rid msgCh c
  | CallHttpInit => http_init_prog
  | CallWsInit rid c => ws_init_prog rid c
  | CallWsData from_client => ws_data_prog from_client
  | CallHttpResp => http_resp_prog
  | CallSocketInit rid c => socket_init_prog rid c
  | CallSocketData from_client => socket_data_prog from_client
  end.

Definition goroutine_prog (c : registry_call + proxy_call) : Goroutine :=
  match c with inl c => registry_prog c | inr c => proxy_prog c end.

(** ** The specification: a call of the registry in one step, by its handler *)

Definition reply_of (es : list effect) : response :=
  match es with CtxWrite b :: _ => Reply b | _ => NoReply end.

Definition atomic {L : ProtoLib} (publish : bytes -> option goerror) (c : registry_call) (n : Node)
    : response * Node :=
  match c with
  | CallRegisterLocal service => (NoReply, state_of (RegisterLocalService publish service n))
  | CallRegisterRemote owner service => (NoReply, state_of (RegisterRemoteService owner service n))
  | CallTick availablePeers =>
      (NoReply, state_of (UpdatePeers availablePeers (range_peers (servicePeerMapping n)) n))
  | CallListServices =>
      (reply_of (effects_of (listServiceHandler (range_services (services n)) n)), n)
  | CallListPeers =>
      (reply_of (effects_of (listServicePeerHandler pretty (range_peers (servicePeerMapping n)) n)), n)
  | CallListLocal =>
      (reply_of (effects_of (listLocalServiceHandler (range_peers (servicePeerMapping n)) n)), n)
  | CallListRemote =>
      (reply_of (effects_of (listRemoteServiceHandler (range_peers (servicePeerMapping n)) n)), n)
  end.

(** Calls in an order, each in one step; what each answers. *)
Fixpoint atomically {L : ProtoLib} (publish : bytes -> option goerror) (cs : list registry_call)
    (order : list nat) (n : Node) : list (nat * response) * Node :=
  match order with
  | [] => ([], n)
  | i :: order =>
      match cs !! i with
      | None => atomically publish cs order n
      | Some c =>
          let '(r, n) := atomic publish c n in
          let '(rs, n) := atomically publish cs order n in ((i, r) :: rs, n)
      end
  end.
End goroutines.

(** ** Lemmas *)

Lemma section_guarded {R} shared (p : prog R) : section_body p -> guarded shared true p.
Proof. induction p as [r|k IH|k IH|m k IH|m f k IH]; cbn; try done; [|naive_solver..]. by destruct k. Qed.

Lemma critical_guarded {R} shared (p : prog R) : critical p -> guarded shared false p.
Proof. destruct p; try done. cbn. split; [done|]. by apply section_guarded. Qed.

Lemma run_self {R} (p : prog R) n : selfID (run p n).2 = selfID n.
Proof.
  revert n. induction p as [r|k IH|k IH|m k IH|m f k IH]; intros n; cbn; auto.
  rewrite IH. apply set_map_self.
Qed.

Section calls.
Context (pretty : peer_ID -> string)
  (range_services : gmap string ApronService -> list (string * ApronService))
  (range_peers : gmap string peer_ID -> list (string * peer_ID)).

Abbreviation registry_prog self := (registry_prog self pretty range_services range_peers).

Lemma drop_loop_body ks : section_body (drop_loop ks).
Proof. induction ks as [|k ks IH]; [done|]. cbn. by intros _ _. Qed.

Lemma list_loop_body keep order rslt : section_body (list_loop keep order rslt).
Proof.
  revert rslt. induction order as [|[k v] order IH]; intros rslt; cbn; [done|].
  destruct (keep v); [intros ?|]; apply IH.
Qed.

(** Every call of the registry is one critical section. *)
Lemma registry_critical self c : critical (registry_prog self c).
Proof.
  destruct c; cbn; unfold register_prog; try done; intros; try case_match; try done;
    auto using drop_loop_body, list_loop_body.
Qed.

(** The calls of the proxy give the mutex back. *)
Lemma proxy_balanced c : guarded (fun _ => false) false (proxy_prog c).
Proof.
  destruct c; cbn; unfold ws_data_prog, socket_data_prog;
    repeat (cbn; intros; case_match || split); done.
Qed.

Lemma run_drop_loop ks n : run (drop_loop ks) n = (NoReply, fold_left (fun n k => drop_service k n) ks n).
Proof. revert n. induction ks as [|k ks IH]; intros n; [done|]. cbn. by rewrite IH. Qed.

Lemma run_list_loop keep order rslt n :
  run (list_loop keep order rslt) n
  = (Reply (json_Marshal_services (fold_left (fun rslt kv =>
       if keep kv.2 then rslt ++ [default zero_ApronService (services n !! kv.1)] else rslt) order rslt)), n).
Proof.
  revert rslt. induction order as [|[k v] order IH]; intros rslt; [done|]. cbn.
  destruct (keep v); apply IH.
Qed.

(** What a registration leaves does not depend on how its broadcast ends. *)
Lemma RegisterLocalService_state {L : ProtoLib} publish s n :
  state_of (RegisterLocalService publish s n) = store_service (selfID n) s n.
Proof.
  unfold RegisterLocalService, BroadcastService. run_handler.
  destruct (Marshal s) as [data|]; cbn; [|done]. by destruct (publish data).
Qed.

(** A call that runs alone does what its handler does. *)
Lemma run_registry {L : ProtoLib} publish c n :
  run (registry_prog (selfID n) c) n = atomic pretty range_services range_peers publish c n.
Proof.
  assert (forall owner s, run (register_prog owner s) n = (NoReply, store_service owner s n)) as Hreg.
  { intros owner s. unfold register_prog, store_service. cbn. by destruct (Service_IsDeleted s). }
  destruct c; cbn [Goroutines.registry_prog atomic].
  - by rewrite RegisterLocalService_state.
  - apply Hreg.
  - cbn. by rewrite run_drop_loop.
  - done.
  - done.
  - cbn. by rewrite run_list_loop.
  - cbn. by rewrite run_list_loop.
Qed.

Lemma sequential_atomically {L : ProtoLib} publish cs order n self :
  selfID n = self ->
  sequential (registry_prog self <$> cs) order n
  = atomically pretty range_services range_peers publish cs order n.
Proof.
  intros <-. assert (exists self, selfID n = self) as [self Hself] by eauto. rewrite Hself. revert n Hself.
  induction order as [|i order IH]; intros n Hself; [done|]. cbn. rewrite list_lookup_fmap.
  destruct (cs !! i) as [c|]; cbn; [|by apply IH].
  pose proof (run_self (registry_prog self c) n) as Hs.
  rewrite <- Hself in Hs at 1. rewrite <- Hself at 1. rewrite run_registry with (publish := publish) in *.
  destruct (atomic _ _ _ publish c n) as [r n']. cbn in Hs. rewrite IH by congruence. done.
Qed.
End calls.

(** ** Properties *)

(** C10: the registry's critical sections are atomic, as the other files take them to
    be. Any registrations, broadcasts, ticks and lists of one node run at the same
    time, access by access and in any interleaving: no map is ever accessed by two
    of them at once, no schedule gets stuck or goes on for ever, and when all
    have returned, the maps are as if the handlers had run one after the other in
    some order, each in one step, and every list answers what its handler
    answers at its place in that order. *)
Theorem critical_sections_atomic {L : ProtoLib} (publish : bytes -> option goerror)
    (pretty : peer_ID -> string)
    (range_services : gmap string ApronService -> list (string * ApronService))
    (range_peers : gmap string peer_ID -> list (string * peer_ID))
    (n : Node) (cs : list registry_call) (s : pool response)
    (calls := start n (registry_prog (selfID n) pretty range_services range_peers <$> cs))
    (Hrun : rtc pool_step calls s) :
  (forall m, ~ race m s) /\
  (Forall (fun t => returned t = true) (threads s) \/ exists s', pool_step s s') /\
  sn pool_step s /\
  (Forall (fun t => returned t = true) (threads s) ->
   exists order rs, order ≡ₚ List.seq 0 (length cs) /\
     atomically pretty range_services range_peers publish cs order n = (rs, mem s) /\
     forall i r, (i, r) ∈ rs <-> threads s !! i = Some (Running (Ret r))).
Proof.
  set (ps := registry_prog (selfID n) pretty range_services range_peers <$> cs) in *.
  assert (Forall critical ps) as Hcrit.
  { apply Forall_fmap, Forall_true. intros c. apply registry_critical. }
  assert (disciplined (fun _ => true) s) as Hs.
  { eapply disciplined_run; [|exact Hrun]. apply start_disciplined.
    eapply Forall_impl; [exact Hcrit|]. intros p. apply critical_guarded. }
  split_and!.
  - intros m. by apply (disciplined_no_race _ s m Hs).
  - by eapply disciplined_progress.
  - apply pool_ends.
  - intros Hret. destruct (serialized_end ps n Hcrit s Hrun Hret) as (order&rs&Ho&Hseq&Hrs).
    exists order, rs. split; [by rewrite Ho; unfold ps; rewrite length_fmap|]. split; [|done].
    by rewrite <- (sequential_atomically _ _ _ publish cs order n (selfID n)).
Qed.

(** C20: the mutex never blocks a gateway for good. However calls of the registry
    and of the proxy interleave, in every state that is reached some goroutine can
    go on until all have returned, and no schedule goes on for ever. *)
Theorem gateway_calls_return (pretty : peer_ID -> string)
    (range_services : gmap string ApronService -> list (string * ApronService))
    (range_peers : gmap string peer_ID -> list (string * peer_ID))
    (n : Node) (cs : list (registry_call + proxy_call)) (s : pool response)
    (Hrun : rtc pool_step
       (start n (goroutine_prog (selfID n) pretty range_services range_peers <$> cs)) s) :
  sn pool_step s /\ exists s', rtc pool_step s s' /\ Forall (fun t => returned t = true) (threads s').
Proof.
  split; [apply pool_ends|].
  assert (disciplined (fun _ => false) s) as Hs.
  { eapply disciplined_run; [|exact Hrun]. apply start_disciplined, Forall_fmap, Forall_true.
    intros [c|c]; cbn; [apply critical_guarded, registry_critical|apply proxy_balanced]. }
  clear Hrun. induction (pool_ends s) as [s _ IH].
  destruct (disciplined_progress _ s Hs) as [Hret|[s1 Hstep]]; [by exists s|].
  destruct (IH s1 Hstep) as (s'&Hrun&Hret); [by eapply disciplined_step|].
  exists s'. split; [by eapply rtc_l|done].
Qed.

(** One step of goroutine [i] of a pool that is given by its list. *)
Ltac go i :=
  lazymatch goal with
  | |- rtc pool_step (mkPool ?n ?h ?ts) _ =>
      let t := eval cbn in (ts !! i) in
      lazymatch t with
      | Some (Running (Lock ?k)) => apply (rtc_l _ _ _ _ (step_lock n ts i k eq_refl))
      | Some (Running (Unlock ?k)) => apply (rtc_l _ _ _ _ (step_unlock n h ts i k eq_refl))
      | Some (Running (Read ?m ?k)) => apply (rtc_l _ _ _ _ (step_begin_read n h ts i m k eq_refl))
      | Some (Accessing (Read ?m ?k)) => apply (rtc_l _ _ _ _ (step_end_read n h ts i m k eq_refl))
      | Some (Running (Write ?m ?f ?k)) => apply (rtc_l _ _ _ _ (step_begin_write n h ts i m f k eq_refl))
      | Some (Accessing (Write ?m ?f ?k)) => apply (rtc_l _ _ _ _ (step_end_write n h ts i m f k eq_refl))
      end
  end; cbn.

(** C21: what is done to the maps outside the mutex is not safe. Two HTTP requests of
    registered services can be at [requestIdChanMapping] at once, both writing;
    an HTTP request for whatever name can be printing the mapping of services in
    its log line while a registration writes it, as can a socket client of an
    unknown service; and a stream that opens a request reads the services while a
    registration writes them. Any of these can end the gateway. *)
Theorem unguarded_maps_race (self : peer_ID) (pretty : peer_ID -> string)
    (range_services : gmap string ApronService -> list (string * ApronService))
    (range_peers : gmap string peer_ID -> list (string * peer_ID))
    (n : Node) (name name' unknown : string) (owner owner' : peer_ID) (service service' new : ApronService)
    (rid rid' : ApronService -> string) (ch ch' ch1 ch2 c : chan)
    (prog_of := goroutine_prog self pretty range_services range_peers)
    (Howner : servicePeerMapping n !! name = Some owner) (Hservice : services n !! name = Some service)
    (Howner' : servicePeerMapping n !! name' = Some owner') (Hservice' : services n !! name' = Some service')
    (Hproviders : Service_Providers service <> []) (Hproviders' : Service_Providers service' <> [])
    (Hunknown : servicePeerMapping n !! unknown = None) :
  (exists s, rtc pool_step (start n (prog_of <$> [inr (CallHttp name rid ch ch1); inr (CallHttp name' rid' ch' ch2)])) s /\
     race RequestIdChanMapping s) /\
  (exists s, rtc pool_step (start n (prog_of <$> [inr (CallHttp unknown rid ch ch1); inl (CallRegisterLocal new)])) s /\
     race ServicePeerMapping s) /\
  (exists s, rtc pool_step (start n (prog_of <$> [inr (CallSocket unknown rid ch c); inl (CallRegisterLocal new)])) s /\
     race ServicePeerMapping s) /\
  (exists s, rtc pool_step (start n (prog_of <$> [inr CallHttpInit; inl (CallRegisterRemote owner new)])) s /\
     race Services s).
Proof.
  assert (forall s : ApronService, Service_Providers s <> [] -> (length (Service_Providers s) < 1)%nat -> False) as Hlen.
  { intros s. destruct (Service_Providers s); cbn; [done|lia]. }
  assert (forall R (s : pool R) m i j p q, i <> j -> threads s !! i = Some (Accessing p) ->
    threads s !! j = Some (Accessing q) -> writes m p -> reads m q \/ writes m q -> race m s) as Hrace.
  { intros R s m i j p q. intros. by exists i, j, p, q. }
  unfold start, prog_of. cbn -[http_request_prog].
  unfold http_request_prog, forward_prog, socket_client_prog, lookup_section, http_init_prog, register_prog.
  split_and!.
  - eexists. split.
    + do 7 go 0%nat. rewrite Howner. do 2 go 0%nat. rewrite Hservice. go 0%nat.
      rewrite decide_False by eauto. go 0%nat.
      do 7 go 1%nat. rewrite Howner'. do 2 go 1%nat. rewrite Hservice'. go 1%nat.
      rewrite decide_False by eauto. go 1%nat. apply rtc_refl.
    + eapply (Hrace _ _ _ 0%nat 1%nat); [done|reflexivity..| |right]; done.
  - destruct (Service_IsDeleted new).
    all: eexists; split; [go 0%nat; do 4 go 1%nat; apply rtc_refl|].
    all: eapply (Hrace _ _ _ 1%nat 0%nat); [done|reflexivity..| |left]; done.
  - destruct (Service_IsDeleted new).
    all: eexists; split;
      [do 3 go 0%nat; rewrite Hunknown; do 2 go 0%nat; do 4 go 1%nat; apply rtc_refl|].
    all: eapply (Hrace _ _ _ 1%nat 0%nat); [done|reflexivity..| |left]; done.
  - destruct (Service_IsDeleted new).
    all: eexists; split; [go 0%nat; do 2 go 1%nat; apply rtc_refl|].
    all: eapply (Hrace _ _ _ 1%nat 0%nat); [done|reflexivity..| |left]; done.
Qed.

Definition example_calls : list registry_call :=
  [CallRegisterLocal (example_service "svc1"); CallRegisterRemote "peer" (example_service "svc2")].

Example critical_sections_atomic_witness : exists s order rs,
  rtc pool_step (start example_node (registry_prog "self" id map_to_list map_to_list <$> example_calls)) s /\
  order ≡ₚ [0; 1]%nat /\
  atomically (L := WireFormat.wire_lib) id map_to_list map_to_list (fun _ => None) example_calls order example_node
  = (rs, mem s) /\
  directory (mem s) !! "svc2"%string = Some ("peer"%string, example_service "svc2").
Proof.
  assert (exists s, rtc pool_step
    (start example_node (registry_prog "self" id map_to_list map_to_list <$> example_calls)) s /\
    Forall (fun t => returned t = true) (threads s) /\
    directory (mem s) !! "svc2"%string = Some ("peer"%string, example_service "svc2")) as (s&Hrun&Hret&Hd).
  { eexists. split.
    - unfold start, example_calls. cbn -[example_node example_service]. unfold register_prog.
      cbn -[example_node]. go 1%nat. do 5 go 1%nat. do 6 go 0%nat. apply rtc_refl.
    - split; [repeat constructor|]. vm_compute. reflexivity. }
  destruct (critical_sections_atomic (L := WireFormat.wire_lib) (fun _ => None) id map_to_list map_to_list
    example_node example_calls s Hrun) as (_&_&_&H).
  destruct (H Hret) as (order&rs&Ho&Hatomic&_). exists s, order, rs. split_and!; done.
Defined.

Example gateway_calls_return_witness : exists s',
  rtc pool_step (start example_node (goroutine_prog "self" id map_to_list map_to_list <$>
    [inr (CallHttp "svc1" (fun _ => "rid"%string) 1%N 2%N); inl (CallRegisterLocal (example_service "svc1"));
     inl (CallTick []); inr (CallSocketInit "rid" 3%N)])) s' /\
  Forall (fun t => returned t = true) (threads s').
Proof.
  destruct (gateway_calls_return id map_to_list map_to_list example_node
    [inr (CallHttp "svc1" (fun _ => "rid"%string) 1%N 2%N); inl (CallRegisterLocal (example_service "svc1"));
     inl (CallTick []); inr (CallSocketInit "rid" 3%N)] _ (rtc_refl _ _)) as [_ (s'&H1&H2)].
  exists s'. split; [exact H1|exact H2].
Defined.

Example unguarded_maps_race_witness : exists s,
  rtc pool_step (start example_full (goroutine_prog "self" id map_to_list map_to_list <$>
    [inr (CallHttp "local_svc1" (fun _ => "a"%string) 1%N 2%N);
     inr (CallHttp "remote_svc" (fun _ => "b"%string) 3%N 4%N)])) s /\
  race RequestIdChanMapping s.
Proof.
  destruct (unguarded_maps_race "self" id map_to_list map_to_list example_full "local_svc1" "remote_svc" "unknown"
    "self" "peer" (example_service "local_svc1") (example_service "remote_svc") (example_service "new")
    (fun _ => "a"%string) (fun _ => "b"%string) 1%N 3%N 2%N 4%N 5%N) as [(s&Hrun&Hrace) _].
  - vm_compute. reflexivity.
  - vm_compute. reflexivity.
  - vm_compute. reflexivity.
  - vm_compute. reflexivity.
  - discriminate.
  - discriminate.
  - vm_compute. reflexivity.
  - exists s. split; [exact Hrun|exact Hrace].
Defined.
