(* ===== verification/Cluster.v ===== *)
(** Several gateways and the broadcasts between them: the registry handlers of
    [Node], run by many nodes that are connected by a topic.

    Whatever a node publishes, in a call of any kind, is queued for every other node
    that is there at the time, and the queue from one node to another keeps the
    order; gossip may hand it over through a third node, whose peer id the receiver
    then records. How late a broadcast is delivered, and what happens in between, is
    up to the schedule. *)

From S2P Require Import Prelude Messages RequestDetail UsageRecord ServiceJson Node.
From S2P Require WireFormat.

Record cluster := mkCluster {
  nodes : gmap peer_ID Node;
  queue : peer_ID -> peer_ID -> list bytes
}.

Inductive event :=
  | Register (a : peer_ID) (body : bytes)
  | Unregister (a : peer_ID) (body : bytes)
  | Deliver (src dst via : peer_ID)
  | Tick (b : peer_ID) (availablePeers : list peer_ID)
  | Join (b : peer_ID).

(** A node that has just started. *)
Definition fresh (b : peer_ID) : Node := SetupServiceBroadcastListener b NewNode.

(** Its start, up to the listener: nothing is published. *)
Definition joining (b : peer_ID) : Handler unit := modify (SetupServiceBroadcastListener b).

(** What a call has said to the others. *)
Definition publication (e : effect) : option bytes :=
  match e with
  | Published topic data => if decide (topic = BroadcastServiceChannel) then Some data else None
  | _ => None
  end.

Definition publications (es : list effect) : list bytes := omap publication es.

Definition broadcast_from (a : peer_ID) (said : list bytes) (members : gset peer_ID)
    (q : peer_ID -> peer_ID -> list bytes) (src dst : peer_ID) : list bytes :=
  if decide (src = a /\ dst <> a /\ dst ∈ members) then q src dst ++ said else q src dst.

Definition dequeue (a b : peer_ID) (rest : list bytes) (q : peer_ID -> peer_ID -> list bytes)
    (src dst : peer_ID) : list bytes :=
  if decide (src = a /\ dst = b) then rest else q src dst.

Section cluster.
Context {L : ProtoLib}.

(** A call at [a] that returns: it leaves the node [n'], and what it has published is
    queued for the others. *)
Definition after_call (a : peer_ID) (n' : Node) (es : list effect) (c : cluster)
    (q : peer_ID -> peer_ID -> list bytes) : cluster :=
  mkCluster (<[a := n']> (nodes c)) (broadcast_from a (publications es) (dom (nodes c)) q).

Inductive cluster_step : cluster -> event -> cluster -> Prop :=
  | ev_register c a n n' body es publish :
      nodes c !! a = Some n ->
      newOrUpdateServiceHandler publish body n = (Val tt, n', es) ->
      cluster_step c (Register a body) (after_call a n' es c (queue c))
  | ev_unregister c a n n' body es publish :
      nodes c !! a = Some n ->
      deleteServiceHandler publish body n = (Val tt, n', es) ->
      cluster_step c (Unregister a body) (after_call a n' es c (queue c))
  | ev_deliver c src dst via n n' data rest es :
      nodes c !! dst = Some n -> queue c src dst = data :: rest ->
      via ∈ dom (nodes c) -> via <> dst ->
      StartListeningOnServiceBroadcast (NextMsg via data) n = (Val tt, n', es) ->
      cluster_step c (Deliver src dst via) (after_call dst n' es c (dequeue src dst rest (queue c)))
  | ev_tick c b n n' availablePeers order es :
      nodes c !! b = Some n ->
      order ≡ₚ map_to_list (servicePeerMapping n) ->
      UpdatePeers availablePeers order n = (Val tt, n', es) ->
      cluster_step c (Tick b availablePeers) (after_call b n' es c (queue c))
  | ev_join c b n' es :
      nodes c !! b = None -> joining b NewNode = (Val tt, n', es) ->
      cluster_step c (Join b) (after_call b n' es c (queue c)).

Inductive cluster_run : cluster -> list event -> cluster -> Prop :=
  | cluster_nil c : cluster_run c [] c
  | cluster_cons c c1 c2 ev evs :
      cluster_step c ev c1 -> cluster_run c1 evs c2 -> cluster_run c (ev :: evs) c2.

(** Gateways that have started and found one another. *)
Definition started (peers : gset peer_ID) : cluster :=
  mkCluster (set_to_map (fun p => (p, fresh p)) peers) (fun _ _ => []).

Definition quiet (c : cluster) : Prop := forall src dst, queue c src dst = [].

(** ** The specification: one table of services *)

Definition table_store (s : ApronService) (t : gmap string ApronService) : gmap string ApronService :=
  if Service_IsDeleted s then delete (Service_Id s) t else <[Service_Id s := s]> t.

(** Registrations, in the order in which they are made, wherever that is. *)
Definition table_step (t : gmap string ApronService) (ev : event) : gmap string ApronService :=
  match ev with
  | Register _ body =>
      match json_Unmarshal_service body with Ok s => table_store s t | Fail _ => t end
  | Unregister _ body =>
      match json_Unmarshal_service body with Ok s => delete (Service_Id s) t | Fail _ => t end
  | _ => t
  end.

Definition table (evs : list event) : gmap string ApronService := fold_left table_step evs ∅.

(** What the specification asks of a schedule: every service has one home, where
    all its registrations are made, with providers that are not null; nobody
    joins late, and every tick sees all the peers. *)
Definition orderly (peers : gset peer_ID) (home : string -> peer_ID) (ev : event) : Prop :=
  match ev with
  | Register a body | Unregister a body =>
      forall s, json_Unmarshal_service body = Ok s ->
      home (Service_Id s) = a /\ Forall is_Some (Service_Providers s)
  | Deliver _ _ _ => True
  | Tick b availablePeers => forall p, p ∈ peers -> p <> b -> p ∈ availablePeers
  | Join _ => False
  end.

(** ** Lemmas *)

(** A decoded service without null providers survives protobuf. *)
Lemma decoded_proto_wf s : service_typed s -> Forall is_Some (Service_Providers s) -> proto_wf s.
Proof.
  intros [_ Ht] Hs. cbn. rewrite Forall_forall in *. intros p Hp.
  destruct (Hs p Hp) as [q ->]. exists q. split; [done|].
  destruct (Ht (Some q) Hp) as (_&?&?&?). unfold int_range in *. cbn. lia.
Qed.

(** A message that waits, seen from one service id. *)
Definition replay_step (k : string) (o : option ApronService) (data : bytes) : option ApronService :=
  match Unmarshal (T := ApronService) data with
  | Ok s => if decide (Service_Id s = k) then
              if Service_IsDeleted s then None else Some s
            else o
  | Fail _ => o
  end.

Definition replay (k : string) : list bytes -> option ApronService -> option ApronService :=
  fun q o => fold_left (replay_step k) q o.

Lemma table_store_lookup s t k data :
  Unmarshal data = Ok s -> table_store s t !! k = replay_step k (t !! k) data.
Proof.
  intros Hd. unfold table_store, replay_step. rewrite Hd.
  destruct (decide (Service_Id s = k)) as [<-|E]; destruct (Service_IsDeleted s).
  - apply lookup_delete_eq.
  - apply lookup_insert_eq.
  - by rewrite lookup_delete_ne.
  - by rewrite lookup_insert_ne.
Qed.

Lemma store_services owner s n : services (store_service owner s n) = table_store s (services n).
Proof. unfold store_service, table_store. by destruct (Service_IsDeleted s). Qed.

(** The owners that a node knows of. *)
Definition owners_in (peers : gset peer_ID) (n : Node) : Prop :=
  map_Forall (fun _ o => o ∈ peers) (servicePeerMapping n).

Lemma store_owners peers owner s n :
  owner ∈ peers -> owners_in peers n -> owners_in peers (store_service owner s n).
Proof.
  intros Ho Hn. unfold store_service, owners_in. destruct (Service_IsDeleted s); cbn.
  - by apply map_Forall_delete.
  - by apply map_Forall_insert_2.
Qed.

(** What a node's state has to do with the table: it lacks what still waits in
    the queue from the home of each service. *)
Record in_step (peers : gset peer_ID) (home : string -> peer_ID) (c : cluster)
    (t : gmap string ApronService) : Prop := {
  step_dom : dom (nodes c) = peers;
  step_self b n : nodes c !! b = Some n -> selfID n = b;
  step_ok b n : nodes c !! b = Some n -> registry_ok n;
  step_owners b n : nodes c !! b = Some n -> owners_in peers n;
  step_loop a : queue c a a = [];
  step_home a b data : data ∈ queue c a b ->
    exists s, Unmarshal (T := ApronService) data = Ok s /\ home (Service_Id s) = a;
  step_members a b : queue c a b <> [] -> a ∈ peers /\ b ∈ peers;
  step_behind b n k : nodes c !! b = Some n ->
    replay k (queue c (home k) b) (services n !! k) = t !! k
}.

Lemma started_in_step peers home : in_step peers home (started peers) ∅.
Proof.
  assert (forall b n, nodes (started peers) !! b = Some n -> n = fresh b) as Hn.
  { intros b n H. unfold started in H. cbn in H.
    apply lookup_set_to_map in H as (b'&_&[= <- <-]); [done|]. by intros y y' _ _ E. }
  split; cbn.
  - apply set_eq. intros b. rewrite elem_of_dom. split.
    + intros [n H]. apply lookup_set_to_map in H as (b'&Hb&[= <- _]); [done|]. by intros y y' _ _ E.
    + intros Hb. exists (fresh b). apply lookup_set_to_map; [by intros y y' _ _ E|]. by exists b.
  - by intros b n ->%Hn.
  - intros b n ->%Hn. apply NewNode_ok.
  - intros b n ->%Hn. apply map_Forall_empty.
  - done.
  - by intros a b data ?%not_elem_of_nil.
  - done.
  - by intros b n k ->%Hn.
Qed.

(** Queues that hold the same are the same to a step. *)
Lemma in_step_ext peers home c c' t :
  nodes c' = nodes c -> (forall a b, queue c' a b = queue c a b) ->
  in_step peers home c t -> in_step peers home c' t.
Proof.
  intros Hn Hq [H1 H2 H3 H4 H5 H6 H7 H8]. split; intros *; rewrite ?Hn, ?Hq; eauto.
Qed.

Lemma broadcast_nothing a members q src dst : broadcast_from a [] members q src dst = q src dst.
Proof. unfold broadcast_from. case_decide; [apply app_nil_r|done]. Qed.

(** Of the calls only those of the management API publish. *)
Lemma listening_silent next n n' es : StartListeningOnServiceBroadcast next n = (Val tt, n', es) -> publications es = [].
Proof.
  destruct next as [err|via data]; [by intros [= _ <-]|].
  unfold StartListeningOnServiceBroadcast, RegisterRemoteService. rewrite bind_get.
  case_decide; [by intros [= _ <-]|]. destruct (Unmarshal data); by intros [= _ <-].
Qed.

Lemma tick_silent ps order n n' es : UpdatePeers ps order n = (Val tt, n', es) -> publications es = [].
Proof. by intros [= _ <-]. Qed.

Lemma joining_silent b n n' es : joining b n = (Val tt, n', es) -> n' = SetupServiceBroadcastListener b n /\ publications es = [].
Proof. by intros [= <- <-]. Qed.

Lemma silent_queue a n' es c q src dst : publications es = [] -> queue (after_call a n' es c q) src dst = q src dst.
Proof. intros E. cbn. rewrite E. apply broadcast_nothing. Qed.

(** *** One step *)

(** A registration at the home of the service: everyone else is one message
    behind, the home is not. *)
Lemma publish_in_step peers home c t a n data s :
  in_step peers home c t -> nodes c !! a = Some n -> Unmarshal data = Ok s ->
  home (Service_Id s) = a ->
  in_step peers home
    (mkCluster (<[a := store_service (selfID n) s n]> (nodes c)) (broadcast_from a [data] (dom (nodes c)) (queue c)))
    (table_store s t).
Proof.
  intros I Ha Hdata Hhome.
  assert (a ∈ peers) as Hin by (rewrite <- (step_dom _ _ _ _ I); by eapply elem_of_dom_2).
  split; cbn [nodes queue].
  - rewrite dom_insert_L, (step_dom _ _ _ _ I). set_solver.
  - intros b m [[<- <-]|[Hne Hm]]%lookup_insert_Some; [|by eapply step_self].
    rewrite (frame_self n) by apply store_frame. by eapply step_self.
  - intros b m [[<- <-]|[Hne Hm]]%lookup_insert_Some; [|by eapply step_ok].
    apply store_ok. by eapply step_ok.
  - intros b m [[<- <-]|[Hne Hm]]%lookup_insert_Some; [|by eapply step_owners].
    apply store_owners; [|by eapply step_owners]. by rewrite (step_self _ _ _ _ I _ _ Ha).
  - intros b. unfold broadcast_from. case_decide; [|apply (step_loop _ _ _ _ I)].
    by destruct_and!; subst.
  - intros b b' d. unfold broadcast_from. case_decide as E; [|apply (step_home _ _ _ _ I)].
    destruct E as (->&_&_). rewrite elem_of_app, list_elem_of_singleton.
    intros [Hd| ->]; [by apply (step_home _ _ _ _ I) in Hd|]. by exists s.
  - intros b b'. unfold broadcast_from. case_decide as E; [|apply (step_members _ _ _ _ I)].
    destruct E as (->&_&Hb). rewrite (step_dom _ _ _ _ I) in Hb. done.
  - intros b m k Hm. rewrite (table_store_lookup s t k data) by done.
    apply lookup_insert_Some in Hm as [[<- <-]|[Hne Hm]].
    + rewrite <- (step_behind _ _ _ _ I a n k Ha), store_services, (table_store_lookup _ _ k data) by done.
      unfold broadcast_from. rewrite decide_False by naive_solver.
      destruct (decide (home k = a)) as [->|Hk]; [by rewrite (step_loop _ _ _ _ I)|].
      unfold replay_step. rewrite Hdata, !decide_False by congruence. done.
    + rewrite <- (step_behind _ _ _ _ I b m k Hm). unfold broadcast_from.
      destruct (decide (home k = a)) as [->|Hk].
      * rewrite decide_True by (split_and!; [done|done|by eapply elem_of_dom_2]).
        unfold replay. by rewrite fold_left_app.
      * rewrite decide_False by naive_solver. unfold replay_step.
        rewrite Hdata, decide_False by congruence. done.
Qed.

Lemma deliver_in_step peers home c t src dst via n n' data rest es :
  in_step peers home c t -> nodes c !! dst = Some n -> queue c src dst = data :: rest ->
  via ∈ dom (nodes c) -> via <> dst ->
  StartListeningOnServiceBroadcast (NextMsg via data) n = (Val tt, n', es) ->
  in_step peers home (mkCluster (<[dst := n']> (nodes c)) (dequeue src dst rest (queue c))) t.
Proof.
  intros I Hn Hq Hvia Hne Hrun.
  destruct (step_home _ _ _ _ I src dst data) as (s&Hdata&Hhome); [rewrite Hq; by left|].
  assert (src <> dst) as Hsd by (intros ->; by rewrite (step_loop _ _ _ _ I) in Hq).
  assert (n' = store_service via s n) as ->.
  { unfold StartListeningOnServiceBroadcast, RegisterRemoteService in Hrun. run_handler.
    rewrite decide_False in Hrun by (rewrite (step_self _ _ _ _ I _ _ Hn); done).
    rewrite Hdata in Hrun. by simplify_eq/=. }
  rewrite (step_dom _ _ _ _ I) in Hvia.
  split; cbn [nodes queue].
  - rewrite dom_insert_L, (step_dom _ _ _ _ I).
    apply elem_of_dom_2 in Hn. rewrite (step_dom _ _ _ _ I) in Hn. set_solver.
  - intros b m [[<- <-]|[_ Hm]]%lookup_insert_Some; [|by eapply step_self].
    rewrite (frame_self n) by apply store_frame. by eapply step_self.
  - intros b m [[<- <-]|[_ Hm]]%lookup_insert_Some; [|by eapply step_ok].
    apply store_ok. by eapply step_ok.
  - intros b m [[<- <-]|[_ Hm]]%lookup_insert_Some; [|by eapply step_owners].
    apply store_owners; [done|]. by eapply step_owners.
  - intros a. unfold dequeue. rewrite decide_False by naive_solver. apply (step_loop _ _ _ _ I).
  - intros a b d. unfold dequeue. case_decide as E; [|apply (step_home _ _ _ _ I)].
    destruct E as [-> ->]. intros Hd. apply (step_home _ _ _ _ I src dst). rewrite Hq. by right.
  - intros a b. unfold dequeue. case_decide as E; [|apply (step_members _ _ _ _ I)].
    destruct E as [-> ->]. intros _. apply (step_members _ _ _ _ I). by rewrite Hq.
  - intros b m k Hm. unfold dequeue. apply lookup_insert_Some in Hm as [[<- <-]|[Hb Hm]].
    + rewrite <- (step_behind _ _ _ _ I dst n k Hn), store_services, (table_store_lookup _ _ k data) by done.
      destruct (decide (home k = src)) as [->|Hk].
      * by rewrite decide_True, Hq.
      * rewrite decide_False by naive_solver. f_equal. unfold replay_step.
        rewrite Hdata, decide_False by congruence. done.
    + rewrite decide_False by naive_solver. by apply (step_behind _ _ _ _ I).
Qed.

Lemma tick_in_step peers home c t b n n' ps order es :
  in_step peers home c t -> nodes c !! b = Some n -> (forall p, p ∈ peers -> p <> b -> p ∈ ps) ->
  order ≡ₚ map_to_list (servicePeerMapping n) ->
  UpdatePeers ps order n = (Val tt, n', es) ->
  in_step peers home (mkCluster (<[b := n']> (nodes c)) (queue c)) t.
Proof.
  intros I Hn Hps Horder Hrun.
  destruct (registry_step_spec _ _ _ (step_tick n n' ps order es Horder Hrun)) as (Hd&Hok&Hf).
  pose proof (step_ok _ _ _ _ I _ _ Hn) as Hn_ok. specialize (Hok Hn_ok).
  pose proof (step_self _ _ _ _ I _ _ Hn) as Hself.
  assert (directory n' = directory n) as Hsame.
  { rewrite Hd. cbn. apply map_filter_id. intros k [o s] [Ho _]%directory_lookup_Some. cbn.
    rewrite Hself. destruct (decide (o = b)); [by left|right].
    apply Hps; [|done]. exact (step_owners _ _ _ _ I _ _ Hn _ _ Ho). }
  assert (services n' = services n) as Es by (by rewrite <- !directory_snd, Hsame).
  assert (servicePeerMapping n' = servicePeerMapping n) as Ep by (by rewrite <- !directory_fst, Hsame).
  split; cbn [nodes queue]; try apply I.
  - rewrite dom_insert_L, (step_dom _ _ _ _ I).
    apply elem_of_dom_2 in Hn. rewrite (step_dom _ _ _ _ I) in Hn. set_solver.
  - intros b' m [[<- <-]|[_ Hm]]%lookup_insert_Some; [|by eapply step_self]. by rewrite (frame_self n).
  - intros b' m [[<- <-]|[_ Hm]]%lookup_insert_Some; [done|by eapply step_ok].
  - intros b' m [[<- <-]|[_ Hm]]%lookup_insert_Some; [|by eapply step_owners].
    unfold owners_in. rewrite Ep. by eapply step_owners.
  - intros b' m k [[<- <-]|[_ Hm]]%lookup_insert_Some; [|by eapply step_behind].
    rewrite Es. by eapply step_behind.
Qed.

(** What a call that returns has published. *)
Lemma register_returns publish body n n' es :
  newOrUpdateServiceHandler publish body n = (Val tt, n', es) ->
  exists s data, json_Unmarshal_service body = Ok s /\ n' = store_service (selfID n) s n /\
    Marshal s = Ok data /\ es = [Published BroadcastServiceChannel data].
Proof.
  unfold newOrUpdateServiceHandler, must. destruct (json_Unmarshal_service body) as [s|]; [|done].
  rewrite bind_pure. intros (->&d&Hd&_&->)%RegisterLocalService_returns. by exists s, d.
Qed.

Lemma unregister_returns publish body n n' es :
  deleteServiceHandler publish body n = (Val tt, n', es) ->
  exists s data, json_Unmarshal_service body = Ok s /\ n' = store_service (selfID n) (deleted s) n /\
    Marshal (deleted s) = Ok data /\ es = [Published BroadcastServiceChannel data].
Proof.
  unfold deleteServiceHandler, must. destruct (json_Unmarshal_service body) as [s|]; [|done].
  rewrite bind_pure. intros (->&d&Hd&_&->)%RegisterLocalService_returns. by exists s, d.
Qed.

Lemma cluster_step_in_step peers home c t ev c' :
  in_step peers home c t -> orderly peers home ev -> cluster_step c ev c' ->
  in_step peers home c' (table_step t ev).
Proof.
  intros I Ho Hs. revert I Ho.
  destruct Hs as [c a n n' body es publish Hn H|c a n n' body es publish Hn H
    |c src dst via n n' data rest es Hn He Hv Hne H|c b n n' ps order es Hn Horder H|c b n' es Hb H]; cbn; intros I Ho.
  - apply register_returns in H as (s&data&Hj&->&Hm&->). rewrite Hj. destruct (Ho s Hj) as [Hhome Hps].
    eapply publish_in_step; [done..| |done]. eapply Unmarshal_Marshal; [|exact Hm].
    apply decoded_proto_wf; [by eapply Unmarshal_service_typed|done].
  - apply unregister_returns in H as (s&data&Hj&->&Hm&->). rewrite Hj. destruct (Ho s Hj) as [Hhome Hps].
    change (delete (Service_Id s) t) with (table_store (deleted s) t).
    eapply publish_in_step; [done..| |done]. eapply Unmarshal_Marshal; [|exact Hm].
    exact (decoded_proto_wf s (Unmarshal_service_typed _ _ Hj) Hps).
  - apply (in_step_ext _ _ (mkCluster (<[dst := n']> (nodes c)) (dequeue src dst rest (queue c))));
      [done| |by eapply deliver_in_step].
    intros a b. eapply silent_queue, listening_silent, H.
  - apply (in_step_ext _ _ (mkCluster (<[b := n']> (nodes c)) (queue c))); [done| |by eapply tick_in_step].
    intros a b'. eapply silent_queue, tick_silent, H.
  - done.
Qed.

Lemma cluster_run_in_step peers home c t evs c' :
  in_step peers home c t -> Forall (orderly peers home) evs -> cluster_run c evs c' ->
  in_step peers home c' (fold_left table_step evs t).
Proof.
  intros I Ho Hrun. revert t I. induction Hrun as [|c c1 c2 ev evs Hs _ IH]; intros t I; cbn; [done|].
  apply Forall_cons in Ho as [Hev Ho]. apply IH; [done|]. by eapply cluster_step_in_step.
Qed.

Lemma cluster_run_app c evs c1 evs' c2 :
  cluster_run c evs c1 -> cluster_run c1 evs' c2 -> cluster_run c (evs ++ evs') c2.
Proof. induction 1; cbn; [done|]. intros. econstructor; eauto. Qed.

(** *** Delivering everything *)

Definition is_delivery (ev : event) : Prop := match ev with Deliver _ _ _ => True | _ => False end.

Lemma deliveries_orderly peers home evs : Forall is_delivery evs -> Forall (orderly peers home) evs.
Proof. intros H. eapply Forall_impl; [exact H|]. by intros []. Qed.

Lemma deliveries_table evs t : Forall is_delivery evs -> fold_left table_step evs t = t.
Proof. induction 1 as [|ev evs Hev _ IH]; [done|]. by destruct ev. Qed.

Lemma deliver_one peers home c t src dst data rest :
  in_step peers home c t -> queue c src dst = data :: rest ->
  exists c', cluster_step c (Deliver src dst src) c' /\
    forall a b, queue c' a b = dequeue src dst rest (queue c) a b.
Proof.
  intros I Hq. destruct (step_members _ _ _ _ I src dst) as [Hs Hd]; [by rewrite Hq|].
  assert (src <> dst) as Hne by (intros ->; by rewrite (step_loop _ _ _ _ I) in Hq).
  destruct (step_home _ _ _ _ I src dst data) as (s&Hdata&_); [rewrite Hq; by left|].
  rewrite <- (step_dom _ _ _ _ I) in Hs, Hd. apply elem_of_dom in Hd as [n Hn].
  eexists. split; [eapply ev_deliver|].
  - exact Hn.
  - exact Hq.
  - exact Hs.
  - exact Hne.
  - unfold StartListeningOnServiceBroadcast, RegisterRemoteService. run_handler.
    rewrite decide_False by (rewrite (step_self _ _ _ _ I _ _ Hn); done). by rewrite Hdata.
  - intros a b. by apply silent_queue.
Qed.

Lemma deliver_queue peers home c t src dst :
  in_step peers home c t -> exists evs c', Forall is_delivery evs /\ cluster_run c evs c' /\
    queue c' src dst = [] /\ forall a b, queue c a b = [] -> queue c' a b = [].
Proof.
  remember (queue c src dst) as q eqn:Hq. revert c Hq.
  induction q as [|data q IH]; intros c Hq I.
  { exists [], c. split_and!; [constructor|constructor|done|done]. }
  destruct (deliver_one _ _ _ _ src dst data q I) as (c1&Hstep&Hq1); [done|].
  destruct (IH c1) as (evs&c'&Hdel&Hrun&He&Hrest).
  - rewrite Hq1. unfold dequeue. by rewrite decide_True.
  - exact (cluster_step_in_step _ _ _ _ (Deliver src dst src) _ I Logic.I Hstep).
  - exists (Deliver src dst src :: evs), c'. split_and!; [by constructor|by econstructor|done|].
    intros a b Hab. apply Hrest. rewrite Hq1. unfold dequeue. case_decide as E; [|done].
    destruct E as [-> ->]. by rewrite Hab in Hq.
Qed.

Lemma deliver_all peers home c t :
  in_step peers home c t ->
  exists evs c', Forall is_delivery evs /\ cluster_run c evs c' /\ quiet c'.
Proof.
  intros I.
  assert (forall l : list (peer_ID * peer_ID), exists evs c', Forall is_delivery evs /\ cluster_run c evs c' /\
    in_step peers home c' t /\
    (forall p, p ∈ l -> queue c' p.1 p.2 = [])) as Hl.
  { induction l as [|[a b] l (evs&c1&Hd&Hr&I1&Hq)].
    - exists [], c. split_and!; [constructor|constructor|done|]. by intros p ?%not_elem_of_nil.
    - destruct (deliver_queue _ _ _ _ a b I1) as (evs'&c2&Hd'&Hr'&He&Hrest).
      exists (evs ++ evs'), c2. split_and!; [by apply Forall_app|by eapply cluster_run_app| |].
      + rewrite <- (deliveries_table evs' t) by done.
        eapply cluster_run_in_step; [exact I1|by apply deliveries_orderly|done].
      + intros p [-> |Hp]%elem_of_cons; [exact He|]. by apply Hrest, Hq. }
  destruct (Hl (a ← elements peers; b ← elements peers; [(a, b)])) as (evs&c'&Hd&Hr&I'&Hq).
  exists evs, c'. split_and!; [done|done|]. intros a b.
  destruct (decide (queue c' a b = [])) as [|Hne]; [done|].
  destruct (step_members _ _ _ _ I' a b Hne) as [Ha Hb].
  apply (Hq (a, b)). apply list_elem_of_bind. exists a. split; [|by apply elem_of_elements].
  apply list_elem_of_bind. exists b. split; [by apply list_elem_of_singleton|by apply elem_of_elements].
Qed.

(** *** Without registrations *)

Lemma drop_services_subseteq ks n : services (drop_services ks n) ⊆ services n.
Proof.
  revert n. induction ks as [|k ks IH]; intros n; cbn; [done|].
  etransitivity; [apply IH|]. apply delete_subseteq.
Qed.

Definition is_registration (ev : event) : Prop :=
  match ev with Register _ _ | Unregister _ _ => True | _ => False end.

Lemma silent_step c ev c' :
  quiet c -> ~ is_registration ev -> cluster_step c ev c' ->
  quiet c' /\ forall b n', nodes c' !! b = Some n' ->
    services n' = ∅ \/ exists n, nodes c !! b = Some n /\ services n' ⊆ services n.
Proof.
  intros Hq Hr Hs. revert Hq Hr.
  destruct Hs as [| |c src dst via n n' data rest es Hn He|c b n n' ps order es Hn Horder Hrun|c b n' es Hb Hrun];
    intros Hq Hr; cbn in Hr; try tauto.
  - by rewrite Hq in He.
  - split; [intros src dst; rewrite silent_queue by (by eapply tick_silent); apply Hq|]. cbn. intros b' m [[<- <-]|[_ Hm]]%lookup_insert_Some; right; [|by exists m].
    exists n. split; [done|]. unfold UpdatePeers in Hrun. run_handler. simplify_eq/=.
    apply drop_services_subseteq.
  - apply joining_silent in Hrun as [-> Hes].
    split; [intros src dst; rewrite silent_queue by done; apply Hq|].
    cbn. intros b' m [[<- <-]|[_ Hm]]%lookup_insert_Some; [by left|right; by exists m].
Qed.
End cluster.

(** ** Properties *)

(** C4: the registries converge, under these conditions: all the registrations of a
    service are made at one node and name providers that are not null; nobody
    joins later, and every tick sees all the peers; and, as the queues of this file
    have it, no broadcast is lost and those of one node reach another in their
    order. Then, whatever the interleaving of registrations, deliveries and ticks, and
    whichever neighbours hand the broadcasts on, a state without pending broadcasts
    has the same services at every node: those that the registrations give, one
    after the other, in a single table. And such a state can always be reached by
    deliveries alone. *)
Theorem registries_converge {L : ProtoLib} (peers : gset peer_ID) (home : string -> peer_ID)
    (evs : list event) (c : cluster)
    (Horderly : Forall (orderly peers home) evs) (Hrun : cluster_run (started peers) evs c) :
  dom (nodes c) = peers /\
  (quiet c -> forall b n, nodes c !! b = Some n -> services n = table evs) /\
  (exists deliveries c', Forall is_delivery deliveries /\ cluster_run c deliveries c' /\ quiet c' /\
    dom (nodes c') = peers /\ forall b n, nodes c' !! b = Some n -> services n = table evs).
Proof.
  assert (in_step peers home c (table evs)) as I
    by (eapply cluster_run_in_step; [apply started_in_step|done|done]).
  assert (forall c' n b, in_step peers home c' (table evs) -> quiet c' -> nodes c' !! b = Some n ->
    services n = table evs) as Hsame.
  { intros c' n b I' Hq Hn. apply map_eq. intros k.
    rewrite <- (step_behind _ _ _ _ I' b n k Hn). by rewrite Hq. }
  split_and!; [apply I|eauto|]. destruct (deliver_all _ _ _ _ I) as (ds&c'&Hd&Hr&Hq).
  assert (in_step peers home c' (table evs)) as I'.
  { rewrite <- (deliveries_table ds (table evs)) by done.
    eapply cluster_run_in_step; [exact I|by apply deliveries_orderly|done]. }
  exists ds, c'. split_and!; [done..|apply I'|]. eauto.
Qed.

Definition example_peers : gset peer_ID := {["a"; "b"]}%string.
Definition example_home (k : string) : peer_ID := if decide (k = "local_svc1"%string) then "a" else "b".

Definition example_register (a id : string) : event :=
  Register a (json_Marshal_service (example_service id)).

(** What the handler leaves and publishes. *)
Definition registered (a : peer_ID) (id : string) (n : Node) : Node := put_service a (example_service id) n.
Definition published (id : string) : bytes :=
  match Marshal (H := WireFormat.wire_lib) (example_service id) with Ok d => d | Fail _ => [] end.

Definition example_events : list event :=
  [example_register "a" "local_svc1"; example_register "b" "remote_svc"; Deliver "a" "b" "a"]%string.

Definition example_cluster : cluster :=
  let c0 := started example_peers in
  let c1 := after_call "a" (registered "a" "local_svc1" (fresh "a"))
              [Published BroadcastServiceChannel (published "local_svc1")] c0 (queue c0) in
  let c2 := after_call "b" (registered "b" "remote_svc" (fresh "b"))
              [Published BroadcastServiceChannel (published "remote_svc")] c1 (queue c1) in
  after_call "b" (registered "a" "local_svc1" (registered "b" "remote_svc" (fresh "b"))) []
    c2 (dequeue "a" "b" [] (queue c2)).

Lemma example_cluster_run :
  cluster_run (L := WireFormat.wire_lib) (started example_peers) example_events example_cluster.
Proof.
  eapply cluster_cons.
  { eapply (ev_register (L := WireFormat.wire_lib) _ "a" (fresh "a") _ _ _ (fun _ => None));
      vm_compute; reflexivity. }
  eapply cluster_cons.
  { eapply (ev_register (L := WireFormat.wire_lib) _ "b" (fresh "b") _ _ _ (fun _ => None));
      vm_compute; reflexivity. }
  eapply cluster_cons; [|constructor].
  eapply (ev_deliver (L := WireFormat.wire_lib) _ "a" "b" "a" _ _ (published "local_svc1") [] []).
  - vm_compute. reflexivity.
  - vm_compute. reflexivity.
  - apply (bool_decide_unpack _). vm_compute. exact I.
  - discriminate.
  - vm_compute. reflexivity.
Qed.

Lemma example_orderly : Forall (orderly example_peers example_home) example_events.
Proof.
  apply Forall_cons_2; [|apply Forall_cons_2; [|by apply Forall_singleton]].
  - intros s E. vm_compute in E. injection E as <-. split; [reflexivity|]. by apply Forall_singleton.
  - intros s E. vm_compute in E. injection E as <-. split; [reflexivity|]. by apply Forall_singleton.
Qed.

Example registries_converge_witness : exists deliveries c',
  cluster_run (L := WireFormat.wire_lib) example_cluster deliveries c' /\ quiet c' /\
  forall b n, nodes c' !! b = Some n -> services n =
    {["local_svc1" := example_service "local_svc1"; "remote_svc" := example_service "remote_svc"]}%string.
Proof.
  destruct (registries_converge (L := WireFormat.wire_lib) example_peers example_home example_events
              example_cluster) as (_&_&ds&c'&_&Hr&Hq&_&Hsame);
    [exact example_orderly|exact example_cluster_run|].
  exists ds, c'. split_and!; [exact Hr|exact Hq|]. intros b n Hn. rewrite (Hsame b n Hn).
  vm_compute. reflexivity.
Defined.

(** C36: nothing is announced twice: every call puts what it publishes on the
    network, and of all that a node does only registrations and removals publish.
    So, once no broadcast is pending and as long as nobody registers or removes
    anything, a node only ever loses services: one that joins has none, and what
    a tick has dropped does not come back when its owner is connected again. *)
Theorem no_second_announcement {L : ProtoLib} (c c' : cluster) (evs : list event)
    (Hquiet : quiet c) (Hsilent : Forall (fun ev => ~ is_registration ev) evs)
    (Hrun : cluster_run c evs c') (b : peer_ID) (n' : Node) (Hn' : nodes c' !! b = Some n') :
  services n' = ∅ \/ exists n, nodes c !! b = Some n /\ services n' ⊆ services n.
Proof.
  revert Hquiet n' Hn'. induction Hrun as [c|c c1 c2 ev evs Hstep _ IH]; intros Hq n' Hn'.
  { right. by exists n'. }
  apply Forall_cons in Hsilent as [Hev Hsilent].
  destruct (silent_step _ _ _ Hq Hev Hstep) as [Hq1 H1].
  destruct (IH Hsilent Hq1 n' Hn') as [|(n1&Hn1&Hsub)]; [by left|].
  destruct (H1 b n1 Hn1) as [E|(n&Hn&Hsub')]; [left|right].
  - rewrite E in Hsub. apply map_eq. intros k. rewrite lookup_empty. destruct (services n' !! k) as [x|] eqn:Ek; [|done].
    by apply (lookup_weaken _ _ _ _ Ek) in Hsub.
  - exists n. split; [done|]. by etransitivity.
Qed.

(** A quiet cluster in which a node loses sight of its peer for one tick while
    another joins. *)
Definition example_quiet : cluster :=
  mkCluster {["a" := registered "a" "local_svc1" (fresh "a"); "b" := registered "a" "local_svc1" (fresh "b")]}%string
    (fun _ _ => []).

Lemma example_lost : exists c' n,
  cluster_run (L := WireFormat.wire_lib) example_quiet [Tick "b" []; Join "c"; Tick "b" ["a"; "c"]]%string c' /\
  nodes c' !! "b"%string = Some n /\ services n = ∅.
Proof.
  eexists _, _. split_and!.
  - eapply cluster_cons; [|eapply cluster_cons; [|eapply cluster_cons; [|constructor]]].
    + eapply (ev_tick _ "b" _ _ _ [("local_svc1", "a")]%string); [reflexivity| |reflexivity].
      apply (bool_decide_unpack _). vm_compute. exact I.
    + by eapply ev_join.
    + eapply (ev_tick _ "b" _ _ _ []); [reflexivity| |reflexivity].
      apply (bool_decide_unpack _). vm_compute. exact I.
  - vm_compute. reflexivity.
  - vm_compute. reflexivity.
Qed.

Example no_second_announcement_witness : exists c' n,
  nodes c' !! "b"%string = Some n /\
  (services n = ∅ \/ exists m, nodes example_quiet !! "b"%string = Some m /\ services n ⊆ services m).
Proof.
  destruct example_lost as (c'&n&Hrun&Hn&_). exists c', n. split; [exact Hn|].
  apply (no_second_announcement (L := WireFormat.wire_lib) example_quiet c'
           [Tick "b" []; Join "c"; Tick "b" ["a"; "c"]]%string); [done| |exact Hrun|exact Hn].
  repeat constructor; cbn; tauto.
Defined.
