(* ===== verification/Gossip.v ===== *)
(** The broadcasts of the gateways over a network that promises nothing: a message
    that was published may be lost, come late, come again, come out of order and
    through any peer. [Cluster] has the network that keeps the order; here is what
    holds without it. The nodes run the handlers of [Node]. *)

From S2P Require Import Prelude Messages RequestDetail UsageRecord ServiceJson Node Cluster.
From S2P Require WireFormat.

(** The nodes, and all that was ever published. *)
Record network := mkNetwork {
  net_nodes : gmap peer_ID Node;
  sent : list bytes
}.

Inductive gossip_event :=
  | Posted (a : peer_ID) (body : bytes)
  | Removed (a : peer_ID) (body : bytes)
  | Received (b via : peer_ID) (data : bytes)
  | Ticked (b : peer_ID) (availablePeers : list peer_ID)
  | Joined (b : peer_ID).

Section gossip.
Context {L : ProtoLib}.

(** A call at [a] that returns: what it has published is never forgotten. *)
Definition after_gossip (a : peer_ID) (n' : Node) (es : list effect) (c : network) : network :=
  mkNetwork (<[a := n']> (net_nodes c)) (publications es ++ sent c).

Inductive gossip_step : network -> gossip_event -> network -> Prop :=
  | g_post c a n n' body es publish :
      net_nodes c !! a = Some n ->
      newOrUpdateServiceHandler publish body n = (Val tt, n', es) ->
      gossip_step c (Posted a body) (after_gossip a n' es c)
  | g_remove c a n n' body es publish :
      net_nodes c !! a = Some n ->
      deleteServiceHandler publish body n = (Val tt, n', es) ->
      gossip_step c (Removed a body) (after_gossip a n' es c)
  | g_receive c b via n n' data es :
      net_nodes c !! b = Some n -> data ∈ sent c ->
      StartListeningOnServiceBroadcast (NextMsg via data) n = (Val tt, n', es) ->
      gossip_step c (Received b via data) (after_gossip b n' es c)
  | g_tick c b n n' availablePeers order es :
      net_nodes c !! b = Some n -> order ≡ₚ map_to_list (servicePeerMapping n) ->
      UpdatePeers availablePeers order n = (Val tt, n', es) ->
      gossip_step c (Ticked b availablePeers) (after_gossip b n' es c)
  | g_join c b n' es :
      net_nodes c !! b = None -> joining b NewNode = (Val tt, n', es) ->
      gossip_step c (Joined b) (after_gossip b n' es c).

(** The last step last. *)
Inductive gossip_run (c : network) : list gossip_event -> network -> Prop :=
  | gossip_nil : gossip_run c [] c
  | gossip_snoc evs c1 ev c2 :
      gossip_run c evs c1 -> gossip_step c1 ev c2 -> gossip_run c (evs ++ [ev]) c2.

(** Nobody is there, and nothing was said. *)
Definition nothing : network := mkNetwork ∅ [].

(** The bodies have providers that are not null, so that protobuf keeps them. *)
Definition providers_given (ev : gossip_event) : Prop :=
  match ev with
  | Posted _ body | Removed _ body =>
      forall s, json_Unmarshal_service body = Ok s -> Forall is_Some (Service_Providers s)
  | _ => True
  end.

(** Somebody has posted just this service, at [a]. *)
Definition posted_at (evs : list gossip_event) (a : peer_ID) (s : ApronService) : Prop :=
  exists body, Posted a body ∈ evs /\ json_Unmarshal_service body = Ok s.

Lemma posted_more evs ev a s : posted_at evs a s -> posted_at (evs ++ [ev]) a s.
Proof. intros (body&H&E). exists body. split; [set_solver|done]. Qed.

Record sound (evs : list gossip_event) (c : network) : Prop := {
  sound_sent data : data ∈ sent c ->
    exists s, Unmarshal (T := ApronService) data = Ok s /\ (Service_IsDeleted s = true \/ exists a, posted_at evs a s);
  sound_node b n : net_nodes c !! b = Some n -> selfID n = b /\ registry_ok n;
  sound_entry b n k o s : net_nodes c !! b = Some n -> directory n !! k = Some (o, s) ->
    exists a, posted_at evs a s /\ (o = b -> a = b)
}.

(** What one node's step keeps: entries come from where the old ones came from, or
    are the service that is stored now. *)
Lemma dir_store_inv owner s d k o s' :
  dir_store owner s d !! k = Some (o, s') ->
  d !! k = Some (o, s') \/ o = owner /\ s' = s /\ Service_IsDeleted s = false.
Proof.
  unfold dir_store. destruct (Service_IsDeleted s) eqn:E.
  - intros [_ H]%lookup_delete_Some. by left.
  - intros [[_ [= -> ->]]|[_ H]]%lookup_insert_Some; [by right|by left].
Qed.

Lemma sound_update evs ev c b n n' sent' op :
  sound evs c -> net_nodes c !! b = Some n -> registry_step n op n' ->
  (forall data, data ∈ sent' -> data ∈ sent c \/
     exists s, Unmarshal (T := ApronService) data = Ok s /\
       (Service_IsDeleted s = true \/ posted_at (evs ++ [ev]) b s)) ->
  (forall k o s, dir_step b (directory n) op !! k = Some (o, s) -> directory n !! k = Some (o, s) \/
     exists a, posted_at (evs ++ [ev]) a s /\ (o = b -> a = b)) ->
  sound (evs ++ [ev]) (mkNetwork (<[b := n']> (net_nodes c)) sent').
Proof.
  intros Hs Hn Hstep Hsent Hdir. destruct (sound_node _ _ Hs b n Hn) as [Hself Hok].
  apply registry_step_spec in Hstep as (Hd&Hok'&Hframe). rewrite Hself in Hd. split; cbn.
  - intros data [Hin|(s&E&Hdel)]%Hsent.
    + apply (sound_sent _ _ Hs) in Hin as (s&E&[Hdel|[a Ha]]); exists s; split; [done|by left|done|right].
      exists a. by apply posted_more.
    + exists s. split; [done|]. destruct Hdel; [by left|right; by exists b].
  - intros b' m [[<- <-]|[_ Hm]]%lookup_insert_Some; [|by apply (sound_node _ _ Hs)].
    split; [by rewrite (frame_self _ _ Hframe)|by apply Hok'].
  - intros b' m k o s [[<- <-]|[_ Hm]]%lookup_insert_Some.
    + rewrite Hd. intros [H|H]%Hdir; [|done].
      apply (sound_entry _ _ Hs b n) in H as (a&Ha&Ho); [|done]. exists a. split; [by apply posted_more|done].
    + intros (a&Ha&Ho)%(sound_entry _ _ Hs _ _ _ _ _ Hm). exists a. split; [by apply posted_more|done].
Qed.

Lemma sound_step evs c ev c' :
  sound evs c -> providers_given ev -> gossip_step c ev c' -> sound (evs ++ [ev]) c'.
Proof.
  intros Hs Hp Hstep. revert Hs Hp.
  destruct Hstep as [c a n n' body es publish Hn H|c a n n' body es publish Hn H|c b via n n' data es Hn Hin H
    |c b n n' ps order es Hn Ho H|c b n' es Hb H]; intros Hs Hp; unfold after_gossip.
  - destruct (register_returns _ _ _ _ _ H) as (s&data&Hj&_&Hm&->).
    assert (Unmarshal data = Ok s) as Hdata.
    { eapply Unmarshal_Marshal; [|exact Hm]. apply decoded_proto_wf; [by eapply Unmarshal_service_typed|by apply Hp]. }
    assert (posted_at (evs ++ [Posted a body]) a s) as Hposted by (exists body; split; [set_solver|done]).
    eapply sound_update; [done..|by eapply step_post| |].
    + intros d [-> |Hd]%elem_of_cons; [right|by left]. exists s. split; [done|by right].
    + intros k o s'. cbn [dir_step]. rewrite Hj. intros [Hd|(->&->&_)]%dir_store_inv; [by left|right]. by exists a.
  - destruct (unregister_returns _ _ _ _ _ H) as (s&data&Hj&_&Hm&->).
    assert (Unmarshal data = Ok (deleted s)) as Hdata.
    { eapply Unmarshal_Marshal; [|exact Hm].
      exact (decoded_proto_wf s (Unmarshal_service_typed _ _ Hj) (Hp s Hj)). }
    eapply sound_update; [done..|by eapply step_delete| |].
    + intros d [-> |Hd]%elem_of_cons; [right|by left]. exists (deleted s). split; [done|by left].
    + intros k o s'. cbn [dir_step]. rewrite Hj. intros [_ Hd]%lookup_delete_Some. by left.
  - destruct (sound_sent _ _ Hs data Hin) as (s&Hdata&Horigin). rewrite (listening_silent _ _ _ _ H).
    eapply sound_update; [done..|by eapply step_broadcast|by left|].
    intros k o s'. cbn [dir_step]. case_decide as Hvia; [by left|]. rewrite Hdata.
    intros [Hd|(->&->&Hdel)]%dir_store_inv; [by left|right].
    destruct Horigin as [Hdel'|[a Ha]]; [congruence|]. exists a. split; [by apply posted_more|done].
  - rewrite (tick_silent _ _ _ _ _ H). eapply sound_update; [done..|by eapply step_tick|by left|].
    intros k o s'. cbn [dir_step]. rewrite map_lookup_filter_Some. intros [Hd _]. by left.
  - apply joining_silent in H as [-> ->]. split; cbn.
    + intros data (s&E&[Hdel|[a Ha]])%(sound_sent _ _ Hs); exists s; split; [done|by left|done|right].
      exists a. by apply posted_more.
    + intros b' m [[<- <-]|[_ Hm]]%lookup_insert_Some; [|by apply (sound_node _ _ Hs)].
      split; [done|apply NewNode_ok].
    + intros b' m k o s [[<- <-]|[_ Hm]]%lookup_insert_Some; [done|].
      intros (a&Ha&Ho)%(sound_entry _ _ Hs _ _ _ _ _ Hm). exists a. split; [by apply posted_more|done].
Qed.

Lemma sound_run evs c : Forall providers_given evs -> gossip_run nothing evs c -> sound evs c.
Proof.
  intros Hp Hrun. induction Hrun as [|evs c1 ev c2 _ IH Hstep].
  - split; cbn; [by intros ? ?%not_elem_of_nil|done|done].
  - apply Forall_app in Hp as [Hp [Hev _]%Forall_cons]. eapply sound_step; [by apply IH|done|done].
Qed.
End gossip.

(** ** The network that keeps the order is one of these *)

Definition gossip_of (ev : event) (data : bytes) : gossip_event :=
  match ev with
  | Register a body => Posted a body
  | Unregister a body => Removed a body
  | Deliver _ dst via => Received dst via data
  | Tick b availablePeers => Ticked b availablePeers
  | Join b => Joined b
  end.

(** What waits in a queue was published. *)
Definition simulates (c : cluster) (net : network) : Prop :=
  net_nodes net = nodes c /\ forall src dst data, data ∈ queue c src dst -> data ∈ sent net.

Lemma call_simulates a n' es c net q :
  simulates c net -> (forall src dst data, data ∈ q src dst -> data ∈ queue c src dst) ->
  simulates (after_call a n' es c q) (after_gossip a n' es net).
Proof.
  intros [Hn Hq] Hsub. split; cbn; [by rewrite Hn|]. intros src dst d. unfold broadcast_from.
  case_decide; rewrite ?elem_of_app; [intros [Hd|Hd]|intros Hd]; eauto.
Qed.

(** Every step of [Cluster] is a step here. *)
Lemma cluster_simulated {L : ProtoLib} c ev c' net :
  cluster_step c ev c' -> simulates c net ->
  exists data net', gossip_step net (gossip_of ev data) net' /\ simulates c' net'.
Proof.
  intros Hstep Hsim. pose proof Hsim as [Hn Hq].
  destruct Hstep as [c a n n' body es publish Ha H|c a n n' body es publish Ha H|c src dst via n n' data rest es Hd He Hv Hne H
    |c b n n' ps order es Hb Ho H|c b n' es Hb H].
  - exists []. eexists. split; [eapply g_post; [rewrite Hn; exact Ha|exact H]|by apply call_simulates].
  - exists []. eexists. split; [eapply g_remove; [rewrite Hn; exact Ha|exact H]|by apply call_simulates].
  - exists data. eexists. split; [eapply g_receive; [rewrite Hn; exact Hd| |exact H]|].
    + apply (Hq src dst). rewrite He. by left.
    + apply call_simulates; [done|]. intros a b d. unfold dequeue. case_decide as E; [|done].
      destruct E as [-> ->]. rewrite He. by right.
  - exists []. eexists. split; [eapply g_tick; [rewrite Hn; exact Hb|exact Ho|exact H]|by apply call_simulates].
  - exists []. eexists. split; [eapply g_join; [by rewrite Hn|exact H]|by apply call_simulates].
Qed.

(** The handlers when all goes well. *)
Section handlers_ok.
Context {L : ProtoLib}.

Lemma post_ok publish body s data n :
  json_Unmarshal_service body = Ok s -> Marshal s = Ok data -> publish data = None ->
  newOrUpdateServiceHandler publish body n
  = (Val tt, store_service (selfID n) s n, [Published BroadcastServiceChannel data]).
Proof.
  intros Hbody Hdata Hpub. unfold newOrUpdateServiceHandler, must. rewrite Hbody, bind_pure.
  unfold RegisterLocalService, BroadcastService. run_handler. by rewrite Hdata, Hpub.
Qed.

Lemma remove_ok publish body s data n :
  json_Unmarshal_service body = Ok s -> Marshal (deleted s) = Ok data -> publish data = None ->
  deleteServiceHandler publish body n
  = (Val tt, store_service (selfID n) (deleted s) n, [Published BroadcastServiceChannel data]).
Proof.
  intros Hbody Hdata Hpub. unfold deleteServiceHandler, must. rewrite Hbody, bind_pure.
  unfold RegisterLocalService, BroadcastService. run_handler. by rewrite Hdata, Hpub.
Qed.

Lemma receive_ok via data s n :
  via <> selfID n -> Unmarshal data = Ok s ->
  StartListeningOnServiceBroadcast (NextMsg via data) n = (Val tt, store_service via s n, []).
Proof.
  intros Hvia Hdata. unfold StartListeningOnServiceBroadcast, RegisterRemoteService. run_handler.
  rewrite decide_False by done. by rewrite Hdata.
Qed.

Lemma store_self owner s n : selfID (store_service owner s n) = selfID n.
Proof. apply frame_self, store_frame. Qed.
End handlers_ok.

(** *** An entry that nothing touches *)

(** What would change the entry of [k] at [b] from home [a]: a message about it there,
    and a tick that does not see its home. *)
Definition undisturbed {L : ProtoLib} (a b : peer_ID) (k : string) (ev : gossip_event) : Prop :=
  match ev with
  | Posted b' body | Removed b' body =>
      b' = b -> forall s, json_Unmarshal_service body = Ok s -> Service_Id s <> k
  | Received b' _ data => b' = b -> forall s, Unmarshal data = Ok s -> Service_Id s <> k
  | Ticked b' availablePeers => b' = b -> a ∈ availablePeers
  | Joined _ => True
  end.

Definition holds (a b : peer_ID) (s : ApronService) (c : network) : Prop :=
  exists nb, net_nodes c !! b = Some nb /\ selfID nb = b /\ registry_ok nb /\
    directory nb !! Service_Id s = Some (a, s).

Section persistence.
Context {L : ProtoLib} (a b : peer_ID) (s : ApronService).

(** A step of the registry at [b] that leaves the entry, as its specification says. *)
Lemma holds_update c n n' op said :
  holds a b s c -> net_nodes c !! b = Some n -> registry_step n op n' ->
  dir_step b (directory n) op !! Service_Id s = directory n !! Service_Id s ->
  holds a b s (mkNetwork (<[b := n']> (net_nodes c)) said).
Proof.
  intros (nb&Hn&Hself&Hok&Hd) Hn' Hstep Hdir. simplify_eq.
  apply registry_step_spec in Hstep as (Hd'&Hok'&Hframe). exists n'. cbn. split_and!.
  - apply lookup_insert_eq.
  - exact (frame_self _ _ Hframe).
  - by apply Hok'.
  - by rewrite Hd', Hdir.
Qed.

Lemma holds_elsewhere c b' n' said :
  holds a b s c -> b' <> b -> holds a b s (mkNetwork (<[b' := n']> (net_nodes c)) said).
Proof. intros (nb&Hn&H) Hne. exists nb. cbn. by rewrite lookup_insert_ne. Qed.

Lemma dir_store_other owner x d k : Service_Id x <> k -> dir_store owner x d !! k = d !! k.
Proof.
  intros H. unfold dir_store. destruct (Service_IsDeleted x); [by apply lookup_delete_ne|by apply lookup_insert_ne].
Qed.

Lemma holds_step c ev c' :
  holds a b s c -> gossip_step c ev c' -> undisturbed a b (Service_Id s) ev -> holds a b s c'.
Proof.
  intros Hh Hstep Hu. revert Hh Hu. unfold after_gossip.
  destruct Hstep as [c b' n n' body es publish Hn H|c b' n n' body es publish Hn H|c b' via n n' data es Hn Hin H
    |c b' n n' ps order es Hn Ho H|c b' n' es Hb H]; intros Hh Hu;
    (destruct (decide (b' = b)) as [->|Hne]; [|by apply holds_elsewhere]); cbn in Hu.
  - eapply holds_update; [done..|by eapply step_post|]. cbn.
    destruct (json_Unmarshal_service body) as [x|]; [|done]. by apply dir_store_other, Hu.
  - eapply holds_update; [done..|by eapply step_delete|]. cbn.
    destruct (json_Unmarshal_service body) as [x|]; [|done]. by apply lookup_delete_ne, Hu.
  - eapply holds_update; [done..|by eapply step_broadcast|]. cbn. case_decide; [done|].
    destruct (Unmarshal data) as [x|] eqn:E; [|done]. by apply dir_store_other, Hu.
  - eapply holds_update; [done..|by eapply step_tick|]. cbn. destruct Hh as (nb&Hnb&_&_&Hd). simplify_eq.
    rewrite Hd. apply map_lookup_filter_Some. split; [done|]. right. by apply Hu.
  - destruct Hh as (nb&Hnb&_). by rewrite Hb in Hnb.
Qed.

Lemma holds_run c evs c' :
  holds a b s c -> gossip_run c evs c' -> Forall (undisturbed a b (Service_Id s)) evs ->
  exists nb, net_nodes c' !! b = Some nb /\ directory nb !! Service_Id s = Some (a, s).
Proof.
  intros Hh Hrun Hevs. assert (holds a b s c') as (nb&Hn&_&_&Hd).
  { induction Hrun as [|evs c1 ev c2 _ IH Hstep]; [done|].
    apply Forall_app in Hevs as [Hevs [Hev _]%Forall_cons]. eapply holds_step; [by apply IH|done|done]. }
  by exists nb.
Qed.
End persistence.

(** ** Properties *)

(** C18: whatever the network does, a registry holds nothing that nobody has
    registered, provided that no body that is posted names a null provider (which
    protobuf would turn into an empty one, so that other nodes would hold a service
    that differs from the posted one in that). With messages lost, late, repeated,
    out of order and handed on by anybody, every entry of every node is, field for field, a
    service that some node was asked to register, not one marked as deleted, under
    its own id; and an entry that a node takes for its own was registered there. *)
Theorem entries_were_registered {L : ProtoLib} (evs : list gossip_event) (c : network)
    (b : peer_ID) (n : Node) (k : string) (o : peer_ID) (s : ApronService)
    (Hproviders : Forall providers_given evs) (Hrun : gossip_run nothing evs c)
    (Hnode : net_nodes c !! b = Some n) (Hentry : directory n !! k = Some (o, s)) :
  k = Service_Id s /\ Service_IsDeleted s = false /\
  exists a, posted_at evs a s /\ (o = b -> a = b).
Proof.
  pose proof (sound_run evs c Hproviders Hrun) as Hs.
  destruct (sound_node _ _ Hs b n Hnode) as [_ [_ Hmap]].
  apply directory_lookup_Some in Hentry as Hboth. destruct Hboth as [_ Hsvc].
  destruct (Hmap k s Hsvc) as [-> Hdel]. split_and!; [done|done|].
  by eapply (sound_entry _ _ Hs).
Qed.

Definition gossip_events : list gossip_event :=
  [Joined "a"; Joined "b"; Posted "a" (json_Marshal_service (example_service "local_svc1"));
   Received "b" "a" (published "local_svc1")]%string.

Lemma gossip_example_run : exists c,
  gossip_run (L := WireFormat.wire_lib) nothing gossip_events c /\
  net_nodes c !! "b"%string = Some (registered "a" "local_svc1" (fresh "b")).
Proof.
  eexists. split.
  - change gossip_events with (((([] ++ [Joined "a"%string]) ++ [Joined "b"%string]) ++
      [Posted "a"%string (json_Marshal_service (example_service "local_svc1"))]) ++
      [Received "b"%string "a"%string (published "local_svc1")]).
    eapply gossip_snoc; [eapply gossip_snoc; [eapply gossip_snoc; [eapply gossip_snoc; [constructor|]|]|]|].
    + by eapply g_join.
    + by eapply g_join.
    + eapply (g_post _ "a" (fresh "a") (registered "a" "local_svc1" (fresh "a")) _
        [Published BroadcastServiceChannel (published "local_svc1")] (fun _ => None)); vm_compute; reflexivity.
    + eapply (g_receive _ "b" "a" (fresh "b") (registered "a" "local_svc1" (fresh "b")));
        [vm_compute; reflexivity|by left|vm_compute; reflexivity].
  - apply lookup_insert_eq.
Qed.

Example entries_were_registered_witness :
  exists a, posted_at gossip_events a (example_service "local_svc1") /\ ("a"%string = "b"%string -> a = "b"%string).
Proof.
  destruct gossip_example_run as (c&Hrun&Hn).
  eapply (entries_were_registered (L := WireFormat.wire_lib) gossip_events c "b"
    (registered "a" "local_svc1" (fresh "b")) "local_svc1" "a").
  - unfold gossip_events. repeat constructor; cbn. intros s E. vm_compute in E. injection E as <-.
    by apply Forall_singleton.
  - exact Hrun.
  - exact Hn.
  - vm_compute. reflexivity.
Defined.

(** C34: without the order of the messages the registries do not converge. A service
    (one without null providers) is registered and removed at its home; a node that hears of the removal first
    stores the service again when the announcement comes, under its home, which
    does not have it, although it has received all that was published. It keeps it
    through any continuation in which no message about this service reaches it, none
    is posted to it or removed at it, and its home is among the peers of its ticks,
    whatever else all the nodes do: no tick and no other message takes it away. *)
Theorem late_announcement_revives {L : ProtoLib} (publish : bytes -> option goerror) (a b : peer_ID)
    (s s' : ApronService) (body body' data data' : bytes)
    (Hab : a <> b) (Hbody : json_Unmarshal_service body = Ok s) (Hbody' : json_Unmarshal_service body' = Ok s')
    (Hid : Service_Id s' = Service_Id s) (Hlive : Service_IsDeleted s = false)
    (Hps : Forall is_Some (Service_Providers s)) (Hps' : Forall is_Some (Service_Providers s'))
    (Hdata : Marshal s = Ok data) (Hdata' : Marshal (deleted s') = Ok data')
    (Hpublish : publish data = None) (Hpublish' : publish data' = None) :
  exists c na,
    gossip_run nothing [Joined a; Joined b; Posted a body; Removed a body'; Received b a data'; Received b a data] c /\
    sent c = [data'; data] /\
    net_nodes c !! a = Some na /\ directory na !! Service_Id s = None /\
    forall evs c', gossip_run c evs c' -> Forall (undisturbed a b (Service_Id s)) evs ->
      exists nb, net_nodes c' !! b = Some nb /\ directory nb !! Service_Id s = Some (a, s).
Proof.
  assert (Unmarshal data = Ok s) as Hd.
  { eapply Unmarshal_Marshal; [|exact Hdata]. apply decoded_proto_wf; [by eapply Unmarshal_service_typed|done]. }
  assert (Unmarshal data' = Ok (deleted s')) as Hd'.
  { eapply Unmarshal_Marshal; [|exact Hdata']. exact (decoded_proto_wf s' (Unmarshal_service_typed _ _ Hbody') Hps'). }
  set (na1 := store_service a s (fresh a)). set (na := store_service a (deleted s') na1).
  set (nb1 := store_service a (deleted s') (fresh b)). set (nb2 := store_service a s nb1).
  pose proof (gossip_snoc nothing [] _ _ _ (gossip_nil _) (g_join nothing a (fresh a) [] eq_refl eq_refl)) as R1.
  eapply gossip_snoc in R1; [|apply (g_join _ b (fresh b) []); [cbn; by rewrite lookup_insert_ne|reflexivity]].
  eapply gossip_snoc in R1; [|eapply (g_post _ a (fresh a) na1 body _ publish);
    [cbn; by rewrite lookup_insert_ne, lookup_insert_eq|by apply post_ok]].
  eapply gossip_snoc in R1; [|eapply (g_remove _ a na1 na body' _ publish); [apply lookup_insert_eq|]].
  2: { unfold na. replace a with (selfID na1) at 2 by apply store_self. by apply remove_ok. }
  eapply gossip_snoc in R1; [|eapply (g_receive _ b a (fresh b) nb1 data');
    [cbn; rewrite !lookup_insert_ne by done; apply lookup_insert_eq|by left|by apply receive_ok]].
  eapply gossip_snoc in R1; [|eapply (g_receive _ b a nb1 nb2 data); [apply lookup_insert_eq|by right; left|]].
  2: { apply receive_ok; [|done]. unfold nb1. by rewrite store_self. }
  eexists _, na. split_and!; [exact R1|reflexivity| | |].
  - cbn. rewrite !(lookup_insert_ne _ b a) by done. apply lookup_insert_eq.
  - unfold na. rewrite directory_store. unfold dir_store. cbn [Service_IsDeleted deleted Service_Id].
    rewrite Hid. apply lookup_delete_eq.
  - intros evs c' Hrun Hevs. eapply holds_run; [|exact Hrun|exact Hevs].
    exists nb2. split_and!; [apply lookup_insert_eq|unfold nb2, nb1; by rewrite !store_self| |].
    + apply store_ok, store_ok, NewNode_ok.
    + unfold nb2. rewrite directory_store. unfold dir_store. rewrite Hlive. apply lookup_insert_eq.
Qed.

Definition published_removal (id : string) : bytes :=
  match Marshal (H := WireFormat.wire_lib) (deleted (example_service id)) with Ok d => d | Fail _ => [] end.

Lemma late_announcement_revives_witness : exists c na c' nb,
  sent c = [published_removal "local_svc1"; published "local_svc1"] /\
  net_nodes c !! "a"%string = Some na /\ directory na !! "local_svc1"%string = None /\
  gossip_run (L := WireFormat.wire_lib) c [Ticked "b" ["a"]]%string c' /\
  net_nodes c' !! "b"%string = Some nb /\
  directory nb !! "local_svc1"%string = Some ("a"%string, example_service "local_svc1").
Proof.
  destruct (late_announcement_revives (L := WireFormat.wire_lib) (fun _ => None) "a" "b"
    (example_service "local_svc1") (example_service "local_svc1")
    (json_Marshal_service (example_service "local_svc1")) (json_Marshal_service (example_service "local_svc1"))
    (published "local_svc1") (published_removal "local_svc1")) as (c&na&Hrun&Hsent&Hna&Hno&Hkept).
  all: lazymatch goal with |- exists _, _ => idtac | _ => try (vm_compute; reflexivity) end.
  - discriminate.
  - by apply Forall_singleton.
  - by apply Forall_singleton.
  - destruct (Hkept [] c) as (nb0&Hnb0&_); [constructor|constructor|].
    set (order := map_to_list (servicePeerMapping nb0)).
    set (c' := after_gossip "b" (state_of (UpdatePeers ["a"%string] order nb0)) [] c).
    assert (gossip_run (L := WireFormat.wire_lib) c [Ticked "b" ["a"]]%string c') as Htick.
    { apply (gossip_snoc (L := WireFormat.wire_lib) c [] c); [constructor|].
      eapply g_tick; [exact Hnb0|reflexivity|reflexivity]. }
    destruct (Hkept _ c' Htick) as (nb&Hnb&Hd); [constructor; [intros _; by left|constructor]|].
    exists c, na, c', nb. split_and!; [exact Hsent|exact Hna|exact Hno|exact Htick|exact Hnb|exact Hd].
Defined.
