(* ===== verification/World.v ===== *)
(** What the stream handlers and the client-side servers ask of the outside: the
    libp2p host, the network, uuids and fresh channels, as a record of functions
    that answer the calls; and the few control constructs of Go they use. *)

From S2P Require Import Prelude Messages NetworkHelper Node.

Record World := mkWorld {
  (** [( *n.Host).ID().String()] *)
  host_ID : string;
  (** [( *n.Host).NewStream(ctx, peer, protocol)] *)
  NewStream : peer_ID -> string -> result conn;
  (** [peer.Decode] *)
  peer_Decode : string -> result peer_ID;
  (** [net.Dial("tcp", addr)] *)
  Dial : string -> result conn;
  (** [conn.Write] and [stream.Write], which write everything or fail *)
  Write : conn -> bytes -> option goerror;
  (** [wsConn.WriteMessage(TextMessage, data)] *)
  WriteMessage : conn -> bytes -> option goerror;
  (** [uuid.New().String()] *)
  uuid_New : string;
  (** the identity of the channel that the [k]-th [make(chan []byte)] of the
      handler gives *)
  make_chan : nat -> chan
}.

(** [w.Write(p)] on a stream or connection; on nil, a nil dereference. *)
Definition conn_Write {S} (w : World) (c : option conn) (p : bytes) : M S effect (option goerror) :=
  match c with
  | None => panic nil_deref
  | Some c =>
      match Write w c p with
      | Some err => mret (Some err)
      | None => emit (Written c p);; mret None
      end
  end.

Definition ws_WriteMessage (w : World) (c : option conn) (p : bytes) : Handler (option goerror) :=
  match c with
  | None => panic nil_deref
  | Some c =>
      match WriteMessage w c p with
      | Some err => mret (Some err)
      | None => emit (WsMessage c p);; mret None
      end
  end.

Definition open_stream (w : World) (to : peer_ID) (protocol : string) : Handler (result conn) :=
  match NewStream w to protocol with
  | Ok s => emit (StreamOpened s to protocol);; mret (Ok s)
  | Fail err => mret (Fail err)
  end.

(** [m] under a deferred function that recovers from a panic. *)
Definition recovering (m recovered : Handler unit) : Handler unit := fun n =>
  match m n with
  | (Panic _, n', es) => match recovered n' with (o, n'', es') => (o, n'', es ++ es') end
  | r => r
  end.

(** ** The tables of connections and channels that handlers write *)

Definition set_requestIdChan (k : string) (ch : chan) (n : Node) : Node :=
  mkNode (selfID n) (services n) (namedServices n) (servicePeerMapping n)
    (<[k := ch]> (requestIdChanMapping n)) (clientWsConns n) (serviceWsConns n)
    (clientSocketConns n) (serviceSocketConns n) (clientHttpDataChan n) (serviceUsageRecordManager n).

Definition set_clientWsConn (k : string) (c : conn) (n : Node) : Node :=
  mkNode (selfID n) (services n) (namedServices n) (servicePeerMapping n)
    (requestIdChanMapping n) (<[k := c]> (clientWsConns n)) (serviceWsConns n)
    (clientSocketConns n) (serviceSocketConns n) (clientHttpDataChan n) (serviceUsageRecordManager n).

Definition set_serviceWsConn (k : string) (c : conn) (n : Node) : Node :=
  mkNode (selfID n) (services n) (namedServices n) (servicePeerMapping n)
    (requestIdChanMapping n) (clientWsConns n) (<[k := c]> (serviceWsConns n))
    (clientSocketConns n) (serviceSocketConns n) (clientHttpDataChan n) (serviceUsageRecordManager n).

Definition set_clientSocketConn (k : string) (c : conn) (n : Node) : Node :=
  mkNode (selfID n) (services n) (namedServices n) (servicePeerMapping n)
    (requestIdChanMapping n) (clientWsConns n) (serviceWsConns n)
    (<[k := c]> (clientSocketConns n)) (serviceSocketConns n) (clientHttpDataChan n)
    (serviceUsageRecordManager n).

Definition set_serviceSocketConn (k : string) (c : conn) (n : Node) : Node :=
  mkNode (selfID n) (services n) (namedServices n) (servicePeerMapping n)
    (requestIdChanMapping n) (clientWsConns n) (serviceWsConns n)
    (clientSocketConns n) (<[k := c]> (serviceSocketConns n)) (clientHttpDataChan n)
    (serviceUsageRecordManager n).

Definition set_clientHttpDataChan (chans : gmap string chan) (n : Node) : Node :=
  mkNode (selfID n) (services n) (namedServices n) (servicePeerMapping n)
    (requestIdChanMapping n) (clientWsConns n) (serviceWsConns n)
    (clientSocketConns n) (serviceSocketConns n) chans (serviceUsageRecordManager n).

(** ** Lemmas *)

(** A connection whose writes succeed, and what one frame does to it. *)
Definition accepts (w : World) (c : conn) : Prop := forall p, Write w c p = None.

Definition frame_writes (c : conn) (data : bytes) : list effect :=
  [Written c (be_put 8 (u64 (Z.of_nat (length data)))); Written c data].
#[global] Arguments frame_writes : simpl never.

Lemma conn_Write_ok {S} w c p (n : S) :
  accepts w c -> conn_Write w (Some c) p n = (Val None, n, [Written c p]).
Proof. intros H. unfold conn_Write. rewrite H. reflexivity. Qed.

Lemma WriteBytesViaStream_conn {S} w c data (n : S) :
  accepts w c ->
  WriteBytesViaStream (conn_Write w (Some c)) data n = (Val tt, n, frame_writes c data).
Proof. intros H. unfold WriteBytesViaStream, conn_Write. rewrite !H. reflexivity. Qed.

Lemma WriteBytesViaStream_nil {S} w data (n : S) :
  WriteBytesViaStream (conn_Write w None) data n = (Panic nil_deref, n, []).
Proof. reflexivity. Qed.

Lemma open_stream_ok w to protocol s n :
  NewStream w to protocol = Ok s ->
  open_stream w to protocol n = (Val (Ok s), n, [StreamOpened s to protocol]).
Proof. unfold open_stream. intros ->. reflexivity. Qed.

Lemma open_stream_fail w to protocol err n :
  NewStream w to protocol = Fail err -> open_stream w to protocol n = (Val (Fail err), n, []).
Proof. unfold open_stream. intros ->. reflexivity. Qed.

(** What reached a connection. *)
Definition write_to (c : conn) (e : effect) : option bytes :=
  match e with
  | Written c' b => if decide (c' = c) then Some b else None
  | _ => None
  end.

Definition written_to (c : conn) (es : list effect) : bytes := concat (omap (write_to c) es).
#[global] Arguments written_to : simpl never.

Lemma written_to_app c es es' : written_to c (es ++ es') = written_to c es ++ written_to c es'.
Proof. unfold written_to. by rewrite omap_app, concat_app. Qed.

Lemma written_frame c data : written_to c (frame_writes c data) = frame data.
Proof.
  unfold written_to, frame_writes, frame. cbn -[be_put].
  rewrite !decide_True by done. cbn -[be_put]. by rewrite app_nil_r.
Qed.

Lemma written_frames c ds : written_to c (concat (frame_writes c <$> ds)) = concat (frame <$> ds).
Proof.
  induction ds as [|d ds IH]; [done|]. cbn [fmap list_fmap concat].
  by rewrite written_to_app, written_frame, IH.
Qed.

(** The reply a client gets: [ctx.Error] starts it afresh, [ctx.Write] adds to
    its body; the status is 200 until an error is set. *)
Definition reply_step (r : Z * bytes) (e : effect) : Z * bytes :=
  match e with
  | CtxError msg status => (status, str_bytes msg)
  | CtxWrite b => (r.1, r.2 ++ b)
  | _ => r
  end.

Definition http_reply (es : list effect) : Z * bytes := fold_left reply_step es (200, []).

(** A world in which everything succeeds, for the examples: the stream to a peer
    is the number 7, its answers are empty. *)
Definition example_world : World :=
  mkWorld "QmSelf" (fun _ _ => Ok 7%N) (fun s => Ok s) (fun _ => Ok 9%N) (fun _ _ => None)
    (fun _ _ => None) "uuid" (fun k => N.of_nat k).
