(* ===== verification/Socks5.v ===== *)
(** The SOCKS5 messages of [internal/ext_protocols/socks5]: the client handshake
    that [apron_client_agent.go] parses, and the one that
    [connectToSocks5Service] of [apron_agent_server.go] carries out with the
    real SOCKS5 server. Also [const.go], [models.go], [errors.go] and [cred.go]. *)

From stdpp Require Import pretty.
From S2P Require Import Prelude NetworkHelper Node World.

(** ** const.go, models.go, errors.go *)

Definition socks5Version : Z := 5.
Definition socks5AuthNone : Z := 0.
Definition socks5AuthUsernamePassword : Z := 2.
Definition socks5ConnectCommand : Z := 1.
Definition socks5IPv4 : Z := 1.
Definition socks5IPv6 : Z := 4.
Definition socks5Domain : Z := 3.
Definition socks5ServiceName : string := "socks5".
Definition socks5ConnectMessage : Z := 1.
Definition socks5DataMessage : Z := 2.

Record ApronSocks5ConnectRequest := mkConnect {
  Version : Z;
  Command : Z;
  DestAddr : string;
  DestPort : Z
}.

Definition unknownAddressType : goerror := errors_New "unknown address type".

(** [StaticCredentials.Valid]. *)
Definition StaticCredentials_Valid (s : gmap string string) (user password : string) : bool :=
  match s !! user with
  | Some pass => bool_decide (password = pass)
  | None => false
  end.

(** ** [net.IP.String] *)

Definition dotted (b : bytes) : string :=
  String.concat "." ((fun c => pretty (Z.to_N (byte_val c))) <$> b).

(** A 16-bit group without leading zeros. *)
Definition hex16 (v : Z) : string :=
  bytes_str (hex_digit <$>
    (if 4096 <=? v then [v / 4096; v / 256 mod 16; v / 16 mod 16; v mod 16]
     else if 256 <=? v then [v / 256; v / 16 mod 16; v mod 16]
     else if 16 <=? v then [v / 16; v mod 16]
     else [v])).

Fixpoint groups (b : bytes) : list Z :=
  match b with
  | x :: y :: b => byte_val x * 256 + byte_val y :: groups b
  | _ => []
  end.

Fixpoint zeros (l : list Z) : nat :=
  match l with
  | x :: l => if x =? 0 then S (zeros l) else O
  | [] => O
  end.

(** The first of the longest runs of at least two zero groups: start and length. *)
Definition zero_run (gs : list Z) : nat * nat :=
  fold_left (fun best i =>
    let l := zeros (drop i gs) in
    if decide (2 <= l /\ best.2 < l)%nat then (i, l) else best) (seq 0 8) (8, 0)%nat.

Fixpoint render6 (fuel : nat) (gs : list Z) (run : nat * nat) (i : nat) : string :=
  match fuel with
  | O => ""
  | S fuel =>
      if decide (8 <= i)%nat then ""
      else if decide (i = run.1) then
        let j := (run.1 + run.2)%nat in
        if decide (8 <= j)%nat then "::"
        else "::" +:+ hex16 (default 0 (gs !! j)) +:+ render6 fuel gs run (S j)
      else (if decide (0 < i)%nat then ":" else "") +:+
           hex16 (default 0 (gs !! i)) +:+ render6 fuel gs run (S i)
  end.

(** For 4 and 16 bytes; an IPv4 address mapped into IPv6 prints as IPv4. *)
Definition IP_String (ip : bytes) : string :=
  if decide (length ip = 4)%nat then dotted ip
  else if decide (take 12 ip = replicate 10 (byte_of 0) ++ [byte_of 255; byte_of 255]) then dotted (drop 12 ip)
  else let gs := groups ip in render6 8 gs (zero_run gs) 0.

Example IP_String_4 : IP_String (byte_of <$> [192; 168; 0; 10]) = "192.168.0.10"%string.
Proof. vm_compute. reflexivity. Qed.
Example IP_String_6 :
  IP_String (byte_of <$> [32; 1; 13; 184; 0; 0; 0; 0; 0; 0; 0; 0; 0; 0; 0; 1]) = "2001:db8::1"%string.
Proof. vm_compute. reflexivity. Qed.
Example IP_String_6_tail :
  IP_String (byte_of <$> [254; 128; 0; 1; 0; 0; 0; 0; 0; 0; 0; 0; 0; 0; 0; 0]) = "fe80:1::"%string.
Proof. vm_compute. reflexivity. Qed.
Example IP_String_mapped :
  IP_String (byte_of <$> [0; 0; 0; 0; 0; 0; 0; 0; 0; 0; 255; 255; 127; 0; 0; 1]) = "127.0.0.1"%string.
Proof. vm_compute. reflexivity. Qed.

(** ** The client's handshake: apron_client_agent.go *)

(** Parsing threads the [bufio.Reader]; what is written to the client is an
    effect; a Go error is a value. *)
Abbreviation Parser A := (M bufreader effect (result A)).

Definition reading (r : bufreader -> ioresult * bufreader) : Parser bytes := fun b =>
  match r b with
  | (IoOk c, b') => (Val (Ok c), b', [])
  | (IoErr e, b') => (Val (Fail e), b', [])
  | (IoBlock, b') => (Block, b', [])
  end.

(** [reader.Read], [io.ReadAtLeast(reader, buf, len(buf))], [reader.ReadByte]. *)
Definition Read (n : nat) : Parser bytes := reading (bufio_Read n).
Definition ReadAtLeast (n : nat) : Parser bytes := reading (ReadFull n).
Definition ReadByte : Parser bytes := reading (ReadFull 1).

(** [if err != nil { return err }]. *)
Definition try_ok {A B} (m : Parser A) (f : A -> Parser B) : Parser B :=
  r ← m; match r with Ok a => f a | Fail e => mret (Fail e) end.

Definition first_byte (b : bytes) : Z := default 0 (byte_val <$> head b).

Section handshake.
Context (w : World) (c : conn).

Definition validateVersion : Parser unit :=
  try_ok ReadByte (fun version =>
    if decide (first_byte version = socks5Version) then mret (Ok tt)
    else mret (Fail (errors_New ("invalid socks version: " +:+ pretty (Z.to_N (first_byte version)))))).

(** The error of the read of the methods is dropped, and so are the methods. *)
Definition handleClientGreetingPackage : Parser unit :=
  try_ok validateVersion (fun _ =>
  try_ok ReadByte (fun numAuthMethods =>
    _ ← Read (Z.to_nat (first_byte numAuthMethods));
    err ← conn_Write w (Some c) (byte_of <$> [socks5Version; socks5AuthNone]);
    mret (match err with Some err => Fail err | None => Ok tt end))).

(** The destination address, by its type. *)
Definition read_dest_addr (addrType : Z) : Parser string :=
  if decide (addrType = socks5IPv4) then
    try_ok (ReadAtLeast 4) (fun addr => mret (Ok (IP_String addr)))
  else if decide (addrType = socks5IPv6) then
    try_ok (ReadAtLeast 16) (fun addr => mret (Ok (IP_String addr)))
  else if decide (addrType = socks5Domain) then
    try_ok (Read 1) (fun len =>
      (* an empty read leaves the address type in the buffer *)
      let addrLen := match len with [] => addrType | _ => first_byte len end in
      try_ok (ReadAtLeast (Z.to_nat addrLen)) (fun fqdn => mret (Ok (bytes_str fqdn))))
  else mret (Fail unknownAddressType).

Definition buildSocks5ConnectRequest : Parser ApronSocks5ConnectRequest :=
  try_ok handleClientGreetingPackage (fun _ =>
  try_ok (Read 3) (fun buf =>
    if decide (length buf = 3)%nat then
      let version := first_byte buf in
      let command := first_byte (drop 1 buf) in
      try_ok (Read 1) (fun addrType =>
      try_ok (read_dest_addr (first_byte addrType)) (fun destAddr =>
      try_ok (ReadAtLeast 2) (fun port =>
        let p0 := first_byte port in
        let p1 := first_byte (drop 1 port) in
        mret (Ok (mkConnect version command destAddr (Z.lor (Z.shiftl p0 8) p1))))))
    else mret (Fail (errors_New "read size not equals 3")))).
End handshake.

(** ** The handshake with the SOCKS5 server: apron_agent_server.go *)

(** The connect request, always by domain name. The length of the name is one
    byte and the port two, whatever the fields hold. *)
Definition connect_request_bytes (r : ApronSocks5ConnectRequest) : bytes :=
  (byte_of <$> [socks5Version; socks5ConnectCommand; 0; socks5Domain;
                u8 (Z.of_nat (length (str_bytes (DestAddr r))))]) ++
  str_bytes (DestAddr r) ++ be_put 2 (u16 (DestPort r)).

Definition auth_request_bytes : bytes := byte_of <$> [socks5Version; 1; socks5AuthNone].

(** [io.ReadFull] on the bare connection: no reader, nothing read ahead. *)
Fixpoint conn_ReadFull (fuel : nat) (got : bytes) (n : nat) (s : source) : ioresult * source :=
  match n, fuel with
  | O, _ => (IoOk got, s)
  | _, O => (IoBlock, s)
  | _, S fuel =>
      match source_Read n s with
      | (IoOk c, s') => conn_ReadFull fuel (got ++ c) (n - length c) s'
      | (IoErr e, s') =>
          (IoErr (if decide (e = io_EOF /\ got <> []) then io_ErrUnexpectedEOF else e), s')
      | (IoBlock, s') => (IoBlock, s')
      end
  end.

Definition slice_bounds : string := "slice bounds out of range".

(** What the code takes out of the connect response: only the check of the first
    two bytes matters, but the slice of a domain is taken, and can fail. *)
Definition check_connect_response (response : bytes) : outcome unit :=
  let at_ i := default 0 (byte_val <$> response !! i) in
  if decide (at_ 0%nat = socks5Version /\ at_ 1%nat = 0) then
    if decide (at_ 3%nat = socks5Domain /\ Z.of_nat (length response) < 5 + at_ 4%nat)
    then Panic slice_bounds else Val tt
  else Panic "unexpected connect response:".

(** [connectToSocks5Service], after the dial, on the server's connection [c] and
    what the server sends. Every error panics. *)
Definition connectToSocks5Service (w : World) (c : conn) (r : ApronSocks5ConnectRequest)
    : M source effect unit :=
  err ← conn_Write w (Some c) auth_request_bytes;
  (match err with None => mret tt | Some _ => panic "failed to send socks5AuthNone data" end);;
  s ← get;
  match conn_ReadFull (2 + length (chunks s)) [] 2 s with
  | (IoErr _, _) => panic "failed to receive authentication response"
  | (IoBlock, _) => block
  | (IoOk authResponse, s') =>
      modify (fun _ => s');;
      if decide (authResponse = byte_of <$> [socks5Version; socks5AuthNone]) then
        err ← conn_Write w (Some c) (connect_request_bytes r);
        (match err with None => mret tt | Some _ => panic "Failed to send connect request" end);;
        match bufio_Read 256 (mkBuf [] s') with
        | (IoErr _, _) => panic "failed to receive connect response header"
        | (IoBlock, _) => block
        | (IoOk got, b) =>
            modify (fun _ => under b);;
            lift_outcome (check_connect_response (got ++ replicate (256 - length got) (byte_of 0)))
        end
      else panic "unexpected authentication response"
  end.

(** ** Lemmas *)

(** A destination as the client encodes it, and as the code names it. *)
Inductive dest :=
  | IPv4 (addr : bytes)
  | IPv6 (addr : bytes)
  | Domain (name : bytes).

Definition dest_ok (d : dest) : Prop :=
  match d with
  | IPv4 addr => length addr = 4%nat
  | IPv6 addr => length addr = 16%nat
  | Domain name => (length name <= 255)%nat
  end.

Definition dest_bytes (d : dest) : bytes :=
  match d with
  | IPv4 addr => byte_of socks5IPv4 :: addr
  | IPv6 addr => byte_of socks5IPv6 :: addr
  | Domain name => byte_of socks5Domain :: byte_of (Z.of_nat (length name)) :: name
  end.

Definition dest_name (d : dest) : string :=
  match d with
  | IPv4 addr | IPv6 addr => IP_String addr
  | Domain name => bytes_str name
  end.

Lemma Read_buffered n a rest s :
  length a = S n -> Read (S n) (mkBuf (a ++ rest) s) = (Val (Ok a), mkBuf rest s, []).
Proof.
  intros Ha. unfold Read, reading, bufio_Read. destruct a as [|x a]; [done|].
  cbn [app buffered under]. cbn in Ha. injection Ha as <-.
  cbn [take drop]. by rewrite take_app_length, drop_app_length.
Qed.

Lemma Read_fill n a rest cs t :
  length a = S n -> (length (a ++ rest) <= bufio_size)%nat -> (S n < bufio_size)%nat ->
  Read (S n) (mkBuf [] (mkSource ((a ++ rest) :: cs) t)) = (Val (Ok a), mkBuf rest (mkSource cs t), []).
Proof.
  intros Ha Hl Hn. unfold Read, reading, bufio_Read, source_Read. cbn [buffered under chunks term].
  rewrite decide_False by lia. rewrite decide_True by done. rewrite <- Ha.
  by rewrite take_app_length, drop_app_length.
Qed.

Lemma ReadAtLeast_buffered n a rest s :
  length a = n -> ReadAtLeast n (mkBuf (a ++ rest) s) = (Val (Ok a), mkBuf rest s, []).
Proof.
  intros <-. unfold ReadAtLeast, reading. rewrite ReadFull_buffered.
  - cbn [buffered under]. by rewrite take_app_length, drop_app_length.
  - cbn. rewrite length_app. lia.
Qed.

Lemma ReadByte_fill x rest cs t :
  (length (x :: rest) <= bufio_size)%nat ->
  ReadByte (mkBuf [] (mkSource ((x :: rest) :: cs) t)) = (Val (Ok [x]), mkBuf rest (mkSource cs t), []).
Proof.
  intros Hl. unfold ReadByte, reading. rewrite ReadFull_fresh; [done|cbn in *; lia|done|unfold bufio_size; lia].
Qed.

Lemma try_ok_val {A B} (m : Parser A) (f : A -> Parser B) b a b' es :
  m b = (Val (Ok a), b', es) -> try_ok m f b = ((f a b').1.1, (f a b').1.2, es ++ (f a b').2).
Proof. intros H. unfold try_ok. by erewrite bind_val by exact H. Qed.

Tactic Notation "step_ok" uconstr(lem) := erewrite try_ok_val by (apply lem; eauto); cbn [fst snd].

Lemma read_dest_addr_ok d rest s :
  dest_ok d ->
  (match dest_bytes d with
   | a :: r => read_dest_addr (byte_val a) (mkBuf (r ++ rest) s)
   | [] => (Block, mkBuf rest s, [])
   end) = (Val (Ok (dest_name d)), mkBuf rest s, []).
Proof.
  intros Hd. destruct d as [addr|addr|name]; cbn [dest_bytes dest_ok dest_name] in *;
    unfold read_dest_addr; rewrite byte_val_small by (unfold socks5IPv4, socks5IPv6, socks5Domain; lia).
  - rewrite decide_True by done. by step_ok ReadAtLeast_buffered.
  - rewrite decide_False, decide_True by done. by step_ok ReadAtLeast_buffered.
  - rewrite !decide_False, decide_True by done.
    step_ok (Read_buffered 0 [byte_of (Z.of_nat (length name))] (name ++ rest) s).
    cbn zeta iota. unfold first_byte. cbn [head fmap option_fmap option_map default from_option]. unfold id.
    rewrite byte_val_small, Nat2Z.id by lia. by step_ok ReadAtLeast_buffered.
Qed.

(** The bytes of a greeting and of a request. *)
Definition greeting (methods : bytes) : bytes :=
  byte_of socks5Version :: byte_of (Z.of_nat (length methods)) :: methods.

Definition request_bytes (version command reserved : ascii) (d : dest) (p0 p1 : ascii) : bytes :=
  version :: command :: reserved :: dest_bytes d ++ [p0; p1].

Lemma greeting_ok w c methods cs t :
  (0 < length methods <= 255)%nat -> accepts w c ->
  handleClientGreetingPackage w c (mkBuf [] (mkSource (greeting methods :: cs) t))
  = (Val (Ok tt), mkBuf [] (mkSource cs t), [Written c (byte_of <$> [socks5Version; socks5AuthNone])]).
Proof.
  intros Hm Hc. unfold handleClientGreetingPackage, validateVersion.
  erewrite try_ok_val.
  2: { unfold greeting. erewrite try_ok_val by (apply ReadByte_fill; cbn; unfold bufio_size; lia).
       unfold first_byte. cbn [head fmap option_fmap option_map default from_option]. unfold id.
       rewrite byte_val_small, decide_True by (unfold socks5Version; done || lia). reflexivity. }
  cbn [fst snd]. erewrite try_ok_val.
  2: { apply (ReadAtLeast_buffered 1 [byte_of (Z.of_nat (length methods))] methods). done. }
  cbn [fst snd]. unfold first_byte. cbn [head fmap option_fmap option_map default from_option]. unfold id.
  rewrite byte_val_small, Nat2Z.id by lia. erewrite bind_val.
  2: { destruct (length methods) as [|k] eqn:E; [lia|].
       pose proof (Read_buffered k methods [] (mkSource cs t) E) as H.
       rewrite app_nil_r in H. exact H. }
  cbn [fst snd]. step_bind conn_Write_ok. reflexivity.
Qed.

Lemma request_ok w c methods version command reserved d p0 p1 cs t :
  (0 < length methods <= 255)%nat -> accepts w c -> dest_ok d ->
  buildSocks5ConnectRequest w c
    (mkBuf [] (mkSource (greeting methods :: request_bytes version command reserved d p0 p1 :: cs) t))
  = (Val (Ok (mkConnect (byte_val version) (byte_val command) (dest_name d)
                (byte_val p0 * 256 + byte_val p1))),
     mkBuf [] (mkSource cs t), [Written c (byte_of <$> [socks5Version; socks5AuthNone])]).
Proof.
  intros Hm Hc Hd. unfold buildSocks5ConnectRequest. step_ok greeting_ok.
  erewrite try_ok_val.
  2: { apply (Read_fill 2 [version; command; reserved] (dest_bytes d ++ [p0; p1])); [done| |];
       [|unfold bufio_size; lia].
       rewrite length_app, length_app. unfold bufio_size.
       destruct d; cbn [dest_ok dest_bytes length] in *; lia. }
  cbn [fst snd length]. rewrite decide_True by done. cbn zeta.
  pose proof (read_dest_addr_ok d [p0; p1] (mkSource cs t) Hd) as H.
  destruct (dest_bytes d) as [|a r] eqn:E; [by destruct d|].
  erewrite try_ok_val by (apply (Read_buffered 0 [a] (r ++ [p0; p1])); done). cbn [fst snd].
  erewrite try_ok_val by exact H. cbn [fst snd].
  erewrite try_ok_val by (apply (ReadAtLeast_buffered 2 [p0; p1] []); done).
  unfold first_byte. cbn [fst snd head drop fmap option_fmap option_map default from_option]. unfold id.
  rewrite lor_shiftl_byte by (apply byte_val_range). reflexivity.
Qed.

(** *** What a parsed request can hold *)

Lemma try_ok_inv {A B} (m : Parser A) (f : A -> Parser B) b x b' es :
  try_ok m f b = (Val (Ok x), b', es) ->
  exists a b1 e1 e2, m b = (Val (Ok a), b1, e1) /\ f a b1 = (Val (Ok x), b', e2).
Proof.
  unfold try_ok. intros (r&b1&e1&e2&Hm&Hf&_)%bind_inv. destruct r as [a|e]; [|done].
  by exists a, b1, e1, e2.
Qed.

Lemma ReadAtLeast_length n b c b' es : ReadAtLeast n b = (Val (Ok c), b', es) -> length c = n.
Proof.
  unfold ReadAtLeast, reading. destruct (decide (n <= length (avail b))%nat) as [Hn|Hn].
  - destruct (ReadFull_enough n b Hn) as (b1&->&_). intros [= <- _ _]. rewrite length_take. lia.
  - destruct (ReadFull_short n b ltac:(lia)) as (b1&->&_).
    unfold short_read. by destruct (term (under b)).
Qed.

Abbreviation strlen s := (length (str_bytes s)).

Lemma strlen_app s t : strlen (s +:+ t) = (strlen s + strlen t)%nat.
Proof. by rewrite str_bytes_app, length_app. Qed.

Lemma strlen_pretty_byte c : (strlen (pretty (Z.to_N (byte_val c))) <= 3)%nat.
Proof.
  destruct c as [b0 b1 b2 b3 b4 b5 b6 b7].
  destruct b0, b1, b2, b3, b4, b5, b6, b7; apply (bool_decide_unpack _); vm_compute; exact I.
Qed.

Lemma strlen_dotted b : length b = 4%nat -> (strlen (dotted b) <= 15)%nat.
Proof.
  destruct b as [|b0 [|b1 [|b2 [|b3 [|]]]]]; try done. intros _. unfold dotted. cbn [fmap list_fmap String.concat].
  rewrite !strlen_app. change (strlen ".") with 1%nat.
  pose proof (strlen_pretty_byte b0). pose proof (strlen_pretty_byte b1).
  pose proof (strlen_pretty_byte b2). pose proof (strlen_pretty_byte b3). lia.
Qed.

Lemma strlen_hex16 v : (strlen (hex16 v) <= 4)%nat.
Proof. unfold hex16. rewrite bytes_str_inv. repeat case_match; cbn; lia. Qed.

Lemma strlen_render6 fuel gs run i : (strlen (render6 fuel gs run i) <= 6 * fuel)%nat.
Proof.
  revert i. induction fuel as [|fuel IH]; intros i; [cbn; lia|]. cbn [render6].
  repeat case_decide; rewrite ?strlen_app; try (cbn; lia);
    pose proof (strlen_hex16 (default 0 (gs !! i)));
    pose proof (strlen_hex16 (default 0 (gs !! (run.1 + run.2)%nat)));
    pose proof (IH (S i)); pose proof (IH (S (run.1 + run.2))%nat);
    change (strlen "::") with 2%nat; change (strlen ":") with 1%nat; change (strlen "") with 0%nat; lia.
Qed.

Lemma strlen_IP_String ip : (length ip = 4 \/ length ip = 16)%nat -> (strlen (IP_String ip) <= 48)%nat.
Proof.
  intros Hip. unfold IP_String. repeat case_decide.
  - pose proof (strlen_dotted ip). lia.
  - pose proof (strlen_dotted (drop 12 ip)). rewrite length_drop in *. lia.
  - apply (strlen_render6 8).
Qed.

Lemma first_byte_range b : 0 <= first_byte b < 256.
Proof.
  unfold first_byte. destruct b as [|c b]; cbn [head fmap option_fmap option_map default from_option];
    [lia|]. apply byte_val_range.
Qed.

(** Whatever the chunks, a destination that was parsed fits a connect request. *)
Lemma parsed_bounds w c b r b' es :
  buildSocks5ConnectRequest w c b = (Val (Ok r), b', es) ->
  (strlen (DestAddr r) <= 255)%nat /\ 0 <= DestPort r < 2 ^ 16.
Proof.
  unfold buildSocks5ConnectRequest. intros (_&b1&?&?&_&H)%try_ok_inv.
  apply try_ok_inv in H as (buf&b2&?&?&_&H). case_decide; [|done]. cbn zeta in H.
  apply try_ok_inv in H as (ty&b3&?&?&_&H).
  apply try_ok_inv in H as (addr&b4&?&?&Haddr&H).
  apply try_ok_inv in H as (port&b5&?&?&_&H). injection H as <- _ _. cbn [DestAddr DestPort].
  split.
  - unfold read_dest_addr in Haddr. revert Haddr. generalize (first_byte ty). intros z Haddr.
    repeat case_decide; try done.
    + apply try_ok_inv in Haddr as (a&?&?&?&Ha%ReadAtLeast_length&[= <- _ _]).
      pose proof (strlen_IP_String a). lia.
    + apply try_ok_inv in Haddr as (a&?&?&?&Ha%ReadAtLeast_length&[= <- _ _]).
      pose proof (strlen_IP_String a). lia.
    + apply try_ok_inv in Haddr as (len&?&?&?&_&Haddr).
      apply try_ok_inv in Haddr as (a&?&?&?&Ha%ReadAtLeast_length&[= <- _ _]).
      rewrite bytes_str_inv, Ha. subst z. pose proof (first_byte_range len).
      unfold socks5Domain. destruct len; lia.
  - rewrite lor_shiftl_byte by apply first_byte_range.
    pose proof (first_byte_range port). pose proof (first_byte_range (drop 1 port)). lia.
Qed.

(** *** The handshake with the server *)

(** The bytes that [connect_request_bytes] writes, as a client's request. *)
Lemma connect_request_is_request r :
  (strlen (DestAddr r) <= 255)%nat -> 0 <= DestPort r < 2 ^ 16 ->
  exists p0 p1, connect_request_bytes r
    = request_bytes (byte_of socks5Version) (byte_of socks5ConnectCommand) (byte_of 0)
        (Domain (str_bytes (DestAddr r))) p0 p1 /\
    byte_val p0 * 256 + byte_val p1 = DestPort r.
Proof.
  intros Hl Hp. exists (byte_of (Z.shiftr (DestPort r) 8)), (byte_of (DestPort r)). split.
  - unfold connect_request_bytes, request_bytes, dest_bytes, u8, u16, wrap.
    rewrite (Z.mod_small (Z.of_nat _)), (Z.mod_small (DestPort r)) by lia.
    cbn [fmap list_fmap app be_put]. reflexivity.
  - rewrite !byte_val_of, Z.shiftr_div_pow2 by lia. change (2 ^ 8) with 256.
    rewrite (Z.mod_small (DestPort r / 256)) by (split; [apply Z.div_pos|apply Z.div_lt_upper_bound]; lia).
    pose proof (Z.div_mod (DestPort r) 256). lia.
Qed.

Lemma conn_ReadFull_chunk fuel got c cs t n :
  length c = n -> (0 < n)%nat -> (0 < fuel)%nat ->
  conn_ReadFull fuel got n (mkSource (c :: cs) t) = (IoOk (got ++ c), mkSource cs t).
Proof.
  intros <- Hn Hf. destruct fuel as [|fuel]; [lia|]. destruct (length c) as [|k] eqn:E; [lia|].
  cbn [conn_ReadFull]. unfold source_Read. cbn [chunks term]. rewrite decide_True by lia.
  rewrite E, Nat.sub_diag. by destruct fuel.
Qed.

(** ** Properties *)

(** The SOCKS5 handshake of a client is read as it was meant: for a greeting
    with any methods and then a request of any of the three address types, each
    in a chunk of its own, the client is told once that no authentication is
    needed, the destination and port come out exactly, and nothing of either
    message is left over. Neither the version nor the command of the request is
    looked at, so [BIND] and [UDP ASSOCIATE] are taken for [CONNECT]. *)
Theorem handshake_parsed (w : World) (c : conn) (methods : bytes) (version command reserved : ascii)
    (d : dest) (p0 p1 : ascii) (cs : list bytes) (t : option goerror)
    (Hmethods : (0 < length methods <= 255)%nat) (Hc : accepts w c) (Hd : dest_ok d) :
  buildSocks5ConnectRequest w c
    (mkBuf [] (mkSource (greeting methods :: request_bytes version command reserved d p0 p1 :: cs) t))
  = (Val (Ok (mkConnect (byte_val version) (byte_val command) (dest_name d)
                (byte_val p0 * 256 + byte_val p1))),
     mkBuf [] (mkSource cs t), [Written c (byte_of <$> [5; 0])]).
Proof. by apply request_ok. Qed.

Example handshake_parsed_witness :
  result_of (buildSocks5ConnectRequest example_world 3%N
    (mkBuf [] (mkSource [greeting [byte_of 0; byte_of 2];
       request_bytes (byte_of 5) (byte_of 2) (byte_of 0)
         (IPv4 (byte_of <$> [127; 0; 0; 1])) (byte_of 1) (byte_of 187)] None)))
  = Val (Ok (mkConnect 5 2 "127.0.0.1" 443)).
Proof.
  pose proof (handshake_parsed example_world 3%N [byte_of 0; byte_of 2] (byte_of 5) (byte_of 2)
    (byte_of 0) (IPv4 (byte_of <$> [127; 0; 0; 1])) (byte_of 1) (byte_of 187) [] None) as H.
  rewrite H; [vm_compute; reflexivity|cbn; lia|intros p; reflexivity|reflexivity].
Defined.

(** What the service agent writes for an accepted request, parsed as a request. *)
Lemma destination_reparsed w c b b' r es w' c' :
  buildSocks5ConnectRequest w c b = (Val (Ok r), b', es) -> accepts w' c' ->
  buildSocks5ConnectRequest w' c' (mkBuf [] (mkSource [auth_request_bytes; connect_request_bytes r] None))
  = (Val (Ok (mkConnect 5 1 (DestAddr r) (DestPort r))), mkBuf [] (mkSource [] None),
     [Written c' (byte_of <$> [5; 0])]).
Proof.
  intros [Hl Hp]%parsed_bounds Hc'.
  destruct (connect_request_is_request r Hl Hp) as (p0&p1&->&Hport).
  change auth_request_bytes with (greeting [byte_of 0]).
  rewrite (request_ok w' c' [byte_of 0]) by (done || cbn; lia).
  rewrite Hport. cbn [dest_name]. by rewrite str_bytes_inv.
Qed.

(** C26: the destination survives the way through the network. Whatever a client
    sent, in whatever chunks, if the client agent accepted it, the request that
    the service agent writes to the SOCKS5 server parses, by the same rules, as a
    [CONNECT] to the same destination (now always a domain name) and port: the
    one-byte length and the two-byte port are never cut. *)
Theorem destination_preserved (w : World) (c : conn) (b b' : bufreader) (r : ApronSocks5ConnectRequest)
    (es : list effect) (c' : conn)
    (Hparsed : buildSocks5ConnectRequest w c b = (Val (Ok r), b', es)) (Hc' : accepts w c') :
  buildSocks5ConnectRequest w c'
    (mkBuf [] (mkSource [auth_request_bytes; connect_request_bytes r] None))
  = (Val (Ok (mkConnect 5 1 (DestAddr r) (DestPort r))), mkBuf [] (mkSource [] None),
     [Written c' (byte_of <$> [5; 0])]).
Proof. by eapply destination_reparsed. Qed.

Example destination_preserved_witness :
  result_of (buildSocks5ConnectRequest example_world 4%N
    (mkBuf [] (mkSource [auth_request_bytes; connect_request_bytes (mkConnect 5 2 "127.0.0.1" 443)] None)))
  = Val (Ok (mkConnect 5 1 "127.0.0.1" 443)).
Proof.
  rewrite (destination_preserved example_world 3%N
    (mkBuf [] (mkSource [greeting [byte_of 0];
       request_bytes (byte_of 5) (byte_of 2) (byte_of 0)
         (IPv4 (byte_of <$> [127; 0; 0; 1])) (byte_of 1) (byte_of 187)] None))
    (mkBuf [] (mkSource [] None)) (mkConnect 5 2 "127.0.0.1" 443)
    [Written 3%N (byte_of <$> [5; 0])] 4%N).
  - reflexivity.
  - vm_compute. reflexivity.
  - intros p. reflexivity.
Defined.

(** The handshake with a server, up to what its reply makes of the agent. *)
Lemma server_handshake_run w c r reply cs t
    (response := reply ++ replicate (256 - length reply) (byte_of 0))
    (at_ := fun i => default 0 (byte_val <$> response !! i)) :
  accepts w c -> (length reply <= 256)%nat ->
  connectToSocks5Service w c r (mkSource ((byte_of <$> [5; 0]) :: reply :: cs) t)
  = (if decide (at_ 0%nat = 5 /\ at_ 1%nat = 0) then
       if decide (at_ 3%nat = 3 /\ 252 <= at_ 4%nat) then Panic "slice bounds out of range" else Val tt
     else Panic "unexpected connect response:",
     mkSource cs t, [Written c (byte_of <$> [5; 1; 0]); Written c (connect_request_bytes r)]).
Proof.
  intros Hc Hreply. unfold connectToSocks5Service. step_bind conn_Write_ok. rewrite bind_pure.
  erewrite bind_val by reflexivity. cbn beta. rewrite conn_ReadFull_chunk by (done || cbn; lia).
  erewrite bind_val by reflexivity. cbn [app]. rewrite decide_True by done.
  step_bind conn_Write_ok. rewrite bind_pure.
  unfold bufio_Read, source_Read. cbn [buffered under chunks term].
  rewrite decide_False by (unfold bufio_size; lia). rewrite decide_True by (unfold bufio_size; lia).
  rewrite (take_ge reply), (drop_ge reply) by lia. erewrite bind_val by reflexivity.
  unfold lift_outcome. cbn [fst snd under app]. fold response.
  assert (length response = 256%nat) as Hlen.
  { unfold response. rewrite length_app, length_replicate. lia. }
  do 2 f_equal. unfold check_connect_response. rewrite Hlen. fold at_.
  change socks5Version with 5. change socks5Domain with 3.
  unfold at_. repeat case_decide; try done; lia.
Qed.

(** The service agent's handshake with the SOCKS5 server. With a server that
    accepts no authentication and then reports success, the agent writes the two
    messages and is connected, and whatever the server sends after its reply, in
    later chunks, is left for the session; but a reply that announces a domain of
    252 bytes or more makes it slice past its 256-byte buffer and panic, and a
    refusal panics as well: the server decides over the agent's life. *)
Theorem server_handshake (w : World) (c : conn) (r : ApronSocks5ConnectRequest)
    (reply : bytes) (cs : list bytes) (t : option goerror)
    (response := reply ++ replicate (256 - length reply) (byte_of 0))
    (at_ := fun i => default 0 (byte_val <$> response !! i))
    (Hc : accepts w c) (Hreply : (length reply <= 256)%nat) :
  connectToSocks5Service w c r (mkSource ((byte_of <$> [5; 0]) :: reply :: cs) t)
  = (if decide (at_ 0%nat = 5 /\ at_ 1%nat = 0) then
       if decide (at_ 3%nat = 3 /\ 252 <= at_ 4%nat) then Panic "slice bounds out of range" else Val tt
     else Panic "unexpected connect response:",
     mkSource cs t, [Written c (byte_of <$> [5; 1; 0]); Written c (connect_request_bytes r)]).
Proof. by apply server_handshake_run. Qed.

Example server_handshake_witness :
  result_of (connectToSocks5Service example_world 4%N (mkConnect 5 1 "example.com" 80)
    (mkSource [byte_of <$> [5; 0]; byte_of <$> [5; 0; 0; 3; 252]] None))
  = Panic "slice bounds out of range".
Proof.
  pose proof (server_handshake example_world 4%N (mkConnect 5 1 "example.com" 80)
    (byte_of <$> [5; 0; 0; 3; 252]) [] None) as H.
  cbn zeta in H. rewrite H; [vm_compute; reflexivity|intros p; reflexivity|cbn; lia].
Defined.
