(* ===== verification/Agent.v ===== *)
(** The SOCKS5 agents of [internal/ext_protocols/socks5]: the client agent and the
    service agent of [apron_agent_server.go] and [apron_client_agent.go], which
    carry a SOCKS5 session through the gateways' socket tunnel.

    The handshakes are in [Socks5]. A goroutine's endless loop is given over what
    its connection delivers. *)

From S2P Require Import Prelude Messages NetworkHelper RequestDetail UsageRecord Node World Socks5.
From S2P Require WireFormat.

(** The part of [ApronAgentServerConfig] that code reads or writes at run time;
    [RemoteSocketConn] is one field for all the clients of a client agent. *)
Record ApronAgentServer := mkAgent {
  AgentId : string;
  ListenAddr : string;
  RemoteSocketAddr : string;
  RemoteSocketConn : option conn
}.

Definition set_RemoteSocketConn (c : conn) (s : ApronAgentServer) : ApronAgentServer :=
  mkAgent (AgentId s) (ListenAddr s) (RemoteSocketAddr s) (Some c).

(** The service that a service agent registers ([prepareAgent]). *)
Definition agent_service (s : ApronAgentServer) : ApronService :=
  mkService (AgentId s) (AgentId s) "" "" "" ""
    [Some (mkProvider (AgentId s) (AgentId s) "" 0 0 "" (ListenAddr s) "tcp" NetworkType_UNKNOWN)] false.

Section agents.
Context {L : ProtoLib} (w : World).

(** [binary.Marshal] and [binary.Unmarshal] of the third-party encoder. *)
Context (binary_Marshal : ApronSocks5ConnectRequest -> result bytes)
        (binary_Unmarshal : bytes -> result ApronSocks5ConnectRequest).

Abbreviation Agent := (M ApronAgentServer effect).

(** ** The client agent *)

(** [env] is [APRON_SOCKS_SERVICE_ID]. The error of [proto.Marshal] is dropped,
    which leaves no bytes. *)
Definition connectToCsgwAndSendInitRequest (env : option string) : Agent (result string) :=
  let serviceId := default "apron_hello_socks5"%string env in
  s ← get;
  match Dial w (RemoteSocketAddr s) with
  | Fail err => mret (Fail err)
  | Ok csgwConn =>
      emit (Dialed (RemoteSocketAddr s) csgwConn);;
      modify (set_RemoteSocketConn csgwConn);;
      let requestId := build_request_id "shouldBeUid" serviceId (uuid_New w) in
      let requestBytes :=
        match Marshal (mkSocketInit serviceId requestId "" "") with Ok b => b | Fail _ => [] end in
      WriteBytesViaStream (conn_Write w (Some csgwConn)) requestBytes;;
      mret (Ok requestId)
  end.

(** Parsing what the client sends, with a reader that is then dropped. *)
Definition run_parser {A} (p : Parser A) (src : source) : Agent (result A * source) := fun s =>
  match p (mkBuf [] src) with
  | (Val r, b, es) => (Val (r, under b), s, es)
  | (Panic msg, _, es) => (Panic msg, s, es)
  | (Block, _, es) => (Block, s, es)
  end.

(** [s.logger.Panic(msg, zap.Error(err))] on an error. *)
Definition or_panic {S A} (msg : string) (r : result A) : M S effect A :=
  match r with Ok a => mret a | Fail _ => panic msg end.

Definition success_reply : bytes := byte_of <$> [5; 0; 0; 1; 0; 0; 0; 0; 0; 0].

(** [serveConnection] in client mode, after the connection to the gateway: the
    client's request goes out as the first message, on the connection that
    the agent's field holds by now. Gives what is left of the client's data. *)
Definition send_connect_message (requestId msgId : string) (c : conn) (client : source)
    : Agent source :=
  '(socksConnectRequest, rest) ← run_parser (buildSocks5ConnectRequest w c) client;
  socksConnectRequest ← or_panic "build socks5 connect request failed" socksConnectRequest;
  socksConnectRequestBytes ← or_panic "marshal socks5 connect request failed"
    (binary_Marshal socksConnectRequest);
  requestSentToCsgwBytes ← or_panic "marshal socks5 connect request to ext service data failed"
    (Marshal (mkExtServiceData socks5ServiceName requestId msgId socks5ConnectMessage
                socksConnectRequestBytes));
  s ← get;
  WriteBytesViaStream (conn_Write w (RemoteSocketConn s)) requestSentToCsgwBytes;;
  _ ← conn_Write w (Some c) success_reply;
  mret rest.

(** Client mode up to the two proxying goroutines, which are given the field's
    connection. *)
Definition serveConnection_client (env : option string) (msgId : string) (c : conn) (client : source)
    : Agent (string * source * option conn) :=
  requestId ← connectToCsgwAndSendInitRequest env;
  requestId ← or_panic "connect to CSGW failed" requestId;
  rest ← send_connect_message requestId msgId c client;
  s ← get;
  mret (requestId, rest, RemoteSocketConn s).

(** [proxyDataFromClient], first goroutine: the reads that it makes ([client_reads])
    and what it does with each of them ([proxy_to_csgw]). It ends at an error that
    prints [EOF].

    Every turn of the loop has a [bufio.Reader] of its own. Its buffer is smaller
    than what is asked for, so nothing is read ahead and nothing lost between turns. *)
Definition client_buf_size : nat := Z.to_nat 40960.

Fixpoint client_reads (turns : nat) (src : source) : list (result bytes) :=
  match turns with
  | O => []
  | S turns =>
      match bufio_Read client_buf_size (NewReader (RawReader src)) with
      | (IoOk data, reader) => Ok data :: client_reads turns (under reader)
      | (IoErr err, reader) =>
          Fail err :: if decide (Error err = "EOF") then [] else client_reads turns (under reader)
      | (IoBlock, _) => []
      end
  end.

(** Over the reads and the message ids. *)
Fixpoint proxy_to_csgw (requestId : string) (csgwC : option conn)
    (reads : list (result bytes * string)) : Agent unit :=
  match reads with
  | [] => mret tt
  | (Fail err, _) :: reads =>
      if decide (Error err = "EOF") then mret tt else proxy_to_csgw requestId csgwC reads
  | (Ok data, msgId) :: reads =>
      match Marshal (mkExtServiceData socks5ServiceName requestId msgId socks5DataMessage data) with
      | Fail err =>
          if decide (Error err = "EOF") then mret tt else proxy_to_csgw requestId csgwC reads
      | Ok dataBytes =>
          WriteBytesViaStream (conn_Write w csgwC) dataBytes;;
          proxy_to_csgw requestId csgwC reads
      end
  end.

(** Second goroutine, over the frames it reads from the gateway. *)
Fixpoint proxy_to_client (clientC : conn) (frames : list (result bytes)) : Agent unit :=
  match frames with
  | [] => mret tt
  | Fail err :: frames =>
      if decide (Error err = "EOF") then mret tt else proxy_to_client clientC frames
  | Ok csgwDataBytes :: frames =>
      match Unmarshal (T := ExtServiceData) csgwDataBytes with
      | Fail err =>
          if decide (Error err = "EOF") then mret tt else proxy_to_client clientC frames
      | Ok serviceData =>
          err ← conn_Write w (Some clientC) (Ext_Content serviceData);
          match err with
          | Some err => if decide (Error err = "EOF") then mret tt else proxy_to_client clientC frames
          | None => proxy_to_client clientC frames
          end
      end
  end.

(** ** The service agent *)

(** The connections of one gateway connection, by request id. *)
Abbreviation Serving := (M (gmap string conn) effect).

(** [net.Dial] and [connectToSocks5Service]: [server] is what the SOCKS5 server
    will send; it says the same on every connection that is made to it. *)
Definition connect_service (addr : string) (server : source) (r : ApronSocks5ConnectRequest)
    : Serving conn := fun conns =>
  match Dial w addr with
  | Fail _ => (Panic "failed to connect service", conns, [])
  | Ok c =>
      match connectToSocks5Service w c r server with
      | (Val _, _, es) => (Val c, conns, Dialed addr c :: es)
      | (Panic msg, _, es) => (Panic msg, conns, Dialed addr c :: es)
      | (Block, _, es) => (Block, conns, Dialed addr c :: es)
      end
  end.

(** One turn of the loop of [serveConnection] in server mode. *)
Definition serve_turn (addr : string) (server : source) (item : chan_op) : Serving unit :=
  match item with
  | ToErrCh _ => panic "got error message while reading data from stream"
  | ToDataCh serviceDataBytes =>
      serviceData ← must (Unmarshal (T := ExtServiceData) serviceDataBytes);
      if decide (Ext_ServiceName serviceData = socks5ServiceName) then
        if decide (Ext_ContentType serviceData = socks5ConnectMessage) then
          socksConnectRequest ← must (binary_Unmarshal (Ext_Content serviceData));
          c ← connect_service addr server socksConnectRequest;
          modify (<[Ext_RequestId serviceData := c]>)
        else if decide (Ext_ContentType serviceData = socks5DataMessage) then
          conns ← get;
          _ ← conn_Write w (conns !! Ext_RequestId serviceData) (Ext_Content serviceData);
          mret tt
        else mret tt
      else panic "wrong service name"
  end.

Fixpoint serveConnection_server (addr : string) (server : source) (items : list chan_op)
    : Serving unit :=
  match items with
  | [] => mret tt
  | item :: items => serve_turn addr server item;; serveConnection_server addr server items
  end.

(** The goroutine that sends the service's answers back: each read as one message,
    written as it is, without a length in front. *)
Fixpoint answer_ssgw (requestId : string) (ssgw : conn) (reads : list (result bytes * string))
    : Serving unit :=
  match reads with
  | [] => mret tt
  | (r, msgId) :: reads =>
      data ← must r;
      respDataBytes ← must (Marshal
        (mkExtServiceData socks5ServiceName requestId msgId socks5DataMessage data));
      _ ← conn_Write w (Some ssgw) respDataBytes;
      answer_ssgw requestId ssgw reads
  end.
End agents.

(** ** Lemmas *)

Section agent_lemmas.
Context {L : ProtoLib} (w : World).

(** The messages of the agents, of either kind, can be encoded. *)
Lemma ext_wf rid id t d :
  t = socks5ConnectMessage \/ t = socks5DataMessage ->
  proto_wf (mkExtServiceData socks5ServiceName rid id t d).
Proof. cbn. unfold socks5ConnectMessage, socks5DataMessage. lia. Qed.

(** Of two messages decoded as one, the second's content is what is left. *)
Lemma merged_content (m1 m2 : ExtServiceData) :
  Ext_Content m2 <> [] -> Ext_Content (of_fields (fields_of m1 ++ fields_of m2)) = Ext_Content m2.
Proof.
  intros Hne. cbn [of_fields fields_of ExtServiceData_proto Ext_Content].
  unfold gbytes, gscalar, fstr, fbytes, fint.
  rewrite !vals_app, !vals_fscalar.
  repeat match goal with
  | |- context [decide (?m = ?m)] => rewrite (decide_True (P := m = m)) by done
  | |- context [decide (?m = ?n)] => rewrite (decide_False (P := m = n)) by done
  end.
  rewrite (bool_decide_false (Ext_Content m2 = [])) by done.
  by rewrite !app_nil_l, last_snoc.
Qed.

Lemma proxy_to_csgw_until rid g reads bs ended s :
  accepts w g -> proxy_to_csgw w rid (Some g) ended s = (Val tt, s, []) ->
  Forall2 (fun r b => Marshal (mkExtServiceData socks5ServiceName rid r.2 socks5DataMessage r.1) = Ok b)
    reads bs ->
  proxy_to_csgw w rid (Some g) (((fun r => (Ok r.1, r.2)) <$> reads) ++ ended) s
  = (Val tt, s, concat (frame_writes g <$> bs)).
Proof.
  intros Hg Hended Hreads. induction Hreads as [|[d i] b reads bs Hb _ IH]; [done|].
  cbn [fmap list_fmap app proxy_to_csgw concat fst snd] in *. rewrite Hb.
  step_bind WriteBytesViaStream_conn. by rewrite IH.
Qed.

Lemma proxy_to_csgw_ok rid g reads bs s :
  accepts w g ->
  Forall2 (fun r b => Marshal (mkExtServiceData socks5ServiceName rid r.2 socks5DataMessage r.1) = Ok b)
    reads bs ->
  proxy_to_csgw w rid (Some g) ((fun r => (Ok r.1, r.2)) <$> reads) s
  = (Val tt, s, concat (frame_writes g <$> bs)).
Proof. intros Hg Hreads. rewrite <- (app_nil_r (fmap _ reads)). by apply proxy_to_csgw_until. Qed.

Lemma serve_data_ok binary_Unmarshal addr server b m c conns :
  Unmarshal b = Ok m -> Ext_ServiceName m = socks5ServiceName ->
  Ext_ContentType m = socks5DataMessage -> conns !! Ext_RequestId m = Some c -> accepts w c ->
  serve_turn w binary_Unmarshal addr server (ToDataCh b) conns
  = (Val tt, conns, [Written c (Ext_Content m)]).
Proof.
  intros Hb Hn Ht Hc Hacc. unfold serve_turn. rewrite Hb. cbn [must]. rewrite bind_pure.
  rewrite decide_True by done. rewrite Ht, decide_False, decide_True by done.
  erewrite bind_val by reflexivity. rewrite Hc. step_bind conn_Write_ok. reflexivity.
Qed.

Lemma serve_connect_ok binary_Unmarshal addr server b rid msgId content r srv src' es conns :
  Marshal (mkExtServiceData socks5ServiceName rid msgId socks5ConnectMessage content) = Ok b ->
  binary_Unmarshal content = Ok r -> Dial w addr = Ok srv ->
  connectToSocks5Service w srv r server = (Val tt, src', es) ->
  serve_turn w binary_Unmarshal addr server (ToDataCh b) conns
  = (Val tt, <[rid := srv]> conns, Dialed addr srv :: es).
Proof.
  intros Hb Hback Hdial Hserver. unfold serve_turn.
  rewrite (Unmarshal_Marshal _ b (ext_wf _ _ _ _ (or_introl eq_refl)) Hb).
  cbn [must]. rewrite bind_pure, !decide_True by done.
  cbn [Ext_Content Ext_RequestId]. rewrite Hback. cbn [must]. rewrite bind_pure.
  erewrite bind_val by (unfold connect_service; rewrite Hdial, Hserver; reflexivity).
  cbn. by rewrite app_nil_r.
Qed.

Lemma serve_data_run binary_Unmarshal addr server rid reads bs c conns :
  conns !! rid = Some c -> accepts w c ->
  Forall2 (fun r b => Unmarshal b = Ok (mkExtServiceData socks5ServiceName rid r.2 socks5DataMessage r.1))
    reads bs ->
  serveConnection_server w binary_Unmarshal addr server (ToDataCh <$> bs) conns
  = (Val tt, conns, Written c <$> reads.*1).
Proof.
  intros Hc Hacc Hreads. induction Hreads as [|[d id] b reads bs Hb _ IH]; [done|].
  cbn [fmap list_fmap serveConnection_server fst snd] in *.
  step_bind (serve_data_ok binary_Unmarshal addr server b
    (mkExtServiceData socks5ServiceName rid id socks5DataMessage d) c conns).
  by rewrite IH.
Qed.

Lemma written_to_all c ds : written_to c (Written c <$> ds) = concat ds.
Proof.
  unfold written_to. f_equal. induction ds as [|d ds IH]; [done|].
  cbn. rewrite decide_True by done. cbn in IH. by rewrite IH.
Qed.

(** The client's message, on whatever connection the field holds. *)
Lemma send_connect_message_ok binary_Marshal rid msgId c client r rest content b g s :
  buildSocks5ConnectRequest w c (mkBuf [] client)
  = (Val (Ok r), rest, [Written c (byte_of <$> [socks5Version; socks5AuthNone])]) ->
  binary_Marshal r = Ok content ->
  Marshal (mkExtServiceData socks5ServiceName rid msgId socks5ConnectMessage content) = Ok b ->
  RemoteSocketConn s = Some g -> accepts w g -> accepts w c ->
  send_connect_message w binary_Marshal rid msgId c client s
  = (Val (under rest), s,
     Written c (byte_of <$> [socks5Version; socks5AuthNone]) ::
     frame_writes g b ++ [Written c success_reply]).
Proof.
  intros Hr Hcontent Hb Hg Haccg Haccc. unfold send_connect_message.
  erewrite bind_val by (unfold run_parser; rewrite Hr; reflexivity). cbn [or_panic].
  rewrite bind_pure, Hcontent. cbn [or_panic]. rewrite bind_pure, Hb. cbn [or_panic].
  rewrite bind_pure. erewrite bind_val by reflexivity. rewrite Hg.
  step_bind WriteBytesViaStream_conn. step_bind conn_Write_ok. reflexivity.
Qed.

Lemma connectToCsgw_ok env g s :
  Dial w (RemoteSocketAddr s) = Ok g -> accepts w g ->
  exists rid b es, connectToCsgwAndSendInitRequest w env s
    = (Val (Ok rid), set_RemoteSocketConn g s, Dialed (RemoteSocketAddr s) g :: es) /\
    es = frame_writes g b /\
    rid = build_request_id "shouldBeUid" (default "apron_hello_socks5"%string env) (uuid_New w).
Proof.
  intros Hd Hg. eexists _, _, _. split_and!; [|reflexivity..].
  unfold connectToCsgwAndSendInitRequest. erewrite bind_val by reflexivity. rewrite Hd.
  erewrite bind_val by reflexivity. erewrite bind_val by reflexivity. cbn zeta.
  step_bind WriteBytesViaStream_conn. reflexivity.
Qed.
End agent_lemmas.

(** ** Properties *)

(** A SOCKS5 session is transparent towards the service. The pieces that the
    client agent reads from its client go to the gateway as messages; the service
    agent, reading those messages in any chunks at all (it keeps one buffered
    reader), writes to the session's connection exactly the client's bytes, in
    order. *)
Theorem agent_session_up {L : ProtoLib} (w1 w2 : World) (maxAlloc : Z)
    (binary_Unmarshal : bytes -> result ApronSocks5ConnectRequest)
    (rid : string) (g srv : conn) (reads : list (bytes * string)) (bs : list bytes)
    (s : ApronAgentServer) (conns : gmap string conn) (addr : string) (server : source) (b : bufreader)
    (Hmax : maxAlloc < 2 ^ 64) (Hg : accepts w1 g) (Hsrv : accepts w2 srv)
    (Hmessages : Forall2 (fun r m => Marshal
       (mkExtServiceData socks5ServiceName rid r.2 socks5DataMessage r.1) = Ok m) reads bs)
    (Hfit : Forall (fun m : bytes => Z.of_nat (length m) <= maxAlloc) bs)
    (Hconn : conns !! rid = Some srv)
    (Hstream : avail b = concat (frame <$> bs)) :
  exists es1 es2,
    proxy_to_csgw w1 rid (Some g) ((fun r => (Ok r.1, r.2)) <$> reads) s = (Val tt, s, es1) /\
    avail b = written_to g es1 /\
    serveConnection_server w2 binary_Unmarshal addr server
      (ReadBytesViaStream maxAlloc (length bs) (BufReader b)) conns = (Val tt, conns, es2) /\
    written_to srv es2 = concat reads.*1.
Proof.
  eexists _, _. split_and!.
  - by eapply proxy_to_csgw_ok.
  - by rewrite written_frames.
  - rewrite (ReadBytesViaStream_frames maxAlloc Hmax bs b []) by (done || by rewrite app_nil_r).
    eapply (serve_data_run w2 _ _ _ rid reads); [done..|].
    eapply Forall2_impl; [exact Hmessages|]. intros r m Hm.
    apply Unmarshal_Marshal; [|exact Hm]. apply ext_wf. by right.
  - apply written_to_all.
Qed.

Definition example_ext (data : string) : ExtServiceData :=
  mkExtServiceData socks5ServiceName "u.s.1" "m" socks5DataMessage (str_bytes data).

Definition example_agent : ApronAgentServer := mkAgent "agent" ":1080" "csgw:8981" (Some 7%N).

Example agent_session_up_witness : exists es1 es2,
  proxy_to_csgw (L := WireFormat.wire_lib) example_world "u.s.1" (Some 7%N)
    [(Ok (str_bytes "hi"), "m"%string)] example_agent = (Val tt, example_agent, es1) /\
  serveConnection_server (L := WireFormat.wire_lib) example_world (fun _ => Fail io_EOF) "s" (mkSource [] None)
    (ReadBytesViaStream 1000 1 (BufReader (mkBuf []
      (mkSource [take 3 (frame (WireFormat.encoded (example_ext "hi")));
                 drop 3 (frame (WireFormat.encoded (example_ext "hi")))] None))))
    {["u.s.1" := 5%N]} = (Val tt, {["u.s.1" := 5%N]}, es2) /\ written_to 5%N es2 = str_bytes "hi" ++ [].
Proof.
  destruct (agent_session_up (L := WireFormat.wire_lib) example_world example_world 1000
    (fun _ => Fail io_EOF) "u.s.1" 7%N 5%N [(str_bytes "hi", "m"%string)]
    [WireFormat.encoded (example_ext "hi")] example_agent {["u.s.1" := 5%N]} "s" (mkSource [] None)
    (mkBuf [] (mkSource [take 3 (frame (WireFormat.encoded (example_ext "hi")));
                 drop 3 (frame (WireFormat.encoded (example_ext "hi")))] None)))
    as (es1&es2&E1&_&E2&W).
  - lia.
  - intros p. reflexivity.
  - intros p. reflexivity.
  - constructor; [vm_compute; reflexivity|constructor].
  - constructor; [|constructor]. apply (bool_decide_unpack _). vm_compute. exact I.
  - vm_compute. reflexivity.
  - vm_compute. reflexivity.
  - exists es1, es2. split; [exact E1|]. split; [exact E2|exact W].
Defined.

(** The request of a client arrives at the SOCKS5 server. The message that the
    client agent sends for a parsed handshake makes the service agent dial its
    server, carry out the server handshake with that request's own destination,
    and file the connection under the session's request id. *)
Theorem agent_connect {L : ProtoLib} (w1 w2 : World)
    (binary_Marshal : ApronSocks5ConnectRequest -> result bytes)
    (binary_Unmarshal : bytes -> result ApronSocks5ConnectRequest)
    (rid msgId : string) (c g srv : conn) (client : source) (rest : bufreader)
    (r : ApronSocks5ConnectRequest) (content b : bytes) (s : ApronAgentServer)
    (addr : string) (server : source) (conns : gmap string conn) (src' : source) (es : list effect)
    (Hparsed : buildSocks5ConnectRequest w1 c (mkBuf [] client)
       = (Val (Ok r), rest, [Written c (byte_of <$> [socks5Version; socks5AuthNone])]))
    (Hcontent : binary_Marshal r = Ok content) (Hback : binary_Unmarshal content = Ok r)
    (Hb : Marshal (mkExtServiceData socks5ServiceName rid msgId socks5ConnectMessage content) = Ok b)
    (Hg : RemoteSocketConn s = Some g) (Haccg : accepts w1 g) (Haccc : accepts w1 c)
    (Hdial : Dial w2 addr = Ok srv)
    (Hserver : connectToSocks5Service w2 srv r server = (Val tt, src', es)) :
  exists es1,
    send_connect_message w1 binary_Marshal rid msgId c client s = (Val (under rest), s, es1) /\
    frame_writes g b ⊆ es1 /\
    serve_turn w2 binary_Unmarshal addr server (ToDataCh b) conns
    = (Val tt, <[rid := srv]> conns, Dialed addr srv :: es).
Proof.
  eexists. split_and!.
  - by eapply send_connect_message_ok.
  - set_solver.
  - by eapply serve_connect_ok.
Qed.

(** *** What the client agent reads of its client *)

(** A fresh reader takes a chunk, or as much of it as it has room for. *)
Lemma client_read src :
  bufio_Read client_buf_size (NewReader (RawReader src))
  = let '(r, s) := source_Read client_buf_size src in (r, mkBuf [] s).
Proof.
  unfold NewReader. assert (bufio_size <= client_buf_size)%nat as H.
  { apply Nat.leb_le. vm_compute. reflexivity. }
  destruct client_buf_size eqn:E; [by inversion H|]. unfold bufio_Read. cbn [buffered under].
  by rewrite decide_True.
Qed.

Lemma source_Read_ok n src c src' :
  source_Read n src = (IoOk c, src') -> concat (chunks src) = c ++ concat (chunks src') /\ term src' = term src.
Proof.
  unfold source_Read. destruct (chunks src) as [|d cs]; [by destruct (term src)|].
  case_decide; intros [= <- <-]; [done|]. cbn [concat chunks term]. by rewrite app_assoc, take_drop.
Qed.

Lemma source_Read_err n src err src' :
  source_Read n src = (IoErr err, src') -> chunks src = [] /\ src' = src /\ term src = Some err.
Proof.
  unfold source_Read. destruct (chunks src) as [|d cs]; [|by case_decide].
  destruct (term src); intros [=]; by subst.
Qed.

(** The reads up to the end of the client's stream are all of it, in order. *)
Lemma client_reads_bytes turns src ds :
  client_reads turns src = (Ok <$> ds) ++ [Fail io_EOF] -> concat ds = concat (chunks src).
Proof.
  revert src ds. induction turns as [|turns IH]; intros src ds; [by destruct ds|].
  cbn [client_reads]. rewrite client_read.
  destruct (source_Read client_buf_size src) as [[c|err|] src'] eqn:E; [| |by destruct ds].
  - apply source_Read_ok in E as [-> _]. destruct ds as [|d ds]; [done|].
    intros [= -> H]. cbn [concat]. f_equal. by apply IH.
  - apply source_Read_err in E as (->&_&_). by destruct ds.
Qed.

(** As long as the client closes its side, enough turns reach the end. *)
Lemma client_reads_end turns src :
  term src = Some io_EOF -> (length (concat (chunks src)) + length (chunks src) < turns)%nat ->
  exists ds, client_reads turns src = (Ok <$> ds) ++ [Fail io_EOF].
Proof.
  revert src. induction turns as [|turns IH]; intros src Ht Hn; [lia|].
  cbn [client_reads]. rewrite client_read. unfold source_Read.
  destruct (chunks src) as [|c cs] eqn:Hc.
  - rewrite Ht. exists []. reflexivity.
  - cbn [concat length] in Hn. rewrite length_app in Hn.
    assert (0 < client_buf_size)%nat as Hpos by (apply Nat.leb_le; vm_compute; reflexivity).
    case_decide as Hle; cbn [under].
    + destruct (IH (mkSource cs (term src))) as [ds ->]; [done|cbn [chunks]; lia|].
      by exists (c :: ds).
    + destruct (IH (mkSource (drop client_buf_size c :: cs) (term src))) as [ds ->]; [done| |].
      { cbn [chunks concat length]. rewrite length_app, length_drop. lia. }
      by exists (take client_buf_size c :: ds).
Qed.

Definition example_client : source :=
  mkSource [greeting [byte_of 0];
            request_bytes (byte_of 5) (byte_of 1) (byte_of 0) (Domain (str_bytes "a.b")) (byte_of 0) (byte_of 80)]
    None.

Definition example_connect : ApronSocks5ConnectRequest := mkConnect 5 1 "a.b" 80.

Definition example_connect_bytes : bytes :=
  WireFormat.encoded (mkExtServiceData socks5ServiceName "u.s.1" "m" socks5ConnectMessage (str_bytes "req")).

Definition example_server : source := mkSource [byte_of <$> [5; 0]; byte_of <$> [5; 0; 0; 1]] None.

Example agent_connect_witness :
  serve_turn (L := WireFormat.wire_lib) example_world (fun _ => Ok example_connect) "server:1080"
    example_server (ToDataCh example_connect_bytes) ∅
  = (Val tt, {["u.s.1" := 9%N]},
     [Dialed "server:1080" 9%N; Written 9%N auth_request_bytes;
      Written 9%N (connect_request_bytes example_connect)]).
Proof.
  destruct (agent_connect (L := WireFormat.wire_lib) example_world example_world
    (fun _ => Ok (str_bytes "req")) (fun _ => Ok example_connect) "u.s.1" "m" 3%N 7%N 9%N
    example_client (mkBuf [] (mkSource [] None)) example_connect (str_bytes "req")
    example_connect_bytes example_agent "server:1080" example_server ∅ (mkSource [] None)
    [Written 9%N auth_request_bytes; Written 9%N (connect_request_bytes example_connect)])
    as (es1&_&_&E).
  - vm_compute. reflexivity.
  - reflexivity.
  - reflexivity.
  - vm_compute. reflexivity.
  - reflexivity.
  - intros p. reflexivity.
  - intros p. reflexivity.
  - reflexivity.
  - vm_compute. reflexivity.
  - exact E.
Defined.

(** C40: clients of one agent get into each other's sessions. The connection to the
    gateway is a field of the agent, and a client's first message goes to whatever
    that field holds when it is sent: if a second client has connected meanwhile,
    the first client's request is written on the second's session, and nothing
    but the init request ever reaches its own. *)
Theorem agent_connections_mixed {L : ProtoLib} (w1 w2 : World)
    (binary_Marshal : ApronSocks5ConnectRequest -> result bytes) (env : option string)
    (msgId : string) (c g1 g2 : conn) (client : source) (rest : bufreader)
    (r : ApronSocks5ConnectRequest) (content b : bytes) (s : ApronAgentServer)
    (rid := build_request_id "shouldBeUid" (default "apron_hello_socks5"%string env) (uuid_New w1))
    (Hg : g1 <> g2) (Hc : c <> g1)
    (Hdial1 : Dial w1 (RemoteSocketAddr s) = Ok g1) (Hdial2 : Dial w2 (RemoteSocketAddr s) = Ok g2)
    (Hacc : forall k, accepts w1 k) (Hacc2 : accepts w2 g2)
    (Hparsed : buildSocks5ConnectRequest w1 c (mkBuf [] client)
       = (Val (Ok r), rest, [Written c (byte_of <$> [socks5Version; socks5AuthNone])]))
    (Hcontent : binary_Marshal r = Ok content)
    (Hb : Marshal (mkExtServiceData socks5ServiceName rid msgId socks5ConnectMessage content) = Ok b) :
  exists es1 rid2 es2 es3,
    connectToCsgwAndSendInitRequest w1 env s = (Val (Ok rid), set_RemoteSocketConn g1 s, es1) /\
    connectToCsgwAndSendInitRequest w2 env (set_RemoteSocketConn g1 s)
    = (Val (Ok rid2), set_RemoteSocketConn g2 s, es2) /\
    send_connect_message w1 binary_Marshal rid msgId c client (set_RemoteSocketConn g2 s)
    = (Val (under rest), set_RemoteSocketConn g2 s, es3) /\
    written_to g1 es3 = [] /\ frame_writes g2 b ⊆ es3.
Proof.
  destruct (connectToCsgw_ok w1 env g1 s Hdial1 (Hacc g1)) as (rid1&b1&es1&E1&_&->).
  destruct (connectToCsgw_ok w2 env g2 (set_RemoteSocketConn g1 s) Hdial2 Hacc2) as (rid2&b2&es2&E2&_&_).
  eexists _, _, _, _. split_and!; [exact E1|exact E2| | |].
  - by apply (send_connect_message_ok w1 binary_Marshal rid msgId c client r rest content b g2).
  - unfold written_to, frame_writes. cbn -[be_put].
    by rewrite !decide_False by congruence.
  - set_solver.
Qed.

(** A world that dials to the given connection. *)
Definition world_dialing (g : conn) : World :=
  mkWorld "QmSelf" (fun _ _ => Ok 7%N) (fun s => Ok s) (fun _ => Ok g) (fun _ _ => None)
    (fun _ _ => None) "uuid" (fun k => N.of_nat k).

Definition example_mixed_bytes : bytes :=
  WireFormat.encoded (mkExtServiceData socks5ServiceName "shouldBeUid.s.uuid" "m" socks5ConnectMessage
    (str_bytes "req")).

Example agent_connections_mixed_witness : exists s es,
  send_connect_message (L := WireFormat.wire_lib) (world_dialing 1) (fun _ => Ok (str_bytes "req"))
    "shouldBeUid.s.uuid" "m" 3%N example_client s = (Val (mkSource [] None), s, es) /\
  written_to 1%N es = [] /\ frame_writes 2%N example_mixed_bytes ⊆ es.
Proof.
  destruct (agent_connections_mixed (L := WireFormat.wire_lib) (world_dialing 1) (world_dialing 2)
    (fun _ => Ok (str_bytes "req")) (Some "s"%string) "m" 3%N 1%N 2%N example_client
    (mkBuf [] (mkSource [] None)) example_connect (str_bytes "req") example_mixed_bytes example_agent)
    as (es1&rid2&es2&es3&_&_&E&W&F).
  - discriminate.
  - discriminate.
  - reflexivity.
  - reflexivity.
  - intros k p. reflexivity.
  - intros p. reflexivity.
  - vm_compute. reflexivity.
  - reflexivity.
  - vm_compute. reflexivity.
  - exists (set_RemoteSocketConn 2%N example_agent), es3. split; [exact E|]. split; [exact W|exact F].
Defined.

(** Answers of a service get lost on the way back. The service agent writes its
    messages without a length, so two that the gateway reads at once arrive at
    the client agent as one frame; they decode as one message, whose content is
    the second's, and the client never gets the first. *)
Theorem agent_answers_merged {L : ProtoLib} (w1 w2 : World) (rid id1 id2 : string) (ssgw c : conn)
    (d1 d2 a b : bytes) (s : ApronAgentServer) (conns : gmap string conn)
    (Hssgw : accepts w2 ssgw) (Hc : accepts w1 c) (Hd2 : d2 <> [])
    (Ha : Marshal (mkExtServiceData socks5ServiceName rid id1 socks5DataMessage d1) = Ok a)
    (Hb : Marshal (mkExtServiceData socks5ServiceName rid id2 socks5DataMessage d2) = Ok b) :
  answer_ssgw w2 rid ssgw [(Ok d1, id1); (Ok d2, id2)] conns
  = (Val tt, conns, [Written ssgw a; Written ssgw b]) /\
  proxy_to_client w1 c [Ok a; Ok b] s = (Val tt, s, [Written c d1; Written c d2]) /\
  proxy_to_client w1 c [Ok (a ++ b)] s = (Val tt, s, [Written c d2]).
Proof.
  assert (forall id d, proto_wf (mkExtServiceData socks5ServiceName rid id socks5DataMessage d)) as Hwf
    by (intros; apply ext_wf; by right).
  split_and!.
  - cbn [answer_ssgw]. cbn [must]. rewrite bind_pure, Ha. cbn [must]. rewrite bind_pure.
    step_bind conn_Write_ok. rewrite bind_pure, Hb. cbn [must]. rewrite bind_pure.
    step_bind conn_Write_ok. reflexivity.
  - cbn [proxy_to_client]. rewrite (Unmarshal_Marshal _ a (Hwf id1 d1) Ha).
    step_bind conn_Write_ok. rewrite (Unmarshal_Marshal _ b (Hwf id2 d2) Hb).
    step_bind conn_Write_ok. reflexivity.
  - cbn [proxy_to_client]. rewrite (Unmarshal_merged _ _ a b (Hwf id1 d1) (Hwf id2 d2) Ha Hb).
    rewrite merged_content by done. step_bind conn_Write_ok. reflexivity.
Qed.

Example agent_answers_merged_witness :
  proxy_to_client (L := WireFormat.wire_lib) example_world 3%N
    [Ok (WireFormat.encoded (example_ext "one") ++ WireFormat.encoded (example_ext "two"))] example_agent
  = (Val tt, example_agent, [Written 3%N (str_bytes "two")]).
Proof.
  apply (agent_answers_merged (L := WireFormat.wire_lib) example_world example_world "u.s.1" "m" "m"
    4%N 3%N (str_bytes "one") (str_bytes "two") (WireFormat.encoded (example_ext "one"))
    (WireFormat.encoded (example_ext "two")) example_agent ∅).
  - intros p. reflexivity.
  - intros p. reflexivity.
  - discriminate.
  - vm_compute. reflexivity.
  - vm_compute. reflexivity.
Defined.
