(* ===== verification/Management.v ===== *)
(** The management API as its callers see it: the routes of
    [StartMgmtApiServer] with the handlers of [Node] behind them, and the one
    caller in the repository, a service agent that registers itself
    ([internal/utils.go], [prepareAgent] and [ListenAndServe] of
    [apron_agent_server.go]). *)

From S2P Require Import Prelude Messages RequestDetail UsageRecord Json ServiceJson Node World Agent.
From S2P Require WireFormat.

(** ** The server *)

Inductive mgmt_op :=
  | ListServices | NewOrUpdateService | DeleteService | ListLocal | ListRemote | ListPeers.

#[export] Instance mgmt_op_eq_dec : EqDecision mgmt_op.
Proof. solve_decision. Defined.

(** What [serviceRouter] is told, under [/service]. *)
Definition serviceRouter : list (string * string * mgmt_op) :=
  [("GET", "/", ListServices);
   ("POST", "/", NewOrUpdateService);
   ("DELETE", "/", DeleteService);
   ("GET", "/local", ListLocal);
   ("GET", "/remote", ListRemote);
   ("GET", "/peers", ListPeers)]%string.

Fixpoint route (method path : string) (routes : list (string * string * mgmt_op)) : option mgmt_op :=
  match routes with
  | [] => None
  | (m, p, op) :: routes =>
      if decide (method = m /\ path = "/service" +:+ p) then Some op else route method path routes
  end.

Section server.
Context {L : ProtoLib}.

(** The answer of the topic, the printed form of a peer id, and the orders in
    which the handlers range over their maps. *)
Context (publish : bytes -> option goerror) (pretty : peer_ID -> string)
        (range_services : gmap string ApronService -> list (string * ApronService))
        (range_peers : gmap string peer_ID -> list (string * peer_ID)).

(** What the router does with a request that no route matches. *)
Context (not_found : string -> string -> Handler unit).

Definition mgmt_handler (op : mgmt_op) (body : bytes) : Handler unit :=
  n ← get;
  match op with
  | ListServices => listServiceHandler (range_services (services n))
  | NewOrUpdateService => newOrUpdateServiceHandler publish body
  | DeleteService => deleteServiceHandler publish body
  | ListLocal => listLocalServiceHandler (range_peers (servicePeerMapping n))
  | ListRemote => listRemoteServiceHandler (range_peers (servicePeerMapping n))
  | ListPeers => listServicePeerHandler pretty (range_peers (servicePeerMapping n))
  end.

Definition StartMgmtApiServer (method path : string) (body : bytes) : Handler unit :=
  match route method path serviceRouter with
  | Some op => mgmt_handler op body
  | None => not_found method path
  end.
End server.

(** ** The agent that registers itself *)

(** [RegisterServiceToSSGW]; [Do] is [fasthttp.Do] of a request with this
    address, method and body, and gives the body of the response. *)
Definition RegisterServiceToSSGW {S E} (Do : string -> string -> bytes -> M S E (result bytes))
    (ssgwMgmtAddr : string) (serviceData : ApronService) : M S E (result bytes) :=
  let newServiceReqBytes := json_Marshal_service serviceData in
  resp ← Do ssgwMgmtAddr "POST" newServiceReqBytes;
  match resp with
  | Fail err => mret (Fail err)
  | Ok respBytes => mret (Ok respBytes)
  end.

Inductive ApronServerMode := ClientAgentMode | ServerAgentMode.

(** The rest of [ApronAgentServerConfig]. *)
Record AgentConfig := mkAgentConfig {
  Mode : ApronServerMode;
  RestMgmtAddr : string;
  agentConfig : ApronAgentServer
}.

Section agent.
Context {S E : Type} (Do : string -> string -> bytes -> M S E (result bytes)).

(** [logger.Panic] panics with its message. *)
Definition prepareAgent (s : AgentConfig) (listenAddr : string) : M S E (option goerror) :=
  match Mode s with
  | ClientAgentMode => mret None
  | ServerAgentMode =>
      let a := agentConfig s in
      respBytes ← RegisterServiceToSSGW Do (RestMgmtAddr s)
        (agent_service (mkAgent (AgentId a) listenAddr (RemoteSocketAddr a) (RemoteSocketConn a)));
      match respBytes with
      | Fail err => panic "Register service error"
      | Ok _ => mret None
      end
  end.

(** The loop of [Accept]: the connections that get a goroutine of
    [serveConnection], and the error that ends the loop. *)
Fixpoint accept_loop (accepted : list (result conn)) : list conn * option goerror :=
  match accepted with
  | [] => ([], None)
  | Fail err :: _ => ([], Some err)
  | Ok c :: accepted => let '(cs, err) := accept_loop accepted in (c :: cs, err)
  end.

(** [listen] is what [net.Listen] answers on an address. *)
Definition ListenAndServe (listen : string -> option goerror) (accepted : list (result conn))
    (s : AgentConfig) : M S E (list conn * option goerror) :=
  err ← prepareAgent s (ListenAddr (agentConfig s));
  CheckError err;;
  match listen (ListenAddr (agentConfig s)) with
  | Some err => mret ([], Some err)
  | None => mret (accept_loop accepted)
  end.
End agent.

(** What [fasthttp.Do] gives for the agent's request. [reach] is what becomes of an
    address: an error, as for an empty one or a host that nobody answers for, or
    the host it reaches and the path of the request. A request that reaches the
    management API of the gateway, which listens at [mgmt], goes to its router,
    whose handlers of changes write no body; another host answers as it likes. *)
Definition ssgw_Do {L : ProtoLib} (reach : string -> result (string * string)) (mgmt : string)
    (elsewhere : string -> result bytes) (publish : bytes -> option goerror)
    (not_found : string -> string -> Handler unit) (addr method : string) (body : bytes)
    : Handler (result bytes) :=
  match reach addr with
  | Fail err => mret (Fail err)
  | Ok (host, path) =>
      if decide (host = mgmt) then
        StartMgmtApiServer publish id map_to_list map_to_list not_found method path body;;
        mret (Ok [])
      else mret (elsewhere addr)
  end.

(** [ServiceHostnameToIdByte]: [bytes.Replace] of every dot. *)
Definition ServiceHostnameToIdByte (hostname : bytes) : bytes :=
  (fun c => if decide (c = "."%char) then "_"%char else c) <$> hostname.

(** ** Lemmas *)

Lemma elem_of_filter_services keep n order s :
  registry_ok n -> order ≡ₚ map_to_list (servicePeerMapping n) ->
  s ∈ filter_services keep n order <->
  exists v, directory n !! Service_Id s = Some (v, s) /\ keep v = true.
Proof.
  intros Hn Ho. rewrite filter_services_spec, list_elem_of_fmap. split.
  - intros ([k v]&->&[Hk Hin]%list_elem_of_filter). rewrite Ho, elem_of_map_to_list in Hin. cbn in *.
    destruct (proj1 (registry_lookup n k Hn) (mk_is_Some _ _ Hin)) as [s' Hs]. rewrite Hs. cbn.
    destruct (proj2 Hn k s' Hs) as [<- _]. exists v. rewrite directory_lookup_Some.
    split; [done|]. by destruct (keep v).
  - intros (v&[Hv Hs]%directory_lookup_Some&Hk). exists (Service_Id s, v). cbn. rewrite Hs. split; [done|].
    rewrite list_elem_of_filter, Ho, elem_of_map_to_list. cbn. by rewrite Hk.
Qed.

Lemma elem_of_services n order s :
  registry_ok n -> order ≡ₚ map_to_list (services n) ->
  s ∈ order.*2 <-> exists v, directory n !! Service_Id s = Some (v, s).
Proof.
  intros Hn Ho. rewrite list_elem_of_fmap. split.
  - intros ([k s']&->&Hin). rewrite Ho, elem_of_map_to_list in Hin. cbn in *.
    destruct (proj2 Hn k s' Hin) as [-> _].
    destruct (proj2 (registry_lookup n _ Hn) (mk_is_Some _ _ Hin)) as [v Hv].
    exists v. by apply directory_lookup_Some.
  - intros (v&[_ Hs]%directory_lookup_Some). exists (Service_Id s, s).
    by rewrite Ho, elem_of_map_to_list.
Qed.

(** The list of peers is the mapping, printed, in whatever order it was gone through. *)
Lemma fold_peers (pretty : peer_ID -> string) (order : list (string * peer_ID)) (m : gmap string peer_ID) :
  order ≡ₚ map_to_list m ->
  fold_left (fun rslt kv => <[kv.1 := pretty kv.2]> rslt) order ∅ = pretty <$> m.
Proof.
  intros Ho. assert (NoDup order.*1) as Hnd by (rewrite Ho; apply NoDup_fst_map_to_list).
  assert (list_to_map order = m) as <- by (rewrite (list_to_map_proper _ _ Hnd Ho); apply list_to_map_to_list).
  clear Ho. cut (forall acc : gmap string string,
    fold_left (fun rslt kv => <[kv.1 := pretty kv.2]> rslt) order acc = (pretty <$> list_to_map order) ∪ acc).
  { intros ->. apply map_union_empty. }
  induction order as [|[k v] order IH]; intros acc; cbn.
  - by rewrite fmap_empty, map_empty_union.
  - apply NoDup_cons in Hnd as [Hk Hnd]. rewrite IH, fmap_insert by done.
    rewrite <- insert_union_l, <- insert_union_r; [done|].
    rewrite lookup_fmap, (not_elem_of_list_to_map_1 order k Hk). done.
Qed.

Section lists.
Context {L : ProtoLib} (publish : bytes -> option goerror) (pretty : peer_ID -> string)
        (range_services : gmap string ApronService -> list (string * ApronService))
        (range_peers : gmap string peer_ID -> list (string * peer_ID))
        (not_found : string -> string -> Handler unit)
        (Hs : forall m, range_services m ≡ₚ map_to_list m)
        (Hp : forall m, range_peers m ≡ₚ map_to_list m).

Abbreviation call := (StartMgmtApiServer publish pretty range_services range_peers not_found).

(** What a list says, as the owners and the services of the directory. *)
Definition lists (n : Node) (b : bytes) (keep : peer_ID -> Prop) : Prop :=
  exists l, json_Unmarshal_services b = Ok l /\
    forall s, s ∈ l <-> exists v, directory n !! Service_Id s = Some (v, s) /\ keep v.

Context (n : Node) (Hn : registry_ok n) (Ht : dir_typed (directory n)).

Lemma call_list body : exists b,
  call "GET" "/service/" body n = (Val tt, n, [CtxWrite b]) /\ lists n b (fun _ => True).
Proof.
  eexists. split; [reflexivity|]. eexists. split.
  - apply Unmarshal_Marshal_services. rewrite Hs. by apply services_typed.
  - intros s. rewrite elem_of_services by done. naive_solver.
Qed.

Lemma call_local body : exists b,
  call "GET" "/service/local" body n = (Val tt, n, [CtxWrite b]) /\ lists n b (fun v => v = selfID n).
Proof.
  eexists. split; [reflexivity|]. eexists. split.
  - apply Unmarshal_Marshal_services. by apply filter_services_typed.
  - intros s. rewrite elem_of_filter_services by done. by setoid_rewrite bool_decide_eq_true.
Qed.

Lemma call_remote body : exists b,
  call "GET" "/service/remote" body n = (Val tt, n, [CtxWrite b]) /\ lists n b (fun v => v <> selfID n).
Proof.
  eexists. split; [reflexivity|]. eexists. split.
  - apply Unmarshal_Marshal_services. by apply filter_services_typed.
  - intros s. rewrite elem_of_filter_services by done.
    by setoid_rewrite negb_true_iff; setoid_rewrite bool_decide_eq_false.
Qed.

Lemma call_peers body :
  call "GET" "/service/peers" body n
  = (Val tt, n, [CtxWrite (json_Marshal_strings (pretty <$> servicePeerMapping n))]).
Proof. rewrite <- (fold_peers pretty (range_peers (servicePeerMapping n))) by done. reflexivity. Qed.
End lists.

Section registration.
Context {L : ProtoLib} (publish : bytes -> option goerror) (pretty : peer_ID -> string)
        (range_services : gmap string ApronService -> list (string * ApronService))
        (range_peers : gmap string peer_ID -> list (string * peer_ID))
        (not_found : string -> string -> Handler unit).

Abbreviation call := (StartMgmtApiServer publish pretty range_services range_peers not_found).

Lemma call_post body n : call "POST" "/service/" body n = newOrUpdateServiceHandler publish body n.
Proof. exact (bind_get (fun _ => newOrUpdateServiceHandler publish body) n). Qed.

Lemma call_delete body n : call "DELETE" "/service/" body n = deleteServiceHandler publish body n.
Proof. exact (bind_get (fun _ => deleteServiceHandler publish body) n). Qed.

Lemma RegisterLocalService_ok s data n :
  Marshal s = Ok data -> publish data = None ->
  RegisterLocalService publish s n =
  (Val tt, store_service (selfID n) s n, [Published BroadcastServiceChannel data]).
Proof. intros Hd Hp. unfold RegisterLocalService, BroadcastService. run_handler. by rewrite Hd, Hp. Qed.

(** What a call that changes the registry does to it. *)
Lemma post_returns body s n n' es :
  json_Unmarshal_service body = Ok s -> call "POST" "/service/" body n = (Val tt, n', es) ->
  n' = store_service (selfID n) s n.
Proof.
  rewrite call_post. unfold newOrUpdateServiceHandler. intros ->. cbn [must]. rewrite bind_pure.
  by intros [-> _]%RegisterLocalService_returns.
Qed.

Lemma delete_returns body s n n' es :
  json_Unmarshal_service body = Ok s -> call "DELETE" "/service/" body n = (Val tt, n', es) ->
  n' = drop_service (Service_Id s) n.
Proof.
  rewrite call_delete. unfold deleteServiceHandler. intros ->. cbn [must]. rewrite bind_pure.
  by intros [-> _]%RegisterLocalService_returns.
Qed.
End registration.

(** The agent's request, at the gateway. *)
Lemma ssgw_Do_post {L : ProtoLib} reach mgmt elsewhere publish not_found addr body s data n :
  reach addr = Ok (mgmt, "/service/"%string) ->
  json_Unmarshal_service body = Ok s -> Marshal s = Ok data -> publish data = None ->
  ssgw_Do reach mgmt elsewhere publish not_found addr "POST" body n =
  (Val (Ok []), store_service (selfID n) s n, [Published BroadcastServiceChannel data]).
Proof.
  intros Haddr Hj Hd Hp. unfold ssgw_Do. rewrite Haddr, decide_True by done.
  rewrite (bind_val _ _ _ tt (store_service (selfID n) s n) [Published BroadcastServiceChannel data]);
    [reflexivity|].
  rewrite call_post. unfold newOrUpdateServiceHandler. rewrite Hj. cbn [must]. rewrite bind_pure.
  by apply RegisterLocalService_ok.
Qed.

(** ** Properties *)

(** C15: what the management API is for. When a service, not marked as deleted,
    has been registered by a POST, the local list, as JSON, holds exactly that service under its id, the
    remote list holds none, and the list of peers gives this node for it; when any
    body with that id has been sent to DELETE, it is in none of the four lists: the
    full, the local, the remote, and that of the peers. *)
Theorem register_list_delete {L : ProtoLib} (publish : bytes -> option goerror)
    (pretty : peer_ID -> string) (not_found : string -> string -> Handler unit)
    (range_services : gmap string ApronService -> list (string * ApronService))
    (range_peers : gmap string peer_ID -> list (string * peer_ID))
    (n n1 n2 : Node) (body body' : bytes) (s s' : ApronService) (es es' : list effect)
    (Hs : forall m, range_services m ≡ₚ map_to_list m) (Hp : forall m, range_peers m ≡ₚ map_to_list m)
    (Hn : registry_ok n) (Ht : dir_typed (directory n))
    (Hbody : json_Unmarshal_service body = Ok s) (Halive : Service_IsDeleted s = false)
    (Hbody' : json_Unmarshal_service body' = Ok s') (Hid : Service_Id s' = Service_Id s)
    (call := StartMgmtApiServer publish pretty range_services range_peers not_found)
    (Hpost : call "POST" "/service/" body n = (Val tt, n1, es))
    (Hdelete : call "DELETE" "/service/" body' n1 = (Val tt, n2, es')) :
  (exists b l, call "GET" "/service/local" [] n1 = (Val tt, n1, [CtxWrite b]) /\
     json_Unmarshal_services b = Ok l /\
     forall x, Service_Id x = Service_Id s -> x ∈ l <-> x = s) /\
  (exists b l, call "GET" "/service/remote" [] n1 = (Val tt, n1, [CtxWrite b]) /\
     json_Unmarshal_services b = Ok l /\ forall x, x ∈ l -> Service_Id x <> Service_Id s) /\
  (exists peers, call "GET" "/service/peers" [] n1 = (Val tt, n1, [CtxWrite (json_Marshal_strings peers)]) /\
     peers !! Service_Id s = Some (pretty (selfID n))) /\
  (forall list_path, list_path ∈ ["/service/"; "/service/local"; "/service/remote"]%string ->
     exists b l, call "GET" list_path [] n2 = (Val tt, n2, [CtxWrite b]) /\
     json_Unmarshal_services b = Ok l /\ forall x, x ∈ l -> Service_Id x <> Service_Id s) /\
  (exists peers, call "GET" "/service/peers" [] n2 = (Val tt, n2, [CtxWrite (json_Marshal_strings peers)]) /\
     peers !! Service_Id s = None).
Proof.
  apply (post_returns _ _ _ _ _ _ s) in Hpost as E1; [|done].
  apply (delete_returns _ _ _ _ _ _ s') in Hdelete as E2; [|done].
  assert (directory n1 = <[Service_Id s := (selfID n, s)]> (directory n)) as D1.
  { rewrite E1, directory_store. unfold dir_store. by rewrite Halive. }
  assert (selfID n1 = selfID n) as Hself by (rewrite E1; unfold store_service; by rewrite Halive).
  assert (registry_ok n1) as Hn1 by (rewrite E1; auto with gw).
  assert (dir_typed (directory n1)) as Ht1.
  { rewrite E1, directory_store. apply dir_store_typed; [by eapply Unmarshal_service_typed|done]. }
  assert (directory n2 = delete (Service_Id s) (directory n1)) as D2
    by (rewrite E2, directory_drop; by rewrite Hid).
  assert (registry_ok n2) as Hn2 by (rewrite E2; auto with gw).
  assert (dir_typed (directory n2)) as Ht2 by (rewrite D2; by apply map_Forall_delete).
  split_and!.
  - edestruct (call_local publish pretty range_services range_peers not_found Hp n1 Hn1 Ht1 [])
      as (b&E&l&Hl&Hin). exists b, l. split_and!; [exact E|exact Hl|].
    intros x Hx. rewrite Hin, D1, Hx, lookup_insert_eq, Hself. naive_solver.
  - edestruct (call_remote publish pretty range_services range_peers not_found Hp n1 Hn1 Ht1 [])
      as (b&E&l&Hl&Hin). exists b, l. split_and!; [exact E|exact Hl|].
    intros x Hx Hxs. revert Hx. rewrite Hin, D1, Hxs, lookup_insert_eq, Hself. naive_solver.
  - eexists. split; [by apply call_peers|]. rewrite <- (directory_fst n1 Hn1), D1.
    by rewrite !lookup_fmap, lookup_insert_eq.
  - assert (forall b keep, lists n2 b keep -> exists l, json_Unmarshal_services b = Ok l /\
      forall x, x ∈ l -> Service_Id x <> Service_Id s) as Hgone.
    { intros b keep (l&Hl&Hin). exists l. split; [done|]. intros x Hx Hxs. revert Hx.
      rewrite Hin, D2, Hxs, lookup_delete_eq. naive_solver. }
    intros list_path [->|[->|[->|[]%not_elem_of_nil]%elem_of_cons]%elem_of_cons]%elem_of_cons.
    + edestruct (call_list publish pretty range_services range_peers not_found Hs n2 Hn2 Ht2 [])
        as (b&E&(l&H)%Hgone). by exists b, l.
    + edestruct (call_local publish pretty range_services range_peers not_found Hp n2 Hn2 Ht2 [])
        as (b&E&(l&H)%Hgone). by exists b, l.
    + edestruct (call_remote publish pretty range_services range_peers not_found Hp n2 Hn2 Ht2 [])
        as (b&E&(l&H)%Hgone). by exists b, l.
  - eexists. split; [by apply call_peers|]. rewrite <- (directory_fst n2 Hn2), D2.
    by rewrite !lookup_fmap, lookup_delete_eq.
Qed.

Definition example_body : bytes := json_Marshal_service (example_service "local_svc1").
(** A field name in capitals is as good. *)
Definition example_delete_body : bytes :=
  json_print (JObject [(str_bytes "ID", JString (str_bytes "local_svc1"))]).

Definition example_not_found (method path : string) : Handler unit := mret tt.

Definition example_call : string -> string -> bytes -> Handler unit :=
  StartMgmtApiServer (L := WireFormat.wire_lib) (fun _ => None) id map_to_list map_to_list example_not_found.

Definition after (m : Handler unit) (n : Node) : Node := state_of (m n).

Example register_list_delete_witness :
  let n1 := after (example_call "POST" "/service/" example_body) example_node in
  exists b l, example_call "GET" "/service/local" [] n1 = (Val tt, n1, [CtxWrite b]) /\
    json_Unmarshal_services b = Ok l /\ example_service "local_svc1" ∈ l.
Proof.
  set (n1 := after (example_call "POST" "/service/" example_body) example_node).
  destruct (register_list_delete (L := WireFormat.wire_lib) (fun _ => None) id example_not_found
              map_to_list map_to_list example_node n1
              (after (example_call "DELETE" "/service/" example_delete_body) n1)
              example_body example_delete_body
              (example_service "local_svc1")
              (mkService "local_svc1" "" "" "" "" "" [] false)
              (effects_of (example_call "POST" "/service/" example_body example_node))
              (effects_of (example_call "DELETE" "/service/" example_delete_body n1)))
    as [(b&l&E&Hl&Hin) _].
  - intros m. reflexivity.
  - intros m. reflexivity.
  - apply NewNode_ok.
  - apply NewNode_typed.
  - vm_compute. reflexivity.
  - reflexivity.
  - vm_compute. reflexivity.
  - reflexivity.
  - vm_compute. reflexivity.
  - vm_compute. reflexivity.
  - exists b, l. split_and!; [exact E|exact Hl|]. by apply Hin.
Defined.

(** A service agent that is started: its registration, then what listening gives. *)
Lemma ListenAndServe_registers {L : ProtoLib} reach mgmt elsewhere publish not_found listen accepted s n data
    (service := agent_service (agentConfig s)) :
  Mode s = ServerAgentMode -> text (AgentId (agentConfig s)) -> text (ListenAddr (agentConfig s)) ->
  reach (RestMgmtAddr s) = Ok (mgmt, "/service/"%string) ->
  Marshal service = Ok data -> publish data = None ->
  ListenAndServe (ssgw_Do reach mgmt elsewhere publish not_found) listen accepted s n
  = (Val (match listen (ListenAddr (agentConfig s)) with
          | Some err => ([], Some err)
          | None => accept_loop accepted
          end), store_service (selfID n) service n, [Published BroadcastServiceChannel data]).
Proof.
  destruct s as [mode addr [aid laddr raddr rconn]]. cbn in *. intros -> Hid Haddr Hreach Hdata Hpublish.
  assert (json_Unmarshal_service (json_Marshal_service service) = Ok service) as Hj.
  { apply Unmarshal_Marshal_service. split; [rewrite !Forall_cons; by split_and!|].
    constructor; [|constructor]. unfold from_option_typed, provider_typed, int_range. cbn.
    rewrite !Forall_cons. split_and!; done || lia. }
  unfold ListenAndServe, prepareAgent, RegisterServiceToSSGW. cbn [Mode agentConfig RestMgmtAddr].
  pose proof (ssgw_Do_post reach mgmt elsewhere publish not_found addr _ service data n Hreach Hj Hdata Hpublish) as E.
  unfold service in *. run_handler. rewrite E. cbn. by destruct (listen laddr).
Qed.

(** ... and when its request gets no answer: it panics, before it listens. *)
Lemma ListenAndServe_unreached {L : ProtoLib} reach mgmt elsewhere publish not_found listen accepted s n err :
  Mode s = ServerAgentMode -> reach (RestMgmtAddr s) = Fail err ->
  ListenAndServe (ssgw_Do reach mgmt elsewhere publish not_found) listen accepted s n
  = (Panic "Register service error", n, []).
Proof.
  intros Hmode Hreach. unfold ListenAndServe, prepareAgent, RegisterServiceToSSGW, ssgw_Do.
  rewrite Hmode, Hreach. reflexivity.
Qed.

(** A service agent that is started registers itself with its gateway before
    it listens: when its address leads to the registration of a gateway's
    management API, the POST its request becomes puts exactly one service into that
    gateway's directory, under the agent's id and the gateway's own peer id,
    with the address the agent is about to listen on as the base URL of its
    provider. The service stays registered when listening then fails. *)
Theorem agent_registered {L : ProtoLib} (reach : string -> result (string * string)) (mgmt : string)
    (elsewhere : string -> result bytes) (publish : bytes -> option goerror)
    (not_found : string -> string -> Handler unit) (listen : string -> option goerror)
    (accepted : list (result conn)) (s : AgentConfig) (n : Node) (data : bytes)
    (service := agent_service (agentConfig s))
    (Hmode : Mode s = ServerAgentMode)
    (Hid : text (AgentId (agentConfig s))) (Haddr : text (ListenAddr (agentConfig s)))
    (Hreach : reach (RestMgmtAddr s) = Ok (mgmt, "/service/"%string))
    (Hdata : Marshal service = Ok data) (Hpublish : publish data = None) :
  exists r n',
    ListenAndServe (ssgw_Do reach mgmt elsewhere publish not_found) listen accepted s n
    = (Val r, n', [Published BroadcastServiceChannel data]) /\
    directory n' = <[AgentId (agentConfig s) := (selfID n, service)]> (directory n) /\
    registry_frame n n' /\
    (exists p, Service_Providers service = [Some p] /\ Provider_BaseUrl p = ListenAddr (agentConfig s)) /\
    r = match listen (ListenAddr (agentConfig s)) with
        | Some err => ([], Some err)
        | None => accept_loop accepted
        end.
Proof.
  exists (match listen (ListenAddr (agentConfig s)) with Some err => ([], Some err) | None => accept_loop accepted end),
    (store_service (selfID n) service n). split_and!.
  - by apply ListenAndServe_registers.
  - rewrite directory_store. reflexivity.
  - apply store_frame.
  - eexists. split; reflexivity.
  - reflexivity.
Qed.

Definition example_agent : AgentConfig :=
  mkAgentConfig ServerAgentMode "http://localhost:8082/service/"
    (mkAgent "local_svc1" "localhost:10080" "localhost:1080" None).

(** Two addresses that lead somewhere. *)
Definition example_reach (addr : string) : result (string * string) :=
  if decide (addr = "http://localhost:8082/service/") then Ok ("localhost:8082", "/service/")
  else if decide (addr = "http://alice_ssgw:8082/service/") then Ok ("alice_ssgw:8082", "/service/")
  else Fail (errors_New "no such host").

Example agent_registered_witness : exists r n' data,
  ListenAndServe (ssgw_Do (L := WireFormat.wire_lib) example_reach "localhost:8082" (fun _ => Ok [])
      (fun _ => None) example_not_found)
    (fun _ => None) [Ok 3%N; Fail (errors_New "closed")] example_agent example_node
  = (Val r, n', [Published BroadcastServiceChannel data]) /\
  directory n' !! "local_svc1"%string = Some ("self"%string, agent_service (agentConfig example_agent)) /\
  r.1 = [3%N].
Proof.
  destruct (Marshal (H := WireFormat.wire_lib) (agent_service (agentConfig example_agent)))
    as [data|] eqn:Hdata; [|by vm_compute in Hdata].
  destruct (agent_registered (L := WireFormat.wire_lib) example_reach "localhost:8082" (fun _ => Ok [])
              (fun _ => None) example_not_found
              (fun _ => None) [Ok 3%N; Fail (errors_New "closed")] example_agent example_node data)
    as (r&n'&E&D&_&_&Hr); [reflexivity|reflexivity|reflexivity|reflexivity|exact Hdata|reflexivity|].
  exists r, n', data. split_and!; [exact E|by rewrite D, lookup_insert_eq|by rewrite Hr].
Defined.

(** A body that is not the JSON of a service ends the gateway: the handler of
    POST and of DELETE panics on it before anything is stored or published, and
    nothing recovers. *)
Theorem malformed_body_panics {L : ProtoLib} (publish : bytes -> option goerror)
    (pretty : peer_ID -> string) (not_found : string -> string -> Handler unit)
    (range_services : gmap string ApronService -> list (string * ApronService))
    (range_peers : gmap string peer_ID -> list (string * peer_ID))
    (n : Node) (body : bytes) (err : goerror) (method : string)
    (Hmethod : method = "POST"%string \/ method = "DELETE"%string)
    (Hbody : json_Unmarshal_service body = Fail err) :
  StartMgmtApiServer publish pretty range_services range_peers not_found method "/service/" body n
  = (Panic (Error err), n, []).
Proof.
  destruct Hmethod as [-> | ->]; [rewrite call_post|rewrite call_delete].
  - unfold newOrUpdateServiceHandler. by rewrite Hbody.
  - unfold deleteServiceHandler. by rewrite Hbody.
Qed.

Example malformed_body_panics_witness :
  example_call "POST" "/service/" (str_bytes "{") example_node
  = (Panic "invalid JSON", example_node, []).
Proof.
  apply (malformed_body_panics (L := WireFormat.wire_lib) (fun _ => None) id example_not_found
           map_to_list map_to_list example_node (str_bytes "{") (errors_New "invalid JSON") "POST");
    [by left|vm_compute; reflexivity].
Defined.
