(* ===== verification/ClientGateway.v ===== *)
(** The client side of the gateway: [internal/trans_network/csgw_http.go] and
    [csgw_socket.go].

    A handler that waits for something (a response, the next message) is given
    as the part before the wait and the part after it. *)

From S2P Require Import Prelude Messages NetworkHelper RequestDetail UsageRecord Node World.
From S2P Require WireFormat.

Definition StatusInternalServerError : Z := 500.
Definition StatusNotFound : Z := 404.

(** ** csgw_http.go *)

(** Where the handler of a client request stands when its own code has run. *)
Inductive forwarded :=
  | Replied
  | HttpWaiting (req : ApronServiceRequest) (ch : chan)
  | WsServing (req : ApronServiceRequest) (dataStream : option conn).

Section http.
Context {L : ProtoLib} (w : World).

(** [serveHttpRequest] up to its receive, on the channel it has just made. *)
Definition serveHttpRequest_register (req : ApronServiceRequest) : Handler forwarded :=
  let ch := make_chan w 1 in
  modify (fun n => set_clientHttpDataChan (<[Request_RequestId req := ch]> (clientHttpDataChan n)) n);;
  mret (HttpWaiting req ch).

(** ... and after it, with the data received. *)
Definition serveHttpRequest_answer (req : ApronServiceRequest) (respData : bytes) : Handler unit :=
  emit (CtxWrite respData);;
  modify (fun n => set_clientHttpDataChan (delete (Request_RequestId req) (clientHttpDataChan n)) n).

(** [serveWebsocketRequest]: [upgrade] is the error of [upgrader.Upgrade]; the
    error of [NewStream] is overwritten, so the stream may be nil. *)
Definition serveWebsocketRequest (upgrade : option goerror) (peerId : peer_ID)
    (req : ApronServiceRequest) : Handler forwarded :=
  s ← open_stream w peerId ProxyWsDataFromClientSide;
  CheckError upgrade;;
  mret (WsServing req (match s with Ok s => Some s | Fail _ => None end)).

(** The function given to [Upgrade], when the connection has been upgraded. *)
Definition ws_upgraded (req : ApronServiceRequest) (clientWsConn : conn) : Handler unit :=
  modify (set_clientWsConn (Request_RequestId req) clientWsConn).

(** Its goroutine, over the answers of [clientWsConn.ReadMessage]. A panic is
    recovered from; the connection is closed in the end. *)
Fixpoint ws_forward (req : ApronServiceRequest) (dataStream : option conn)
    (messages : list (result bytes)) : Handler unit :=
  match messages with
  | [] => mret tt
  | Fail _ :: _ => mret tt
  | Ok msgBytes :: messages =>
      (* dataStream.Conn() *)
      (match dataStream with None => panic nil_deref | Some _ => mret tt end);;
      forwardDataBytes ← must (Marshal (mkServiceData (Request_RequestId req) msgBytes));
      WriteBytesViaStream (conn_Write w dataStream) forwardDataBytes;;
      ws_forward req dataStream messages
  end.

Definition ws_goroutine (req : ApronServiceRequest) (dataStream : option conn)
    (clientWsConn : conn) (messages : list (result bytes)) : Handler unit :=
  recovering (ws_forward req dataStream messages) (mret tt);;
  emit (Closed clientWsConn).

(** The request handler of [StartForwardService]. [dumped] is what
    [DumpRequestToBytes] gives; [is_ws] is [websocket.FastHTTPIsWebSocketUpgrade]. *)
Definition StartForwardService (is_ws : bool) (upgrade : option goerror)
    (dumped : result bytes) (request : HttpRequest) : Handler forwarded :=
  rawReq ← must dumped;
  let '(clientReqDetail, err) := ExtractRequestDetailFromFasthttpRequest request in
  (match err with
   | Some err =>
       emit (CtxError ("ClientSideGateway: extract service name error: " +:+ Error err)
               StatusInternalServerError)
   | None => mret tt
   end);;
  let serviceNameStr := bytes_str (ServiceName clientReqDetail) in
  n ← get;
  match servicePeerMapping n !! serviceNameStr with
  | None =>
      emit (CtxError "ClientSideGateway: Service not found" StatusNotFound);;
      mret Replied
  | Some servicePeerId =>
  match services n !! serviceNameStr with
  | None =>
      emit (CtxError "ClientSideGateway: Service data missing, contract help" StatusInternalServerError);;
      mret Replied
  | Some service =>
  if decide (length (Service_Providers service) < 1)%nat then
    emit (CtxError "ClientSideGateway: Service data error, contract help" StatusInternalServerError);;
    mret Replied
  else
    let requestId := build_request_id (bytes_str (UserKey clientReqDetail))
                       (ApronService_GetId (Some service)) (uuid_New w) in
    let req := mkServiceRequest (ApronService_GetId (Some service)) requestId (host_ID w) is_ws rawReq in
    modify (set_requestIdChan requestId (make_chan w 0));;
    s ← open_stream w servicePeerId ProxyHttpInitReq;
    match s with
    | Fail err =>
        emit (CtxError (Error err) StatusInternalServerError);;
        mret Replied
    | Ok s =>
        reqBytes ← must (Marshal req);
        WriteBytesViaStream (conn_Write w (Some s)) reqBytes;;
        if is_ws then serveWebsocketRequest upgrade servicePeerId req
        else serveHttpRequest_register req
    end
  end
  end.
End http.

(** ** csgw_socket.go *)

Definition makeslice : string := "runtime error: makeslice: len out of range".

(** What the accepted connection's goroutine ends in: nothing more to do, or the
    loop that forwards the client's data. *)
Inductive accepted :=
  | Rejected
  | Forwarding (requestId : string) (clientSocketDataStream : conn) (rest : source).

Section socket.
Context {L : ProtoLib} (w : World) (maxAlloc : Z).

(** Up to and including [make([]byte, msgLen)] and the one [Read] into it:
    the bytes that [proto.Unmarshal] is given, and the connection that is left
    when the [bufio.Reader] is dropped. *)
Definition read_init_request (conn_src : source) : outcome (bytes * source) :=
  match ReadFull 8 (mkBuf [] conn_src) with
  | (IoErr e, _) => Panic (Error e)
  | (IoBlock, _) => Block
  | (IoOk hdr, r) =>
      let msgLen := be_get hdr in
      if decide (maxAlloc < msgLen) then Panic makeslice
      else match bufio_Read (Z.to_nat msgLen) r with
           | (IoErr e, _) => Panic (Error e)
           | (IoBlock, _) => Block
           | (IoOk c, r') =>
               Val (c ++ replicate (Z.to_nat msgLen - length c) (byte_of 0), under r')
           end
  end.

Definition reject (c : conn) (msg : string) : Handler accepted :=
  _ ← conn_Write w (Some c) (str_bytes msg);
  emit (Closed c);;
  mret Rejected.

(** The goroutine of [StartSocketForwardService] up to its own loop. *)
Definition StartSocketForwardService (c : conn) (conn_src : source) : Handler accepted :=
  '(initRequestBytes, rest) ← lift_outcome (read_init_request conn_src);
  initRequest ← must (Unmarshal (T := ApronSocketInitRequest) initRequestBytes);
  n ← get;
  match servicePeerMapping n !! SocketInit_ServiceId initRequest with
  | None => reject c "ClientSideGateway: Service not found"
  | Some servicePeerId =>
  match services n !! SocketInit_ServiceId initRequest with
  | None => reject c "ClientSideGateway: Service data missing, contract help"
  | Some service =>
  if decide (length (Service_Providers service) < 1)%nat then
    reject c "ClientSideGateway: Service data error, contract help"
  else
    let requestId := build_request_id (SocketInit_UserId initRequest)
                       (ApronService_GetId (Some service)) (uuid_New w) in
    let req := mkSocketService (ApronService_GetId (Some service)) requestId (host_ID w) in
    modify (set_requestIdChan requestId (make_chan w 0));;
    s ← open_stream w servicePeerId ProxySocketInitReq;
    match s with
    | Fail _ => emit (Closed c);; mret Rejected
    | Ok initSocketConnStream =>
        reqBytes ← must (Marshal req);
        WriteBytesViaStream (conn_Write w (Some initSocketConnStream)) reqBytes;;
        s ← open_stream w servicePeerId ProxySocketDataFromClientSide;
        match s with
        | Fail _ => emit (Closed c);; mret Rejected
        | Ok clientSocketDataStream =>
            modify (set_clientSocketConn requestId c);;
            mret (Forwarding requestId clientSocketDataStream rest)
        end
    end
  end
  end.

(** The first [turns] turns of the goroutine's loop, which makes a new
    [bufio.Reader] each turn and ends only on an error that prints [EOF]. *)
Fixpoint forward_client_data (turns : nat) (requestId : string) (c : conn)
    (clientSocketDataStream : conn) (conn_src : source) : Handler unit :=
  match turns with
  | O => mret tt
  | S turns =>
      match ReadOneFrameDataFromStream maxAlloc (BufReader (NewReader (RawReader conn_src))) with
      | (Val (Fail err), rd) =>
          if decide (Error err = "EOF") then emit (Closed c)
          else forward_client_data turns requestId c clientSocketDataStream (under (NewReader rd))
      | (Val (Ok data), rd) =>
          serviceDataBytes ← must (Marshal (mkServiceData requestId data));
          WriteBytesViaStream (conn_Write w (Some clientSocketDataStream)) serviceDataBytes;;
          forward_client_data turns requestId c clientSocketDataStream (under (NewReader rd))
      | (Panic msg, _) => panic msg
      | (Block, _) => block
      end
  end.
End socket.

(** ** Lemmas *)


Section client_lemmas.
Context {L : ProtoLib} (w : World).

(** The three maps a directory entry stands for. *)
Lemma registered n k owner service :
  directory n !! k = Some (owner, service) ->
  servicePeerMapping n !! k = Some owner /\ services n !! k = Some service.
Proof. apply directory_lookup_Some. Qed.

Lemma unregistered n k :
  registry_ok n -> directory n !! k = None ->
  servicePeerMapping n !! k = None /\ services n !! k = None.
Proof.
  intros Hn Hd. rewrite <- (directory_fst n Hn), <- (directory_snd n Hn) at 1.
  by rewrite !lookup_fmap, Hd.
Qed.

Lemma service_key n k owner service :
  registry_ok n -> directory n !! k = Some (owner, service) -> Service_Id service = k.
Proof. intros [_ Hall] [_ Hs]%registered. by destruct (Hall _ _ Hs). Qed.

(** One turn of the loop that forwards the client's data, at the head of a
    group of chunks that holds exactly one frame. *)
Lemma forward_client_data_aligned maxAlloc gs ds bs src rest rid c s n turns :
  maxAlloc < 2 ^ 64 -> accepts w s ->
  chunks src = concat gs ++ rest ->
  Forall2 (fun g d => concat g = frame d /\ Forall nonempty g) gs ds ->
  Forall (fun d : bytes => Z.of_nat (length d) <= maxAlloc) ds ->
  Forall2 (fun d b => Marshal (mkServiceData rid d) = Ok b) ds bs ->
  forward_client_data w maxAlloc (length ds + turns) rid c s src n
  = (let r := forward_client_data w maxAlloc turns rid c s (mkSource rest (term src)) n in
     (r.1.1, r.1.2, concat (frame_writes s <$> bs) ++ r.2)).
Proof.
  intros Hmax Hacc Hsrc Hgs Hall Hbs. revert src bs Hsrc Hbs.
  induction Hgs as [|g d gs ds [Hg Hne] _ IH]; intros src bs Hsrc Hbs.
  { apply Forall2_nil_inv_l in Hbs as ->. destruct src as [cs t]. cbn in Hsrc |- *. subst cs.
    by destruct (forward_client_data _ _ _ _ _ _ _ _) as [[??]?]. }
  apply Forall_cons in Hall as [Hd Hall].
  apply Forall2_cons_inv_l in Hbs as (b&bs'&Hb&Hbs&->).
  cbn [forward_client_data length concat Nat.add] in *. rewrite <- app_assoc in Hsrc.
  destruct src as [cs t]. cbn [chunks term] in *. subst cs.
  destruct (ReadOneFrame_fresh maxAlloc Hmax g (concat gs ++ rest) d t Hg Hne Hd) as (rd&->&Hrd).
  rewrite Hb. cbn [must]. rewrite bind_pure.
  step_bind WriteBytesViaStream_conn. rewrite Hrd.
  rewrite (IH Hall (mkSource (concat gs ++ rest) t) bs' eq_refl Hbs). cbn. by rewrite <- app_assoc.
Qed.

(** A turn on a connection with nothing left. *)
Lemma forward_client_data_end maxAlloc turns rid c s err n :
  forward_client_data w maxAlloc (S turns) rid c s (mkSource [] (Some err)) n
  = if decide (Error err = "EOF") then (Val tt, n, [Closed c])
    else forward_client_data w maxAlloc turns rid c s (mkSource [] (Some err)) n.
Proof.
  cbn [forward_client_data]. unfold ReadOneFrameDataFromStream. cbn [NewReader].
  destruct (ReadFull_short 8 (mkBuf [] (mkSource [] (Some err)))) as (b'&->&_&Hu); [cbn; lia|].
  cbn [term under avail buffered chunks concat app short_read release NewReader].
  rewrite (decide_False (P := err = io_EOF /\ _)) by tauto. rewrite Hu. cbn [term under].
  by case_decide.
Qed.
End client_lemmas.

(** Once the request has been sent, the handler no longer replies itself. *)
Lemma sent_not_replied {L : ProtoLib} w (is_ws : bool) upgrade owner req (s : conn) n :
  result_of ((reqBytes ← must (Marshal req);
    WriteBytesViaStream (conn_Write w (Some s)) reqBytes;;
    if is_ws then serveWebsocketRequest w upgrade owner req
    else serveHttpRequest_register w req : Handler forwarded) n) <> Val Replied.
Proof.
  unfold result_of. match goal with |- (?x).1.1 <> _ => destruct x as [[o n'] es] eqn:E end.
  cbn. intros ->.
  apply bind_inv in E as (reqBytes&n1&e1&e2&_&E&_).
  apply bind_inv in E as ([]&n2&e3&e4&_&E&_).
  destruct is_ws; [|by apply bind_inv in E as (?&?&?&?&_&[= E]&_)].
  apply bind_inv in E as (?&?&?&?&_&E&_). by apply bind_inv in E as (?&?&?&?&_&[= E]&_).
Qed.

(** What is common to the two kinds of good requests: the request id is entered,
    the request is sent to the owner, and the handler goes on. *)
Lemma forward_sent {L : ProtoLib} (w : World) is_ws upgrade raw request d n owner service s reqBytes
  (name := bytes_str (ServiceName d))
  (rid := build_request_id (bytes_str (UserKey d)) name (uuid_New w))
  (req := mkServiceRequest name rid (host_ID w) is_ws raw) :
  registry_ok n ->
  ExtractRequestDetailFromFasthttpRequest request = (d, None) ->
  directory n !! name = Some (owner, service) -> Service_Providers service <> [] ->
  NewStream w owner ProxyHttpInitReq = Ok s -> accepts w s -> Marshal req = Ok reqBytes ->
  let rest := (if is_ws then serveWebsocketRequest w upgrade owner req
               else serveHttpRequest_register w req) (set_requestIdChan rid (make_chan w 0) n) in
  StartForwardService w is_ws upgrade (Ok raw) request n
  = (rest.1.1, rest.1.2, StreamOpened s owner ProxyHttpInitReq :: frame_writes s reqBytes ++ rest.2).
Proof.
  intros Hn Hdetail Hservice Hproviders Hopen Hwrite Hbytes.
  pose proof (service_key _ _ _ _ Hn Hservice) as Hid.
  apply registered in Hservice as [Hp Hs].
  unfold StartForwardService. cbn [must]. rewrite bind_pure, Hdetail, bind_pure. cbn zeta. fold name.
  erewrite bind_val by reflexivity. rewrite Hp, Hs.
  rewrite decide_False by (destruct (Service_Providers service); [done|cbn; lia]).
  cbn [ApronService_GetId]. rewrite Hid. fold rid.
  erewrite bind_val by reflexivity. cbn zeta.
  step_bind open_stream_ok. fold req. rewrite Hbytes. cbn [must]. rewrite bind_pure.
  step_bind WriteBytesViaStream_conn. reflexivity.
Qed.

(** ** Properties *)

(** C16: a good HTTP request goes to the owner of its service, whole and once. When
    the path gives a registered service with a provider and the outside
    cooperates, the gateway opens one stream, to the owner, and writes exactly
    one frame, which decodes to the request: the client's bytes, the service's
    id, this gateway as the one to answer, and a request id that gives back the
    caller's key and the service. The handler is then waiting on the channel
    it has put under that request id. *)
Theorem http_forwarded_to_owner {L : ProtoLib} (w : World) (upgrade : option goerror) (raw : bytes)
    (request : HttpRequest) (d : RequestDetail) (n : Node) (owner : peer_ID) (service : ApronService)
    (s : conn) (reqBytes : bytes)
    (name := bytes_str (ServiceName d)) (key := bytes_str (UserKey d))
    (rid := build_request_id key name (uuid_New w))
    (req := mkServiceRequest name rid (host_ID w) false raw)
    (Hn : registry_ok n)
    (Hdetail : ExtractRequestDetailFromFasthttpRequest request = (d, None))
    (Hservice : directory n !! name = Some (owner, service))
    (Hproviders : Service_Providers service <> [])
    (Hopen : NewStream w owner ProxyHttpInitReq = Ok s) (Hwrite : accepts w s)
    (Hbytes : Marshal req = Ok reqBytes) :
  exists n' es,
    StartForwardService w false upgrade (Ok raw) request n = (Val (HttpWaiting req (make_chan w 1)), n', es) /\
    es = StreamOpened s owner ProxyHttpInitReq :: frame_writes s reqBytes /\
    written_to s es = frame reqBytes /\ Unmarshal reqBytes = Ok req /\
    ExtractServiceInfoFromRequestID rid = Val (key, name) /\
    clientHttpDataChan n' = <[rid := make_chan w 1]> (clientHttpDataChan n) /\
    requestIdChanMapping n' = <[rid := make_chan w 0]> (requestIdChanMapping n).
Proof.
  eexists _, _. split_and!.
  - erewrite forward_sent by eauto. reflexivity.
  - cbn. by rewrite app_nil_r.
  - cbn. rewrite app_nil_r. apply (written_frame s reqBytes).
  - by apply Unmarshal_Marshal.
  - by eapply request_info.
  - reflexivity.
  - reflexivity.
Qed.

Definition example_client_request (path : string) : HttpRequest :=
  mkHttpRequest (str_bytes "gw") (str_bytes path) (str_bytes "GET") [] [] [].

Definition example_gateway : Node :=
  put_service "peer" (mkService "abcdefghij" "" "" "" "" ""
    [Some (mkProvider "p" "" "" 0 0 "" "localhost:8080" "http" NetworkType_Tcp4)] false)
    (SetupServiceBroadcastListener "self" NewNode).

Lemma example_gateway_ok : registry_ok example_gateway.
Proof. apply (store_ok "peer" (mkService "abcdefghij" "" "" "" "" "" _ false)), NewNode_ok. Qed.

Definition example_forwarded : ApronServiceRequest :=
  mkServiceRequest "abcdefghij" "_key.abcdefghij.uuid" "QmSelf" false (str_bytes "raw").

Definition example_forwarded_bytes : bytes :=
  match Marshal (H := WireFormat.wire_lib) example_forwarded with Ok b => b | Fail _ => [] end.

Example http_forwarded_to_owner_witness : exists n' es,
  StartForwardService (L := WireFormat.wire_lib) example_world false None (Ok (str_bytes "raw"))
    (example_client_request "/v1/abcdefghij_key/x") example_gateway
  = (Val (HttpWaiting example_forwarded 1%N), n', es) /\
  written_to 7%N es = frame example_forwarded_bytes.
Proof.
  destruct (http_forwarded_to_owner (L := WireFormat.wire_lib) example_world None (str_bytes "raw")
    (example_client_request "/v1/abcdefghij_key/x")
    (ExtractRequestDetailFromFasthttpRequest (example_client_request "/v1/abcdefghij_key/x")).1
    example_gateway "peer" (default zero_ApronService (services example_gateway !! "abcdefghij"%string))
    7%N example_forwarded_bytes) as (n'&es&E&_&W&_).
  - apply example_gateway_ok.
  - vm_compute. reflexivity.
  - vm_compute. reflexivity.
  - vm_compute. discriminate.
  - reflexivity.
  - intros p. reflexivity.
  - vm_compute. reflexivity.
  - exists n', es. split; [exact E|exact W].
Defined.

(** C28: what a client that is turned away is told, and why. A request with a good
    path that is answered by the gateway itself is answered 404 exactly when its
    service is not in the directory, and 500 when the service has no provider or
    the owner cannot be reached; in the last case the request id has been entered
    in [requestIdChanMapping] and stays there. The reply for an owner without
    service data is never given. *)
Theorem http_rejections {L : ProtoLib} (w : World) (is_ws : bool) (upgrade : option goerror) (raw : bytes)
    (request : HttpRequest) (d : RequestDetail) (n n' : Node) (es : list effect)
    (name := bytes_str (ServiceName d))
    (rid := build_request_id (bytes_str (UserKey d)) name (uuid_New w))
    (Hn : registry_ok n)
    (Hdetail : ExtractRequestDetailFromFasthttpRequest request = (d, None))
    (Hreplied : StartForwardService w is_ws upgrade (Ok raw) request n = (Val Replied, n', es)) :
  (directory n !! name = None /\ n' = n /\
   http_reply es = (404, str_bytes "ClientSideGateway: Service not found")) \/
  (exists owner service, directory n !! name = Some (owner, service) /\
     ((Service_Providers service = [] /\ n' = n /\
       http_reply es = (500, str_bytes "ClientSideGateway: Service data error, contract help")) \/
      (exists err, NewStream w owner ProxyHttpInitReq = Fail err /\
       n' = set_requestIdChan rid (make_chan w 0) n /\ http_reply es = (500, str_bytes (Error err))))).
Proof.
  unfold StartForwardService in Hreplied. cbn [must] in Hreplied.
  rewrite bind_pure, Hdetail, bind_pure in Hreplied. cbn zeta in Hreplied. fold name in Hreplied.
  erewrite bind_val in Hreplied by reflexivity.
  destruct (directory n !! name) as [[owner service]|] eqn:Hd.
  - right. exists owner, service. split; [done|].
    pose proof (service_key _ _ _ _ Hn Hd) as Hid. apply registered in Hd as [Hp Hs].
    rewrite Hp, Hs in Hreplied. case_decide as Hl.
    + left. run_handler. simplify_eq. split; [|done].
      destruct (Service_Providers service); [done|cbn in Hl; lia].
    + cbn [ApronService_GetId] in Hreplied. rewrite Hid in Hreplied. fold rid in Hreplied.
      right. destruct (NewStream w owner ProxyHttpInitReq) as [s|err] eqn:Ho.
      * exfalso. revert Hreplied. erewrite bind_val by reflexivity. cbn zeta.
        step_bind open_stream_ok. intros [= Hv _ _]. by eapply sent_not_replied.
      * exists err. split; [done|]. erewrite bind_val in Hreplied by reflexivity. cbn zeta in Hreplied.
        erewrite bind_val in Hreplied by (by apply open_stream_fail). run_handler. by simplify_eq.
  - left. apply unregistered in Hd as [Hp _]; [|done]. rewrite Hp in Hreplied.
    run_handler. by simplify_eq.
Qed.

Example http_rejections_witness : exists n' es,
  StartForwardService (L := WireFormat.wire_lib) example_world false None (Ok [])
    (example_client_request "/v1/unknown_id_key/x") example_gateway = (Val Replied, n', es) /\
  directory example_gateway !! "unknown_id"%string = None /\ n' = example_gateway.
Proof.
  eexists _, _. split; [vm_compute; reflexivity|].
  destruct (http_rejections (L := WireFormat.wire_lib) example_world false None []
    (example_client_request "/v1/unknown_id_key/x")
    (ExtractRequestDetailFromFasthttpRequest (example_client_request "/v1/unknown_id_key/x")).1
    example_gateway example_gateway
    [CtxError "ClientSideGateway: Service not found" 404])
    as [(D&E&_)|(o&s&D&_)].
  - apply example_gateway_ok.
  - vm_compute. reflexivity.
  - vm_compute. reflexivity.
  - split; [exact D|vm_compute; reflexivity].
  - exfalso. revert D. vm_compute. discriminate.
Defined.

(** A path that gives no service is answered 404 [Service not found], not with
    the 500 that names the error: the handler sets that reply and goes on, looks
    the empty id up, and the second reply replaces the first. *)
Theorem bad_path_is_not_found {L : ProtoLib} (w : World) (is_ws : bool) (upgrade : option goerror)
    (raw : bytes) (request : HttpRequest) (d : RequestDetail) (err : goerror) (n : Node)
    (Hdetail : ExtractRequestDetailFromFasthttpRequest request = (d, Some err))
    (Hempty : servicePeerMapping n !! ""%string = None) :
  exists es, StartForwardService w is_ws upgrade (Ok raw) request n = (Val Replied, n, es) /\
    hd_error es = Some (CtxError ("ClientSideGateway: extract service name error: " +:+ Error err) 500) /\
    http_reply es = (404, str_bytes "ClientSideGateway: Service not found").
Proof.
  assert (ServiceName d = []) as Hname.
  { unfold ExtractRequestDetailFromFasthttpRequest in Hdetail. repeat case_match; by simplify_eq/=. }
  eexists. split_and!.
  - unfold StartForwardService. cbn [must]. rewrite bind_pure, Hdetail.
    erewrite bind_val by reflexivity. cbn zeta. erewrite bind_val by reflexivity.
    rewrite Hname. change (bytes_str []) with ""%string. rewrite Hempty. reflexivity.
  - reflexivity.
  - reflexivity.
Qed.

Example bad_path_is_not_found_witness : exists es,
  StartForwardService (L := WireFormat.wire_lib) example_world false None (Ok [])
    (example_client_request "/no/such/path") example_gateway = (Val Replied, example_gateway, es) /\
  http_reply es = (404, str_bytes "ClientSideGateway: Service not found").
Proof.
  destruct (bad_path_is_not_found (L := WireFormat.wire_lib) example_world false None []
    (example_client_request "/no/such/path")
    (ExtractRequestDetailFromFasthttpRequest (example_client_request "/no/such/path")).1
    errors_invalid_path example_gateway) as (es&E&_&R).
  - vm_compute. reflexivity.
  - vm_compute. reflexivity.
  - exists es. split; [exact E|exact R].
Defined.

(** A WebSocket request of a registered service whose upgrade fails, which its
    own headers decide, ends the gateway: the request has been forwarded, and the
    handler panics with the error. *)
Theorem failed_upgrade_panics {L : ProtoLib} (w : World) (err : goerror) (raw : bytes)
    (request : HttpRequest) (d : RequestDetail) (n : Node) (owner : peer_ID) (service : ApronService)
    (s : conn) (reqBytes : bytes)
    (name := bytes_str (ServiceName d))
    (rid := build_request_id (bytes_str (UserKey d)) name (uuid_New w))
    (Hn : registry_ok n)
    (Hdetail : ExtractRequestDetailFromFasthttpRequest request = (d, None))
    (Hservice : directory n !! name = Some (owner, service))
    (Hproviders : Service_Providers service <> [])
    (Hopen : NewStream w owner ProxyHttpInitReq = Ok s) (Hwrite : accepts w s)
    (Hbytes : Marshal (mkServiceRequest name rid (host_ID w) true raw) = Ok reqBytes) :
  result_of (StartForwardService w true (Some err) (Ok raw) request n) = Panic (Error err).
Proof.
  erewrite forward_sent by eauto. unfold serveWebsocketRequest, open_stream.
  destruct (NewStream w owner ProxyWsDataFromClientSide); reflexivity.
Qed.

Example failed_upgrade_panics_witness :
  result_of (StartForwardService (L := WireFormat.wire_lib) example_world true
    (Some (errors_New "websocket: no Sec-WebSocket-Key")) (Ok [])
    (example_client_request "/v1/abcdefghij_key/x") example_gateway)
  = Panic "websocket: no Sec-WebSocket-Key".
Proof.
  eapply (failed_upgrade_panics (L := WireFormat.wire_lib) example_world
    (errors_New "websocket: no Sec-WebSocket-Key") [] (example_client_request "/v1/abcdefghij_key/x")
    (ExtractRequestDetailFromFasthttpRequest (example_client_request "/v1/abcdefghij_key/x")).1
    example_gateway "peer" (default zero_ApronService (services example_gateway !! "abcdefghij"%string)) 7%N).
  - apply example_gateway_ok.
  - vm_compute. reflexivity.
  - vm_compute. reflexivity.
  - vm_compute. discriminate.
  - reflexivity.
  - intros p. reflexivity.
  - vm_compute. reflexivity.
Defined.

Lemma ws_forward_ok {L : ProtoLib} w req s ms bs tail n :
  accepts w s ->
  Forall2 (fun m b => Marshal (mkServiceData (Request_RequestId req) m) = Ok b) ms bs ->
  ws_forward w req (Some s) ((Ok <$> ms) ++ tail) n
  = (let rest := ws_forward w req (Some s) tail n in
     (rest.1.1, rest.1.2, concat (frame_writes s <$> bs) ++ rest.2)).
Proof.
  intros Hs Hms. induction Hms as [|m b ms bs Hb _ IH]; cbn [fmap list_fmap app ws_forward concat].
  - cbn zeta. by destruct (ws_forward w req (Some s) tail n) as [[??]?].
  - rewrite bind_pure, Hb. cbn [must]. rewrite bind_pure.
    step_bind WriteBytesViaStream_conn. rewrite IH. cbn. by rewrite <- app_assoc.
Qed.

(** What a WebSocket client sends is forwarded message by message, in order,
    each as one frame under the client's request id; when its connection fails,
    or when there is no stream to forward to, the loop ends without a panic
    and the connection is closed. *)
Theorem ws_messages_forwarded {L : ProtoLib} (w : World) (req : ApronServiceRequest) (s c : conn)
    (ms bs : list bytes) (err : goerror) (more : list (result bytes)) (n : Node)
    (Hs : accepts w s)
    (Hms : Forall2 (fun m b => Marshal (mkServiceData (Request_RequestId req) m) = Ok b) ms bs) :
  ws_goroutine w req (Some s) c ((Ok <$> ms) ++ Fail err :: more) n
  = (Val tt, n, concat (frame_writes s <$> bs) ++ [Closed c]) /\
  Forall2 (fun m b => Unmarshal b = Ok (mkServiceData (Request_RequestId req) m)) ms bs /\
  ws_goroutine w req None c ((Ok <$> ms) ++ Fail err :: more) n = (Val tt, n, [Closed c]).
Proof.
  split_and!.
  - unfold ws_goroutine. erewrite bind_val.
    2: { unfold recovering. erewrite ws_forward_ok by eauto. cbn. rewrite app_nil_r. reflexivity. }
    reflexivity.
  - eapply Forall2_impl; [exact Hms|]. intros m b Hb. by apply Unmarshal_Marshal.
  - by destruct ms.
Qed.

Example ws_messages_forwarded_witness :
  ws_goroutine (L := WireFormat.wire_lib) example_world example_forwarded None 3%N
    [Ok (str_bytes "hi"); Fail io_EOF] example_gateway
  = (Val tt, example_gateway, [Closed 3%N]).
Proof.
  apply (ws_messages_forwarded (L := WireFormat.wire_lib) example_world example_forwarded 7%N 3%N
    [str_bytes "hi"]
    [match Marshal (H := WireFormat.wire_lib) (mkServiceData "_key.abcdefghij.uuid" (str_bytes "hi")) with
     | Ok b => b | Fail _ => [] end] io_EOF [] example_gateway).
  - intros p. reflexivity.
  - constructor; [vm_compute; reflexivity|constructor].
Defined.

(** ** Sockets *)

Section socket_lemmas.
Context (maxAlloc : Z) (maxAlloc_u64 : maxAlloc < 2 ^ 64).

(** The header of an init request, in the first chunk with the start of it. *)
Lemma read_init_header b1 b2 cs t :
  (8 + length b1 <= bufio_size)%nat ->
  Z.of_nat (length (b1 ++ b2)) <= maxAlloc ->
  ReadFull 8 (mkBuf [] (mkSource ((be_put 8 (u64 (Z.of_nat (length (b1 ++ b2)))) ++ b1) :: cs) t))
  = (IoOk (be_put 8 (u64 (Z.of_nat (length (b1 ++ b2))))), mkBuf b1 (mkSource cs t)).
Proof.
  intros Hl _. rewrite ReadFull_fresh.
  - rewrite take_app_length', drop_app_length' by (by rewrite length_be_put). done.
  - rewrite length_app, length_be_put. lia.
  - by rewrite length_app, length_be_put.
  - unfold bufio_size. lia.
Qed.

Lemma get_length (b : bytes) :
  Z.of_nat (length b) <= maxAlloc -> be_get (be_put 8 (u64 (Z.of_nat (length b)))) = Z.of_nat (length b).
Proof.
  intros H. unfold u64, wrap. rewrite Z.mod_small by lia. apply be_get_put. lia.
Qed.

(** The one [Read] call gives what the reader has buffered, not more: the rest
    of the request is zeros, and its bytes are left to the data loop. *)
Lemma read_init_request_split b1 b2 cs t :
  b1 <> [] -> (8 + length b1 <= bufio_size)%nat -> Z.of_nat (length (b1 ++ b2)) <= maxAlloc ->
  read_init_request maxAlloc
    (mkSource ((be_put 8 (u64 (Z.of_nat (length (b1 ++ b2)))) ++ b1) :: cs) t)
  = Val (b1 ++ replicate (length b2) (byte_of 0), mkSource cs t).
Proof.
  intros Hne Hl Hmax. unfold read_init_request.
  rewrite read_init_header, get_length, decide_False by (done || lia). rewrite Nat2Z.id.
  unfold bufio_Read. cbn [buffered under].
  destruct b1 as [|x b1]; [done|]. cbn [length app].
  assert (take (S (length (b1 ++ b2))) (x :: b1) = x :: b1) as ->.
  { apply take_ge. rewrite length_app. cbn. lia. }
  cbn [length]. rewrite length_app.
  replace (S (length b1 + length b2) - S (length b1))%nat with (length b2) by lia. reflexivity.
Qed.
End socket_lemmas.

(** The init request in one piece, up to the loop that forwards the client's data. *)
Lemma socket_client_run {L : ProtoLib} w maxAlloc c init initBytes cs t n owner service s1 s2 reqBytes
    (k := SocketInit_ServiceId init) (rid := build_request_id (SocketInit_UserId init) k (uuid_New w)) :
  registry_ok n -> maxAlloc < 2 ^ 64 -> Marshal init = Ok initBytes -> initBytes <> [] ->
  (8 + length initBytes <= bufio_size)%nat -> Z.of_nat (length initBytes) <= maxAlloc ->
  directory n !! k = Some (owner, service) -> Service_Providers service <> [] ->
  NewStream w owner ProxySocketInitReq = Ok s1 -> accepts w s1 ->
  Marshal (mkSocketService k rid (host_ID w)) = Ok reqBytes ->
  NewStream w owner ProxySocketDataFromClientSide = Ok s2 ->
  exists n',
    StartSocketForwardService w maxAlloc c (mkSource (frame initBytes :: cs) t) n
    = (Val (Forwarding rid s2 (mkSource cs t)), n',
       StreamOpened s1 owner ProxySocketInitReq :: frame_writes s1 reqBytes ++
       [StreamOpened s2 owner ProxySocketDataFromClientSide]) /\
    Unmarshal reqBytes = Ok (mkSocketInit k rid (host_ID w) "") /\
    clientSocketConns n' = <[rid := c]> (clientSocketConns n) /\ registry_ok n'.
Proof.
  intros Hn Hmax Hinit Hne Hsmall Halloc Hservice Hproviders Hopen1 Hwrite Hbytes Hopen2.
  pose proof (service_key _ _ _ _ Hn Hservice) as Hid.
  apply registered in Hservice as [Hp Hs].
  eexists. split_and!.
  - unfold StartSocketForwardService, frame. erewrite bind_val.
    2: { pose proof (read_init_request_split maxAlloc Hmax initBytes [] cs t Hne Hsmall) as H.
         rewrite app_nil_r in H. unfold lift_outcome. rewrite H by done. reflexivity. }
    cbn zeta beta iota. cbn [length replicate]. rewrite app_nil_r.
    rewrite (Unmarshal_Marshal init initBytes) by done. cbn [must]. rewrite bind_pure.
    erewrite bind_val by reflexivity. fold k. rewrite Hp, Hs.
    rewrite decide_False by (destruct (Service_Providers service); [done|cbn; lia]).
    cbn [ApronService_GetId]. rewrite Hid. fold rid. erewrite bind_val by reflexivity. cbn zeta.
    step_bind open_stream_ok. rewrite Hbytes. cbn [must]. rewrite bind_pure.
    step_bind WriteBytesViaStream_conn. step_bind open_stream_ok.
    erewrite bind_val by reflexivity. reflexivity.
  - by apply (Unmarshal_socket_request (mkSocketService k rid (host_ID w))).
  - reflexivity.
  - exact Hn.
Qed.

(** A socket client whose init request arrives in one piece is connected to the
    owner of its service. The gateway opens the control stream and then the
    data stream, both to the owner; the one frame it writes on the control
    stream is read by the service side, which decodes it with another message
    type than it was written with, as the same service, request id and gateway;
    the client's connection is filed under that request id. *)
Theorem socket_client_accepted {L : ProtoLib} (w : World) (maxAlloc : Z) (c : conn)
    (init : ApronSocketInitRequest) (initBytes : bytes) (cs : list bytes) (t : option goerror)
    (n : Node) (owner : peer_ID) (service : ApronService) (s1 s2 : conn) (reqBytes : bytes)
    (k := SocketInit_ServiceId init) (rid := build_request_id (SocketInit_UserId init) k (uuid_New w))
    (Hn : registry_ok n) (Hmax : maxAlloc < 2 ^ 64)
    (Hinit : Marshal init = Ok initBytes) (Hne : initBytes <> [])
    (Hsmall : (8 + length initBytes <= bufio_size)%nat) (Halloc : Z.of_nat (length initBytes) <= maxAlloc)
    (Hservice : directory n !! k = Some (owner, service))
    (Hproviders : Service_Providers service <> [])
    (Hopen1 : NewStream w owner ProxySocketInitReq = Ok s1) (Hwrite : accepts w s1)
    (Hbytes : Marshal (mkSocketService k rid (host_ID w)) = Ok reqBytes)
    (Hopen2 : NewStream w owner ProxySocketDataFromClientSide = Ok s2) :
  exists n',
    StartSocketForwardService w maxAlloc c (mkSource (frame initBytes :: cs) t) n
    = (Val (Forwarding rid s2 (mkSource cs t)), n',
       StreamOpened s1 owner ProxySocketInitReq :: frame_writes s1 reqBytes ++
       [StreamOpened s2 owner ProxySocketDataFromClientSide]) /\
    Unmarshal reqBytes = Ok (mkSocketInit k rid (host_ID w) "") /\
    clientSocketConns n' = <[rid := c]> (clientSocketConns n) /\ registry_ok n'.
Proof. by eapply socket_client_run. Qed.

Definition example_init : ApronSocketInitRequest := mkSocketInit "abcdefghij" "" "" "user".

Example socket_client_accepted_witness : exists n',
  StartSocketForwardService (L := WireFormat.wire_lib) example_world 1000 3%N
    (mkSource [frame (WireFormat.encoded example_init)] None) example_gateway
  = (Val (Forwarding "user.abcdefghij.uuid" 7%N (mkSource [] None)), n',
     StreamOpened 7%N "peer" ProxySocketInitReq ::
     frame_writes 7%N (WireFormat.encoded (mkSocketService "abcdefghij" "user.abcdefghij.uuid" "QmSelf")) ++
     [StreamOpened 7%N "peer" ProxySocketDataFromClientSide]).
Proof.
  destruct (socket_client_accepted (L := WireFormat.wire_lib) example_world 1000 3%N example_init
    (WireFormat.encoded example_init) [] None example_gateway "peer"
    (default zero_ApronService (services example_gateway !! "abcdefghij"%string)) 7%N 7%N
    (WireFormat.encoded (mkSocketService "abcdefghij" "user.abcdefghij.uuid" "QmSelf"))) as (n'&E&_).
  - apply example_gateway_ok.
  - lia.
  - vm_compute. reflexivity.
  - vm_compute. discriminate.
  - apply (bool_decide_unpack _). vm_compute. exact I.
  - apply (bool_decide_unpack _). vm_compute. exact I.
  - vm_compute. reflexivity.
  - vm_compute. discriminate.
  - reflexivity.
  - intros p. reflexivity.
  - vm_compute. reflexivity.
  - reflexivity.
  - exists n'. exact E.
Defined.

(** An init request that does not arrive in one piece is not read: the gateway
    decodes its first part followed by zeros, and when that does not decode it
    panics, for a client that did nothing wrong. *)
Theorem socket_init_split {L : ProtoLib} (w : World) (maxAlloc : Z) (c : conn) (b1 b2 : bytes)
    (cs : list bytes) (t : option goerror) (err : goerror) (n : Node)
    (Hmax : maxAlloc < 2 ^ 64) (Hne : b1 <> []) (Hsmall : (8 + length b1 <= bufio_size)%nat)
    (Halloc : Z.of_nat (length (b1 ++ b2)) <= maxAlloc)
    (Hzeros : Unmarshal (T := ApronSocketInitRequest) (b1 ++ replicate (length b2) (byte_of 0)) = Fail err) :
  let hdr := be_put 8 (u64 (Z.of_nat (length (b1 ++ b2)))) in
  hdr ++ b1 ++ b2 = frame (b1 ++ b2) /\
  StartSocketForwardService w maxAlloc c (mkSource ((hdr ++ b1) :: b2 :: cs) t) n
  = (Panic (Error err), n, []).
Proof.
  cbn zeta. split; [done|]. unfold StartSocketForwardService. erewrite bind_val.
  2: { unfold lift_outcome. rewrite read_init_request_split by done. reflexivity. }
  cbn zeta beta iota. rewrite Hzeros. reflexivity.
Qed.

Definition example_b1 : bytes := take 12 (WireFormat.encoded example_init).
Definition example_b2 : bytes := drop 12 (WireFormat.encoded example_init).

Example socket_init_split_witness :
  result_of (StartSocketForwardService (L := WireFormat.wire_lib) example_world 1000 3%N
    (mkSource [be_put 8 (u64 (Z.of_nat (length (example_b1 ++ example_b2)))) ++ example_b1; example_b2] None)
    example_gateway) = Panic "proto: cannot parse invalid wire-format data".
Proof.
  destruct (socket_init_split (L := WireFormat.wire_lib) example_world 1000 3%N example_b1 example_b2
    [] None (errors_New "proto: cannot parse invalid wire-format data") example_gateway) as [_ E].
  - lia.
  - vm_compute. discriminate.
  - apply (bool_decide_unpack _). vm_compute. exact I.
  - apply (bool_decide_unpack _). vm_compute. exact I.
  - vm_compute. reflexivity.
  - exact (f_equal result_of E).
Defined.

(** After the init request, what a socket client sends is forwarded frame by
    frame. When no chunk holds bytes of two frames, each of its frames goes to
    the owner as one frame, in order, decoding to the client's data under its
    request id; the end of the connection closes it. *)
Theorem socket_data_forwarded {L : ProtoLib} (w : World) (maxAlloc : Z) (gs : list (list bytes))
    (ds bs : list bytes) (rid : string) (c s : conn) (n : Node) (turns : nat)
    (Hmax : maxAlloc < 2 ^ 64) (Hs : accepts w s)
    (Hgs : Forall2 (fun g d => concat g = frame d /\ Forall nonempty g) gs ds)
    (Hds : Forall (fun d : bytes => Z.of_nat (length d) <= maxAlloc) ds)
    (Hbs : Forall2 (fun d b => Marshal (mkServiceData rid d) = Ok b) ds bs) :
  exists es,
    forward_client_data w maxAlloc (length ds + S turns) rid c s (mkSource (concat gs) (Some io_EOF)) n
    = (Val tt, n, es) /\
    es = concat (frame_writes s <$> bs) ++ [Closed c] /\
    written_to s es = concat (frame <$> bs) /\
    Forall2 (fun d b => Unmarshal b = Ok (mkServiceData rid d)) ds bs.
Proof.
  eexists. split_and!.
  - erewrite (forward_client_data_aligned w maxAlloc gs ds bs _ []) by (done || by rewrite app_nil_r).
    cbn [term]. rewrite forward_client_data_end, decide_True by done. reflexivity.
  - reflexivity.
  - rewrite written_to_app, written_frames. cbn. apply app_nil_r.
  - eapply Forall2_impl; [exact Hbs|]. intros d b Hb. by apply Unmarshal_Marshal.
Qed.

Example socket_data_forwarded_witness : exists es,
  forward_client_data (L := WireFormat.wire_lib) example_world 1000 2 "u.s.1" 3%N 7%N
    (mkSource [frame (str_bytes "hello")] (Some io_EOF)) example_gateway
  = (Val tt, example_gateway, es) /\
  written_to 7%N es = frame (WireFormat.encoded (mkServiceData "u.s.1" (str_bytes "hello"))).
Proof.
  destruct (socket_data_forwarded (L := WireFormat.wire_lib) example_world 1000
    [[frame (str_bytes "hello")]] [str_bytes "hello"]
    [WireFormat.encoded (mkServiceData "u.s.1" (str_bytes "hello"))] "u.s.1" 3%N 7%N example_gateway 0)
    as (es&E&_&W&_).
  - lia.
  - intros p. reflexivity.
  - constructor; [|constructor]. split; [reflexivity|]. constructor; [discriminate|constructor].
  - constructor; [cbn; lia|constructor].
  - constructor; [vm_compute; reflexivity|constructor].
  - exists es. split; [exact E|]. rewrite W. vm_compute. reflexivity.
Defined.

(** A client connection that fails with any error but [EOF] (a reset, say) is
    never closed: the loop takes turn after turn on it and does nothing, for
    ever. *)
Theorem socket_error_spins {L : ProtoLib} (w : World) (maxAlloc : Z) (rid : string) (c s : conn)
    (err : goerror) (n : Node) (turns : nat) (Herr : Error err <> "EOF"%string) :
  forward_client_data w maxAlloc turns rid c s (mkSource [] (Some err)) n = (Val tt, n, []).
Proof.
  induction turns as [|turns IH]; [done|]. by rewrite forward_client_data_end, decide_False.
Qed.

Example socket_error_spins_witness :
  forward_client_data (L := WireFormat.wire_lib) example_world 1000 100 "u.s.1" 3%N 7%N
    (mkSource [] (Some (errors_New "connection reset by peer"))) example_gateway
  = (Val tt, example_gateway, []).
Proof.
  apply (socket_error_spins (L := WireFormat.wire_lib) example_world 1000 "u.s.1" 3%N 7%N
    (errors_New "connection reset by peer") example_gateway 100).
  vm_compute. discriminate.
Defined.
