(* ===== verification/ProxyHandlers.v ===== *)
(** The stream handlers of [internal/trans_network/node_proxy_handler.go]: the
    service side of the gateway, and the handlers on both sides that deliver the
    data of open sessions. Also [BuildHttpRequestToService] of
    [internal/models/helper.go].

    A handler that reads its stream in a loop is given over the items that the
    reading goroutine sends to its channels ([NetworkHelper.ReadBytesViaStream]). *)

From S2P Require Import Prelude Messages NetworkHelper RequestDetail UsageRecord Node World Url.
From S2P Require WireFormat.

(** [n.logger.Panic(...)], for every stream error. *)
Definition read_data_stream_error : string := "read data stream error".

(** The request to the service: the address is replaced and the client's query
    arguments are added to those that it has; the rest stays the client's. *)
Record ServiceRequest := mkToService {
  to_uri : string;
  to_args : list (bytes * bytes);
  to_client : HttpRequest
}.

Definition BuildHttpRequestToService (reqDetail : RequestDetail) (httpReq : HttpRequest)
    (serviceDetail : ApronService) : outcome (result ServiceRequest) :=
  match Service_Providers serviceDetail with
  | [] => Panic index_range
  | provider :: _ =>
      Val ((fun uri => mkToService uri (req_QueryArgs httpReq) httpReq) <$>
           service_url (ApronServiceProvider_GetSchema provider +:+ "://" +:+
                        ApronServiceProvider_GetBaseUrl provider)
                       (ProxyRequestPath reqDetail))
  end.

Section handlers.
Context {L : ProtoLib} (w : World).

(** ** HTTP and WebSocket requests from the client side *)

(** fasthttp's reading of a dumped request; what the service answers to
    [fasthttp.Do]; [URI().String()] of a request; what the service answers to
    the dialling of a WebSocket. *)
Context (http_Read : bytes -> result HttpRequest)
        (http_Do : ServiceRequest -> result bytes)
        (URI_String : ServiceRequest -> string)
        (ws_Dial : string -> result conn).

(** Where the handler stands when its own code has run. *)
Inductive proxied :=
  | Answered
  | WsProxying (requestId : string) (respStream serviceWsConn : conn).

(** Its two ends: a WebSocket to the service, or one request to it. *)
Definition proxy_ws (proxyReq : ApronServiceRequest) (peerId : peer_ID) (reqToService : ServiceRequest)
    : Handler proxied :=
  s ← open_stream w peerId ProxyWsDataFromServiceSide;
  respStream ← must s;
  serviceWsConn ← must (ws_Dial (URI_String reqToService));
  emit (Dialed (URI_String reqToService) serviceWsConn);;
  modify (set_serviceWsConn (Request_RequestId proxyReq) serviceWsConn);;
  mret (WsProxying (Request_RequestId proxyReq) respStream serviceWsConn).

Definition proxy_http (proxyReq : ApronServiceRequest) (peerId : peer_ID) (reqToService : ServiceRequest)
    : Handler proxied :=
  s ← open_stream w peerId ProxyHttpRespFromServiceSide;
  respStream ← must s;
  emit (HttpDo (to_uri reqToService) (to_args reqToService) (to_client reqToService));;
  respBody ← must (http_Do reqToService);
  respBytes ← must (Marshal (mkServiceData (Request_RequestId proxyReq) respBody));
  WriteBytesViaStream (conn_Write w (Some respStream)) respBytes;;
  mret Answered.

Definition ProxyHttpInitRequestHandler (item : chan_op) : Handler proxied :=
  match item with
  | ToErrCh _ => panic read_data_stream_error
  | ToDataCh proxyReqBytes =>
      proxyReq ← must (Unmarshal (T := ApronServiceRequest) proxyReqBytes);
      httpReq ← must (http_Read (Request_RawRequest proxyReq));
      (* the error of the extraction is overwritten *)
      let clientReqDetail := (ExtractRequestDetailFromFasthttpRequest httpReq).1 in
      peerId ← must (peer_Decode w (Request_PeerId proxyReq));
      n ← get;
      let serviceDetail := default zero_ApronService (services n !! Request_ServiceId proxyReq) in
      built ← lift_outcome (BuildHttpRequestToService clientReqDetail httpReq serviceDetail);
      reqToService ← must built;
      if Request_IsWsRequest proxyReq then proxy_ws proxyReq peerId reqToService
      else proxy_http proxyReq peerId reqToService
  end.

(** What the goroutines that read from the service do with the data they get,
    message by message ([serviceWsConn.ReadMessage]) or read by read
    ([serverReader.Read] of at most 40960 bytes); an error panics, in a
    goroutine that nothing recovers. *)
Fixpoint forward_to_client (requestId : string) (respStream : option conn)
    (reads : list (result bytes)) : Handler unit :=
  match reads with
  | [] => mret tt
  | r :: reads =>
      msgBytes ← must r;
      forwardDataBytes ← must (Marshal (mkServiceData requestId msgBytes));
      WriteBytesViaStream (conn_Write w respStream) forwardDataBytes;;
      forward_to_client requestId respStream reads
  end.

(** ** Data of open sessions *)

Definition wrong_protocol (protocol : string) : string := "wrong protocol: " +:+ protocol.

(** One turn of [ProxyWsDataHandler] on a stream of the given protocol. *)
Definition ws_data_turn (protocol : string) (item : chan_op) : Handler unit :=
  match item with
  | ToErrCh _ => panic read_data_stream_error
  | ToDataCh proxyDataBytes =>
      proxyData ← must (Unmarshal (T := ApronServiceData) proxyDataBytes);
      n ← get;
      if decide (protocol = ProxyWsDataFromClientSide) then
        err ← ws_WriteMessage w (serviceWsConns n !! Data_RequestId proxyData) (Data_RawData proxyData);
        CheckError err
      else if decide (protocol = ProxyWsDataFromServiceSide) then
        err ← ws_WriteMessage w (clientWsConns n !! Data_RequestId proxyData) (Data_RawData proxyData);
        CheckError err
      else panic (wrong_protocol protocol)
  end.

Fixpoint ProxyWsDataHandler (protocol : string) (items : list chan_op) : Handler unit :=
  match items with
  | [] => mret tt
  | item :: items => ws_data_turn protocol item;; ProxyWsDataHandler protocol items
  end.

(** One turn of [ProxyHttpRespHandler] up to its send: the channel that the send
    is on, nil when the request id has none, and the data. *)
Definition http_resp_turn (item : chan_op) : Handler (option chan * ApronServiceData) :=
  match item with
  | ToErrCh _ => panic read_data_stream_error
  | ToDataCh proxyDataBytes =>
      proxyData ← must (Unmarshal (T := ApronServiceData) proxyDataBytes);
      n ← get;
      mret (clientHttpDataChan n !! Data_RequestId proxyData, proxyData)
  end.

(** The whole loop when a receiver is ready on every channel that exists. *)
Fixpoint ProxyHttpRespHandler (items : list chan_op) : Handler unit :=
  match items with
  | [] => mret tt
  | item :: items =>
      '(ch, proxyData) ← http_resp_turn item;
      match ch with
      | None => block
      | Some ch => emit (Sent ch (Data_RawData proxyData));; ProxyHttpRespHandler items
      end
  end.

(** ** Sockets *)

(** [ProxySocketInitReqHandler]: [dataBuf] is the frame it reads first. Gives
    the stream for the service's data, nil if it could not be opened. *)
Definition ProxySocketInitReqHandler (dataBuf : result bytes)
    : Handler (string * option conn * conn) :=
  dataBuf ← must dataBuf;
  socketInitReq ← must (Unmarshal (T := ApronSocketInitRequest) dataBuf);
  csgwPeerId ← must (peer_Decode w (SocketInit_PeerId socketInitReq));
  n ← get;
  let serviceDetail := default zero_ApronService (services n !! SocketInit_ServiceId socketInitReq) in
  match Service_Providers serviceDetail with
  | [] => panic index_range
  | provider :: _ =>
      let socketServiceUrl := ApronServiceProvider_GetBaseUrl provider in
      serviceSocketConn ← must (Dial w socketServiceUrl);
      emit (Dialed socketServiceUrl serviceSocketConn);;
      modify (set_serviceSocketConn (SocketInit_RequestId socketInitReq) serviceSocketConn);;
      s ← open_stream w csgwPeerId ProxySocketDataFromServiceSide;
      mret (SocketInit_RequestId socketInitReq,
            match s with Ok s => Some s | Fail _ => None end, serviceSocketConn)
  end.

Definition socket_data_turn (protocol : string) (item : chan_op) : Handler unit :=
  match item with
  | ToErrCh _ => panic read_data_stream_error
  | ToDataCh proxyDataBytes =>
      proxyData ← must (Unmarshal (T := ApronServiceData) proxyDataBytes);
      n ← get;
      if decide (protocol = ProxySocketDataFromClientSide) then
        WriteBytesViaStream (conn_Write w (serviceSocketConns n !! Data_RequestId proxyData))
          (Data_RawData proxyData)
      else if decide (protocol = ProxySocketDataFromServiceSide) then
        WriteBytesViaStream (conn_Write w (clientSocketConns n !! Data_RequestId proxyData))
          (Data_RawData proxyData)
      else panic (wrong_protocol protocol)
  end.

Fixpoint ProxySocketDataHandler (protocol : string) (items : list chan_op) : Handler unit :=
  match items with
  | [] => mret tt
  | item :: items => socket_data_turn protocol item;; ProxySocketDataHandler protocol items
  end.
End handlers.

(** [SetProxyStreamHandlers]: what runs on an incoming stream of each protocol. *)
Inductive stream_handler :=
  | HttpInitRequest | WsData | HttpResp | SocketInitReq | SocketData.

Definition SetProxyStreamHandlers : gmap string stream_handler :=
  {[ ProxyHttpInitReq := HttpInitRequest;
     ProxyWsDataFromClientSide := WsData;
     ProxyWsDataFromServiceSide := WsData;
     ProxyHttpRespFromServiceSide := HttpResp;
     ProxySocketInitReq := SocketInitReq;
     ProxySocketDataFromClientSide := SocketData;
     ProxySocketDataFromServiceSide := SocketData ]}.

(** ** Lemmas *)

(** The connection a data stream of each protocol leads to. *)
Definition socket_target (protocol : string) (n : Node) (rid : string) : option conn :=
  if decide (protocol = ProxySocketDataFromClientSide) then serviceSocketConns n !! rid
  else if decide (protocol = ProxySocketDataFromServiceSide) then clientSocketConns n !! rid
  else None.

Definition ws_target (protocol : string) (n : Node) (rid : string) : option conn :=
  if decide (protocol = ProxyWsDataFromClientSide) then serviceWsConns n !! rid
  else if decide (protocol = ProxyWsDataFromServiceSide) then clientWsConns n !! rid
  else None.

Section handler_lemmas.
Context {L : ProtoLib} (w : World).

Lemma socket_data_turn_ok protocol n b d c :
  Unmarshal b = Ok d -> socket_target protocol n (Data_RequestId d) = Some c -> accepts w c ->
  socket_data_turn w protocol (ToDataCh b) n = (Val tt, n, frame_writes c (Data_RawData d)).
Proof.
  intros Hb Hc Hacc. unfold socket_data_turn, socket_target in *. rewrite Hb. cbn [must].
  rewrite bind_pure. erewrite bind_val by reflexivity.
  repeat case_decide; try done; rewrite Hc, WriteBytesViaStream_conn by done; done.
Qed.

Lemma ws_data_turn_ok protocol n b d c :
  Unmarshal b = Ok d -> ws_target protocol n (Data_RequestId d) = Some c ->
  (forall p, WriteMessage w c p = None) ->
  ws_data_turn w protocol (ToDataCh b) n = (Val tt, n, [WsMessage c (Data_RawData d)]).
Proof.
  intros Hb Hc Hacc. unfold ws_data_turn, ws_target in *. rewrite Hb. cbn [must].
  rewrite bind_pure. erewrite bind_val by reflexivity.
  repeat case_decide; try done; rewrite Hc; unfold ws_WriteMessage; rewrite Hacc; done.
Qed.

(** A run of data for one session, then whatever follows. *)
Lemma ProxySocketDataHandler_ok protocol n rid c bs ds items :
  socket_target protocol n rid = Some c -> accepts w c ->
  Forall2 (fun b d => Unmarshal b = Ok (mkServiceData rid d)) bs ds ->
  ProxySocketDataHandler w protocol ((ToDataCh <$> bs) ++ items) n
  = (let r := ProxySocketDataHandler w protocol items n in
     (r.1.1, r.1.2, concat (frame_writes c <$> ds) ++ r.2)).
Proof.
  intros Hc Hacc Hbs. induction Hbs as [|b d bs ds Hb _ IH];
    cbn [fmap list_fmap app ProxySocketDataHandler concat].
  - cbn zeta. by destruct (ProxySocketDataHandler w protocol items n) as [[??]?].
  - step_bind socket_data_turn_ok. rewrite IH. cbn. by rewrite <- app_assoc.
Qed.

Lemma ProxyWsDataHandler_ok protocol n rid c bs ds items :
  ws_target protocol n rid = Some c -> (forall p, WriteMessage w c p = None) ->
  Forall2 (fun b d => Unmarshal b = Ok (mkServiceData rid d)) bs ds ->
  ProxyWsDataHandler w protocol ((ToDataCh <$> bs) ++ items) n
  = (let r := ProxyWsDataHandler w protocol items n in
     (r.1.1, r.1.2, (WsMessage c <$> ds) ++ r.2)).
Proof.
  intros Hc Hacc Hbs. induction Hbs as [|b d bs ds Hb _ IH];
    cbn [fmap list_fmap app ProxyWsDataHandler].
  - cbn zeta. by destruct (ProxyWsDataHandler w protocol items n) as [[??]?].
  - step_bind ws_data_turn_ok. rewrite IH. cbn. done.
Qed.

Lemma forward_to_client_ok rid s ms bs reads n :
  accepts w s -> Forall2 (fun m b => Marshal (mkServiceData rid m) = Ok b) ms bs ->
  forward_to_client w rid (Some s) ((Ok <$> ms) ++ reads) n
  = (let r := forward_to_client w rid (Some s) reads n in
     (r.1.1, r.1.2, concat (frame_writes s <$> bs) ++ r.2)).
Proof.
  intros Hs Hms. induction Hms as [|m b ms bs Hb _ IH];
    cbn [fmap list_fmap app forward_to_client concat].
  - cbn zeta. by destruct (forward_to_client w rid (Some s) reads n) as [[??]?].
  - cbn [must]. rewrite bind_pure, Hb. cbn [must]. rewrite bind_pure.
    step_bind WriteBytesViaStream_conn. rewrite IH. cbn. by rewrite <- app_assoc.
Qed.
End handler_lemmas.

(** A request that can be served, up to the two ends. *)
Lemma init_handler_ok {L : ProtoLib} w http_Read http_Do URI_String ws_Dial n b req httpReq peer service
    provider more uri
    (path := ProxyRequestPath (ExtractRequestDetailFromFasthttpRequest httpReq).1)
    (base := ApronServiceProvider_GetSchema provider +:+ "://" +:+ ApronServiceProvider_GetBaseUrl provider) :
  Unmarshal b = Ok req -> http_Read (Request_RawRequest req) = Ok httpReq ->
  peer_Decode w (Request_PeerId req) = Ok peer ->
  services n !! Request_ServiceId req = Some service -> Service_Providers service = provider :: more ->
  service_url base path = Ok uri ->
  ProxyHttpInitRequestHandler w http_Read http_Do URI_String ws_Dial (ToDataCh b) n
  = (if Request_IsWsRequest req
     then proxy_ws w URI_String ws_Dial req peer (mkToService uri (req_QueryArgs httpReq) httpReq)
     else proxy_http w http_Do req peer (mkToService uri (req_QueryArgs httpReq) httpReq)) n.
Proof.
  intros Hb Hread Hpeer Hservice Hprovider Huri.
  unfold ProxyHttpInitRequestHandler. rewrite Hb. cbn [must]. rewrite bind_pure, Hread.
  cbn [must]. rewrite bind_pure. cbn zeta. rewrite Hpeer. cbn [must]. rewrite bind_pure, bind_get.
  rewrite Hservice. cbn [default].
  unfold BuildHttpRequestToService. cbn [from_option]. unfold id. rewrite Hprovider.
  fold base path. rewrite Huri. cbn [fmap result_fmap].
  etransitivity; [exact (bind_pure (Ok (mkToService uri (req_QueryArgs httpReq) httpReq)) _ n)|].
  cbn [must]. apply bind_pure.
Qed.

(** A plain HTTP request, from its bytes to the answer's. *)
Lemma proxy_http_ok {L : ProtoLib} w http_Do req peer to n s respBody respBytes :
  NewStream w peer ProxyHttpRespFromServiceSide = Ok s -> accepts w s -> http_Do to = Ok respBody ->
  Marshal (mkServiceData (Request_RequestId req) respBody) = Ok respBytes ->
  proxy_http w http_Do req peer to n
  = (Val Answered, n,
     StreamOpened s peer ProxyHttpRespFromServiceSide ::
     HttpDo (to_uri to) (to_args to) (to_client to) :: frame_writes s respBytes).
Proof.
  intros Hopen Hs Hdo Hbytes. unfold proxy_http.
  step_bind open_stream_ok. cbn [must]. rewrite bind_pure. erewrite bind_val by reflexivity.
  rewrite Hdo. cbn [must]. rewrite bind_pure, Hbytes. cbn [must]. rewrite bind_pure.
  step_bind WriteBytesViaStream_conn. reflexivity.
Qed.

Lemma http_init_ok {L : ProtoLib} w http_Read http_Do URI_String ws_Dial n b req httpReq peer service
    provider more uri s respBody respBytes
    (path := ProxyRequestPath (ExtractRequestDetailFromFasthttpRequest httpReq).1)
    (base := ApronServiceProvider_GetSchema provider +:+ "://" +:+ ApronServiceProvider_GetBaseUrl provider) :
  Unmarshal b = Ok req -> Request_IsWsRequest req = false ->
  http_Read (Request_RawRequest req) = Ok httpReq ->
  peer_Decode w (Request_PeerId req) = Ok peer ->
  services n !! Request_ServiceId req = Some service -> Service_Providers service = provider :: more ->
  service_url base path = Ok uri ->
  NewStream w peer ProxyHttpRespFromServiceSide = Ok s -> accepts w s -> http_Do (mkToService uri (req_QueryArgs httpReq) httpReq) = Ok respBody ->
  Marshal (mkServiceData (Request_RequestId req) respBody) = Ok respBytes ->
  ProxyHttpInitRequestHandler w http_Read http_Do URI_String ws_Dial (ToDataCh b) n
  = (Val Answered, n,
     StreamOpened s peer ProxyHttpRespFromServiceSide ::
     HttpDo uri (req_QueryArgs httpReq) httpReq :: frame_writes s respBytes).
Proof.
  intros Hb Hhttp Hread Hpeer Hservice Hprovider Huri Hopen Hs Hdo Hbytes.
  erewrite init_handler_ok by eauto. rewrite Hhttp. by erewrite proxy_http_ok by eauto.
Qed.

(** A WebSocket request, up to the open session. *)
Lemma ws_init_ok {L : ProtoLib} w http_Read http_Do URI_String ws_Dial n b req httpReq peer service
    provider more uri s c
    (path := ProxyRequestPath (ExtractRequestDetailFromFasthttpRequest httpReq).1)
    (base := ApronServiceProvider_GetSchema provider +:+ "://" +:+ ApronServiceProvider_GetBaseUrl provider)
    (to := mkToService uri (req_QueryArgs httpReq) httpReq) :
  Unmarshal b = Ok req -> Request_IsWsRequest req = true ->
  http_Read (Request_RawRequest req) = Ok httpReq ->
  peer_Decode w (Request_PeerId req) = Ok peer ->
  services n !! Request_ServiceId req = Some service -> Service_Providers service = provider :: more ->
  service_url base path = Ok uri ->
  NewStream w peer ProxyWsDataFromServiceSide = Ok s -> ws_Dial (URI_String to) = Ok c ->
  ProxyHttpInitRequestHandler w http_Read http_Do URI_String ws_Dial (ToDataCh b) n
  = (Val (WsProxying (Request_RequestId req) s c), set_serviceWsConn (Request_RequestId req) c n,
     [StreamOpened s peer ProxyWsDataFromServiceSide; Dialed (URI_String to) c]).
Proof.
  intros Hb Hws Hread Hpeer Hservice Hprovider Huri Hopen Hdial.
  erewrite init_handler_ok by eauto. rewrite Hws. unfold proxy_ws.
  step_bind open_stream_ok. cbn [must]. rewrite bind_pure. fold to. rewrite Hdial. reflexivity.
Qed.

(** ** Properties *)

(** The data of an open socket session reaches its connection. Every message on
    a data stream whose request id has a connection is written to that connection
    as one frame, in order and unchanged, on the service side and on the client
    side alike; but when the stream ends or fails, the handler panics, and with
    it the process. *)
Theorem socket_session_data {L : ProtoLib} (w : World) (protocol : string) (n : Node) (rid : string)
    (c : conn) (bs ds : list bytes) (err : goerror) (more : list chan_op)
    (Hconn : socket_target protocol n rid = Some c) (Haccepts : accepts w c)
    (Hbs : Forall2 (fun b d => Unmarshal b = Ok (mkServiceData rid d)) bs ds) :
  exists es,
    ProxySocketDataHandler w protocol (ToDataCh <$> bs) n = (Val tt, n, es) /\
    written_to c es = concat (frame <$> ds) /\
    ProxySocketDataHandler w protocol ((ToDataCh <$> bs) ++ ToErrCh err :: more) n
    = (Panic read_data_stream_error, n, es).
Proof.
  exists (concat (frame_writes c <$> ds)). split_and!; [|apply written_frames|].
  - rewrite <- (app_nil_r (_ <$> bs)). erewrite ProxySocketDataHandler_ok by eauto.
    cbn. by rewrite app_nil_r.
  - erewrite ProxySocketDataHandler_ok by eauto. cbn. by rewrite app_nil_r.
Qed.

Definition example_session : Node :=
  set_serviceSocketConn "u.s.1" 5%N (set_serviceWsConn "u.s.1" 6%N
    (SetupServiceBroadcastListener "self" NewNode)).

Example socket_session_data_witness : exists es,
  ProxySocketDataHandler (L := WireFormat.wire_lib) example_world ProxySocketDataFromClientSide
    [ToDataCh (WireFormat.encoded (mkServiceData "u.s.1" (str_bytes "hi")))] example_session
  = (Val tt, example_session, es) /\ written_to 5%N es = frame (str_bytes "hi") ++ [].
Proof.
  destruct (socket_session_data (L := WireFormat.wire_lib) example_world ProxySocketDataFromClientSide
    example_session "u.s.1" 5%N [WireFormat.encoded (mkServiceData "u.s.1" (str_bytes "hi"))]
    [str_bytes "hi"] io_EOF []) as (es&E&W&_).
  - vm_compute. reflexivity.
  - intros p. reflexivity.
  - constructor; [vm_compute; reflexivity|constructor].
  - exists es. split; [exact E|exact W].
Defined.

(** The data of an open WebSocket session reaches its connection: every message on
    a data stream whose request id has a connection is written to it in order and
    unchanged; but when the stream ends or fails, the handler panics. *)
Theorem ws_session_data {L : ProtoLib} (w : World) (protocol : string) (n : Node) (rid : string)
    (c : conn) (bs ds : list bytes) (err : goerror) (more : list chan_op)
    (Hconn : ws_target protocol n rid = Some c) (Haccepts : forall p, WriteMessage w c p = None)
    (Hbs : Forall2 (fun b d => Unmarshal b = Ok (mkServiceData rid d)) bs ds) :
  ProxyWsDataHandler w protocol (ToDataCh <$> bs) n = (Val tt, n, WsMessage c <$> ds) /\
  ProxyWsDataHandler w protocol ((ToDataCh <$> bs) ++ ToErrCh err :: more) n
  = (Panic read_data_stream_error, n, WsMessage c <$> ds).
Proof.
  split.
  - rewrite <- (app_nil_r (_ <$> bs)). erewrite ProxyWsDataHandler_ok by eauto.
    cbn. by rewrite app_nil_r.
  - erewrite ProxyWsDataHandler_ok by eauto. cbn. by rewrite app_nil_r.
Qed.

Example ws_session_data_witness :
  ProxyWsDataHandler (L := WireFormat.wire_lib) example_world ProxyWsDataFromClientSide
    [ToDataCh (WireFormat.encoded (mkServiceData "u.s.1" (str_bytes "hi")))] example_session
  = (Val tt, example_session, [WsMessage 6%N (str_bytes "hi")]).
Proof.
  apply (ws_session_data (L := WireFormat.wire_lib) example_world ProxyWsDataFromClientSide
    example_session "u.s.1" 6%N [WireFormat.encoded (mkServiceData "u.s.1" (str_bytes "hi"))]
    [str_bytes "hi"] io_EOF []).
  - vm_compute. reflexivity.
  - intros p. reflexivity.
  - constructor; [vm_compute; reflexivity|constructor].
Defined.

(** Nothing checks that a session exists. One message for a request id that has
    no connection dereferences a nil connection: any peer that can open a data
    stream can end the gateway. *)
Theorem unknown_session_panics {L : ProtoLib} (w : World) (protocol : string) (n : Node) (b : bytes)
    (d : ApronServiceData) (more : list chan_op) (Hb : Unmarshal b = Ok d) :
  (protocol = ProxySocketDataFromClientSide \/ protocol = ProxySocketDataFromServiceSide ->
   socket_target protocol n (Data_RequestId d) = None ->
   ProxySocketDataHandler w protocol (ToDataCh b :: more) n = (Panic nil_deref, n, [])) /\
  (protocol = ProxyWsDataFromClientSide \/ protocol = ProxyWsDataFromServiceSide ->
   ws_target protocol n (Data_RequestId d) = None ->
   ProxyWsDataHandler w protocol (ToDataCh b :: more) n = (Panic nil_deref, n, [])).
Proof.
  split; intros Hp Ht; cbn [ProxySocketDataHandler ProxyWsDataHandler]; apply bind_panic.
  - unfold socket_data_turn, socket_target in *. rewrite Hb. cbn [must]. rewrite bind_pure.
    erewrite bind_val by reflexivity. repeat case_decide; [by rewrite Ht..|by destruct Hp].
  - unfold ws_data_turn, ws_target in *. rewrite Hb. cbn [must]. rewrite bind_pure.
    erewrite bind_val by reflexivity. repeat case_decide; [by rewrite Ht..|by destruct Hp].
Qed.

Example unknown_session_panics_witness :
  ProxySocketDataHandler (L := WireFormat.wire_lib) example_world ProxySocketDataFromClientSide
    [ToDataCh (WireFormat.encoded (mkServiceData "no.such.session" []))] example_session
  = (Panic nil_deref, example_session, []).
Proof.
  apply (unknown_session_panics (L := WireFormat.wire_lib) example_world ProxySocketDataFromClientSide
    example_session (WireFormat.encoded (mkServiceData "no.such.session" []))
    (mkServiceData "no.such.session" []) []).
  - vm_compute. reflexivity.
  - left. reflexivity.
  - vm_compute. reflexivity.
Defined.

(** The service side does not check that it offers the service it is asked for.
    A well-formed request, HTTP or socket, for an id that is not in its registry
    (or that has no provider) indexes an empty slice and panics; so does every
    client of a directory that is out of date. *)
Theorem unknown_service_panics {L : ProtoLib} (w : World) (http_Read : bytes -> result HttpRequest)
    (http_Do : ServiceRequest -> result bytes) (URI_String : ServiceRequest -> string)
    (ws_dial : string -> result conn) (n : Node) (peer : peer_ID)
    (b : bytes) (req : ApronServiceRequest) (httpReq : HttpRequest)
    (b' : bytes) (init : ApronSocketInitRequest)
    (Hb : Unmarshal b = Ok req) (Hread : http_Read (Request_RawRequest req) = Ok httpReq)
    (Hpeer : peer_Decode w (Request_PeerId req) = Ok peer)
    (Hservice : forall s, services n !! Request_ServiceId req = Some s -> Service_Providers s = [])
    (Hb' : Unmarshal b' = Ok init) (Hpeer' : peer_Decode w (SocketInit_PeerId init) = Ok peer)
    (Hservice' : forall s, services n !! SocketInit_ServiceId init = Some s -> Service_Providers s = []) :
  ProxyHttpInitRequestHandler w http_Read http_Do URI_String ws_dial (ToDataCh b) n
  = (Panic index_range, n, []) /\
  ProxySocketInitReqHandler w (Ok b') n = (Panic index_range, n, []).
Proof.
  split.
  - unfold ProxyHttpInitRequestHandler. rewrite Hb. cbn [must]. rewrite bind_pure, Hread.
    cbn [must]. rewrite bind_pure. cbn zeta. rewrite Hpeer. cbn [must]. rewrite bind_pure.
    erewrite bind_val by reflexivity. cbn zeta. erewrite bind_panic; [reflexivity|].
    unfold lift_outcome, BuildHttpRequestToService.
    destruct (services n !! Request_ServiceId req) as [s|]; [|done]. cbn. by rewrite Hservice.
  - unfold ProxySocketInitReqHandler. cbn [must]. rewrite bind_pure, Hb'. cbn [must].
    rewrite bind_pure, Hpeer'. cbn [must]. rewrite bind_pure.
    erewrite bind_val by reflexivity. cbn zeta.
    destruct (services n !! SocketInit_ServiceId init) as [s|]; [|done]. cbn. by rewrite Hservice'.
Qed.

(** A request as fasthttp reads it back, and an answer, for examples. *)
Definition example_read (raw : bytes) : result HttpRequest :=
  Ok (mkHttpRequest [] raw (str_bytes "GET") [] [(str_bytes "q", str_bytes "1")] (str_bytes "body")).

Definition example_do (req : ServiceRequest) : result bytes := Ok (str_bytes "answer").

Definition example_http : HttpRequest :=
  mkHttpRequest [] (str_bytes "/v1/abcdefghij_key/x") (str_bytes "GET") []
    [(str_bytes "q", str_bytes "1")] (str_bytes "body").

Definition example_http_request : ApronServiceRequest :=
  mkServiceRequest "abcdefghij" "_key.abcdefghij.uuid" "peer" false (str_bytes "/v1/abcdefghij_key/x").

Example unknown_service_panics_witness :
  ProxyHttpInitRequestHandler (L := WireFormat.wire_lib) example_world example_read example_do
    to_uri (fun _ => Ok 4%N) (ToDataCh (WireFormat.encoded example_http_request)) example_session
  = (Panic index_range, example_session, []).
Proof.
  apply (unknown_service_panics (L := WireFormat.wire_lib) example_world example_read example_do
    to_uri (fun _ => Ok 4%N) example_session "peer"
    (WireFormat.encoded example_http_request) example_http_request
    example_http
    (WireFormat.encoded (mkSocketInit "nope" "" "peer" "")) (mkSocketInit "nope" "" "peer" "")).
  - vm_compute. reflexivity.
  - reflexivity.
  - reflexivity.
  - vm_compute. discriminate.
  - vm_compute. reflexivity.
  - reflexivity.
  - vm_compute. discriminate.
Defined.

(** An HTTP request that the service side can serve is answered once, to the
    gateway that the request names: the service is called at the first
    provider's address joined with the rest of the path, the client's query
    arguments and body go along, and the one frame written back decodes to the
    service's response under the client's request id. *)
Theorem http_request_served {L : ProtoLib} (w : World) (http_Read : bytes -> result HttpRequest)
    (http_Do : ServiceRequest -> result bytes) (URI_String : ServiceRequest -> string)
    (ws_Dial : string -> result conn) (n : Node) (b : bytes) (req : ApronServiceRequest)
    (httpReq : HttpRequest) (peer : peer_ID) (service : ApronService)
    (provider : option ApronServiceProvider) (more : list (option ApronServiceProvider))
    (uri : string) (s : conn) (respBody respBytes : bytes)
    (path := ProxyRequestPath (ExtractRequestDetailFromFasthttpRequest httpReq).1)
    (base := ApronServiceProvider_GetSchema provider +:+ "://" +:+ ApronServiceProvider_GetBaseUrl provider)
    (Hb : Unmarshal b = Ok req) (Hhttp : Request_IsWsRequest req = false)
    (Hread : http_Read (Request_RawRequest req) = Ok httpReq)
    (Hpeer : peer_Decode w (Request_PeerId req) = Ok peer)
    (Hservice : services n !! Request_ServiceId req = Some service)
    (Hprovider : Service_Providers service = provider :: more)
    (Huri : service_url base path = Ok uri)
    (Hopen : NewStream w peer ProxyHttpRespFromServiceSide = Ok s) (Hs : accepts w s)
    (Hdo : http_Do (mkToService uri (req_QueryArgs httpReq) httpReq) = Ok respBody)
    (Hbytes : Marshal (mkServiceData (Request_RequestId req) respBody) = Ok respBytes) :
  ProxyHttpInitRequestHandler w http_Read http_Do URI_String ws_Dial (ToDataCh b) n
  = (Val Answered, n,
     StreamOpened s peer ProxyHttpRespFromServiceSide ::
     HttpDo uri (req_QueryArgs httpReq) httpReq :: frame_writes s respBytes) /\
  Unmarshal respBytes = Ok (mkServiceData (Request_RequestId req) respBody).
Proof. split; [by eapply http_init_ok|by apply Unmarshal_Marshal]. Qed.

(** C38: the request goes to the provider's base URL with the rest of the client's
    path below it. For a base of plain elements on any host and port, and a path
    of plain elements, the address is the base with the elements of the path
    behind it, and the client's request goes there with its query arguments;
    but a trailing slash of the path is lost on the way. *)
Theorem service_address (detail : RequestDetail) (httpReq : HttpRequest) (service : ApronService)
    (provider : option ApronServiceProvider) (more : list (option ApronServiceProvider))
    (scheme host : bytes) (bs ps : list bytes) (t : bool)
    (Hprovider : Service_Providers service = provider :: more)
    (Hschema : str_bytes (ApronServiceProvider_GetSchema provider) = scheme)
    (Hbase : str_bytes (ApronServiceProvider_GetBaseUrl provider) = host ++ slashed bs)
    (Hpath : ProxyRequestPath detail = join (ps ++ trailing t))
    (Hscheme : scheme_ok scheme) (Hhost : hostport_ok host)
    (Hbs : Forall element_ok bs) (Hps : Forall element_ok ps) :
  BuildHttpRequestToService detail httpReq service
  = Val (Ok (mkToService (bytes_str (url_text scheme host (bs ++ ps))) (req_QueryArgs httpReq) httpReq)).
Proof.
  unfold BuildHttpRequestToService, service_url. rewrite Hprovider, !str_bytes_app, Hschema, Hbase, Hpath.
  destruct (joined_plain_url scheme host bs ps t) as (u&Hu&E); [done..|].
  change (scheme ++ str_bytes "://" ++ host ++ slashed bs) with (url_text scheme host bs).
  rewrite Hu. cbn [mbind result_bind]. by rewrite E.
Qed.

Definition example_provider : option ApronServiceProvider :=
  Some (mkProvider "p" "" "" 0 0 "" "localhost:8080/base/v2" "http" NetworkType_Tcp4).

Example service_address_witness :
  BuildHttpRequestToService
    (ExtractRequestDetailFromFasthttpRequest
      (mkHttpRequest [] (str_bytes "/v1/abcdefghij_key/x/y/") [] [] [] [])).1
    example_http (mkService "abcdefghij" "" "" "" "" "" [example_provider] false)
  = Val (Ok (mkToService "http://localhost:8080/base/v2/x/y" [(str_bytes "q", str_bytes "1")] example_http)).
Proof.
  etransitivity; [|vm_compute; reflexivity].
  apply (service_address _ example_http _ example_provider [] (str_bytes "http") (str_bytes "localhost:8080")
    [str_bytes "base"; str_bytes "v2"] [str_bytes "x"; str_bytes "y"] true).
  - reflexivity.
  - reflexivity.
  - reflexivity.
  - vm_compute. reflexivity.
  - split; [discriminate|]. by repeat constructor.
  - exists (str_bytes "localhost"), (str_bytes ":8080"). split; [reflexivity|].
    split; [discriminate|]. split; [by repeat constructor|]. right.
    exists (str_bytes "8080"). split; [reflexivity|by repeat constructor].
  - apply (bool_decide_unpack _). vm_compute. exact I.
  - apply (bool_decide_unpack _). vm_compute. exact I.
Defined.

Definition example_service_side : Node :=
  put_service "self" (mkService "abcdefghij" "" "" "" "" ""
    [Some (mkProvider "p" "" "" 0 0 "" "localhost:8080" "http" NetworkType_Tcp4)] false)
    (SetupServiceBroadcastListener "self" NewNode).

Definition example_resp_bytes : bytes :=
  WireFormat.encoded (mkServiceData "_key.abcdefghij.uuid" (str_bytes "answer")).

Example http_request_served_witness :
  ProxyHttpInitRequestHandler (L := WireFormat.wire_lib) example_world example_read example_do
    to_uri (fun _ => Ok 4%N) (ToDataCh (WireFormat.encoded example_http_request)) example_service_side
  = (Val Answered, example_service_side,
     StreamOpened 7%N "peer" ProxyHttpRespFromServiceSide ::
     HttpDo "http://localhost:8080/x" [(str_bytes "q", str_bytes "1")] example_http ::
     frame_writes 7%N example_resp_bytes).
Proof.
  apply (http_request_served (L := WireFormat.wire_lib) example_world example_read example_do
    to_uri (fun _ => Ok 4%N) example_service_side (WireFormat.encoded example_http_request)
    example_http_request
    example_http "peer"
    (default zero_ApronService (services example_service_side !! "abcdefghij"%string))
    (Some (mkProvider "p" "" "" 0 0 "" "localhost:8080" "http" NetworkType_Tcp4)) []
    "http://localhost:8080/x" 7%N (str_bytes "answer") example_resp_bytes).
  - vm_compute. reflexivity.
  - reflexivity.
  - reflexivity.
  - reflexivity.
  - vm_compute. reflexivity.
  - vm_compute. reflexivity.
  - vm_compute. reflexivity.
  - reflexivity.
  - intros p. reflexivity.
  - reflexivity.
  - vm_compute. reflexivity.
Defined.

(** Everything a service sends on an open session is passed on, read by read and
    in order, each as one frame under the session's request id; and when the
    service closes its connection, which is how a session ends, the goroutine
    panics and takes the gateway with it. *)
Theorem service_close_panics {L : ProtoLib} (w : World) (rid : string) (s : conn)
    (ms bs : list bytes) (err : goerror) (more : list (result bytes)) (n : Node)
    (Hs : accepts w s) (Hms : Forall2 (fun m b => Marshal (mkServiceData rid m) = Ok b) ms bs) :
  forward_to_client w rid (Some s) ((Ok <$> ms) ++ Fail err :: more) n
  = (Panic (Error err), n, concat (frame_writes s <$> bs)) /\
  Forall2 (fun m b => Unmarshal b = Ok (mkServiceData rid m)) ms bs.
Proof.
  split.
  - erewrite forward_to_client_ok by eauto. cbn. by rewrite app_nil_r.
  - eapply Forall2_impl; [exact Hms|]. intros m b Hb. by apply Unmarshal_Marshal.
Qed.

Example service_close_panics_witness :
  forward_to_client (L := WireFormat.wire_lib) example_world "u.s.1" (Some 7%N)
    [Ok (str_bytes "answer"); Fail io_EOF] example_session
  = (Panic "EOF", example_session,
     frame_writes 7%N (WireFormat.encoded (mkServiceData "u.s.1" (str_bytes "answer"))) ++ []).
Proof.
  apply (service_close_panics (L := WireFormat.wire_lib) example_world "u.s.1" 7%N
    [str_bytes "answer"] [WireFormat.encoded (mkServiceData "u.s.1" (str_bytes "answer"))]
    io_EOF [] example_session).
  - intros p. reflexivity.
  - constructor; [vm_compute; reflexivity|constructor].
Defined.
