(* ===== verification/Exchange.v ===== *)
(** How HTTP responses find their clients: the handlers of [csgw_http.go] and the
    [ProxyHttpRespHandler] goroutines of [node_proxy_handler.go], which run at the
    same time and meet on unbuffered channels. A step relation on the whole
    gateway; the steps are made of the handlers' own definitions. *)

From S2P Require Import Prelude Messages NetworkHelper RequestDetail UsageRecord Node World ClientGateway ProxyHandlers.
From S2P Require WireFormat.

(** Where a client request is once it has been sent to the service side, and
    where a response handler is. A send is on the channel the map had when the
    send began. *)
Inductive client :=
  | Written
  | Waiting (ch : chan)
  | AnsweredWith (data : bytes).

Inductive sender :=
  | Receiving
  | Sending (ch : option chan) (d : ApronServiceData).

Record system := mkSystem {
  gw : Node;
  next_chan : chan;
  clients : gmap string client;
  senders : gmap N sender
}.

Inductive event :=
  | EvTau
  | EvFrame (d : ApronServiceData)
  | EvAnswer (rid : string) (data : bytes).

Section exchange.
Context {L : ProtoLib}.

Inductive exchange_step : system -> event -> system -> Prop :=
  | ex_request n nc cl se rid :
      cl !! rid = None ->
      exchange_step (mkSystem n nc cl se) EvTau (mkSystem n nc (<[rid := Written]> cl) se)
  | ex_register n nc cl se w req n' es :
      cl !! Request_RequestId req = Some Written -> make_chan w 1 = nc ->
      serveHttpRequest_register w req n = (Val (HttpWaiting req nc), n', es) ->
      exchange_step (mkSystem n nc cl se) EvTau
        (mkSystem n' (nc + 1)%N (<[Request_RequestId req := Waiting nc]> cl) se)
  | ex_stream n nc cl se i :
      se !! i = None ->
      exchange_step (mkSystem n nc cl se) EvTau (mkSystem n nc cl (<[i := Receiving]> se))
  | ex_frame n nc cl se i item ch d es :
      se !! i = Some Receiving ->
      http_resp_turn item n = (Val (ch, d), n, es) ->
      exchange_step (mkSystem n nc cl se) (EvFrame d) (mkSystem n nc cl (<[i := Sending ch d]> se))
  | ex_meet n nc cl se i ch d req n' es :
      se !! i = Some (Sending (Some ch) d) ->
      cl !! Request_RequestId req = Some (Waiting ch) ->
      serveHttpRequest_answer req (Data_RawData d) n = (Val tt, n', es) ->
      exchange_step (mkSystem n nc cl se) (EvAnswer (Request_RequestId req) (Data_RawData d))
        (mkSystem n' nc (<[Request_RequestId req := AnsweredWith (Data_RawData d)]> cl)
           (<[i := Receiving]> se)).

(** A run from [s], the last step last. *)
Inductive exchange_run (s : system) : list event -> system -> Prop :=
  | exchange_nil : exchange_run s [] s
  | exchange_snoc tr s1 e s2 :
      exchange_run s tr s1 -> exchange_step s1 e s2 -> exchange_run s (tr ++ [e]) s2.
End exchange.

Definition exchange_start (n : Node) : system := mkSystem n 0%N ∅ ∅.

(** ** The invariant *)

Record exchange_ok (s : system) : Prop := {
  (** the map has exactly the channels that handlers wait on *)
  ok_map rid ch : clientHttpDataChan (gw s) !! rid = Some ch <-> clients s !! rid = Some (Waiting ch);
  ok_old rid ch : clients s !! rid = Some (Waiting ch) -> (ch < next_chan s)%N;
  (** one handler waits on a channel *)
  ok_inj rid rid' ch : clients s !! rid = Some (Waiting ch) ->
    clients s !! rid' = Some (Waiting ch) -> rid = rid';
  (** a send is on the channel that was made for its request *)
  ok_send i ch d : senders s !! i = Some (Sending (Some ch) d) ->
    (ch < next_chan s)%N /\
    (forall rid, clients s !! rid = Some (Waiting ch) -> rid = Data_RequestId d) /\
    exists c, clients s !! Data_RequestId d = Some c /\ c <> Written
}.

Section invariant.
Context {L : ProtoLib}.

Lemma start_ok n : clientHttpDataChan n = ∅ -> exchange_ok (exchange_start n).
Proof.
  intros Hn. split; cbn.
  - intros. by rewrite Hn, !lookup_empty.
  - intros ??. by rewrite lookup_empty.
  - intros ???. by rewrite lookup_empty.
  - intros ???. by rewrite lookup_empty.
Qed.

Lemma http_resp_turn_spec item n ch d es :
  http_resp_turn item n = (Val (ch, d), n, es) ->
  exists b, item = ToDataCh b /\ Unmarshal b = Ok d /\ ch = clientHttpDataChan n !! Data_RequestId d.
Proof.
  unfold http_resp_turn. intros H.
  destruct item as [e|b]; [by run_handler|].
  apply bind_inv in H as (d'&n1&e1&e2&Hd&H&_).
  destruct (Unmarshal b) as [d0|] eqn:Hb; run_handler; simplify_eq. by exists b.
Qed.

Ltac look := repeat first
  [ progress simplify_map_eq
  | match goal with
    | H : context [<[?i := _]> _ !! ?j] |- _ => destruct (decide (i = j)) as [<-|?]
    | |- context [<[?i := _]> _ !! ?j] => destruct (decide (i = j)) as [<-|?]
    | H : context [delete ?i _ !! ?j] |- _ => destruct (decide (i = j)) as [<-|?]
    | |- context [delete ?i _ !! ?j] => destruct (decide (i = j)) as [<-|?]
    end ].

Lemma exchange_step_ok s e s' : exchange_ok s -> exchange_step s e s' -> exchange_ok s'.
Proof.
  intros [Hmap Hold Hinj Hsend] Hstep.
  destruct Hstep as [n nc cl se rid Hr|n nc cl se w req n' es Hr Hw H|n nc cl se i Hi
    |n nc cl se i item ch d es Hi H|n nc cl se i ch d req n' es Hi Hr H]; cbn in *.
  - split; cbn.
    + intros rid' ch. rewrite Hmap. look; naive_solver.
    + intros rid' ch ?. look; eauto.
    + intros r1 r2 ch ??. look; eauto.
    + intros i ch d Hs. destruct (Hsend _ _ _ Hs) as (?&Hw&c&Hc&?). split_and!; [done| |].
      * intros r ?. look; eauto.
      * exists c. look; naive_solver.
  - unfold serveHttpRequest_register in H. run_handler. simplify_eq. cbn. split; cbn.
    + intros rid' ch. look; first [apply Hmap|naive_solver].
    + intros rid' ch ?. look; [lia|]. assert (ch < make_chan w 1)%N by eauto. lia.
    + intros r1 r2 ch ??. look; eauto; exfalso; [apply (N.lt_irrefl (make_chan w 1%nat))..]; eauto.
    + intros i ch d Hs. destruct (Hsend _ _ _ Hs) as (?&Hw&c&Hc&?). split_and!; [lia| |].
      * intros r ?. look; [lia|eauto].
      * look; eauto.
  - split; cbn; eauto. intros j ch d ?. look; eauto.
  - apply http_resp_turn_spec in H as (b&->&Hb&->). split; cbn; eauto.
    intros j ch d' Hj. destruct (decide (i = j)) as [<-|Hne].
    2: { rewrite lookup_insert_ne in Hj by done. eauto. }
    rewrite lookup_insert_eq in Hj. injection Hj as Hch <-. apply Hmap in Hch as Hcl.
    split_and!; [eauto| |].
    + intros rid Hrid. eauto.
    + eexists. by split.
  - unfold serveHttpRequest_answer in H. run_handler. simplify_eq. cbn. split; cbn.
    + intros rid' ch'. look; first [apply Hmap|naive_solver].
    + intros rid' ch' ?. look; eauto.
    + intros r1 r2 ch' ??. look; eauto.
    + intros j ch' d' Hj. destruct (decide (i = j)) as [<-|Hj'].
      { by rewrite lookup_insert_eq in Hj. }
      rewrite lookup_insert_ne in Hj by done. destruct (Hsend _ _ _ Hj) as (?&Hw&c&Hc&?). split_and!; [done| |].
      * intros r Hr'. destruct (decide (Request_RequestId req = r)) as [<-|Hne].
        { by rewrite lookup_insert_eq in Hr'. }
        rewrite lookup_insert_ne in Hr' by done. eauto.
      * look; eauto.
Qed.

Lemma exchange_run_ok s tr s' : exchange_ok s -> exchange_run s tr s' -> exchange_ok s'.
Proof. intros Hs Hrun. induction Hrun; eauto using exchange_step_ok. Qed.

(** ** What a run has received and answered *)

Definition answered (e : event) : option string :=
  match e with EvAnswer rid _ => Some rid | _ => None end.

Record trace_ok (tr : list event) (s : system) : Prop := {
  tr_send i ch d : senders s !! i = Some (Sending ch d) -> EvFrame d ∈ tr;
  tr_done rid data : EvAnswer rid data ∈ tr -> clients s !! rid = Some (AnsweredWith data);
  tr_own rid data : EvAnswer rid data ∈ tr ->
    exists d, EvFrame d ∈ tr /\ Data_RequestId d = rid /\ Data_RawData d = data;
  tr_once : NoDup (omap answered tr)
}.

Lemma trace_snoc_other tr s e s' :
  trace_ok tr s -> answered e = None ->
  (forall i ch d, senders s' !! i = Some (Sending ch d) -> EvFrame d ∈ tr ++ [e]) ->
  (forall rid data, clients s !! rid = Some (AnsweredWith data) ->
     clients s' !! rid = Some (AnsweredWith data)) ->
  trace_ok (tr ++ [e]) s'.
Proof.
  intros [Hs Hd Ho Hn] He Hs' Hd'.
  assert (forall rid data, EvAnswer rid data ∈ tr ++ [e] -> EvAnswer rid data ∈ tr) as Hin.
  { intros rid data [?| <-%list_elem_of_singleton]%elem_of_app; done. }
  split; [done|eauto| |].
  - intros rid data (d&?&?&?)%Hin%Ho. exists d. split_and!; [set_solver|done..].
  - rewrite omap_app. cbn. by rewrite He, app_nil_r.
Qed.

Lemma trace_step tr s e s' :
  exchange_ok s -> trace_ok tr s -> exchange_step s e s' -> trace_ok (tr ++ [e]) s'.
Proof.
  intros Hok Htr Hstep. pose proof (tr_send _ _ Htr) as Hs.
  destruct Hstep as [n nc cl se rid Hr|n nc cl se w req n' es Hr Hw H|n nc cl se i Hi
    |n nc cl se i item ch d es Hi H|n nc cl se i ch d req n' es Hi Hr H]; cbn in *.
  - apply (trace_snoc_other _ _ _ _ Htr); [done|set_solver|].
    cbn. intros rid' data ?. look; done.
  - apply (trace_snoc_other _ _ _ _ Htr); [done|set_solver|].
    cbn. intros rid' data ?. look; done.
  - apply (trace_snoc_other _ _ _ _ Htr); [done| |done].
    cbn. intros j ch d Hj. look. set_solver.
  - apply (trace_snoc_other _ _ _ _ Htr); [done| |done].
    cbn. intros j ch' d' Hj. look; set_solver.
  - destruct (ok_send _ Hok _ _ _ Hi) as (_&Hrid&_). apply Hrid in Hr as Hrid'. clear Hrid.
    destruct Htr as [_ Hd Ho Hn]. split; cbn in *.
    + intros j ch' d' Hj. look. set_solver.
    + intros rid data [Hin|[= -> ->]%list_elem_of_singleton]%elem_of_app; [|by rewrite lookup_insert_eq].
      apply Hd in Hin. rewrite lookup_insert_ne; [done|]. intros <-. by rewrite Hr in Hin.
    + intros rid data [Hin|[= -> ->]%list_elem_of_singleton]%elem_of_app.
      * destruct (Ho _ _ Hin) as (d'&?&?&?). exists d'. split_and!; [set_solver|done..].
      * exists d. split_and!; [|done..]. apply Hs in Hi. set_solver.
    + rewrite omap_app. cbn. apply NoDup_app. split_and!; [done| |apply NoDup_singleton].
      intros rid ([]&Hin&[= ->])%list_elem_of_omap ->%list_elem_of_singleton.
      apply Hd in Hin. by rewrite Hr in Hin.
Qed.

Lemma start_trace_ok n : trace_ok [] (exchange_start n).
Proof. split; cbn; [intros ???; by rewrite lookup_empty|set_solver|set_solver|constructor]. Qed.

Lemma exchange_run_trace n tr s :
  clientHttpDataChan n = ∅ -> exchange_run (exchange_start n) tr s ->
  exchange_ok s /\ trace_ok tr s.
Proof.
  intros Hn Hrun. induction Hrun as [|tr s1 e s2 _ [Hok Htr] Hstep].
  - split; [by apply start_ok|apply start_trace_ok].
  - split; [by eapply exchange_step_ok|by eapply trace_step].
Qed.
End invariant.

(** ** A response that comes too early *)

(** What stays true of a request whose only response found no channel: its
    sender is stuck, and no other send is for it. *)
Definition response_lost (i : N) (d : ApronServiceData) (s : system) : Prop :=
  senders s !! i = Some (Sending None d) /\
  (forall data, clients s !! Data_RequestId d <> Some (AnsweredWith data)) /\
  (forall j ch d', senders s !! j = Some (Sending (Some ch) d') ->
     Data_RequestId d' <> Data_RequestId d).

Section early.
Context {L : ProtoLib}.

Lemma response_lost_step i d s e s' :
  exchange_ok s -> response_lost i d s ->
  (forall d', e = EvFrame d' -> Data_RequestId d' <> Data_RequestId d) ->
  exchange_step s e s' -> response_lost i d s'.
Proof.
  intros Hok (Hi&Hc&Ho) Hother Hstep.
  destruct Hstep as [n nc cl se rid Hr|n nc cl se w req n' es Hr Hw H|n nc cl se k Hk
    |n nc cl se k item ch d0 es Hk H|n nc cl se k ch d0 req n' es Hk Hr H];
    unfold response_lost in *; cbn in *.
  - split_and!; [done| |done]. intros data. rewrite lookup_insert_Some. naive_solver.
  - split_and!; [done| |done]. intros data. rewrite lookup_insert_Some. naive_solver.
  - assert (k <> i) by congruence. split_and!; [by rewrite lookup_insert_ne|done|].
    intros j ch d'. rewrite lookup_insert_Some. naive_solver.
  - assert (k <> i) by congruence. split_and!; [by rewrite lookup_insert_ne|done|].
    intros j ch' d'. rewrite lookup_insert_Some. naive_solver.
  - assert (k <> i) by congruence. split_and!; [by rewrite lookup_insert_ne| |].
    + intros data. rewrite lookup_insert_Some. intros [[Heq _]|[_ ?]]; [|naive_solver].
      destruct (ok_send _ Hok _ _ _ Hk) as (_&Hrid&_). apply (Ho _ _ _ Hk).
      rewrite <- Heq. symmetry. by apply Hrid.
    + intros j ch' d'. rewrite lookup_insert_Some. naive_solver.
Qed.

Lemma response_lost_run i d s tr s' :
  exchange_ok s -> response_lost i d s ->
  (forall d', EvFrame d' ∈ tr -> Data_RequestId d' <> Data_RequestId d) ->
  exchange_run s tr s' -> response_lost i d s'.
Proof.
  intros Hok Hl Hother Hrun. induction Hrun as [|tr s1 e s2 Hrun IH Hstep]; [done|].
  apply (response_lost_step i d s1 e s2); [by eapply exchange_run_ok| |intros d' ->|exact Hstep].
  - apply IH. intros d' Hd'. apply Hother. set_solver.
  - apply Hother. set_solver.
Qed.

(** A request that has not registered has no channel. *)
Lemma early_frame_lost s i d :
  exchange_ok s -> clients s !! Data_RequestId d = Some Written ->
  clientHttpDataChan (gw s) !! Data_RequestId d = None /\
  response_lost i d (mkSystem (gw s) (next_chan s) (clients s) (<[i := Sending None d]> (senders s))).
Proof.
  intros Hok Hr.
  assert (clientHttpDataChan (gw s) !! Data_RequestId d = None) as Hnone.
  { destruct (clientHttpDataChan (gw s) !! Data_RequestId d) as [ch|] eqn:E; [|done].
    apply (ok_map _ Hok) in E. congruence. }
  split; [done|]. unfold response_lost. cbn. split_and!.
  - by rewrite lookup_insert_eq.
  - intros data. rewrite Hr. done.
  - intros j ch d'. rewrite lookup_insert_Some. intros [[? [=]]|[? Hj]] Heq.
    destruct (ok_send _ Hok _ _ _ Hj) as (_&_&c&Hc&?). congruence.
Qed.
End early.

(** ** Properties *)

(** C2: no client gets another client's response. In every interleaving of the
    handlers of any number of requests and response streams, what a client is
    answered is the data of a message that was received under its own request
    id, and a request is answered at most once. *)
Theorem response_isolation {L : ProtoLib} (n : Node) (tr : list event) (s : system)
    (Hempty : clientHttpDataChan n = ∅) (Hrun : exchange_run (exchange_start n) tr s) :
  (forall rid data, EvAnswer rid data ∈ tr ->
     exists d, EvFrame d ∈ tr /\ Data_RequestId d = rid /\ Data_RawData d = data) /\
  NoDup (omap answered tr).
Proof.
  destruct (exchange_run_trace n tr s Hempty Hrun) as [_ Htr].
  split; [apply (tr_own _ _ Htr)|apply (tr_once _ _ Htr)].
Qed.

Definition example_data : ApronServiceData := mkServiceData "k.s.1" (str_bytes "answer").
Definition example_item : chan_op := ToDataCh (WireFormat.encoded example_data).
Definition example_request : ApronServiceRequest := mkServiceRequest "s" "k.s.1" "QmSelf" false [].

(** A world whose channels are numbered from the given one. *)
Definition world_with (ch : chan) : World :=
  mkWorld "QmSelf" (fun _ _ => Ok 7%N) (fun s => Ok s) (fun _ => Ok 9%N) (fun _ _ => None)
    (fun _ _ => None) "uuid" (fun _ => ch).

Definition example_trace : list event :=
  [EvTau; EvTau; EvTau; EvFrame example_data; EvAnswer "k.s.1" (str_bytes "answer")].

Lemma example_exchange : exists s,
  exchange_run (L := WireFormat.wire_lib) (exchange_start NewNode) example_trace s.
Proof.
  eexists. unfold example_trace.
  change example_trace with ([EvTau; EvTau; EvTau; EvFrame example_data] ++
    [EvAnswer "k.s.1" (str_bytes "answer")]).
  eapply (exchange_snoc _ [EvTau; EvTau; EvTau; EvFrame example_data]).
  { eapply (exchange_snoc _ [EvTau; EvTau; EvTau]).
    { eapply (exchange_snoc _ [EvTau; EvTau]).
      { eapply (exchange_snoc _ [EvTau]).
        { eapply (exchange_snoc _ []); [constructor|].
          by apply (ex_request _ _ _ _ "k.s.1"). }
        by apply (ex_stream _ _ _ _ 0%N). }
      eapply (ex_register _ _ _ _ (world_with 0) example_request); vm_compute; reflexivity. }
    eapply (ex_frame _ _ _ _ 0%N example_item); vm_compute; reflexivity. }
  eapply (ex_meet _ _ _ _ 0%N 0%N example_data example_request); vm_compute; reflexivity.
Qed.

Example response_isolation_witness : exists s,
  exchange_run (L := WireFormat.wire_lib) (exchange_start NewNode) example_trace s /\
  NoDup (omap answered example_trace).
Proof.
  destruct example_exchange as [s Hrun]. exists s. split; [exact Hrun|].
  apply (response_isolation (L := WireFormat.wire_lib) NewNode example_trace s); [reflexivity|exact Hrun].
Defined.

(** C23: a fast response is lost. The handler sends the request before it makes and
    registers its channel; if the response is received in between, its sender
    blocks on a nil channel for ever, and the client, though it registers later,
    is never answered, in any run in which the service side does not answer
    the same request again. *)
Theorem early_response_hangs {L : ProtoLib} (n : Node) (tr0 : list event) (s s1 : system) (i : N)
    (d : ApronServiceData) (tr : list event) (s2 : system)
    (Hempty : clientHttpDataChan n = ∅) (Hrun0 : exchange_run (exchange_start n) tr0 s)
    (Hsent : clients s !! Data_RequestId d = Some Written)
    (Hframe : exchange_step s (EvFrame d) s1) (Hi : senders s !! i = Some Receiving)
    (Hi1 : senders s1 !! i <> Some Receiving)
    (Hrun : exchange_run s1 tr s2)
    (Honce : forall d', EvFrame d' ∈ tr -> Data_RequestId d' <> Data_RequestId d) :
  senders s2 !! i = Some (Sending None d) /\
  (forall data, clients s2 !! Data_RequestId d <> Some (AnsweredWith data)).
Proof.
  destruct (exchange_run_trace n tr0 s Hempty Hrun0) as [Hok _].
  assert (exchange_ok s1 /\ response_lost i d s1) as [Hok1 Hl1].
  { split; [by eapply exchange_step_ok|]. inversion Hframe as [| | |n0 nc cl se k item ch ? es Hk H|]; subst.
    destruct (early_frame_lost (mkSystem n0 nc cl se) i d Hok Hsent) as [Hnone Hlost].
    apply http_resp_turn_spec in H as (b&_&_&->). cbn in Hnone. rewrite Hnone in *.
    destruct (decide (k = i)) as [->|Hne]; [exact Hlost|].
    cbn in Hi1. by rewrite lookup_insert_ne in Hi1. }
  destruct (response_lost_run i d s1 tr s2 Hok1 Hl1 Honce Hrun) as (?&?&_). done.
Qed.

Definition example_early : system :=
  mkSystem NewNode 0%N {["k.s.1" := Written]} {[0%N := Receiving]}.

Lemma example_early_run :
  exchange_run (L := WireFormat.wire_lib) (exchange_start NewNode) [EvTau; EvTau] example_early.
Proof.
  eapply (exchange_snoc _ [EvTau]).
  { eapply (exchange_snoc _ []); [constructor|]. by apply (ex_request _ _ _ _ "k.s.1"). }
  by apply (ex_stream _ _ _ _ 0%N).
Qed.

(** The response comes, then the client registers. *)
Lemma example_late_run : exists s1 s2,
  exchange_step (L := WireFormat.wire_lib) example_early (EvFrame example_data) s1 /\
  exchange_run (L := WireFormat.wire_lib) s1 [EvTau] s2 /\
  senders s1 !! 0%N <> Some Receiving /\
  clients s2 !! "k.s.1"%string = Some (Waiting 0%N).
Proof.
  eexists _, _. split_and!.
  - eapply (ex_frame _ _ _ _ 0%N example_item); vm_compute; reflexivity.
  - eapply (exchange_snoc _ []); [constructor|].
    eapply (ex_register _ _ _ _ (world_with 0) example_request); vm_compute; reflexivity.
  - vm_compute. discriminate.
  - reflexivity.
Qed.

Example early_response_hangs_witness : exists s2,
  clients s2 !! "k.s.1"%string = Some (Waiting 0%N) /\
  senders s2 !! 0%N = Some (Sending None example_data) /\
  (forall data, clients s2 !! "k.s.1"%string <> Some (AnsweredWith data)).
Proof.
  destruct example_late_run as (s1&s2&Hframe&Hrun&Hi1&Hw). exists s2. split; [exact Hw|].
  apply (early_response_hangs (L := WireFormat.wire_lib) NewNode [EvTau; EvTau] example_early s1 0%N
           example_data [EvTau] s2).
  - reflexivity.
  - exact example_early_run.
  - vm_compute. reflexivity.
  - exact Hframe.
  - reflexivity.
  - exact Hi1.
  - exact Hrun.
  - intros d' Hd'. apply list_elem_of_singleton in Hd'. discriminate Hd'.
Defined.

(** C22: a response that comes after its client has registered can always be
    delivered: in every reachable state its send and the client's receive are
    on the same channel, and when they meet the client is answered with exactly
    that data and its channel is gone from the map. *)
Theorem timely_response_delivered {L : ProtoLib} (n : Node) (tr : list event) (s : system) (i : N)
    (ch : chan) (b : bytes) (d : ApronServiceData)
    (Hempty : clientHttpDataChan n = ∅) (Hrun : exchange_run (exchange_start n) tr s)
    (Hwait : clients s !! Data_RequestId d = Some (Waiting ch))
    (Hi : senders s !! i = Some Receiving) (Hb : Unmarshal b = Ok d) :
  exists s1 s2,
    exchange_step s (EvFrame d) s1 /\ senders s1 !! i = Some (Sending (Some ch) d) /\
    exchange_step s1 (EvAnswer (Data_RequestId d) (Data_RawData d)) s2 /\
    clients s2 !! Data_RequestId d = Some (AnsweredWith (Data_RawData d)) /\
    clientHttpDataChan (gw s2) !! Data_RequestId d = None /\ senders s2 !! i = Some Receiving.
Proof.
  destruct (exchange_run_trace n tr s Hempty Hrun) as [Hok _].
  apply (ok_map _ Hok) in Hwait as Hch. destruct s as [n0 nc cl se]; cbn in *.
  eexists _, _. split_and!.
  - eapply (ex_frame n0 nc cl se i (ToDataCh b) (Some ch) d); [done|].
    unfold http_resp_turn. rewrite Hb. cbn [must]. rewrite bind_pure.
    erewrite bind_val by reflexivity. rewrite Hch. reflexivity.
  - cbn. by rewrite lookup_insert_eq.
  - eapply (ex_meet n0 nc cl _ i ch d (mkServiceRequest "" (Data_RequestId d) "" false []));
      [by rewrite lookup_insert_eq|done|reflexivity].
  - cbn. by rewrite lookup_insert_eq.
  - cbn. by rewrite lookup_delete_eq.
  - cbn. by rewrite lookup_insert_eq.
Qed.

Lemma example_registered : exists s,
  exchange_run (L := WireFormat.wire_lib) (exchange_start NewNode) [EvTau; EvTau; EvTau] s /\
  clients s !! "k.s.1"%string = Some (Waiting 0%N) /\ senders s !! 0%N = Some Receiving.
Proof.
  eexists. split_and!.
  - eapply (exchange_snoc _ [EvTau; EvTau]); [exact example_early_run|].
    eapply (ex_register _ _ _ _ (world_with 0) example_request); vm_compute; reflexivity.
  - reflexivity.
  - reflexivity.
Qed.

Example timely_response_delivered_witness : exists s1 s2,
  exchange_step (L := WireFormat.wire_lib) s1 (EvAnswer "k.s.1" (str_bytes "answer")) s2 /\
  clients s2 !! "k.s.1"%string = Some (AnsweredWith (str_bytes "answer")).
Proof.
  destruct example_registered as (s&Hrun&Hc0&Hs0).
  destruct (timely_response_delivered (L := WireFormat.wire_lib) NewNode [EvTau; EvTau; EvTau]
    s 0%N 0%N (WireFormat.encoded example_data) example_data) as (s1&s2&_&_&Hs&Hc&_).
  - reflexivity.
  - exact Hrun.
  - exact Hc0.
  - exact Hs0.
  - vm_compute. reflexivity.
  - exists s1, s2. split; [exact Hs|exact Hc].
Defined.
