(* ===== verification/Tunnel.v ===== *)
(** The gateway end to end: a client-side node and a service-side node, each with
    its own state and world, joined by the bytes that one writes on a stream and
    the other reads. *)

From S2P Require Import Prelude Messages NetworkHelper RequestDetail UsageRecord Node World Url ClientGateway ProxyHandlers Exchange.
From S2P Require WireFormat.

(** A stream delivers frames in aligned chunks: none holds bytes of two. What is
    lost otherwise is the subject of [NetworkHelper.frames_lost_raw]. *)
Definition aligned (gs : list (list bytes)) (ds : list bytes) : Prop :=
  Forall2 (fun g d => concat g = frame d /\ Forall nonempty g) gs ds.

Lemma aligned_bytes gs ds : aligned gs ds -> concat (concat gs) = concat (frame <$> ds).
Proof.
  intros H. induction H as [|g d gs ds [Hg _] _ IH]; [done|].
  cbn [concat fmap list_fmap]. by rewrite concat_app, Hg, IH.
Qed.

Definition fits (maxAlloc : Z) (ds : list bytes) : Prop :=
  Forall (fun d : bytes => Z.of_nat (length d) <= maxAlloc) ds.

Section decoded.
Context {L : ProtoLib}.

Lemma data_decoded rid ds bs :
  Forall2 (fun d b => Marshal (mkServiceData rid d) = Ok b) ds bs ->
  Forall2 (fun b d => Unmarshal b = Ok (mkServiceData rid d)) bs ds.
Proof.
  intros H. apply Forall2_flip. eapply Forall2_impl; [exact H|].
  intros d b Hb. by apply Unmarshal_Marshal.
Qed.

(** A stream of data messages, from its chunks to the connection at its end. *)
Lemma data_stream_delivered w maxAlloc protocol n rid c gs ds bs t :
  maxAlloc < 2 ^ 64 -> aligned gs bs -> fits maxAlloc bs ->
  Forall2 (fun d b => Marshal (mkServiceData rid d) = Ok b) ds bs ->
  socket_target protocol n rid = Some c -> accepts w c ->
  ProxySocketDataHandler w protocol
    (ReadBytesViaStream maxAlloc (length bs) (RawReader (mkSource (concat gs) t))) n
  = (Val tt, n, concat (frame_writes c <$> ds)).
Proof.
  intros Hmax Hgs Hfit Hds Hc Hacc.
  rewrite (ReadBytesViaStream_aligned maxAlloc Hmax gs bs _ []) by (done || by rewrite app_nil_r).
  rewrite <- (app_nil_r (_ <$> bs)).
  erewrite ProxySocketDataHandler_ok by eauto using data_decoded.
  cbn. by rewrite app_nil_r.
Qed.
End decoded.

(** ** Properties *)

(** C5: the socket tunnel is transparent towards the service. What the client writes
    on its connection, frame after frame, goes through the loop of the client-side
    gateway, over a data stream, and through the handler of the service-side
    gateway, and arrives at the service's connection byte for byte, whatever the
    chunks in which either network delivers it, as long as on neither hop a chunk
    crosses a frame's end ([aligned]: elsewhere frames are lost,
    [NetworkHelper.frames_lost_raw]). *)
Theorem socket_tunnel_transparent {L : ProtoLib} (w1 w2 : World) (maxAlloc : Z)
    (gs : list (list bytes)) (ds bs : list bytes) (rid : string) (c s c' : conn)
    (n1 n2 : Node) (gs' : list (list bytes)) (t : option goerror) (turns : nat)
    (Hmax : maxAlloc < 2 ^ 64)
    (Hclient : aligned gs ds) (Hds : fits maxAlloc ds) (Hbs : fits maxAlloc bs)
    (Hmarshal : Forall2 (fun d b => Marshal (mkServiceData rid d) = Ok b) ds bs)
    (Hs : accepts w1 s) (Hstream : aligned gs' bs)
    (Hsession : serviceSocketConns n2 !! rid = Some c') (Hc' : accepts w2 c') :
  exists es1 es2,
    forward_client_data w1 maxAlloc (length ds + S turns) rid c s
      (mkSource (concat gs) (Some io_EOF)) n1 = (Val tt, n1, es1) /\
    concat (concat gs') = written_to s es1 /\
    ProxySocketDataHandler w2 ProxySocketDataFromClientSide
      (ReadBytesViaStream maxAlloc (length bs) (RawReader (mkSource (concat gs') t))) n2
    = (Val tt, n2, es2) /\
    written_to c' es2 = concat (concat gs).
Proof.
  eexists _, _. split_and!.
  - erewrite (forward_client_data_aligned w1 maxAlloc gs ds bs _ []) by (done || by rewrite app_nil_r).
    cbn [term]. rewrite forward_client_data_end, decide_True by done. reflexivity.
  - cbn [snd]. rewrite written_to_app, written_frames, (aligned_bytes gs' bs) by done.
    symmetry. apply app_nil_r.
  - eapply (data_stream_delivered w2 maxAlloc _ n2 rid c' gs' ds bs); try done.
  - by rewrite written_frames, (aligned_bytes gs ds).
Qed.

Definition example_bytes : bytes := WireFormat.encoded (mkServiceData "u.s.1" (str_bytes "hi")).

Example socket_tunnel_transparent_witness : exists es1 es2,
  forward_client_data (L := WireFormat.wire_lib) example_world 1000 2 "u.s.1" 3%N 7%N
    (mkSource [frame (str_bytes "hi")] (Some io_EOF)) example_gateway = (Val tt, example_gateway, es1) /\
  written_to 7%N es1 = frame example_bytes /\
  ProxySocketDataHandler (L := WireFormat.wire_lib) example_world ProxySocketDataFromClientSide
    (ReadBytesViaStream 1000 1 (RawReader (mkSource [frame example_bytes] None))) example_session
  = (Val tt, example_session, es2) /\ written_to 5%N es2 = frame (str_bytes "hi").
Proof.
  destruct (socket_tunnel_transparent (L := WireFormat.wire_lib) example_world example_world 1000
    [[frame (str_bytes "hi")]] [str_bytes "hi"] [example_bytes] "u.s.1" 3%N 7%N 5%N
    example_gateway example_session [[frame example_bytes]] None 0) as (es1&es2&E1&W1&E2&W2).
  - lia.
  - constructor; [|constructor]. split; [reflexivity|]. constructor; [discriminate|constructor].
  - constructor; [cbn; lia|constructor].
  - constructor; [|constructor]. apply (bool_decide_unpack _). vm_compute. exact I.
  - constructor; [vm_compute; reflexivity|constructor].
  - intros p. reflexivity.
  - constructor; [|constructor]. split; [reflexivity|]. constructor; [discriminate|constructor].
  - vm_compute. reflexivity.
  - intros p. reflexivity.
  - exists es1, es2. split; [exact E1|]. split; [rewrite <- W1; reflexivity|].
    split; [exact E2|]. rewrite W2. reflexivity.
Defined.

(** Towards the client the tunnel is not transparent: what the service writes
    arrives complete and in order, but cut into frames where the service-side
    gateway happened to read it, each with a length in front that the service
    never sent. *)
Theorem socket_tunnel_down {L : ProtoLib} (w1 w2 : World) (maxAlloc : Z) (ms bs : list bytes)
    (rid : string) (s c : conn) (n1 n2 : Node) (gs : list (list bytes)) (t : option goerror)
    (Hmax : maxAlloc < 2 ^ 64) (Hfit : fits maxAlloc bs)
    (Hmarshal : Forall2 (fun d b => Marshal (mkServiceData rid d) = Ok b) ms bs)
    (Hs : accepts w2 s) (Hstream : aligned gs bs)
    (Hsession : clientSocketConns n1 !! rid = Some c) (Hc : accepts w1 c) :
  exists es2 es1,
    forward_to_client w2 rid (Some s) (Ok <$> ms) n2 = (Val tt, n2, es2) /\
    concat (concat gs) = written_to s es2 /\
    ProxySocketDataHandler w1 ProxySocketDataFromServiceSide
      (ReadBytesViaStream maxAlloc (length bs) (RawReader (mkSource (concat gs) t))) n1
    = (Val tt, n1, es1) /\
    written_to c es1 = concat (frame <$> ms).
Proof.
  eexists _, _. split_and!.
  - rewrite <- (app_nil_r (Ok <$> ms)). erewrite forward_to_client_ok by eauto. reflexivity.
  - cbn [snd forward_to_client]. unfold mret, M_ret. cbn [snd].
    by rewrite app_nil_r, written_frames, (aligned_bytes gs bs).
  - eapply (data_stream_delivered w1 maxAlloc _ n1 rid c gs ms bs); try done.
  - by rewrite written_frames.
Qed.

Example socket_tunnel_down_witness : exists es1,
  ProxySocketDataHandler (L := WireFormat.wire_lib) example_world ProxySocketDataFromServiceSide
    (ReadBytesViaStream 1000 1 (RawReader (mkSource [frame example_bytes] None)))
    (set_clientSocketConn "u.s.1" 3%N example_session)
  = (Val tt, set_clientSocketConn "u.s.1" 3%N example_session, es1) /\
  written_to 3%N es1 = frame (str_bytes "hi") ++ [].
Proof.
  destruct (socket_tunnel_down (L := WireFormat.wire_lib) example_world example_world 1000
    [str_bytes "hi"] [example_bytes] "u.s.1" 7%N 3%N
    (set_clientSocketConn "u.s.1" 3%N example_session) example_session [[frame example_bytes]] None)
    as (es2&es1&_&_&E&W).
  - lia.
  - constructor; [|constructor]. apply (bool_decide_unpack _). vm_compute. exact I.
  - constructor; [vm_compute; reflexivity|constructor].
  - intros p. reflexivity.
  - constructor; [|constructor]. split; [reflexivity|]. constructor; [discriminate|constructor].
  - vm_compute. reflexivity.
  - intros p. reflexivity.
  - exists es1. split; [exact E|exact W].
Defined.

(** C1: an HTTP request makes the whole round. Given a directory that knows the
    service, a service side that offers it, and networks that work, the client's
    request goes through both gateways to the service and the service's response
    comes back: the reply is 200 with exactly the service's body. The channel
    of the request is then gone from [clientHttpDataChan]; its entry in
    [requestIdChanMapping] stays for good. *)
Theorem http_round_trip {L : ProtoLib} (w1 w2 : World) (maxAlloc : Z)
    (http_Read : bytes -> result HttpRequest) (http_Do : ServiceRequest -> result bytes)
    (URI_String : ServiceRequest -> string) (ws_Dial : string -> result conn)
    (upgrade : option goerror) (raw : bytes) (request : HttpRequest) (d : RequestDetail)
    (n1 n2 : Node) (owner peer : peer_ID) (service1 service2 : ApronService)
    (provider : option ApronServiceProvider) (more : list (option ApronServiceProvider))
    (s1 s2 : conn) (reqBytes : bytes) (uri : string) (respBody respBytes : bytes)
    (gs1 gs2 : list (list bytes)) (t1 t2 : option goerror)
    (name := bytes_str (ServiceName d))
    (rid := build_request_id (bytes_str (UserKey d)) name (uuid_New w1))
    (req := mkServiceRequest name rid (host_ID w1) false raw)
    (Hmax : maxAlloc < 2 ^ 64)
    (* the client side *)
    (Hn1 : registry_ok n1)
    (Hdetail : ExtractRequestDetailFromFasthttpRequest request = (d, None))
    (Hservice1 : directory n1 !! name = Some (owner, service1))
    (Hproviders1 : Service_Providers service1 <> [])
    (Hopen1 : NewStream w1 owner ProxyHttpInitReq = Ok s1) (Hs1 : accepts w1 s1)
    (Hreq : Marshal req = Ok reqBytes) (Hfit1 : fits maxAlloc [reqBytes])
    (Hstream1 : aligned gs1 [reqBytes])
    (* the service side *)
    (Hread : http_Read raw = Ok request) (Hpeer : peer_Decode w2 (host_ID w1) = Ok peer)
    (Hservice2 : services n2 !! name = Some service2)
    (Hproviders2 : Service_Providers service2 = provider :: more)
    (Huri : service_url (ApronServiceProvider_GetSchema provider +:+ "://" +:+
                         ApronServiceProvider_GetBaseUrl provider) (ProxyRequestPath d) = Ok uri)
    (Hdo : http_Do (mkToService uri (req_QueryArgs request) request) = Ok respBody)
    (Hopen2 : NewStream w2 peer ProxyHttpRespFromServiceSide = Ok s2) (Hs2 : accepts w2 s2)
    (Hresp : Marshal (mkServiceData rid respBody) = Ok respBytes) (Hfit2 : fits maxAlloc [respBytes])
    (Hstream2 : aligned gs2 [respBytes]) :
  exists n1' n1'' es1 es2 es3 item1 item2,
    (* sent, and read by the service side *)
    StartForwardService w1 false upgrade (Ok raw) request n1
    = (Val (HttpWaiting req (make_chan w1 1)), n1', es1) /\
    concat (concat gs1) = written_to s1 es1 /\
    ReadBytesViaStream maxAlloc 1 (RawReader (mkSource (concat gs1) t1)) = [item1] /\
    (* served, and the response read by the client side *)
    ProxyHttpInitRequestHandler w2 http_Read http_Do URI_String ws_Dial item1 n2 = (Val Answered, n2, es2) /\
    HttpDo uri (req_QueryArgs request) request ∈ es2 /\
    concat (concat gs2) = written_to s2 es2 /\
    ReadBytesViaStream maxAlloc 1 (RawReader (mkSource (concat gs2) t2)) = [item2] /\
    (* handed to the waiting client *)
    http_resp_turn item2 n1' = (Val (Some (make_chan w1 1), mkServiceData rid respBody), n1', []) /\
    serveHttpRequest_answer req respBody n1' = (Val tt, n1'', es3) /\
    http_reply (es1 ++ es3) = (200, respBody) /\
    clientHttpDataChan n1'' !! rid = None /\ is_Some (requestIdChanMapping n1'' !! rid).
Proof.
  exists (set_clientHttpDataChan (<[rid := make_chan w1 1]> (clientHttpDataChan n1))
           (set_requestIdChan rid (make_chan w1 0) n1)).
  eexists _, (StreamOpened s1 owner ProxyHttpInitReq :: frame_writes s1 reqBytes ++ []), _, _,
    (ToDataCh reqBytes), (ToDataCh respBytes). split_and!.
  - erewrite forward_sent by eauto. reflexivity.
  - cbn. rewrite app_nil_r, (aligned_bytes gs1 [reqBytes]) by done.
    symmetry. rewrite <- (written_frames s1 [reqBytes]). cbn. by rewrite app_nil_r.
  - by apply (ReadBytesViaStream_aligned maxAlloc Hmax gs1 [reqBytes] (mkSource (concat gs1) t1) []);
      [cbn; rewrite app_nil_r|..].
  - eapply (http_init_ok w2 http_Read http_Do URI_String ws_Dial n2 reqBytes req); try done.
    + by apply Unmarshal_Marshal.
    + rewrite Hdetail. exact Huri.
  - set_solver.
  - rewrite (aligned_bytes gs2 [respBytes]) by done.
    symmetry. rewrite <- (written_frames s2 [respBytes]). cbn. by rewrite app_nil_r.
  - by apply (ReadBytesViaStream_aligned maxAlloc Hmax gs2 [respBytes] (mkSource (concat gs2) t2) []);
      [cbn; rewrite app_nil_r|..].
  - unfold http_resp_turn. rewrite (Unmarshal_Marshal (mkServiceData rid respBody) respBytes) by done.
    cbn [must]. rewrite bind_pure. erewrite bind_val by reflexivity.
    cbn. by rewrite lookup_insert_eq.
  - reflexivity.
  - cbn. done.
  - cbn. by rewrite lookup_delete_eq.
  - cbn. rewrite lookup_insert_eq. by eexists.
Qed.

Definition example_raw : bytes := str_bytes "/v1/abcdefghij_key/x".
Definition example_rid : string := "_key.abcdefghij.uuid".
Definition example_req_bytes : bytes :=
  WireFormat.encoded (mkServiceRequest "abcdefghij" example_rid "QmSelf" false example_raw).

Example http_round_trip_witness : exists n1' es1 es3,
  StartForwardService (L := WireFormat.wire_lib) example_world false None (Ok example_raw)
    (example_client_request "/v1/abcdefghij_key/x") example_gateway
  = (Val (HttpWaiting (mkServiceRequest "abcdefghij" example_rid "QmSelf" false example_raw) 1%N), n1', es1) /\
  http_reply (es1 ++ es3) = (200, str_bytes "answer") /\ is_Some (requestIdChanMapping n1' !! example_rid).
Proof.
  destruct (http_round_trip (L := WireFormat.wire_lib) example_world example_world 1000
    (fun raw => Ok (example_client_request (bytes_str raw))) example_do to_uri (fun _ => Ok 4%N)
    None example_raw (example_client_request "/v1/abcdefghij_key/x")
    (ExtractRequestDetailFromFasthttpRequest (example_client_request "/v1/abcdefghij_key/x")).1
    example_gateway example_service_side "peer" "QmSelf"
    (default zero_ApronService (services example_gateway !! "abcdefghij"%string))
    (default zero_ApronService (services example_service_side !! "abcdefghij"%string))
    (Some (mkProvider "p" "" "" 0 0 "" "localhost:8080" "http" NetworkType_Tcp4)) []
    7%N 7%N example_req_bytes "http://localhost:8080/x" (str_bytes "answer") example_resp_bytes
    [[frame example_req_bytes]] [[frame example_resp_bytes]] None None)
    as (n1'&n1''&es1&es2&es3&item1&item2&E1&_&_&_&_&_&_&_&E3&R&_&Hm).
  - lia.
  - apply example_gateway_ok.
  - vm_compute. reflexivity.
  - vm_compute. reflexivity.
  - vm_compute. discriminate.
  - reflexivity.
  - intros p. reflexivity.
  - vm_compute. reflexivity.
  - constructor; [|constructor]. apply (bool_decide_unpack _). vm_compute. exact I.
  - constructor; [|constructor]. split; [reflexivity|]. constructor; [discriminate|constructor].
  - vm_compute. reflexivity.
  - reflexivity.
  - vm_compute. reflexivity.
  - vm_compute. reflexivity.
  - vm_compute. reflexivity.
  - reflexivity.
  - reflexivity.
  - intros p. reflexivity.
  - vm_compute. reflexivity.
  - constructor; [|constructor]. apply (bool_decide_unpack _). vm_compute. exact I.
  - constructor; [|constructor]. split; [reflexivity|]. constructor; [discriminate|constructor].
  - exists n1', es1, es3. split; [exact E1|]. split; [exact R|].
    unfold serveHttpRequest_answer in E3. cbn in E3. injection E3 as E3 _. subst n1''. exact Hm.
Defined.
