(* ===== verification/SocksTunnel.v ===== *)
(** A SOCKS5 session through the whole network: the client agent, the client-side
    gateway, the service-side gateway and the service agent, each with its own
    state and world, joined by the bytes that one writes and the next reads. *)

From S2P Require Import Prelude Messages NetworkHelper RequestDetail UsageRecord Node World Socks5 Agent ClientGateway ProxyHandlers Tunnel.
From S2P Require WireFormat.

(** ** The frames of a session at the client agent *)


(** ** Lemmas *)

(** The gateway's session with a service agent. *)
Lemma ProxySocketInitReqHandler_ok {L : ProtoLib} w n b init provider more service peer sa down :
  Unmarshal b = Ok init -> peer_Decode w (SocketInit_PeerId init) = Ok peer ->
  services n !! SocketInit_ServiceId init = Some service -> Service_Providers service = provider :: more ->
  Dial w (ApronServiceProvider_GetBaseUrl provider) = Ok sa ->
  NewStream w peer ProxySocketDataFromServiceSide = Ok down ->
  ProxySocketInitReqHandler w (Ok b) n
  = (Val (SocketInit_RequestId init, Some down, sa), set_serviceSocketConn (SocketInit_RequestId init) sa n,
     [Dialed (ApronServiceProvider_GetBaseUrl provider) sa; StreamOpened down peer ProxySocketDataFromServiceSide]).
Proof.
  intros Hb Hpeer Hs Hp Hdial Hopen. unfold ProxySocketInitReqHandler. cbn [must].
  rewrite bind_pure, Hb. cbn [must]. rewrite bind_pure, Hpeer. cbn [must]. rewrite bind_pure.
  erewrite bind_val by reflexivity. cbn zeta. rewrite Hs.
  change (default zero_ApronService (Some service)) with service. rewrite Hp, Hdial.
  cbn [must]. rewrite bind_pure. do 2 (erewrite bind_val by reflexivity).
  step_bind open_stream_ok. reflexivity.
Qed.

Lemma written_to_other c c' b es : c <> c' -> written_to c' (Written c b :: es) = written_to c' es.
Proof. intros H. unfold written_to. cbn. by rewrite decide_False. Qed.

Lemma written_to_dialed c addr c' es : written_to c (Dialed addr c' :: es) = written_to c es.
Proof. reflexivity. Qed.

Lemma aligned_cons_inv gs d ds :
  aligned gs (d :: ds) -> concat (concat gs) = frame d ++ concat (frame <$> ds).
Proof. intros H. by rewrite (aligned_bytes gs (d :: ds)). Qed.




Lemma zip_reads (reads : list (bytes * string)) id :
  zip ((Ok <$> reads.*1) ++ [Fail io_EOF]) (reads.*2 ++ [id])
  = ((fun x => (Ok x.1, x.2)) <$> reads) ++ [(Fail io_EOF, id)].
Proof. induction reads as [|[d i] reads IH]; [done|]. cbn in *. by rewrite IH. Qed.

(** ** Properties *)

(** C6: a SOCKS5 session from end to end. A client's handshake, in any chunks, and the
    data that it sends until it closes its side go through the client agent, the
    two gateways and the service agent. The client agent reads its client to the
    end of what is on the connection, in pieces of at most 40960 bytes, a message
    each. On every hop what is written is what the next one reads: the gateway
    hears the init request and then the agent's messages, wraps each into a message
    of its own session and sends them to the owner of the service; the owner's
    gateway dials the service agent that is registered and hands on the agent's
    messages; the service agent dials its SOCKS5 server. That server gets a
    greeting and a request, which parse to the client's own destination and port,
    and then byte for byte what the client's connection still holds behind the
    chunk in which its request ended ([under rest]). What that chunk holds behind the
    request ([buffered rest]) is dropped with the reader that parsed it.

    The conditions: the service is registered at both gateways; the init request
    arrives in one chunk of its own; on the way from the client agent to its
    gateway, and from there to the service's gateway, no chunk crosses a frame's end ([aligned]: elsewhere frames are lost,
    [NetworkHelper.frames_lost_raw]); every dial and stream succeeds; and the
    SOCKS5 server, whose reply is one chunk, accepts. From the owner's gateway to
    the service agent the chunks are any. *)
Theorem socks_session {L : ProtoLib} (wa w1 w2 wb : World) (maxAlloc : Z)
    (binary_Marshal : ApronSocks5ConnectRequest -> result bytes)
    (binary_Unmarshal : bytes -> result ApronSocks5ConnectRequest)
    (env : option string) (serviceId := default "apron_hello_socks5"%string env)
    (rid := build_request_id "shouldBeUid" serviceId (uuid_New wa))
    (rid2 := build_request_id "" serviceId (uuid_New w1))
    (* the client and its agent *)
    (a : ApronAgentServer) (c g : conn) (client : source) (rest : bufreader)
    (r : ApronSocks5ConnectRequest) (content initBytes connectBytes : bytes) (msgId : string)
    (turnsC : nat) (reads : list (bytes * string)) (messages : list bytes)
    (* the client-side gateway *)
    (n1 : Node) (cg s1 s2 : conn) (owner : peer_ID) (service1 : ApronService) (reqBytes : bytes)
    (gs : list (list bytes)) (wrapped : list bytes) (turns : nat)
    (* the service-side gateway *)
    (n2 : Node) (peer : peer_ID) (service2 : ApronService) (provider : option ApronServiceProvider)
    (more : list (option ApronServiceProvider)) (sa down : conn) (gs2 : list (list bytes)) (t2 : option goerror)
    (* the service agent and its server *)
    (b : bufreader) (addr : string) (srv : conn) (reply : bytes) (cs : list bytes) (t : option goerror)
    (response := reply ++ replicate (256 - length reply) (byte_of 0))
    (at_ := fun i => default 0 (byte_val <$> response !! i))
    (Hmax : maxAlloc < 2 ^ 64) (Hcg : c <> g)
    (Hdial : Dial wa (RemoteSocketAddr a) = Ok g) (Hg : accepts wa g) (Hc : accepts wa c)
    (Hinit : Marshal (mkSocketInit serviceId rid "" "") = Ok initBytes) (Hne : initBytes <> [])
    (Hparsed : buildSocks5ConnectRequest wa c (mkBuf [] client)
       = (Val (Ok r), rest, [Written c (byte_of <$> [socks5Version; socks5AuthNone])]))
    (Hcontent : binary_Marshal r = Ok content) (Hback : binary_Unmarshal content = Ok r)
    (Hconnect : Marshal (mkExtServiceData socks5ServiceName rid msgId socks5ConnectMessage content) = Ok connectBytes)
    (Hreads : client_reads turnsC (under rest) = (Ok <$> reads.*1) ++ [Fail io_EOF])
    (Hmessages : Forall2 (fun x m => Marshal
       (mkExtServiceData socks5ServiceName rid x.2 socks5DataMessage x.1) = Ok m) reads messages)
    (Hsmall : (8 + length initBytes <= bufio_size)%nat) (Halloc : fits maxAlloc (initBytes :: connectBytes :: messages))
    (Hn1 : registry_ok n1) (Hservice1 : directory n1 !! serviceId = Some (owner, service1))
    (Hproviders1 : Service_Providers service1 <> [])
    (Hopen1 : NewStream w1 owner ProxySocketInitReq = Ok s1) (Hs1 : accepts w1 s1)
    (Hreq : Marshal (mkSocketService serviceId rid2 (host_ID w1)) = Ok reqBytes)
    (Hopen2 : NewStream w1 owner ProxySocketDataFromClientSide = Ok s2) (Hs2 : accepts w1 s2)
    (Hstream : aligned gs (connectBytes :: messages))
    (Hwrapped : Forall2 (fun m x => Marshal (mkServiceData rid2 m) = Ok x) (connectBytes :: messages) wrapped)
    (Hfit : fits maxAlloc wrapped) (Hstream2 : aligned gs2 wrapped)
    (Hpeer : peer_Decode w2 (host_ID w1) = Ok peer)
    (Hservice2 : services n2 !! serviceId = Some service2)
    (Hproviders2 : Service_Providers service2 = provider :: more)
    (Hdial2 : Dial w2 (ApronServiceProvider_GetBaseUrl provider) = Ok sa) (Hsa : accepts w2 sa)
    (Hopen3 : NewStream w2 peer ProxySocketDataFromServiceSide = Ok down)
    (Hb : avail b = concat (frame <$> (connectBytes :: messages)))
    (Hdial3 : Dial wb addr = Ok srv) (Hsrv : accepts wb srv)
    (Hreply : (length reply <= 256)%nat) (Hok : at_ 0%nat = 5 /\ at_ 1%nat = 0)
    (Hbound : ~ (at_ 3%nat = 3 /\ 252 <= at_ 4%nat)) :
  exists a' n1' n2' es0 es1 es2 es3 es4 es5 es6 es7,
    (* the client agent *)
    connectToCsgwAndSendInitRequest wa env a = (Val (Ok rid), a', es0) /\
    send_connect_message wa binary_Marshal rid msgId c client a' = (Val (under rest), a', es1) /\
    proxy_to_csgw wa rid (Some g) (zip (client_reads turnsC (under rest)) (reads.*2 ++ [msgId])) a'
    = (Val tt, a', es2) /\
    written_to g (es0 ++ es1 ++ es2) = frame initBytes ++ concat (concat gs) /\
    (* the client-side gateway *)
    StartSocketForwardService w1 maxAlloc cg (mkSource (frame initBytes :: concat gs) (Some io_EOF)) n1
    = (Val (Forwarding rid2 s2 (mkSource (concat gs) (Some io_EOF))), n1', es3) /\
    frame_writes s1 reqBytes ⊆ es3 /\
    forward_client_data w1 maxAlloc (length (connectBytes :: messages) + S turns) rid2 cg s2
      (mkSource (concat gs) (Some io_EOF)) n1' = (Val tt, n1', es4) /\
    written_to s2 es4 = concat (concat gs2) /\
    (* the service-side gateway *)
    ProxySocketInitReqHandler w2 (Ok reqBytes) n2 = (Val (rid2, Some down, sa), n2', es5) /\
    ProxySocketDataHandler w2 ProxySocketDataFromClientSide
      (ReadBytesViaStream maxAlloc (length wrapped) (RawReader (mkSource (concat gs2) t2))) n2'
    = (Val tt, n2', es6) /\
    written_to sa es6 = avail b /\
    (* the service agent *)
    serveConnection_server wb binary_Unmarshal addr (mkSource ((byte_of <$> [5; 0]) :: reply :: cs) t)
      (ReadBytesViaStream maxAlloc (length (connectBytes :: messages)) (BufReader b)) ∅
    = (Val tt, {[rid := srv]}, es7) /\
    written_to srv es7 = auth_request_bytes ++ connect_request_bytes r ++ concat (chunks (under rest)) /\
    result_of (buildSocks5ConnectRequest wb srv (mkBuf [] (mkSource [auth_request_bytes; connect_request_bytes r] None)))
    = Val (Ok (mkConnect 5 1 (DestAddr r) (DestPort r))).
Proof.
  apply Forall_cons in Halloc as [Hai Halloc].
  destruct (socket_client_run w1 maxAlloc cg (mkSocketInit serviceId rid "" "") initBytes (concat gs) (Some io_EOF) n1
    owner service1 s1 s2 reqBytes) as (n1'&Erun&Hdec&_&_); [done..|].
  assert (connectToCsgwAndSendInitRequest wa env a
    = (Val (Ok rid), set_RemoteSocketConn g a, Dialed (RemoteSocketAddr a) g :: frame_writes g initBytes)) as E0.
  { unfold connectToCsgwAndSendInitRequest. erewrite bind_val by reflexivity. rewrite Hdial.
    erewrite bind_val by reflexivity. erewrite bind_val by reflexivity. cbn zeta.
    fold serviceId. fold rid. rewrite Hinit. step_bind WriteBytesViaStream_conn. reflexivity. }
  exists (set_RemoteSocketConn g a), n1', (set_serviceSocketConn rid2 sa n2).
  eexists _, _, _, _, _, _, _, _. split_and!.
  - exact E0.
  - by eapply send_connect_message_ok.
  - rewrite Hreads, zip_reads. by apply (proxy_to_csgw_until wa rid g reads messages [(Fail io_EOF, msgId)]).
  - rewrite !written_to_app, written_to_dialed, written_frame, written_to_other, written_to_app, written_frame by done.
    rewrite written_to_other, written_frames by done. cbn [written_to]. unfold written_to at 1. cbn [omap list_omap concat].
    rewrite app_nil_r. f_equal. by rewrite (aligned_cons_inv gs connectBytes messages).
  - exact Erun.
  - set_solver.
  - erewrite (forward_client_data_aligned w1 maxAlloc gs (connectBytes :: messages) wrapped _ [])
      by (done || by rewrite app_nil_r).
    cbn [term]. rewrite forward_client_data_end, decide_True by done. reflexivity.
  - cbn [snd]. rewrite written_to_app, written_frames, (aligned_bytes gs2 wrapped) by done. apply app_nil_r.
  - eapply (ProxySocketInitReqHandler_ok w2 n2 reqBytes (mkSocketInit serviceId rid2 (host_ID w1) "") provider more
      service2 peer sa down); done.
  - eapply (data_stream_delivered w2 maxAlloc _ _ rid2 sa gs2 (connectBytes :: messages) wrapped); try done.
    unfold socket_target. rewrite decide_True by done. apply lookup_insert_eq.
  - by rewrite written_frames, Hb.
  - rewrite (ReadBytesViaStream_frames maxAlloc Hmax (connectBytes :: messages) b []) by (done || by rewrite app_nil_r).
    cbn [fmap list_fmap serveConnection_server].
    erewrite bind_val.
    2: { eapply serve_connect_ok; [exact Hconnect|exact Hback|exact Hdial3|]. rewrite server_handshake_run by done.
         rewrite decide_True, decide_False by done. reflexivity. }
    erewrite (serve_data_run wb binary_Unmarshal addr _ rid reads messages srv) by
      (first [ apply lookup_insert_eq | done
             | eapply Forall2_impl; [exact Hmessages|]; intros x m Hm; apply Unmarshal_Marshal; [apply ext_wf; by right|exact Hm] ]).
    reflexivity.
  - cbn [snd]. rewrite written_to_app, written_to_dialed, written_to_all. unfold written_to. cbn.
    rewrite !decide_True by done. cbn. by rewrite app_nil_r, (client_reads_bytes turnsC _ _ Hreads).
  - unfold result_of. by rewrite (destination_reparsed wa c _ _ r _ wb srv Hparsed Hsrv).
Qed.


(** *** A session, for the witness *)

Definition example_rid : string := "shouldBeUid.abcdefghij.uuid".
Definition example_init_bytes : bytes := WireFormat.encoded (mkSocketInit "abcdefghij" example_rid "" "").
Definition example_connect_message : bytes :=
  WireFormat.encoded (mkExtServiceData socks5ServiceName example_rid "m" socks5ConnectMessage (str_bytes "req")).
Definition example_data_message : bytes :=
  WireFormat.encoded (mkExtServiceData socks5ServiceName example_rid "n" socks5DataMessage (str_bytes "hi")).
Definition example_wrapped (m : bytes) : bytes := WireFormat.encoded (mkServiceData ".abcdefghij.uuid" m).
Definition example_messages : list bytes := [example_connect_message; example_data_message].

Lemma aligned_each ds : Forall (fun d => frame d <> []) ds -> aligned ((fun d => [frame d]) <$> ds) ds.
Proof.
  intros H. induction H as [|d ds Hd _ IH]; constructor; [|exact IH].
  split; [cbn; apply app_nil_r|]. constructor; [exact Hd|constructor].
Qed.

(** A client that sends four bytes right behind its request, without waiting for
    the answer, then two more, and closes its side. *)
Definition talking_rest : source := mkSource [str_bytes "hi"] (Some io_EOF).
Definition talking_client : source :=
  mkSource [greeting [byte_of 0];
            request_bytes (byte_of 5) (byte_of 1) (byte_of 0) (Domain (str_bytes "a.b")) (byte_of 0) (byte_of 80)
              ++ str_bytes "lost"; str_bytes "hi"] (Some io_EOF).

Example socks_session_witness : exists es1 es2 conns,
  send_connect_message (L := WireFormat.wire_lib) example_world (fun _ => Ok (str_bytes "req")) example_rid "m"
    3%N talking_client (set_RemoteSocketConn 9%N example_agent)
  = (Val talking_rest, set_RemoteSocketConn 9%N example_agent, es1) /\
  serveConnection_server (L := WireFormat.wire_lib) example_world (fun _ => Ok example_connect) "server:1080"
    example_server (ReadBytesViaStream 1000 2
      (BufReader (mkBuf [] (mkSource [concat (frame <$> example_messages)] None)))) ∅
  = (Val tt, conns, es2) /\
  written_to 9%N es2 = auth_request_bytes ++ connect_request_bytes example_connect ++ str_bytes "hi".
Proof.
  destruct (socks_session (L := WireFormat.wire_lib) example_world example_world example_world example_world 1000
    (fun _ => Ok (str_bytes "req")) (fun _ => Ok example_connect) (Some "abcdefghij"%string)
    example_agent 3%N 9%N talking_client (mkBuf (str_bytes "lost") talking_rest) example_connect (str_bytes "req")
    example_init_bytes example_connect_message "m" 9 [(str_bytes "hi", "n"%string)] [example_data_message]
    example_gateway 5%N 7%N 7%N "peer" (default zero_ApronService (services example_gateway !! "abcdefghij"%string))
    (WireFormat.encoded (mkSocketService "abcdefghij" ".abcdefghij.uuid" "QmSelf"))
    ((fun d => [frame d]) <$> example_messages) (example_wrapped <$> example_messages) 0
    example_gateway "QmSelf" (default zero_ApronService (services example_gateway !! "abcdefghij"%string))
    (Some (mkProvider "p" "" "" 0 0 "" "localhost:8080" "http" NetworkType_Tcp4)) []
    9%N 7%N ((fun d => [frame d]) <$> (example_wrapped <$> example_messages)) None
    (mkBuf [] (mkSource [concat (frame <$> example_messages)] None)) "server:1080" 9%N
    (byte_of <$> [5; 0; 0; 1]) [] None)
    as (a'&n1'&n2'&es0&es1&es2&es3&es4&es5&es6&es7&E0&E1&_&_&_&_&_&_&_&_&_&E7&W7&_).
  - lia.
  - discriminate.
  - reflexivity.
  - intros p. reflexivity.
  - intros p. reflexivity.
  - vm_compute. reflexivity.
  - vm_compute. discriminate.
  - vm_compute. reflexivity.
  - reflexivity.
  - reflexivity.
  - vm_compute. reflexivity.
  - vm_compute. reflexivity.
  - constructor; [vm_compute; reflexivity|constructor].
  - apply (bool_decide_unpack _). vm_compute. exact I.
  - apply (bool_decide_unpack _). vm_compute. exact I.
  - apply example_gateway_ok.
  - vm_compute. reflexivity.
  - vm_compute. discriminate.
  - reflexivity.
  - intros p. reflexivity.
  - vm_compute. reflexivity.
  - reflexivity.
  - intros p. reflexivity.
  - apply aligned_each. apply (bool_decide_unpack _). vm_compute. exact I.
  - constructor; [vm_compute; reflexivity|]. constructor; [vm_compute; reflexivity|constructor].
  - apply (bool_decide_unpack _). vm_compute. exact I.
  - apply aligned_each. apply (bool_decide_unpack _). vm_compute. exact I.
  - reflexivity.
  - vm_compute. reflexivity.
  - vm_compute. reflexivity.
  - reflexivity.
  - intros p. reflexivity.
  - reflexivity.
  - cbn [avail buffered under chunks app]. cbn [concat]. apply app_nil_r.
  - reflexivity.
  - intros p. reflexivity.
  - apply (bool_decide_unpack _). vm_compute. exact I.
  - vm_compute. split; reflexivity.
  - vm_compute. intros [H _]. discriminate.
  - exists es1, es7, {[example_rid := 9%N]}. split_and!.
    + unfold connectToCsgwAndSendInitRequest in E0. vm_compute in E0. injection E0 as <- _. exact E1.
    + exact E7.
    + exact W7.
Defined.

