(* ===== verification/Pipes.v ===== *)
(** Sessions between two gateways, as far as those over sockets ([Sessions]) and over
    WebSockets ([WsSessions]) have it in common: what is on its way in one direction,
    connections that are kept apart, and what the handlers that both use have done
    when they return. *)

From S2P Require Import Prelude Messages NetworkHelper RequestDetail UsageRecord Node World ClientGateway ProxyHandlers.

(** One direction of a session: all that its sender has been read to say, and the
    messages that are on their way. *)
Record pipe := mkPipe { said : list bytes; queue : list bytes }.

Definition no_pipe : pipe := mkPipe [] [].
Definition push (d b : bytes) (p : pipe) : pipe := mkPipe (said p ++ [d]) (queue p ++ [b]).
Definition pop (p : pipe) : pipe := mkPipe (said p) (tail (queue p)).

(** What has arrived are the first things that were said; what waits decodes to the
    rest, under the session's request id. *)
Definition delivered {L : ProtoLib} (rid : string) (arrived : list bytes) (p : pipe) : Prop :=
  exists pending, said p = arrived ++ pending /\
    Forall2 (fun b d => Unmarshal b = Ok (mkServiceData rid d)) (queue p) pending.

(** Every connection is of one session and has one use in it. *)
Definition apart {S} (conns : S -> list conn) (ss : gmap string S) : Prop :=
  (forall rid s, ss !! rid = Some s -> NoDup (conns s)) /\
  forall rid s rid' s' c, ss !! rid = Some s -> ss !! rid' = Some s' ->
    c ∈ conns s -> c ∈ conns s' -> rid = rid'.

Section pipes.
Context {L : ProtoLib}.

Lemma delivered_empty rid : delivered rid [] no_pipe.
Proof. by exists []. Qed.

Lemma delivered_push rid arrived p d b :
  Marshal (mkServiceData rid d) = Ok b -> delivered rid arrived p -> delivered rid arrived (push d b p).
Proof.
  intros Hb (pending&Hs&Hq). exists (pending ++ [d]). cbn.
  split; [by rewrite Hs, app_assoc|]. apply Forall2_app; [done|].
  constructor; [by apply Unmarshal_Marshal|constructor].
Qed.

Lemma delivered_pop rid arrived p b rest d :
  queue p = b :: rest -> Unmarshal b = Ok d -> delivered rid arrived p ->
  Data_RequestId d = rid /\ delivered rid (arrived ++ [Data_RawData d]) (pop p).
Proof.
  intros Hq Hd (pending&Hs&Hp). rewrite Hq in Hp.
  inversion Hp as [|? x ? pending' Hx Hrest]; simplify_eq. rewrite Hd in Hx. simplify_eq. cbn.
  split; [done|]. exists pending'. unfold pop. rewrite Hq. cbn. by rewrite Hs, <- app_assoc.
Qed.

(** The message at the head of a queue. *)
Lemma delivered_head rid arrived p b rest :
  queue p = b :: rest -> delivered rid arrived p -> exists d, Unmarshal b = Ok (mkServiceData rid d).
Proof. intros Hq (pending&_&Hp). rewrite Hq in Hp. inversion Hp. by eexists. Qed.

Lemma delivered_all rid arrived sd : delivered rid arrived (mkPipe sd []) -> arrived = sd.
Proof. intros (pending&Hs&Hp). apply Forall2_nil_inv_l in Hp as ->. cbn in Hs. by rewrite app_nil_r in Hs. Qed.

Lemma delivered_prefix rid arrived p :
  delivered rid arrived p ->
  exists pending, said p = arrived ++ pending /\ length pending = length (queue p).
Proof.
  intros (pending&Hs&Hp). exists pending. split; [done|]. symmetry. by eapply Forall2_length.
Qed.
End pipes.

Section apart.
Context {S : Type} (conns : S -> list conn).
Implicit Types (ss : gmap string S) (s : S).

Lemma apart_empty : apart conns ∅.
Proof. split; intros *; by rewrite lookup_empty. Qed.

Lemma apart_same ss rid s s' :
  ss !! rid = Some s -> conns s' = conns s -> apart conns ss -> apart conns (<[rid := s']> ss).
Proof.
  intros Hs Hc [H1 H2]. split.
  - intros r x [[<- <-]|[_ Hx]]%lookup_insert_Some; [rewrite Hc|]; by eapply H1.
  - intros r1 x1 r2 x2 c [[<- <-]|[? Hx1]]%lookup_insert_Some [[<- <-]|[? Hx2]]%lookup_insert_Some;
      rewrite ?Hc; try done; intros; by eapply H2.
Qed.

Lemma apart_fresh ss rid s :
  NoDup (conns s) ->
  (forall c, c ∈ conns s -> forall rid' s', ss !! rid' = Some s' -> rid' <> rid -> c ∉ conns s') ->
  apart conns ss -> apart conns (<[rid := s]> ss).
Proof.
  intros Hs Hf [H1 H2]. split.
  - intros r x [[<- <-]|[_ Hx]]%lookup_insert_Some; [done|]; by eapply H1.
  - intros r1 x1 r2 x2 c [[<- <-]|[? Hx1]]%lookup_insert_Some [[<- <-]|[? Hx2]]%lookup_insert_Some Hc1 Hc2;
      [done| | |by eapply H2].
    + by destruct (Hf c Hc1 r2 x2 Hx2).
    + by destruct (Hf c Hc2 r1 x1 Hx1).
Qed.

(** A connection of one session among those of another. *)
Lemma apart_ne ss rid s rid' s' c c' :
  apart conns ss -> ss !! rid = Some s -> ss !! rid' = Some s' -> rid <> rid' ->
  c ∈ conns s -> c' ∈ conns s' -> c <> c'.
Proof. intros [_ H] Hs Hs' Hne Hc Hc' <-. eapply Hne, H; eauto. Qed.
End apart.

(** ** What the handlers did when they return *)

Lemma frame_inj a b : frame a = frame b -> a = b.
Proof. unfold frame. intros H. apply app_inj_1 in H as [_ H]; [done|]. by rewrite !length_be_put. Qed.

Lemma written_other c c' b : c <> c' -> written_to c (frame_writes c' b) = [].
Proof. intros H. unfold written_to, frame_writes. cbn -[be_put]. by rewrite !decide_False by done. Qed.

Lemma written_opened c s p proto es : written_to c (StreamOpened s p proto :: es) = written_to c es.
Proof. reflexivity. Qed.

Lemma written_frame_inv c c' b b' : written_to c (frame_writes c' b) = frame b' -> c = c' /\ b' = b.
Proof.
  intros H. destruct (decide (c = c')) as [->|Hne].
  - rewrite written_frame in H. by apply frame_inj in H.
  - rewrite written_other in H by done. apply (f_equal length) in H. unfold frame in H.
    rewrite length_app, length_be_put in H. cbn in H. lia.
Qed.

Section inversion.
Context {L : ProtoLib} (w : World).

Lemma write_inv c data n n' es :
  WriteBytesViaStream (conn_Write w c) data (n : Node) = (Val tt, n', es) ->
  exists c', c = Some c' /\ n' = n /\ es = frame_writes c' data.
Proof.
  unfold WriteBytesViaStream, conn_Write, CheckError, mbind, M_bind, mret, M_ret, emit, panic, frame_writes.
  destruct c as [c|]; [|done]. set (hdr := be_put 8 _). destruct (Write w c hdr); [done|]. cbn.
  destruct (Write w c data); [done|]. cbn. intros [= <- <-]. by exists c.
Qed.

Lemma forward_answer_inv rid d data n n' es :
  forward_to_client w rid (Some d) [Ok data] n = (Val tt, n', es) ->
  exists b, Marshal (mkServiceData rid data) = Ok b /\ n' = n /\ es = frame_writes d b.
Proof.
  cbn [forward_to_client must]. rewrite bind_pure.
  intros (b&n1&e1&e2&Hb&H&->)%bind_inv. destruct (Marshal _) as [b0|]; [|done].
  cbn in Hb. injection Hb as <- <- <-. exists b0.
  apply bind_inv in H as (?&n2&e3&e4&H&H0&->). destruct x.
  apply write_inv in H as (?&[= <-]&->&->). cbn in H0. injection H0 as <- <-.
  by rewrite app_nil_r.
Qed.

(** A request of a client that was sent on: everything up to the two kinds of
    sessions. What came before can only be the reply to a bad path. *)
Lemma forward_request_inv is_ws upgrade dumped request n r n' es :
  StartForwardService w is_ws upgrade dumped request n = (Val r, n', es) -> r <> Replied ->
  exists req ch owner s1 b e1 e2,
    Marshal req = Ok b /\ (Request_IsWsRequest req = is_ws /\ dumped = Ok (Request_RawRequest req)) /\
    (if is_ws then serveWebsocketRequest w upgrade owner req else serveHttpRequest_register w req)
      (set_requestIdChan (Request_RequestId req) ch n) = (Val r, n', e2) /\
    es = e1 ++ StreamOpened s1 owner ProxyHttpInitReq :: frame_writes s1 b ++ e2 /\
    Forall (fun e => exists msg, e = CtxError msg StatusInternalServerError) e1.
Proof.
  unfold StartForwardService. intros H Hr. destruct dumped as [raw|]; [|done]. cbn [must] in H. rewrite bind_pure in H.
  destruct (ExtractRequestDetailFromFasthttpRequest request) as [d err].
  apply bind_inv in H as (?&n1&e1&e2&H1&H&->).
  assert (n1 = n /\ Forall (fun e => exists msg, e = CtxError msg StatusInternalServerError) e1) as [-> He1].
  { destruct err; unfold emit, mret, M_ret in H1; injection H1 as _ <- <-; split; eauto. }
  clear H1. rewrite bind_get in H.
  destruct (servicePeerMapping n !! _) as [owner|]; [|by run_handler; simplify_eq].
  destruct (services n !! _) as [service|]; [|by run_handler; simplify_eq].
  case_decide; [by run_handler; simplify_eq|].
  apply bind_inv in H as (?&n2&e3&e4&[= <- <- <-]&H&->).
  apply bind_inv in H as (r1&n3&e5&e6&Hopen&H&->). unfold open_stream in Hopen.
  destruct (NewStream w owner ProxyHttpInitReq) as [s1|];
    [|cbn in Hopen; injection Hopen as <- <- <-; by run_handler; simplify_eq].
  cbn in Hopen. injection Hopen as <- <- <-.
  apply bind_inv in H as (b&n4&e7&e8&Hb&H&->).
  destruct (Marshal _) as [b0|] eqn:Hm; [|done]. cbn in Hb. injection Hb as <- <- <-.
  apply bind_inv in H as ([]&n5&e9&e10&Hw&H&->).
  apply write_inv in Hw as (?&[= <-]&->&->).
  eexists _, (make_chan w 0), owner, s1, b0, e1, e10. split_and!; [exact Hm|done|done|exact H|done|done].
Qed.
End inversion.
