(* ===== verification/Sessions.v ===== *)
(** All the socket sessions between two gateways, as they run at the same time: a
    step relation that is made of the handlers of [csgw_socket.go] and
    [node_proxy_handler.go]. [Tunnel] follows one session that has everything to
    itself; here the sessions share the tables of both nodes, messages wait on
    their streams, and the steps of all come in any order. A stream keeps the order
    of its messages and delivers each in chunks of its own ([Tunnel.aligned]);
    different streams keep no order among them. *)

From stdpp Require Import relations.
From S2P Require Import Prelude Messages NetworkHelper RequestDetail UsageRecord Node World ClientGateway ProxyHandlers Tunnel Pipes.
From S2P Require WireFormat.

(** ** The state *)

(** [near] is the side of the client, [far] that of the service. *)
Record session := mkSession {
  client : conn;                (* near: the client's connection *)
  up_stream : conn;             (* near: the data stream to the owner *)
  request : option bytes;       (* the init request, while it is under way *)
  service : option conn;        (* far: the connection to the service *)
  down_stream : option conn;    (* far: the data stream back *)
  up : pipe;
  down : pipe
}.

Record tunnel := mkTunnel {
  near : Node;
  far : Node;
  near_log : list effect;
  far_log : list effect;
  sessions : gmap string session
}.

Definition tunnel_start (n1 n2 : Node) : tunnel := mkTunnel n1 n2 [] [] ∅.

Definition set_up (p : pipe) (s : session) : session :=
  mkSession (client s) (up_stream s) (request s) (service s) (down_stream s) p (down s).
Definition set_down (p : pipe) (s : session) : session :=
  mkSession (client s) (up_stream s) (request s) (service s) (down_stream s) (up s) p.
Definition connected (c : conn) (d : option conn) (s : session) : session :=
  mkSession (client s) (up_stream s) None (Some c) d (up s) (down s).

Definition near_conns (s : session) : list conn := [client s; up_stream s].
Definition far_conns (s : session) : list conn := option_list (service s) ++ option_list (down_stream s).

(** A connection that was never written to and is no session's. *)
Definition fresh_at (conns : session -> list conn) (log : list effect) (t : tunnel) (c : conn) : Prop :=
  written_to c log = [] /\ forall rid s, sessions t !! rid = Some s -> c ∉ conns s.

Definition near_step (n' : Node) (es : list effect) (ss : gmap string session) (t : tunnel) : tunnel :=
  mkTunnel n' (far t) (near_log t ++ es) (far_log t) ss.
Definition far_step (n' : Node) (es : list effect) (ss : gmap string session) (t : tunnel) : tunnel :=
  mkTunnel (near t) n' (near_log t) (far_log t ++ es) ss.

(** ** The steps

    Every step has a world of its own. The system gives new connections and
    streams numbers of their own, and a uuid is a new one. *)

Section steps.
Context {L : ProtoLib}.

Inductive tunnel_step : tunnel -> tunnel -> Prop :=
  (** a client is accepted, and its init request put on its way *)
  | t_accept t w maxAlloc c src rid s1 s2 rest n' es b :
      StartSocketForwardService w maxAlloc c src (near t) = (Val (Forwarding rid s2 rest), n', es) ->
      sessions t !! rid = None -> serviceSocketConns (far t) !! rid = None ->
      NoDup [c; s1; s2] -> Forall (fresh_at near_conns (near_log t) t) [c; s1; s2] ->
      written_to s1 es = frame b ->
      tunnel_step t (near_step n' es
        (<[rid := mkSession c s2 (Some b) None None no_pipe no_pipe]> (sessions t)) t)
  (** the init request is handled *)
  | t_connect t w rid s b rid' d c n' es :
      sessions t !! rid = Some s -> request s = Some b ->
      ProxySocketInitReqHandler w (Ok b) (far t) = (Val (rid', d, c), n', es) ->
      NoDup (c :: option_list d) -> Forall (fresh_at far_conns (far_log t) t) (c :: option_list d) ->
      tunnel_step t (far_step n' es (<[rid := connected c d s]> (sessions t)) t)
  (** one turn of the client's loop *)
  | t_say t w maxAlloc rid s src data rd n' es b :
      sessions t !! rid = Some s ->
      ReadOneFrameDataFromStream maxAlloc (BufReader (NewReader (RawReader src))) = (Val (Ok data), rd) ->
      forward_client_data w maxAlloc 1 rid (client s) (up_stream s) src (near t) = (Val tt, n', es) ->
      written_to (up_stream s) es = frame b ->
      tunnel_step t (near_step n' es (<[rid := set_up (push data b (up s)) s]> (sessions t)) t)
  (** one turn of the handler of the data stream *)
  | t_deliver t w rid s b rest n' es :
      sessions t !! rid = Some s -> queue (up s) = b :: rest ->
      socket_data_turn w ProxySocketDataFromClientSide (ToDataCh b) (far t) = (Val tt, n', es) ->
      tunnel_step t (far_step n' es (<[rid := set_up (pop (up s)) s]> (sessions t)) t)
  (** one read of the service's connection *)
  | t_answer t w rid s d data n' es b :
      sessions t !! rid = Some s -> down_stream s = Some d ->
      forward_to_client w rid (Some d) [Ok data] (far t) = (Val tt, n', es) ->
      written_to d es = frame b ->
      tunnel_step t (far_step n' es (<[rid := set_down (push data b (down s)) s]> (sessions t)) t)
  | t_return t w rid s b rest n' es :
      sessions t !! rid = Some s -> queue (down s) = b :: rest ->
      socket_data_turn w ProxySocketDataFromServiceSide (ToDataCh b) (near t) = (Val tt, n', es) ->
      tunnel_step t (near_step n' es (<[rid := set_down (pop (down s)) s]> (sessions t)) t)
  (** anything else that a gateway does: it leaves the sessions' entries and
      connections alone *)
  | t_near t n' es :
      (forall rid s, sessions t !! rid = Some s ->
         clientSocketConns n' !! rid = clientSocketConns (near t) !! rid /\
         Forall (fun c => written_to c es = []) (near_conns s)) ->
      tunnel_step t (near_step n' es (sessions t) t)
  | t_far t n' es :
      (forall rid s, sessions t !! rid = Some s ->
         serviceSocketConns n' !! rid = serviceSocketConns (far t) !! rid /\
         Forall (fun c => written_to c es = []) (far_conns s)) ->
      tunnel_step t (far_step n' es (sessions t) t).
End steps.

(** ** What the handlers did when they return *)

Section inversion.
Context {L : ProtoLib} (w : World).

Lemma socket_data_turn_inv protocol b n n' es :
  socket_data_turn w protocol (ToDataCh b) n = (Val tt, n', es) ->
  exists d c, Unmarshal b = Ok d /\ socket_target protocol n (Data_RequestId d) = Some c /\
    n' = n /\ es = frame_writes c (Data_RawData d).
Proof.
  unfold socket_data_turn, socket_target. intros (d&n1&e1&e2&Hd&H&->)%bind_inv.
  destruct (Unmarshal b) as [d0|]; [|done]. cbn in Hd. injection Hd as <- <- <-.
  rewrite bind_get in H. exists d0. cbn [app].
  repeat case_decide; [..|done]; apply write_inv in H as (c&Hc&->&->); by exists c.
Qed.

Lemma forward_turn_inv maxAlloc rid c s src data rd n n' es :
  ReadOneFrameDataFromStream maxAlloc (BufReader (NewReader (RawReader src))) = (Val (Ok data), rd) ->
  forward_client_data w maxAlloc 1 rid c s src n = (Val tt, n', es) ->
  exists b, Marshal (mkServiceData rid data) = Ok b /\ n' = n /\ es = frame_writes s b.
Proof.
  intros Hread. cbn [forward_client_data]. rewrite Hread.
  intros (b&n1&e1&e2&Hb&H&->)%bind_inv. destruct (Marshal _) as [b0|]; [|done].
  cbn in Hb. injection Hb as <- <- <-. exists b0.
  apply bind_inv in H as (?&n2&e3&e4&H&H0&->). destruct x.
  apply write_inv in H as (?&[= <-]&->&->). cbn in H0. injection H0 as <- <-.
  by rewrite app_nil_r.
Qed.

Lemma init_handler_inv b n rid d c n' es :
  ProxySocketInitReqHandler w (Ok b) n = (Val (rid, d, c), n', es) ->
  exists i, Unmarshal b = Ok i /\ SocketInit_RequestId i = rid /\ n' = set_serviceSocketConn rid c n /\
    forall c', written_to c' es = [].
Proof.
  unfold ProxySocketInitReqHandler. cbn [must]. rewrite bind_pure.
  destruct (Unmarshal b) as [i|]; [|done]. cbn [must]. rewrite bind_pure.
  destruct (peer_Decode w (SocketInit_PeerId i)) as [p|]; [|done]. cbn [must]. rewrite bind_pure, bind_get.
  destruct (Service_Providers _) as [|provider more]; [done|].
  destruct (Dial w _) as [c0|]; [|done]. cbn [must]. rewrite bind_pure.
  unfold open_stream. run_handler.
  destruct (NewStream w p _) as [s|]; cbn; intros [= <- <- <- <- <-]; by exists i.
Qed.

Lemma accept_inv maxAlloc c src n rid s2 rest n' es :
  StartSocketForwardService w maxAlloc c src n = (Val (Forwarding rid s2 rest), n', es) ->
  exists s1 o o' k b, Marshal (mkSocketService k rid (host_ID w)) = Ok b /\
    es = StreamOpened s1 o ProxySocketInitReq :: frame_writes s1 b ++
         [StreamOpened s2 o' ProxySocketDataFromClientSide] /\
    clientSocketConns n' = <[rid := c]> (clientSocketConns n).
Proof.
  unfold StartSocketForwardService. intros ([initBytes rest']&n1&e1&e2&H0&H&->)%bind_inv.
  unfold lift_outcome in H0. injection H0 as _ <- <-.
  destruct (Unmarshal initBytes) as [init|]; [|done]. cbn [must] in H. rewrite bind_pure, bind_get in H.
  destruct (servicePeerMapping n !! _) as [owner|]; [|unfold reject in H; run_handler; by repeat break_match].
  destruct (services n !! _) as [service|]; [|unfold reject in H; run_handler; by repeat break_match].
  case_decide; [unfold reject in H; run_handler; by repeat break_match|].
  set (rid0 := build_request_id _ _ _) in H. unfold open_stream in H. unfold modify in H at 1.
  apply bind_inv in H as (?&n2&e3&e4&[= <- <- <-]&H&->).
  apply bind_inv in H as (r&n3&e5&e6&Hopen&H&->).
  destruct (NewStream w owner ProxySocketInitReq) as [s1|]; [|run_handler; simplify_eq; by run_handler].
  cbn in Hopen. injection Hopen as <- <- <-.
  apply bind_inv in H as (b&n4&e7&e8&Hb&H&->).
  destruct (Marshal _) as [b0|] eqn:Hm; [|done]. cbn in Hb. injection Hb as <- <- <-.
  apply bind_inv in H as (?&n5&e9&e10&Hw&H&->). destruct x.
  apply write_inv in Hw as (?&[= <-]&->&->).
  destruct (NewStream w owner ProxySocketDataFromClientSide) as [s2'|]; run_handler; [|done].
  injection H as <- <- <- <- <-. by eexists s1, owner, owner, _, b0.
Qed.
End inversion.

(** ** The invariant *)

(** What came out of a pipe are the frames of what has arrived. *)
Definition pipe_ok {L : ProtoLib} (rid : string) (out : bytes) (p : pipe) : Prop :=
  exists arrived, out = concat (frame <$> arrived) /\ delivered rid arrived p.

(** What has reached the service of a session, and its client. *)
Definition served (t : tunnel) (s : session) : bytes :=
  match service s with Some c => written_to c (far_log t) | None => [] end.
Definition returned (t : tunnel) (s : session) : bytes := written_to (client s) (near_log t).

Section invariant.
Context {L : ProtoLib}.
Implicit Types (t : tunnel) (s : session).

Lemma pipe_empty rid : pipe_ok rid [] no_pipe.
Proof. exists []. split; [done|apply delivered_empty]. Qed.

Lemma pipe_push rid out p d b :
  Marshal (mkServiceData rid d) = Ok b -> pipe_ok rid out p -> pipe_ok rid out (push d b p).
Proof. intros Hb (arrived&Ho&Hd). exists arrived. split; [done|by apply delivered_push]. Qed.

Lemma pipe_pop rid out p b rest d :
  queue p = b :: rest -> Unmarshal b = Ok d -> pipe_ok rid out p ->
  Data_RequestId d = rid /\ pipe_ok rid (out ++ frame (Data_RawData d)) (pop p).
Proof.
  intros Hq Hd (arrived&->&Hp). destruct (delivered_pop _ _ _ _ _ _ Hq Hd Hp) as [Hrid Hpop].
  split; [done|]. exists (arrived ++ [Data_RawData d]). split; [|done].
  by rewrite fmap_app, concat_app; cbn; rewrite app_nil_r.
Qed.

Lemma client_near s : client s ∈ near_conns s.
Proof. by left. Qed.
Lemma up_near s : up_stream s ∈ near_conns s.
Proof. by right; left. Qed.
Lemma service_far s c : service s = Some c -> c ∈ far_conns s.
Proof. unfold far_conns. intros ->. by left. Qed.
Lemma down_far s d : down_stream s = Some d -> d ∈ far_conns s.
Proof. unfold far_conns. intros ->. apply elem_of_app. right. by left. Qed.

(** What a step of one side leaves of the sessions that it does not touch. *)
Lemma served_kept t s n' es ss :
  (forall c, service s = Some c -> written_to c es = []) -> served (far_step n' es ss t) s = served t s.
Proof.
  intros H. unfold served. destruct (service s) as [c|]; [|done]. cbn.
  by rewrite written_to_app, (H c eq_refl), app_nil_r.
Qed.

Lemma returned_kept t s n' es ss :
  written_to (client s) es = [] -> returned (near_step n' es ss t) s = returned t s.
Proof. intros H. unfold returned. cbn. by rewrite written_to_app, H, app_nil_r. Qed.

(** What one session must satisfy by itself. *)
Record session_ok (t : tunnel) (rid : string) (s : session) : Prop := {
  s_client : clientSocketConns (near t) !! rid = Some (client s);
  s_service : serviceSocketConns (far t) !! rid = service s;
  s_request b : request s = Some b ->
    service s = None /\ exists i, Unmarshal b = Ok i /\ SocketInit_RequestId i = rid;
  s_up : pipe_ok rid (served t s) (up s);
  s_down : pipe_ok rid (returned t s) (down s)
}.

Record tunnel_ok (t : tunnel) : Prop := {
  ok_near : apart near_conns (sessions t);
  ok_far : apart far_conns (sessions t);
  ok_session rid s : sessions t !! rid = Some s -> session_ok t rid s
}.

(** The others are left alone. *)
Lemma near_others t n' es ss rid s :
  session_ok t rid s -> clientSocketConns n' !! rid = clientSocketConns (near t) !! rid ->
  written_to (client s) es = [] -> session_ok (near_step n' es ss t) rid s.
Proof.
  intros [H1 H2 H3 H4 H5] Hn Hes. split; [by cbn; rewrite Hn|done|done|done|].
  by rewrite returned_kept.
Qed.

Lemma far_others t n' es ss rid s :
  session_ok t rid s -> serviceSocketConns n' !! rid = serviceSocketConns (far t) !! rid ->
  (forall c, service s = Some c -> written_to c es = []) -> session_ok (far_step n' es ss t) rid s.
Proof.
  intros [H1 H2 H3 H4 H5] Hn Hes. split; [done|by cbn; rewrite Hn|done| |done].
  by rewrite served_kept.
Qed.

(** One session's step, on either side. *)
Lemma near_update t n' es rid s' :
  tunnel_ok t -> apart near_conns (<[rid := s']> (sessions t)) -> apart far_conns (<[rid := s']> (sessions t)) ->
  (forall r s, sessions t !! r = Some s -> r <> rid ->
     clientSocketConns n' !! r = clientSocketConns (near t) !! r /\ written_to (client s) es = []) ->
  session_ok (near_step n' es (<[rid := s']> (sessions t)) t) rid s' ->
  tunnel_ok (near_step n' es (<[rid := s']> (sessions t)) t).
Proof.
  intros Hok Hnear Hfar Hothers Hs'. split; [done..|]. cbn.
  intros r s [[<- <-]|[Hne Hs]]%lookup_insert_Some; [done|].
  destruct (Hothers r s Hs) as [Hn Hes]; [done|]. apply near_others; [by apply ok_session|done..].
Qed.

Lemma far_update t n' es rid s' :
  tunnel_ok t -> apart near_conns (<[rid := s']> (sessions t)) -> apart far_conns (<[rid := s']> (sessions t)) ->
  (forall r s, sessions t !! r = Some s -> r <> rid ->
     serviceSocketConns n' !! r = serviceSocketConns (far t) !! r /\
     forall c, service s = Some c -> written_to c es = []) ->
  session_ok (far_step n' es (<[rid := s']> (sessions t)) t) rid s' ->
  tunnel_ok (far_step n' es (<[rid := s']> (sessions t)) t).
Proof.
  intros Hok Hnear Hfar Hothers Hs'. split; [done..|]. cbn.
  intros r s [[<- <-]|[Hne Hs]]%lookup_insert_Some; [done|].
  destruct (Hothers r s Hs) as [Hn Hes]; [done|]. apply far_others; [by apply ok_session|done..].
Qed.

Lemma fresh_in conns log t l c :
  Forall (fresh_at conns log t) l -> c ∈ l ->
  written_to c log = [] /\ forall rid s, sessions t !! rid = Some s -> c ∉ conns s.
Proof. intros H Hc. by eapply (proj1 (Forall_forall _ _)) in H. Qed.

Lemma tunnel_accept_ok t w maxAlloc c src rid (s1 s2 : conn) rest n' es b :
  StartSocketForwardService w maxAlloc c src (near t) = (Val (Forwarding rid s2 rest), n', es) ->
  sessions t !! rid = None -> serviceSocketConns (far t) !! rid = None ->
  NoDup [c; s1; s2] -> Forall (fresh_at near_conns (near_log t) t) [c; s1; s2] ->
  written_to s1 es = frame b -> tunnel_ok t ->
  tunnel_ok (near_step n' es (<[rid := mkSession c s2 (Some b) None None no_pipe no_pipe]> (sessions t)) t).
Proof.
  intros Haccept Hnew Hnew' Hnd Hfresh Hw Hok.
  destruct (accept_inv _ _ _ _ _ _ _ _ _ _ Haccept) as (s1'&o&o'&k&b'&Hm&->&Hconns).
  rewrite written_opened, written_to_app in Hw. change (written_to s1 [StreamOpened _ _ _]) with (@nil ascii) in Hw.
  rewrite app_nil_r in Hw. apply written_frame_inv in Hw as [<- ->].
  assert (forall c', c' <> s1 -> written_to c' (StreamOpened s1 o ProxySocketInitReq :: frame_writes s1 b' ++
    [StreamOpened s2 o' ProxySocketDataFromClientSide]) = []) as Hes.
  { intros c' Hne. by rewrite written_opened, written_to_app, written_other. }
  apply near_update; [done|..].
  - apply apart_fresh; [| |by apply ok_near]; unfold near_conns; cbn.
    + clear -Hnd. rewrite !NoDup_cons in *. set_solver.
    + intros x Hx r x' Hr _. eapply fresh_in in Hfresh as [_ H]; [by eapply H|set_solver].
  - apply apart_fresh; [constructor| |by apply ok_far]. intros x Hx. by apply not_elem_of_nil in Hx.
  - intros r x Hr Hne. rewrite Hconns, lookup_insert_ne by done. split; [done|]. apply Hes.
    intros Hx. eapply (fresh_in _ _ _ _ s1) in Hfresh as [_ H]; [|set_solver].
    apply (H r x Hr). rewrite <- Hx. apply client_near.
  - split; cbn.
    + rewrite Hconns. apply lookup_insert_eq.
    + done.
    + intros b [= <-]. split; [done|]. eexists. by rewrite (Unmarshal_socket_request (mkSocketService k rid (host_ID w)) b').
    + apply pipe_empty.
    + unfold returned. cbn. rewrite written_to_app, Hes by (rewrite !NoDup_cons in Hnd; set_solver).
      eapply (fresh_in _ _ _ _ c) in Hfresh as [-> _]; [apply pipe_empty|set_solver].
Qed.

Lemma tunnel_connect_ok t w rid s b rid' d c n' es :
  sessions t !! rid = Some s -> request s = Some b ->
  ProxySocketInitReqHandler w (Ok b) (far t) = (Val (rid', d, c), n', es) ->
  NoDup (c :: option_list d) -> Forall (fresh_at far_conns (far_log t) t) (c :: option_list d) ->
  tunnel_ok t -> tunnel_ok (far_step n' es (<[rid := connected c d s]> (sessions t)) t).
Proof.
  intros Hs Hreq Hinit Hnd Hfresh Hok. pose proof (ok_session t Hok rid s Hs) as [H1 H2 H3 H4 H5].
  destruct (H3 b Hreq) as [Hnone (i&Hi&Hrid)].
  destruct (init_handler_inv _ _ _ _ _ _ _ _ Hinit) as (i'&Hi'&Hrid'&->&Hes).
  rewrite Hi in Hi'. injection Hi' as <-. subst rid rid'.
  apply far_update; [done|..].
  - by eapply apart_same; [exact Hs|..|apply ok_near].
  - apply apart_fresh; [done| |by apply ok_far].
    intros x Hx r x' Hr _. eapply fresh_in in Hfresh as [_ H]; [by eapply H|exact Hx].
  - intros r x Hr Hne. cbn. by rewrite lookup_insert_ne.
  - split; cbn; [done|apply lookup_insert_eq|done| |exact H5].
    unfold served in *. cbn. rewrite written_to_app, Hes, app_nil_r, Hnone in *.
    eapply (fresh_in _ _ _ _ c) in Hfresh as [-> _]; [done|by left].
Qed.

Lemma tunnel_say_ok t w maxAlloc rid s src data rd n' es b :
  sessions t !! rid = Some s ->
  ReadOneFrameDataFromStream maxAlloc (BufReader (NewReader (RawReader src))) = (Val (Ok data), rd) ->
  forward_client_data w maxAlloc 1 rid (client s) (up_stream s) src (near t) = (Val tt, n', es) ->
  written_to (up_stream s) es = frame b -> tunnel_ok t ->
  tunnel_ok (near_step n' es (<[rid := set_up (push data b (up s)) s]> (sessions t)) t).
Proof.
  intros Hs Hread Hsay Hw Hok. pose proof (ok_session t Hok rid s Hs) as [H1 H2 H3 H4 H5].
  destruct (forward_turn_inv _ _ _ _ _ _ _ _ _ _ _ Hread Hsay) as (b'&Hb&->&->).
  apply written_frame_inv in Hw as [_ ->].
  apply near_update; [done|by eapply apart_same; [exact Hs|..|apply ok_near]|
    by eapply apart_same; [exact Hs|..|apply ok_far]|..].
  - intros r x Hr Hne. split; [done|]. apply written_other.
    by eapply apart_ne; [by apply ok_near|exact Hr|exact Hs|..]; auto using client_near, up_near.
  - split; [done|done|done|by apply pipe_push|]. rewrite returned_kept; [done|]. apply written_other. cbn.
    pose proof (proj1 (ok_near t Hok) rid s Hs) as Hnd. unfold near_conns in Hnd. rewrite !NoDup_cons in Hnd. set_solver.
Qed.

Lemma tunnel_deliver_ok t w rid s b rest n' es :
  sessions t !! rid = Some s -> queue (up s) = b :: rest ->
  socket_data_turn w ProxySocketDataFromClientSide (ToDataCh b) (far t) = (Val tt, n', es) -> tunnel_ok t ->
  tunnel_ok (far_step n' es (<[rid := set_up (pop (up s)) s]> (sessions t)) t).
Proof.
  intros Hs Hq Hturn Hok. pose proof (ok_session t Hok rid s Hs) as [H1 H2 H3 H4 H5].
  destruct (socket_data_turn_inv _ _ _ _ _ _ Hturn) as (d&c&Hd&Htarget&->&->).
  destruct (pipe_pop _ _ _ _ _ _ Hq Hd H4) as [Hrid Hpop]. subst rid.
  unfold socket_target in Htarget. rewrite decide_True, H2 in Htarget by done.
  apply far_update; [done|by eapply apart_same; [exact Hs|..|apply ok_near]|
    by eapply apart_same; [exact Hs|..|apply ok_far]|..].
  - intros r x Hr Hne. split; [done|]. intros c' Hc'. apply written_other.
    by eapply apart_ne; [by apply ok_far|exact Hr|exact Hs|..]; eauto using service_far.
  - split; [done|done|done| |done]. unfold served in *. cbn. rewrite Htarget in *.
    by rewrite written_to_app, written_frame.
Qed.

Lemma tunnel_answer_ok t w rid s d data n' es b :
  sessions t !! rid = Some s -> down_stream s = Some d ->
  forward_to_client w rid (Some d) [Ok data] (far t) = (Val tt, n', es) ->
  written_to d es = frame b -> tunnel_ok t ->
  tunnel_ok (far_step n' es (<[rid := set_down (push data b (down s)) s]> (sessions t)) t).
Proof.
  intros Hs Hdown Hanswer Hw Hok. pose proof (ok_session t Hok rid s Hs) as [H1 H2 H3 H4 H5].
  destruct (forward_answer_inv _ _ _ _ _ _ _ Hanswer) as (b'&Hb&->&->).
  apply written_frame_inv in Hw as [_ ->].
  apply far_update; [done|by eapply apart_same; [exact Hs|..|apply ok_near]|
    by eapply apart_same; [exact Hs|..|apply ok_far]|..].
  - intros r x Hr Hne. split; [done|]. intros c' Hc'. apply written_other.
    by eapply apart_ne; [by apply ok_far|exact Hr|exact Hs|..]; eauto using service_far, down_far.
  - split; [done|done|done| |by apply pipe_push].
    rewrite served_kept; [done|]. intros c Hc. apply written_other. cbn in Hc.
    pose proof (proj1 (ok_far t Hok) rid s Hs) as Hnd. unfold far_conns in Hnd.
    rewrite Hc, Hdown in Hnd. cbn in Hnd. rewrite !NoDup_cons in Hnd. set_solver.
Qed.

Lemma tunnel_return_ok t w rid s b rest n' es :
  sessions t !! rid = Some s -> queue (down s) = b :: rest ->
  socket_data_turn w ProxySocketDataFromServiceSide (ToDataCh b) (near t) = (Val tt, n', es) -> tunnel_ok t ->
  tunnel_ok (near_step n' es (<[rid := set_down (pop (down s)) s]> (sessions t)) t).
Proof.
  intros Hs Hq Hturn Hok. pose proof (ok_session t Hok rid s Hs) as [H1 H2 H3 H4 H5].
  destruct (socket_data_turn_inv _ _ _ _ _ _ Hturn) as (d&c&Hd&Htarget&->&->).
  destruct (pipe_pop _ _ _ _ _ _ Hq Hd H5) as [Hrid Hpop]. subst rid.
  unfold socket_target in Htarget. rewrite decide_False, decide_True, H1 in Htarget by done. injection Htarget as <-.
  apply near_update; [done|by eapply apart_same; [exact Hs|..|apply ok_near]|
    by eapply apart_same; [exact Hs|..|apply ok_far]|..].
  - intros r x Hr Hne. split; [done|]. apply written_other.
    by eapply apart_ne; [by apply ok_near|exact Hr|exact Hs|..]; auto using client_near.
  - split; [done|done|done|done|]. unfold returned. cbn. by rewrite written_to_app, written_frame.
Qed.

Lemma tunnel_step_ok t t' : tunnel_ok t -> tunnel_step t t' -> tunnel_ok t'.
Proof.
  intros Hok Hstep. revert Hok. destruct Hstep; intros Hok.
  - eapply tunnel_accept_ok; eassumption.
  - eapply tunnel_connect_ok; eassumption.
  - eapply tunnel_say_ok; eassumption.
  - eapply tunnel_deliver_ok; eassumption.
  - eapply tunnel_answer_ok; eassumption.
  - eapply tunnel_return_ok; eassumption.
  - split; cbn; [by apply ok_near|by apply ok_far|]. intros rid s Hs. destruct (H rid s Hs) as [Hn Hes].
    apply near_others; [by apply ok_session|done|]. by apply Forall_inv in Hes.
  - split; cbn; [by apply ok_near|by apply ok_far|]. intros rid s Hs. destruct (H rid s Hs) as [Hn Hes].
    apply far_others; [by apply ok_session|done|]. intros c Hc.
    eapply (proj1 (Forall_forall _ _)) in Hes; [done|by apply service_far].
Qed.

Lemma tunnel_run_ok n1 n2 t : rtc tunnel_step (tunnel_start n1 n2) t -> tunnel_ok t.
Proof.
  intros H. remember (tunnel_start n1 n2) as t0 eqn:E. assert (tunnel_ok t0) as Hok.
  { subst. split; cbn; [split|split|]; intros *; by rewrite lookup_empty. }
  clear E. induction H as [|t0 t1 t2 Hstep _ IH]; [done|]. by eapply IH, tunnel_step_ok.
Qed.
End invariant.

(** ** When the network works, everything arrives *)

Section drain.
Context {L : ProtoLib} (w : World) (accepts_all : forall c, accepts w c).

Lemma drain_up t rid s c :
  tunnel_ok t -> sessions t !! rid = Some s -> service s = Some c ->
  exists t' s', rtc tunnel_step t t' /\ tunnel_ok t' /\ sessions t' !! rid = Some s' /\
    up s' = mkPipe (said (up s)) [] /\ down s' = down s /\ service s' = service s.
Proof.
  remember (length (queue (up s))) as k eqn:Hk. revert t s Hk.
  induction k as [|k IH]; intros t s Hk Hok Hs Hc; pose proof (ok_session t Hok rid s Hs) as [H1 H2 H3 H4 H5].
  - exists t, s. split_and!; try done. destruct (up s) as [sd []]; done.
  - destruct (queue (up s)) as [|b rest] eqn:Hq; [done|]. pose proof H4 as (arrived&_&Hp). destruct (delivered_head _ _ _ _ _ Hq Hp) as [d Hd].
    assert (tunnel_step t (far_step (far t) (frame_writes c d) (<[rid := set_up (pop (up s)) s]> (sessions t)) t)) as Hstep.
    { eapply t_deliver; [done|done|]. apply (socket_data_turn_ok w _ _ b (mkServiceData rid d) c); [done| |done].
      unfold socket_target. rewrite decide_True by done. cbn. by rewrite H2. }
    destruct (IH (far_step (far t) (frame_writes c d) (<[rid := set_up (pop (up s)) s]> (sessions t)) t)
      (set_up (pop (up s)) s)) as (t'&s'&Hrun&H).
    + cbn. rewrite Hq. cbn in *. lia.
    + by eapply tunnel_step_ok.
    + apply lookup_insert_eq.
    + done.
    + exists t', s'. split; [by eapply rtc_l|done].
Qed.

Lemma drain_down t rid s :
  tunnel_ok t -> sessions t !! rid = Some s ->
  exists t' s', rtc tunnel_step t t' /\ tunnel_ok t' /\ sessions t' !! rid = Some s' /\
    down s' = mkPipe (said (down s)) [] /\ up s' = up s /\ service s' = service s.
Proof.
  remember (length (queue (down s))) as k eqn:Hk. revert t s Hk.
  induction k as [|k IH]; intros t s Hk Hok Hs; pose proof (ok_session t Hok rid s Hs) as [H1 H2 H3 H4 H5].
  - exists t, s. split_and!; try done. destruct (down s) as [sd []]; done.
  - destruct (queue (down s)) as [|b rest] eqn:Hq; [done|]. pose proof H5 as (arrived&_&Hp). destruct (delivered_head _ _ _ _ _ Hq Hp) as [d Hd].
    assert (tunnel_step t (near_step (near t) (frame_writes (client s) d)
      (<[rid := set_down (pop (down s)) s]> (sessions t)) t)) as Hstep.
    { eapply t_return; [done|done|]. apply (socket_data_turn_ok w _ _ b (mkServiceData rid d) (client s)); [done| |done].
      unfold socket_target. rewrite decide_False, decide_True by done. cbn. by rewrite H1. }
    destruct (IH (near_step (near t) (frame_writes (client s) d) (<[rid := set_down (pop (down s)) s]> (sessions t)) t)
      (set_down (pop (down s)) s)) as (t'&s'&Hrun&H).
    + cbn. rewrite Hq. cbn in *. lia.
    + by eapply tunnel_step_ok.
    + apply lookup_insert_eq.
    + exists t', s'. split; [by eapply rtc_l|done].
Qed.
End drain.

Lemma pipe_drained {L : ProtoLib} rid out sd : pipe_ok rid out (mkPipe sd []) -> out = concat (frame <$> sd).
Proof. intros (arrived&->&Hd). by apply delivered_all in Hd as ->. Qed.

Lemma pipe_prefix {L : ProtoLib} rid out p :
  pipe_ok rid out p ->
  exists arrived pending, said p = arrived ++ pending /\ out = concat (frame <$> arrived) /\
    length pending = length (queue p).
Proof.
  intros (arrived&Ho&(pending&Hs&Hl)%delivered_prefix). exists arrived, pending. split_and!; done.
Qed.

(** ** Properties *)

(** C7: the socket sessions between two gateways do not mix. In every interleaving
    of any number of them, and of whatever else the gateways do, what has been
    written to the service of a session are the frames of the first things its
    own client has said, in their order, and what has been written to its client
    those of the first things its own service has answered; exactly the messages
    on the way are missing. Once the service is connected these can all be
    delivered: nothing blocks, and nothing is lost. *)
Theorem socket_sessions_isolated {L : ProtoLib} (n1 n2 : Node) (t : tunnel) (rid : string) (s : session)
    (Hrun : rtc tunnel_step (tunnel_start n1 n2) t) (Hs : sessions t !! rid = Some s) :
  (exists arrived pending, said (up s) = arrived ++ pending /\ served t s = concat (frame <$> arrived) /\
     length pending = length (queue (up s))) /\
  (exists arrived pending, said (down s) = arrived ++ pending /\ returned t s = concat (frame <$> arrived) /\
     length pending = length (queue (down s))) /\
  (forall w c, (forall c', accepts w c') -> service s = Some c ->
     exists t' s', rtc tunnel_step t t' /\ sessions t' !! rid = Some s' /\
       served t' s' = concat (frame <$> said (up s)) /\ returned t' s' = concat (frame <$> said (down s))).
Proof.
  pose proof (tunnel_run_ok n1 n2 t Hrun) as Hok. pose proof (ok_session t Hok rid s Hs) as [H1 H2 H3 H4 H5].
  split_and!; [by eapply pipe_prefix..|]. intros w c Hw Hc.
  destruct (drain_up w Hw t rid s c Hok Hs Hc) as (t1&s1&Hrun1&Hok1&Hs1&Hup&Hdown&_).
  destruct (drain_down w Hw t1 rid s1 Hok1 Hs1) as (t2&s2&Hrun2&Hok2&Hs2&Hdown2&Hup2&_).
  exists t2, s2. pose proof (ok_session t2 Hok2 rid s2 Hs2) as [_ _ _ H6 H7].
  rewrite Hup2, Hup in H6. rewrite Hdown2, Hdown in H7.
  split_and!; [by etrans|done|by eapply pipe_drained..].
Qed.

(** C29: a client's data can overtake its init request. The two go over different
    streams, which are handled by different goroutines; as long as the service is
    not connected, the first message that the handler of the data stream gets is
    written to a connection that is not there: nil, and the gateway of the service
    ends. *)
Theorem data_overtakes_request {L : ProtoLib} (n1 n2 : Node) (t : tunnel) (rid : string) (s : session)
    (w : World) (b : bytes) (rest : list bytes)
    (Hrun : rtc tunnel_step (tunnel_start n1 n2) t) (Hs : sessions t !! rid = Some s)
    (Hwaiting : service s = None) (Hdata : queue (up s) = b :: rest) :
  socket_data_turn w ProxySocketDataFromClientSide (ToDataCh b) (far t) = (Panic nil_deref, far t, []).
Proof.
  pose proof (tunnel_run_ok n1 n2 t Hrun) as Hok.
  destruct (ok_session t Hok rid s Hs) as [H1 H2 H3 (arrived&_&Hp) H5].
  destruct (delivered_head _ _ _ _ _ Hdata Hp) as [d Hd].
  unfold socket_data_turn. rewrite Hd. cbn [must]. rewrite bind_pure, bind_get, decide_True by done.
  cbn [Data_RequestId]. by rewrite H2, Hwaiting.
Qed.

(** ** Two sessions of one service *)

(** The answers of the network to one step: the streams it opens, by their
    protocols, and the connection it dials. *)
Definition session_world (uuid : string) (init data back dialed : conn) : World :=
  mkWorld "QmSelf"
    (fun _ p => if decide (p = ProxySocketInitReq) then Ok init
                else if decide (p = ProxySocketDataFromClientSide) then Ok data else Ok back)
    (fun s => Ok s) (fun _ => Ok dialed) (fun _ _ => None) (fun _ _ => None) uuid (fun k => N.of_nat k).

Definition world_a : World := session_world "a" 11 12 13 14.
Definition world_b : World := session_world "b" 21 22 23 24.
Definition rid_a : string := "user.abcdefghij.a".
Definition rid_b : string := "user.abcdefghij.b".

Definition init_source : source := mkSource [frame (WireFormat.encoded example_init)] None.
Definition said_source (text : string) : source := mkSource [frame (str_bytes text)] None.
Definition wrapped (rid text : string) : bytes := WireFormat.encoded (mkServiceData rid (str_bytes text)).
Definition request_of (rid : string) : bytes :=
  WireFormat.encoded (mkSocketService "abcdefghij" rid "QmSelf").

Abbreviation example_step := (tunnel_step (L := WireFormat.wire_lib)).

(** Both clients are accepted, and both have said something. *)
Definition both_waiting (t : tunnel) : Prop :=
  far t = example_service_side /\ far_log t = [] /\
  sessions t = <[rid_b := mkSession 20 22 (Some (request_of rid_b)) None None
                   (mkPipe [str_bytes "from b"] [wrapped rid_b "from b"]) no_pipe]>
               (<[rid_a := mkSession 10 12 (Some (request_of rid_a)) None None
                   (mkPipe [str_bytes "from a"] [wrapped rid_a "from a"]) no_pipe]> ∅).

(** Freshness, computed. *)
Lemma fresh_computed conns log t l :
  bool_decide (Forall (fun c => written_to c log = [] /\ map_Forall (fun _ s => c ∉ conns s) (sessions t)) l) = true ->
  Forall (fresh_at conns log t) l.
Proof.
  intros H%bool_decide_eq_true. eapply Forall_impl; [exact H|]. intros c [H1 H2]. split; [done|].
  intros rid s Hs. exact (H2 rid s Hs).
Qed.

Ltac computed :=
  first [ reflexivity | vm_compute; reflexivity | apply fresh_computed; vm_compute; reflexivity
        | apply (bool_decide_unpack _); vm_compute; exact I ].

Lemma both_accepted : exists t,
  rtc example_step (tunnel_start example_gateway example_service_side) t /\ both_waiting t.
Proof.
  eexists. split.
  - eapply rtc_l; [eapply (t_accept _ world_a 1000 10 init_source rid_a 11 12); computed|].
    eapply rtc_l; [eapply (t_accept _ world_b 1000 20 init_source rid_b 21 22); computed|].
    eapply rtc_l; [eapply (t_say _ world_a 1000 rid_a _ (said_source "from a")); computed|].
    eapply rtc_l; [eapply (t_say _ world_b 1000 rid_b _ (said_source "from b")); computed|].
    apply rtc_refl.
  - split_and!; vm_compute; reflexivity.
Qed.

Lemma b_connected : exists t s,
  rtc example_step (tunnel_start example_gateway example_service_side) t /\
  sessions t !! rid_b = Some s /\ service s = Some 24%N /\ said (up s) = [str_bytes "from b"].
Proof.
  destruct both_accepted as (t&Hrun&Hfar&Hlog&Hs). destruct t as [n f nl fl ss]. cbn in *. subst f fl ss.
  eexists _, _. split.
  - etrans; [exact Hrun|]. eapply rtc_once, (t_connect _ world_b rid_b); cbn [sessions far far_log]; computed.
  - split; [vm_compute; reflexivity|]. split; vm_compute; reflexivity.
Qed.

Example socket_sessions_isolated_witness : exists t s,
  rtc example_step (tunnel_start example_gateway example_service_side) t /\
  sessions t !! rid_b = Some s /\ served t s = frame (str_bytes "from b").
Proof.
  destruct b_connected as (t&s&Hrun&Hs&Hc&Hsaid).
  destruct (socket_sessions_isolated (L := WireFormat.wire_lib) example_gateway example_service_side t rid_b s Hrun Hs)
    as (_&_&H).
  destruct (H world_b 24%N) as (t'&s'&Hrun'&Hs'&Hserved&_); [intros c p; reflexivity|exact Hc|].
  exists t', s'. split; [etrans; [exact Hrun|exact Hrun']|]. split; [exact Hs'|].
  rewrite Hserved, Hsaid. cbn. apply app_nil_r.
Defined.

Example data_overtakes_request_witness :
  socket_data_turn (L := WireFormat.wire_lib) world_a ProxySocketDataFromClientSide
    (ToDataCh (wrapped rid_a "from a")) example_service_side
  = (Panic nil_deref, example_service_side, []).
Proof.
  destruct both_accepted as (t&Hrun&Hfar&_&Hs). rewrite <- Hfar.
  eapply (data_overtakes_request (L := WireFormat.wire_lib) example_gateway example_service_side t rid_a).
  - exact Hrun.
  - rewrite Hs. vm_compute. reflexivity.
  - reflexivity.
  - reflexivity.
Defined.
