(* ===== verification/Gateway.v ===== *)
(** A whole gateway: every call that its goroutines make on the state of the node, in
    any order. What each call can change (its footprint), what all of them keep,
    and what follows for a process that runs for long. *)

From S2P Require Import Prelude Messages NetworkHelper RequestDetail UsageRecord Report Node Locking World Management ClientGateway ProxyHandlers Tunnel Pipes Sessions.
From S2P Require WireFormat.

(** ** The calls

    With all that they are told from outside: what the network answers, what comes
    in, and in which order maps are gone through. *)

Inductive gateway_call :=
  (* node_mgmt_handler.go *)
  | Mgmt (publish : bytes -> option goerror) (pretty : peer_ID -> string)
      (range_services : gmap string ApronService -> list (string * ApronService))
      (range_peers : gmap string peer_ID -> list (string * peer_ID))
      (not_found : string -> string -> list effect) (method path : string) (body : bytes)
  (* node.go *)
  | Broadcast (next : broadcast)
  | PeersTick (availablePeers : list peer_ID) (order : list (string * peer_ID))
  (* csgw_http.go *)
  | HttpRequested (w : World) (is_ws : bool) (upgrade : option goerror) (dumped : result bytes)
      (request : HttpRequest)
  | HttpAnswered (req : ApronServiceRequest) (respData : bytes)
  | WsUpgraded (req : ApronServiceRequest) (clientWsConn : conn)
  | WsClientSaid (w : World) (req : ApronServiceRequest) (dataStream : option conn) (clientWsConn : conn)
      (messages : list (result bytes))
  (* csgw_socket.go *)
  | SocketAccepted (w : World) (maxAlloc : Z) (c : conn) (src : source)
  | SocketClientSaid (w : World) (maxAlloc : Z) (turns : nat) (requestId : string) (c stream : conn) (src : source)
  (* node_proxy_handler.go *)
  | HttpInit (w : World) (http_Read : bytes -> result HttpRequest) (http_Do : ServiceRequest -> result bytes)
      (URI_String : ServiceRequest -> string) (ws_Dial : string -> result conn) (item : chan_op)
  | ServiceSaid (w : World) (requestId : string) (respStream : option conn) (reads : list (result bytes))
  | WsData (w : World) (protocol : string) (item : chan_op)
  | HttpResp (item : chan_op)
  | SocketInit (w : World) (dataBuf : result bytes)
  | SocketData (w : World) (protocol : string) (item : chan_op).

(** However a call ends, it leaves a node, and what it has done outside. *)
Definition outcome_of {A} (m : Handler A) (n : Node) : Node * list effect := (state_of (m n), effects_of (m n)).

Section perform.
Context {L : ProtoLib}.

Definition perform (c : gateway_call) : Node -> Node * list effect :=
  match c with
  | Mgmt publish pretty range_services range_peers not_found method path body =>
      outcome_of (StartMgmtApiServer publish pretty range_services range_peers
        (fun method path n => (Val tt, n, not_found method path)) method path body)
  | Broadcast next => outcome_of (StartListeningOnServiceBroadcast next)
  | PeersTick availablePeers order => outcome_of (UpdatePeers availablePeers order)
  | HttpRequested w is_ws upgrade dumped request => outcome_of (StartForwardService w is_ws upgrade dumped request)
  | HttpAnswered req respData => outcome_of (serveHttpRequest_answer req respData)
  | WsUpgraded req c => outcome_of (ws_upgraded req c)
  | WsClientSaid w req dataStream c messages => outcome_of (ws_goroutine w req dataStream c messages)
  | SocketAccepted w maxAlloc c src => outcome_of (StartSocketForwardService w maxAlloc c src)
  | SocketClientSaid w maxAlloc turns rid c stream src =>
      outcome_of (forward_client_data w maxAlloc turns rid c stream src)
  | HttpInit w http_Read http_Do URI_String ws_Dial item =>
      outcome_of (ProxyHttpInitRequestHandler w http_Read http_Do URI_String ws_Dial item)
  | ServiceSaid w rid respStream reads => outcome_of (forward_to_client w rid respStream reads)
  | WsData w protocol item => outcome_of (ws_data_turn w protocol item)
  | HttpResp item => outcome_of (http_resp_turn item)
  | SocketInit w dataBuf => outcome_of (ProxySocketInitReqHandler w dataBuf)
  | SocketData w protocol item => outcome_of (socket_data_turn w protocol item)
  end.
End perform.

(** The tables that a call may write. *)
Definition footprint (c : gateway_call) : list map_name :=
  match c with
  | Mgmt _ _ _ _ _ _ _ _ | Broadcast _ | PeersTick _ _ => [Services; ServicePeerMapping]
  | HttpRequested _ _ _ _ _ => [RequestIdChanMapping; ClientHttpDataChan]
  | HttpAnswered _ _ => [ClientHttpDataChan]
  | WsUpgraded _ _ => [ClientWsConns]
  | SocketAccepted _ _ _ _ => [RequestIdChanMapping; ClientSocketConns]
  | HttpInit _ _ _ _ _ _ => [ServiceWsConns]
  | SocketInit _ _ => [ServiceSocketConns]
  | WsClientSaid _ _ _ _ _ | SocketClientSaid _ _ _ _ _ _ _ | ServiceSaid _ _ _ _
  | WsData _ _ _ | HttpResp _ | SocketData _ _ _ => []
  end.

(** ** What a handler leaves of the node

    [keeps R m]: whatever [m] does, and however it ends, the node before and the
    node after are in [R]. The rules follow the structure of the handlers. *)

Definition keeps (R : relation Node) {A} (m : Handler A) : Prop := forall n, R n (state_of (m n)).

Create HintDb keeps.

Section keeps.
Context (R : relation Node) `{!PreOrder R}.

Lemma keeps_silent {A} (m : Handler A) : (forall n, state_of (m n) = n) -> keeps R m.
Proof. intros H n. by rewrite H. Qed.

Lemma keeps_ret {A} (a : A) : keeps R (mret a).
Proof. by apply keeps_silent. Qed.
Lemma keeps_get : keeps R get.
Proof. by apply keeps_silent. Qed.
Lemma keeps_emit e : keeps R (emit e).
Proof. by apply keeps_silent. Qed.
Lemma keeps_panic {A} msg : keeps R (panic msg : Handler A).
Proof. by apply keeps_silent. Qed.
Lemma keeps_block {A} : keeps R (block : Handler A).
Proof. by apply keeps_silent. Qed.
Lemma keeps_must {A} (r : result A) : keeps R (must r).
Proof. apply keeps_silent. by destruct r. Qed.
Lemma keeps_CheckError err : keeps R (CheckError err).
Proof. apply keeps_silent. by destruct err. Qed.
Lemma keeps_lift_outcome {A} (o : outcome A) : keeps R (lift_outcome o).
Proof. by apply keeps_silent. Qed.
Lemma keeps_modify f : (forall n, R n (f n)) -> keeps R (modify f).
Proof. intros H n. apply H. Qed.

Lemma keeps_bind {A B} (m : Handler A) (f : A -> Handler B) :
  keeps R m -> (forall a, keeps R (f a)) -> keeps R (m ≫= f).
Proof.
  intros Hm Hf n. specialize (Hm n). unfold mbind, M_bind, state_of in *.
  destruct (m n) as [[[a|msg|] n1] e1]; [|done..]. cbn in *.
  specialize (Hf a n1). unfold state_of in Hf. destruct (f a n1) as [[o n2] e2]. cbn in *. by etrans.
Qed.

Lemma keeps_recovering (m recovered : Handler unit) :
  keeps R m -> keeps R recovered -> keeps R (recovering m recovered).
Proof.
  intros Hm Hr n. specialize (Hm n). unfold recovering, state_of in *.
  destruct (m n) as [[[a|msg|] n1] e1]; [done| |done]. cbn in *.
  specialize (Hr n1). unfold state_of in Hr. destruct (recovered n1) as [[o n2] e2]. cbn in *. by etrans.
Qed.
End keeps.

#[export] Hint Resolve keeps_ret keeps_get keeps_emit keeps_panic keeps_block keeps_must keeps_CheckError
  keeps_lift_outcome keeps_recovering : keeps.

(** Follow the code; what is left are the handler's own writes. *)
Ltac follow :=
  repeat first
    [ solve [eauto with keeps]
    | apply keeps_bind; [typeclasses eauto| |intros ?]
    | apply keeps_recovering; [typeclasses eauto| |]
    | case_match ].

(** The writes to a table. The registry's two are written together. *)
Definition respects (R : relation Node) (m : map_name) : Prop :=
  match m with
  | Services | ServicePeerMapping =>
      (forall owner s n, R n (store_service owner s n)) /\ forall ks n, R n (drop_services ks n)
  | RequestIdChanMapping => forall k ch n, R n (set_requestIdChan k ch n)
  | ClientWsConns => forall k c n, R n (set_clientWsConn k c n)
  | ServiceWsConns => forall k c n, R n (set_serviceWsConn k c n)
  | ClientSocketConns => forall k c n, R n (set_clientSocketConn k c n)
  | ServiceSocketConns => forall k c n, R n (set_serviceSocketConn k c n)
  | ClientHttpDataChan => forall chans n, R n (set_clientHttpDataChan chans n)
  end.

Section handlers.
Context {L : ProtoLib} (R : relation Node) `{!PreOrder R}.

Lemma keeps_conn_Write w c p : keeps R (conn_Write w c p).
Proof. unfold conn_Write. follow. Qed.
Lemma keeps_WriteBytes w c data : keeps R (WriteBytesViaStream (conn_Write w c) data).
Proof. unfold WriteBytesViaStream. follow; apply keeps_conn_Write. Qed.
Lemma keeps_ws_WriteMessage w c p : keeps R (ws_WriteMessage w c p).
Proof. unfold ws_WriteMessage. follow. Qed.
Lemma keeps_open_stream w to protocol : keeps R (open_stream w to protocol).
Proof. unfold open_stream. follow. Qed.
Lemma keeps_reject w c msg : keeps R (reject w c msg).
Proof. unfold reject. follow. apply keeps_conn_Write. Qed.

Hint Resolve keeps_conn_Write keeps_WriteBytes keeps_ws_WriteMessage keeps_open_stream keeps_reject : keeps.

Lemma keeps_RegisterLocal publish s : respects R Services -> keeps R (RegisterLocalService publish s).
Proof.
  intros [Hstore _]. unfold RegisterLocalService, BroadcastService. follow.
  apply keeps_modify; intros ?; apply Hstore.
Qed.
Hint Resolve keeps_RegisterLocal : keeps.

Lemma keeps_mgmt publish pretty range_services range_peers not_found method path body :
  respects R Services ->
  keeps R (StartMgmtApiServer publish pretty range_services range_peers
    (fun method path n => (Val tt, n, not_found method path)) method path body).
Proof.
  intros HR. unfold StartMgmtApiServer, mgmt_handler, newOrUpdateServiceHandler, deleteServiceHandler,
    listServiceHandler, listServicePeerHandler, listLocalServiceHandler, listRemoteServiceHandler.
  follow.
Qed.

Lemma keeps_broadcast next : respects R Services -> keeps R (StartListeningOnServiceBroadcast next).
Proof.
  intros [Hstore _]. unfold StartListeningOnServiceBroadcast, RegisterRemoteService. follow.
  apply keeps_modify; intros ?; apply Hstore.
Qed.

Lemma keeps_tick availablePeers order : respects R Services -> keeps R (UpdatePeers availablePeers order).
Proof. intros [_ Hdrop]. apply keeps_modify; intros ?; apply Hdrop. Qed.

Lemma keeps_http w is_ws upgrade dumped request :
  respects R RequestIdChanMapping -> respects R ClientHttpDataChan ->
  keeps R (StartForwardService w is_ws upgrade dumped request).
Proof.
  intros Hid Hchan. unfold StartForwardService, serveWebsocketRequest, serveHttpRequest_register. follow.
  all: apply keeps_modify; intros ?; first [apply Hid|apply Hchan].
Qed.

Lemma keeps_answered req respData : respects R ClientHttpDataChan -> keeps R (serveHttpRequest_answer req respData).
Proof. intros Hchan. unfold serveHttpRequest_answer. follow. apply keeps_modify; intros ?; apply Hchan. Qed.

Lemma keeps_ws_forward w req dataStream messages : keeps R (ws_forward w req dataStream messages).
Proof. induction messages as [|[]]; cbn [ws_forward]; follow. Qed.

Lemma keeps_forward_client maxAlloc w turns rid c stream src :
  keeps R (forward_client_data w maxAlloc turns rid c stream src).
Proof. revert src. induction turns as [|turns IH]; intros src; cbn [forward_client_data]; follow. Qed.

Lemma keeps_forward_to_client w rid respStream reads : keeps R (forward_to_client w rid respStream reads).
Proof. induction reads as [|r reads IH]; cbn [forward_to_client]; follow. Qed.

Lemma keeps_socket w maxAlloc c src :
  respects R RequestIdChanMapping -> respects R ClientSocketConns ->
  keeps R (StartSocketForwardService w maxAlloc c src).
Proof.
  intros Hid Hconn. unfold StartSocketForwardService. follow.
  all: apply keeps_modify; intros ?; first [apply Hid|apply Hconn].
Qed.

Lemma keeps_http_init w http_Read http_Do URI_String ws_Dial item :
  respects R ServiceWsConns -> keeps R (ProxyHttpInitRequestHandler w http_Read http_Do URI_String ws_Dial item).
Proof.
  intros Hconn. unfold ProxyHttpInitRequestHandler, proxy_ws, proxy_http. follow.
  apply keeps_modify; intros ?; apply Hconn.
Qed.

Lemma keeps_socket_init w dataBuf :
  respects R ServiceSocketConns -> keeps R (ProxySocketInitReqHandler w dataBuf).
Proof.
  intros Hconn. unfold ProxySocketInitReqHandler. follow. apply keeps_modify; intros ?; apply Hconn.
Qed.

Lemma keeps_ws_goroutine w req dataStream c messages : keeps R (ws_goroutine w req dataStream c messages).
Proof. unfold ws_goroutine. follow. apply keeps_ws_forward. Qed.

Lemma keeps_ws_data w protocol item : keeps R (ws_data_turn w protocol item).
Proof. unfold ws_data_turn. follow. Qed.
Lemma keeps_http_resp item : keeps R (http_resp_turn item).
Proof. unfold http_resp_turn. follow. Qed.
Lemma keeps_socket_data w protocol item : keeps R (socket_data_turn w protocol item).
Proof. unfold socket_data_turn. follow. Qed.

(** Every call stays within its footprint. *)
Lemma perform_keeps c :
  (forall m, m ∈ footprint c -> respects R m) -> forall n, R n (perform c n).1.
Proof.
  intros HR. assert (Forall (respects R) (footprint c)) as HF by (by apply Forall_forall). clear HR.
  destruct c; cbn [footprint] in HF; rewrite ?Forall_cons in HF; destruct_and?.
  - by apply keeps_mgmt.
  - by apply keeps_broadcast.
  - by apply keeps_tick.
  - by apply keeps_http.
  - by apply keeps_answered.
  - by apply keeps_modify.
  - apply keeps_ws_goroutine.
  - by apply keeps_socket.
  - apply keeps_forward_client.
  - by apply keeps_http_init.
  - apply keeps_forward_to_client.
  - apply keeps_ws_data.
  - apply keeps_http_resp.
  - by apply keeps_socket_init.
  - apply keeps_socket_data.
Qed.
End handlers.

(** ** A run of the gateway: calls and turns of the report task, in any order *)

Inductive gateway_event :=
  | Called (c : gateway_call)
  | Reported (uploadInterval : Z) (PinContent : bytes -> result string) (nodeId : string) (now : string -> Z).

Definition set_manager (m : UsageRecordManager) (n : Node) : Node :=
  mkNode (selfID n) (services n) (namedServices n) (servicePeerMapping n) (requestIdChanMapping n)
    (clientWsConns n) (serviceWsConns n) (clientSocketConns n) (serviceSocketConns n)
    (clientHttpDataChan n) m.

Section run.
Context {L : ProtoLib}.
(** How the export goes through the mutexes of the records. *)
Context (range_locks : gset string -> list string).

Definition happen (ev : gateway_event) (n : Node) : Node * list effect * list report_effect :=
  match ev with
  | Called c => (perform c n, [])
  | Reported uploadInterval PinContent nodeId now =>
      let r := StartUploadUsageReportTask uploadInterval PinContent nodeId now
                 (range_locks (locks (serviceUsageRecordManager n))) (serviceUsageRecordManager n) in
      (set_manager (state_of r) n, [], effects_of r)
  end.

Fixpoint gateway_run (evs : list gateway_event) (n : Node) : Node * list effect * list report_effect :=
  match evs with
  | [] => (n, [], [])
  | ev :: evs =>
      let '(n, es, rs) := happen ev n in
      let '(n, es', rs') := gateway_run evs n in (n, es ++ es', rs ++ rs')
  end.

Definition node_after (evs : list gateway_event) (n : Node) : Node := (gateway_run evs n).1.1.
Definition reports_of (evs : list gateway_event) (n : Node) : list report_effect := (gateway_run evs n).2.

Lemma gateway_run_cons ev evs n :
  node_after (ev :: evs) n = node_after evs (happen ev n).1.1 /\
  reports_of (ev :: evs) n = (happen ev n).2 ++ reports_of evs (happen ev n).1.1.
Proof.
  unfold node_after, reports_of. cbn [gateway_run]. destruct (happen ev n) as [[n1 es] rs]. cbn.
  by destruct (gateway_run evs n1) as [[n2 es'] rs'].
Qed.

(** What every write and every turn of the report task keeps, a run keeps. *)
Lemma run_keeps (R : relation Node) `{!PreOrder R} evs n :
  (forall m, respects R m) -> (forall m n, R n (set_manager m n)) -> R n (node_after evs n).
Proof.
  intros HR Hm. revert n. induction evs as [|ev evs IH]; intros n; [reflexivity|].
  destruct (gateway_run_cons ev evs n) as [-> _]. etrans; [|apply IH].
  destruct ev as [c|]; [|apply Hm]. cbn. by apply perform_keeps.
Qed.
End run.

(** ** The relations *)

(** Nothing of a table, of the identity or of the usage records has changed. *)
Definition same {A} (f : Node -> A) : relation Node := fun n n' => f n' = f n.
#[export] Instance same_preorder {A} (f : Node -> A) : PreOrder (same f).
Proof. split; [by intros n|]. unfold same. intros n1 n2 n3. congruence. Qed.

Definition ok_stays : relation Node := fun n n' => registry_ok n -> registry_ok n'.
#[export] Instance ok_stays_preorder : PreOrder ok_stays.
Proof. split; unfold ok_stays; [by intros n|]. intros n1 n2 n3. auto. Qed.

(** No entry of the tables of requests and sessions is removed. *)
Definition grows : relation Node := fun n n' =>
  dom (requestIdChanMapping n) ⊆ dom (requestIdChanMapping n') /\
  dom (clientWsConns n) ⊆ dom (clientWsConns n') /\
  dom (serviceWsConns n) ⊆ dom (serviceWsConns n') /\
  dom (clientSocketConns n) ⊆ dom (clientSocketConns n') /\
  dom (serviceSocketConns n) ⊆ dom (serviceSocketConns n').
#[export] Instance grows_preorder : PreOrder grows.
Proof. split; unfold grows; [by intros n|]. intros n1 n2 n3. set_solver. Qed.

Lemma respects_ok m : respects ok_stays m.
Proof. destruct m; cbn; unfold ok_stays; try done; (split; intros; [by apply store_ok|by apply drop_services_ok]). Qed.

Lemma frame_grows n n' : registry_frame n n' -> grows n n'.
Proof. by intros ->. Qed.

Lemma respects_grows m : respects grows m.
Proof.
  destruct m; cbn; first
    [ split; intros; apply frame_grows; [apply store_frame|apply drop_services_frame]
    | intros; unfold grows; cbn; rewrite ?dom_insert_L; set_solver ].
Qed.

(** The parts of a node that only some writes concern. *)
Lemma respects_same_map m m' : m <> m' -> ~ (m ∈ [Services; ServicePeerMapping] /\ m' ∈ [Services; ServicePeerMapping]) ->
  respects (same (get_map m)) m'.
Proof.
  intros Hne Hreg. assert (forall n n', registry_frame n n' -> m ∉ [Services; ServicePeerMapping] ->
    get_map m n' = get_map m n) as Hframe.
  { intros n n' -> Hm. destruct m; first [reflexivity|exfalso; apply Hm; set_solver]. }
  destruct m'; cbn; unfold same; first
    [ split; intros; (apply Hframe; [first [apply store_frame|apply drop_services_frame]|set_solver])
    | intros; by destruct m ].
Qed.

Lemma respects_same {A} (f : Node -> A) m :
  (forall m x n, f (set_map m x n) = f n) -> respects (same f) m.
Proof.
  intros Hf.
  assert (forall k n, f (drop_service k n) = f n) as Hdrop.
  { intros k n. rewrite <- (Hf Services (delete k (services n)) n).
    by rewrite <- (Hf ServicePeerMapping (delete k (servicePeerMapping n)) (set_map Services (delete k (services n)) n)). }
  destruct m; cbn; unfold same; try split; intros.
  1, 3: unfold store_service; case_match; [apply Hdrop|];
    rewrite <- (Hf Services (<[Service_Id s := s]> (services n)) n);
    by rewrite <- (Hf ServicePeerMapping (<[Service_Id s := owner]> (servicePeerMapping n))
         (set_map Services (<[Service_Id s := s]> (services n)) n)).
  1, 2: revert n; induction ks as [|k' ks IH]; intros n; [done|]; cbn; by rewrite IH.
  - apply (Hf RequestIdChanMapping).
  - apply (Hf ClientWsConns).
  - apply (Hf ServiceWsConns).
  - apply (Hf ClientSocketConns).
  - apply (Hf ServiceSocketConns).
  - apply (Hf ClientHttpDataChan).
Qed.

(** The registry's two tables are in a footprint together. *)
Lemma footprint_apart c m m' :
  m ∉ footprint c -> m' ∈ footprint c ->
  m <> m' /\ ~ (m ∈ [Services; ServicePeerMapping] /\ m' ∈ [Services; ServicePeerMapping]).
Proof. destruct c; cbn; rewrite ?elem_of_cons, ?elem_of_nil; destruct m, m'; naive_solver. Qed.

Lemma perform_frame {L : ProtoLib} c m n : m ∉ footprint c -> get_map m (perform c n).1 = get_map m n.
Proof.
  intros Hm. apply (perform_keeps (same (get_map m))). intros m' Hm'.
  destruct (footprint_apart c m m' Hm Hm'). by apply respects_same_map.
Qed.

Lemma perform_manager {L : ProtoLib} c n : same serviceUsageRecordManager n (perform c n).1.
Proof. apply perform_keeps; [apply _|]. intros m' _. apply respects_same. intros m x n'. by destruct m. Qed.

(** Requests that were taken, and what their handlers filed. *)
Lemma http_request_filed {L : ProtoLib} w is_ws upgrade dumped request n req ch n' es :
  StartForwardService w is_ws upgrade dumped request n = (Val (HttpWaiting req ch), n', es) ->
  is_Some (requestIdChanMapping n' !! Request_RequestId req).
Proof.
  intros H. destruct (forward_request_inv _ _ _ _ _ _ _ _ _ H) as (req'&?&?&?&?&?&?&_&_&Hrest&_); [done|].
  destruct is_ws.
  - unfold serveWebsocketRequest, open_stream in Hrest. run_handler. by repeat break_match.
  - unfold serveHttpRequest_register in Hrest. run_handler. injection Hrest as <- _ <- _. cbn. by rewrite lookup_insert_eq.
Qed.

Section growth.
Context {L : ProtoLib} (range_locks : gset string -> list string).

Lemma run_grows evs n : grows n (node_after range_locks evs n).
Proof. apply run_keeps; [apply _|apply respects_grows|]. intros m n'. by unfold grows. Qed.

Lemma in_dom_grown {A} (f : Node -> gmap string A) n n' k :
  dom (f n) ⊆ dom (f n') -> is_Some (f n !! k) -> is_Some (f n' !! k).
Proof. rewrite <- !elem_of_dom. set_solver. Qed.
End growth.

(** ** Properties *)

(** C11: every call of a gateway keeps to its own tables. Whatever it is told from
    outside and however it ends, a table that is not in its footprint is left as it
    was, and so are the node's identity and its usage records; and no call, of the
    registry or not, breaks the registry. *)
Theorem calls_keep_to_their_tables {L : ProtoLib} (c : gateway_call) (n : Node) :
  (forall m, m ∉ footprint c -> get_map m (perform c n).1 = get_map m n) /\
  selfID (perform c n).1 = selfID n /\
  serviceUsageRecordManager (perform c n).1 = serviceUsageRecordManager n /\
  (registry_ok n -> registry_ok (perform c n).1).
Proof.
  split_and!.
  - intros m. apply perform_frame.
  - apply (perform_keeps (same selfID)). intros m' _. apply respects_same. intros m x n'. by destruct m.
  - apply perform_manager.
  - apply (perform_keeps ok_stays). intros m' _. apply respects_ok.
Qed.

(** C32: no usage is ever reported. The calls that would record usage are commented
    out, so that in every run of a gateway, from its start and with any calls and
    any turns of the report task, the record table stays as [Init] has made it, and
    every turn only sleeps: nothing is ever pinned. The node keeps its identity, and
    its registry its invariant. *)
Theorem no_usage_reported {L : ProtoLib} (range_locks : gset string -> list string) (h : peer_ID)
    (evs : list gateway_event) (start := SetupServiceBroadcastListener h NewNode)
    (Hrange : forall s, range_locks s ≡ₚ elements s) :
  serviceUsageRecordManager (node_after range_locks evs start) = Init /\
  (forall content, Pinned content ∉ reports_of range_locks evs start) /\
  selfID (node_after range_locks evs start) = h /\ registry_ok (node_after range_locks evs start).
Proof.
  assert (range_locks ∅ = []) as Hempty by (apply Permutation_nil_r; by rewrite (Hrange ∅), elements_empty).
  assert (forall n, serviceUsageRecordManager n = Init ->
    serviceUsageRecordManager (node_after range_locks evs n) = Init /\
    forall content, Pinned content ∉ reports_of range_locks evs n) as Hrun.
  { induction evs as [|ev evs IH]; intros n Hn; [split; [done|]; intros; apply not_elem_of_nil|].
    destruct (gateway_run_cons range_locks ev evs n) as [-> ->].
    assert (serviceUsageRecordManager (happen range_locks ev n).1.1 = Init /\
      forall content, Pinned content ∉ (happen range_locks ev n).2) as [Hn1 Hr1].
    { destruct ev as [c|interval pin id now]; cbn [happen fst snd].
      - split; [|intros; apply not_elem_of_nil].
        pose proof (perform_manager c n) as Hc. unfold same in Hc. cbn. by rewrite Hc.
      - rewrite Hn. cbn [locks Init]. rewrite Hempty. split; [done|]. cbn. set_solver. }
    destruct (IH _ Hn1) as [Hn2 Hr2]. split; [done|]. intros content. rewrite elem_of_app.
    intros [?|?]; [by eapply Hr1|by eapply Hr2]. }
  destruct (Hrun start eq_refl) as [Hm Hr]. split_and!; [done|done| |].
  - apply (run_keeps range_locks (same selfID) evs start); [|done].
    intros m. apply respects_same. intros m' x n. by destruct m'.
  - apply (run_keeps range_locks ok_stays evs start); [apply respects_ok| |apply NewNode_ok].
    intros m n H. exact H.
Qed.

(** C31: what a gateway files for a request or a session it keeps for good. In any run
    the tables of requests and connections only grow: the entry of an answered HTTP
    request, and the connections of socket sessions on either side, are still there
    after whatever comes next, although they are closed and their clients gone. *)
Theorem sessions_never_freed {L : ProtoLib} (range_locks : gset string -> list string) (evs : list gateway_event)
    (w : World) (n n' : Node) (es : list effect) :
  grows n (node_after range_locks evs n) /\
  (forall is_ws upgrade dumped request req ch,
     StartForwardService w is_ws upgrade dumped request n = (Val (HttpWaiting req ch), n', es) ->
     is_Some (requestIdChanMapping (node_after range_locks evs n') !! Request_RequestId req)) /\
  (forall maxAlloc c src rid stream rest,
     StartSocketForwardService w maxAlloc c src n = (Val (Forwarding rid stream rest), n', es) ->
     is_Some (clientSocketConns (node_after range_locks evs n') !! rid)) /\
  (forall b rid d c,
     ProxySocketInitReqHandler w (Ok b) n = (Val (rid, d, c), n', es) ->
     is_Some (serviceSocketConns (node_after range_locks evs n') !! rid)).
Proof.
  split; [apply run_grows|]. destruct (run_grows range_locks evs n') as (G1&G2&G3&G4&G5). split_and!.
  - intros is_ws upgrade dumped request req ch H. apply (in_dom_grown _ _ _ _ G1).
    by eapply http_request_filed.
  - intros maxAlloc c src rid stream rest H. apply (in_dom_grown _ _ _ _ G4).
    destruct (accept_inv _ _ _ _ _ _ _ _ _ _ H) as (?&?&?&?&?&_&_&->). rewrite lookup_insert_eq. by eexists.
  - intros b rid d c H. apply (in_dom_grown _ _ _ _ G5).
    destruct (init_handler_inv _ _ _ _ _ _ _ _ H) as (?&_&_&->&_). cbn. rewrite lookup_insert_eq. by eexists.
Qed.

(** Calls that file no connection of socket clients go on beside the sessions of
    [Sessions] when they write to connections of their own, and so do, on the other
    side, calls that file none of services. *)
Lemma bystander_near {L : ProtoLib} t c :
  ClientSocketConns ∉ footprint c ->
  (forall rid s, sessions t !! rid = Some s ->
     Forall (fun x => written_to x (perform c (near t)).2 = []) (near_conns s)) ->
  tunnel_step t (near_step (perform c (near t)).1 (perform c (near t)).2 (sessions t) t).
Proof.
  intros Hc Hw. apply t_near. intros rid s Hs. split; [|by eapply Hw].
  by rewrite (perform_frame c ClientSocketConns _ Hc : clientSocketConns _ = _).
Qed.

Lemma bystander_far {L : ProtoLib} t c :
  ServiceSocketConns ∉ footprint c ->
  (forall rid s, sessions t !! rid = Some s ->
     Forall (fun x => written_to x (perform c (far t)).2 = []) (far_conns s)) ->
  tunnel_step t (far_step (perform c (far t)).1 (perform c (far t)).2 (sessions t) t).
Proof.
  intros Hc Hw. apply t_far. intros rid s Hs. split; [|by eapply Hw].
  by rewrite (perform_frame c ServiceSocketConns _ Hc : serviceSocketConns _ = _).
Qed.

(** *** A run, for the witness *)

Definition example_events : list gateway_event :=
  [Called (HttpRequested example_world false None (Ok example_raw) (example_client_request "/v1/abcdefghij_key/x"));
   Reported 15 (fun _ => Ok "hash"%string) "node" (fun _ => 7)].

Example no_usage_reported_witness :
  let start := SetupServiceBroadcastListener "self" NewNode in
  serviceUsageRecordManager (node_after (L := WireFormat.wire_lib) elements example_events start) = Init /\
  Pinned [] ∉ reports_of (L := WireFormat.wire_lib) elements example_events start.
Proof.
  destruct (no_usage_reported (L := WireFormat.wire_lib) elements "self" example_events) as (Hm&Hr&_).
  - intros s. reflexivity.
  - split; [exact Hm|apply Hr].
Defined.

Example calls_keep_to_their_tables_witness :
  clientSocketConns (perform (L := WireFormat.wire_lib) (HttpRequested example_world false None (Ok example_raw)
    (example_client_request "/v1/abcdefghij_key/x")) (set_clientSocketConn "rid" 3%N example_gateway)).1
  = {["rid"%string := 3%N]}.
Proof.
  destruct (calls_keep_to_their_tables (L := WireFormat.wire_lib)
    (HttpRequested example_world false None (Ok example_raw) (example_client_request "/v1/abcdefghij_key/x"))
    (set_clientSocketConn "rid" 3%N example_gateway)) as [H _].
  refine (eq_trans (H ClientSocketConns _) _); [cbn; set_solver|reflexivity].
Defined.

Example sessions_never_freed_witness : exists rid,
  is_Some (clientSocketConns (node_after (L := WireFormat.wire_lib) elements example_events
    (state_of (StartSocketForwardService (L := WireFormat.wire_lib) world_a 1000 10%N init_source example_gateway)))
    !! rid).
Proof.
  destruct (StartSocketForwardService (L := WireFormat.wire_lib) world_a 1000 10%N init_source example_gateway)
    as [[o n'] es] eqn:E.
  destruct (sessions_never_freed (L := WireFormat.wire_lib) elements example_events world_a example_gateway n' es)
    as (_&_&H&_).
  exists rid_a. refine (H 1000 10%N init_source rid_a 12%N (mkSource [] None) _).
  rewrite E. vm_compute in E. injection E as <- _ _. reflexivity.
Defined.
