(* ===== verification/RequestDump.v ===== *)
(** How a client's request becomes the bytes that are sent, and these a request again:
    [DumpRequestToBytes] of [internal/models/request_detail.go] over a model of
    [bufio.Writer], and [RecoverClientRequest] of [internal/models/helper.go]. What
    fasthttp writes for a request, and what it reads, are arguments. *)

From S2P Require Import Prelude Messages NetworkHelper RequestDetail UsageRecord Node World Url ClientGateway ProxyHandlers Pipes.
From S2P Require WireFormat.

(** ** [bufio.Writer] *)

(** A writer into a [bytes.Buffer], which never fails: the bytes it holds back, and
    the buffer. *)
Record bufwriter := mkWriter { size : nat; held : bytes; buffer : bytes }.

Definition NewWriter (buf : bytes) : bufwriter := mkWriter 4096 [] buf.

Definition Flush (b : bufwriter) : bufwriter := mkWriter (size b) [] (buffer b ++ held b).

(** The loop of [Write]: a piece that does not fit is written through when nothing is
    held back; else it fills the writer first, which is flushed. *)
Fixpoint Write_loop (fuel : nat) (p : bytes) (b : bufwriter) : option bufwriter :=
  let available := (size b - length (held b))%nat in
  if decide (available < length p)%nat then
    match fuel with
    | O => None
    | S fuel =>
        match held b with
        | [] => Write_loop fuel [] (mkWriter (size b) [] (buffer b ++ p))
        | _ => Write_loop fuel (drop available p)
                 (Flush (mkWriter (size b) (held b ++ take available p) (buffer b)))
        end
    end
  else Some (mkWriter (size b) (held b ++ p) (buffer b)).

(** Two turns empty the writer and write the rest through. *)
Definition Writer_Write (p : bytes) (b : bufwriter) : bufwriter := default b (Write_loop 2 p b).

(** What [req.Write(w)] does with its writer. *)
Inductive writer_call :=
  | Put (p : bytes)
  | Flushed.

Definition writer_turn (b : bufwriter) (c : writer_call) : bufwriter :=
  match c with Put p => Writer_Write p b | Flushed => Flush b end.

Definition pieces (calls : list writer_call) : bytes :=
  concat (omap (fun c => match c with Put p => Some p | Flushed => None end) calls).

(** A [bytes.Reader] under a new [bufio.Reader]: everything in one piece, then the
    end. *)
Definition bytes_NewReader (raw : bytes) : bufreader :=
  mkBuf [] (mkSource (match raw with [] => [] | _ => [raw] end) (Some io_EOF)).

Section dump.
(** [req.Write]: its calls on the writer, and its error; [httpReq.Read]. *)
Context (req_Write : HttpRequest -> list writer_call * option goerror)
        (req_Read : bufreader -> result HttpRequest).

Definition DumpRequestToBytes (req : HttpRequest) (buf : bytes) : bytes * option goerror :=
  let w := NewWriter buf in
  let '(calls, err) := req_Write req in
  let w := fold_left writer_turn calls w in
  let w := Flush w in
  (buffer w, err).

(** The dump as [StartForwardService] uses it. *)
Definition dumped_request (req : HttpRequest) : result bytes :=
  match DumpRequestToBytes req [] with
  | (rawReq, None) => Ok rawReq
  | (_, Some err) => Fail err
  end.

Definition RecoverClientRequest (svrReq : ApronServiceRequest) : result HttpRequest :=
  req_Read (bytes_NewReader (Request_RawRequest svrReq)).

(** The reading as [ProxyHttpInitRequestHandler] uses it. *)
Definition recovered (raw : bytes) : result HttpRequest := req_Read (bytes_NewReader raw).
End dump.

(** ** Lemmas *)

Definition written_so_far (b : bufwriter) : bytes := buffer b ++ held b.

Lemma Flush_all b : buffer (Flush b) = written_so_far b /\ written_so_far (Flush b) = written_so_far b.
Proof. unfold written_so_far. cbn. by rewrite app_nil_r. Qed.

(** Two turns are enough, and nothing is lost or moved. *)
Lemma Writer_Write_all p b :
  written_so_far (Writer_Write p b) = written_so_far b ++ p /\ size (Writer_Write p b) = size b.
Proof.
  unfold Writer_Write, written_so_far. destruct b as [sz hd bf]. cbn [Write_loop size held buffer].
  case_decide as H1; [|cbn; by rewrite app_assoc].
  destruct hd as [|x hd].
  - cbn. by rewrite !app_nil_r.
  - set (k := (sz - length (x :: hd))%nat) in *. cbn [Write_loop Flush size held buffer].
    case_decide as H2; cbn -[take drop]; rewrite ?decide_False by lia; cbn -[take drop];
      rewrite ?app_nil_r; (split; [|done]); by rewrite <- !app_assoc; cbn -[take drop]; rewrite <- app_assoc, take_drop.
Qed.

Lemma writer_turns calls b :
  written_so_far (fold_left writer_turn calls b) = written_so_far b ++ pieces calls.
Proof.
  revert b. induction calls as [|[p|] calls IH]; intros b; cbn [fold_left writer_turn].
  - by rewrite app_nil_r.
  - rewrite IH, (proj1 (Writer_Write_all p b)). unfold pieces. cbn. by rewrite <- app_assoc.
  - rewrite IH, (proj2 (Flush_all b)). done.
Qed.

(** The dump is what fasthttp has written, whole and in order, whatever the sizes of
    its pieces, and also when it ended with an error. *)
Lemma dump_complete req_Write req buf :
  DumpRequestToBytes req_Write req buf = (buf ++ pieces (req_Write req).1, (req_Write req).2).
Proof.
  unfold DumpRequestToBytes. destruct (req_Write req) as [calls err]. f_equal.
  rewrite (proj1 (Flush_all _)), writer_turns. unfold NewWriter, written_so_far. cbn. by rewrite app_nil_r.
Qed.

(** What a reader will give before it ends. *)
Definition gives (rd : bufreader) (raw : bytes) : Prop :=
  buffered rd ++ concat (chunks (under rd)) = raw /\ term (under rd) = Some io_EOF.

Lemma bytes_reader_gives raw : gives (bytes_NewReader raw) raw.
Proof. split; [|done]. destruct raw; [done|]. cbn. by rewrite app_nil_r. Qed.

(** The one frame that is written for a client's request. *)
Lemma forward_frame {L : ProtoLib} w is_ws upgrade dumped request n r n' es s1 b :
  StartForwardService w is_ws upgrade dumped request n = (Val r, n', es) -> r <> Replied ->
  written_to s1 es = frame b ->
  exists req, Unmarshal b = Ok req /\ Request_IsWsRequest req = is_ws /\ dumped = Ok (Request_RawRequest req).
Proof.
  intros H Hr Hw. destruct (forward_request_inv _ _ _ _ _ _ _ _ _ H Hr)
    as (req&ch&owner&s&b'&e1&e2&Hm&[Hws Hraw]&Hrest&->&He1).
  assert (written_to s1 e1 = [] /\ written_to s1 e2 = []) as [Hw1 Hw2].
  { split; [clear -He1; induction He1 as [|e es (msg&->) _ IH]; [done|exact IH]|]. destruct is_ws.
    - unfold serveWebsocketRequest, open_stream in Hrest.
      destruct (NewStream w owner _), upgrade; run_handler; by simplify_eq.
    - unfold serveHttpRequest_register in Hrest. run_handler. by simplify_eq. }
  rewrite written_to_app, Hw1, written_opened, written_to_app, Hw2, app_nil_r in Hw. cbn [app] in Hw.
  apply written_frame_inv in Hw as [_ ->]. exists req. split_and!; [by apply Unmarshal_Marshal|done..].
Qed.

(** What the service is asked, when its gateway has handled a request. *)
Lemma asked_inv {L : ProtoLib} w http_Read http_Do URI_String ws_Dial b n r n' es :
  ProxyHttpInitRequestHandler w http_Read http_Do URI_String ws_Dial (ToDataCh b) n = (Val r, n', es) ->
  exists req httpReq to, Unmarshal b = Ok req /\ http_Read (Request_RawRequest req) = Ok httpReq /\
    to_client to = httpReq /\ to_args to = req_QueryArgs httpReq /\
    if Request_IsWsRequest req then exists c, Dialed (URI_String to) c ∈ es
    else HttpDo (to_uri to) (to_args to) (to_client to) ∈ es.
Proof.
  unfold ProxyHttpInitRequestHandler. destruct (Unmarshal b) as [req|]; [|done]. cbn [must]. rewrite bind_pure.
  destruct (http_Read _) as [httpReq|] eqn:Hread; [|done]. cbn [must]. rewrite bind_pure. cbn zeta.
  destruct (peer_Decode w _) as [p|]; [|done]. cbn [must]. rewrite bind_pure, bind_get.
  intros (built&n1&e1&e2&Hb&H&->)%bind_inv. unfold lift_outcome in Hb. injection Hb as Hb <- <-.
  destruct built as [to|]; [|done]. cbn [must] in H. rewrite bind_pure in H.
  assert (to_client to = httpReq /\ to_args to = req_QueryArgs httpReq) as [Hc Ha].
  { unfold BuildHttpRequestToService in Hb. destruct (Service_Providers _); [done|]. injection Hb as Hb.
    destruct (service_url _ _); cbn in Hb; [|done]. by injection Hb as <-. }
  exists req, httpReq, to. split_and!; [done..|]. cbn [app]. destruct (Request_IsWsRequest req).
  - unfold proxy_ws, open_stream in H. destruct (NewStream w p _) as [s|]; [|done]. run_handler.
    destruct (ws_Dial _) as [c|]; [|done]. run_handler. injection H as _ _ <-. exists c. set_solver.
  - unfold proxy_http, open_stream in H. destruct (NewStream w p _) as [s|]; [|done]. rewrite Hc, Ha in *.
    apply bind_inv in H as (rs&n2&e3&e4&[= <- <- <-]&H&->). cbn [must] in H. rewrite bind_pure in H.
    apply bind_inv in H as ([]&n3&e5&e6&[= <- <-]&H&->). set_solver.
Qed.

(** ** Properties *)

(** C17: the request that the service is asked is the one that its client has made. When
    what fasthttp writes for a request, from any reader that gives it, is read as
    [sent] of the request, then the one frame that the gateway of the client writes
    for a request decodes to an [ApronServiceRequest] from which
    [RecoverClientRequest] gives exactly that; and when the gateway of the service
    has handled the frame, it has asked the service for it: over HTTP or, when the
    client asked for a WebSocket, by dialling one, with the client's own query.
    No piece is lost in a buffer, whatever the sizes in which fasthttp writes. *)
Theorem request_recovered {L : ProtoLib} (req_Write : HttpRequest -> list writer_call * option goerror)
    (req_Read : bufreader -> result HttpRequest) (sent : HttpRequest -> HttpRequest)
    (w1 w2 : World) (is_ws : bool) (upgrade : option goerror) (request : HttpRequest) (n1 n1' n2 n2' : Node)
    (waiting : forwarded) (es1 es2 : list effect) (s1 : conn) (b : bytes)
    (http_Do : ServiceRequest -> result bytes) (URI_String : ServiceRequest -> string)
    (ws_Dial : string -> result conn) (r : proxied)
    (Hlib : forall req calls rd, req_Write req = (calls, None) -> gives rd (pieces calls) -> req_Read rd = Ok (sent req))
    (Hforward : StartForwardService w1 is_ws upgrade (dumped_request req_Write request) request n1
                = (Val waiting, n1', es1))
    (Hsent : waiting <> Replied) (Hwritten : written_to s1 es1 = frame b)
    (Hserved : ProxyHttpInitRequestHandler w2 (recovered req_Read) http_Do URI_String ws_Dial (ToDataCh b) n2
               = (Val r, n2', es2)) :
  exists req to, Unmarshal b = Ok req /\ Request_IsWsRequest req = is_ws /\
    RecoverClientRequest req_Read req = Ok (sent request) /\
    to_client to = sent request /\ to_args to = req_QueryArgs (sent request) /\
    if is_ws then exists c, Dialed (URI_String to) c ∈ es2
    else HttpDo (to_uri to) (to_args to) (to_client to) ∈ es2.
Proof.
  destruct (forward_frame _ _ _ _ _ _ _ _ _ _ _ Hforward Hsent Hwritten) as (req&Hb&Hws&Hraw).
  destruct (asked_inv _ _ _ _ _ _ _ _ _ _ Hserved) as (req'&httpReq&to&Hb'&Hread&Hto&Hargs&Hasked).
  rewrite Hb in Hb'. injection Hb' as <-.
  unfold dumped_request in Hraw. rewrite dump_complete in Hraw.
  destruct (req_Write request) as [calls [err|]] eqn:Hcalls; [done|]. cbn in Hraw. injection Hraw as Hraw.
  assert (RecoverClientRequest req_Read req = Ok (sent request)) as Hrec.
  { apply (Hlib request calls); [done|]. rewrite <- Hraw. apply bytes_reader_gives. }
  unfold recovered in Hread. unfold RecoverClientRequest in Hrec. rewrite Hrec in Hread. injection Hread as <-.
  rewrite Hws in Hasked. exists req, to. by split_and!.
Qed.

(** A plain writer and reader, for the example: the path of the request, cut in two
    with a flush between. *)
Definition example_Write (req : HttpRequest) : list writer_call * option goerror :=
  ([Put (take 3 (req_Path req)); Flushed; Put (drop 3 (req_Path req))], None).
Definition example_Read (rd : bufreader) : result HttpRequest :=
  Ok (example_client_request (bytes_str (buffered rd ++ concat (chunks (under rd))))).

Definition example_dumped : ApronServiceRequest :=
  mkServiceRequest "abcdefghij" "_key.abcdefghij.uuid" "QmSelf" false (str_bytes "/v1/abcdefghij_key/x").

Example request_recovered_witness :
  RecoverClientRequest example_Read example_dumped = Ok (example_client_request "/v1/abcdefghij_key/x") /\
  exists to, HttpDo (to_uri to) [] (example_client_request "/v1/abcdefghij_key/x") ∈
    effects_of (ProxyHttpInitRequestHandler (L := WireFormat.wire_lib) example_world (recovered example_Read)
      (fun _ => Ok (str_bytes "answer")) to_uri (fun _ => Ok 4%N)
      (ToDataCh (WireFormat.encoded example_dumped)) example_service_side).
Proof.
  set (request := example_client_request "/v1/abcdefghij_key/x").
  destruct (StartForwardService (L := WireFormat.wire_lib) example_world false None
    (dumped_request example_Write request) request example_gateway) as [[o1 n1'] es1] eqn:E1.
  destruct (ProxyHttpInitRequestHandler (L := WireFormat.wire_lib) example_world (recovered example_Read)
    (fun _ => Ok (str_bytes "answer")) to_uri (fun _ => Ok 4%N)
    (ToDataCh (WireFormat.encoded example_dumped)) example_service_side) as [[o2 n2'] es2] eqn:E2.
  assert (o1 = Val (HttpWaiting example_dumped 1%N)) as -> by (vm_compute in E1; injection E1 as <- _ _; reflexivity).
  assert (o2 = Val Answered) as -> by (vm_compute in E2; injection E2 as <- _ _; reflexivity).
  destruct (request_recovered (L := WireFormat.wire_lib) example_Write example_Read
    (fun req => example_client_request (bytes_str (req_Path req))) example_world example_world false None request
    example_gateway n1' example_service_side n2' (HttpWaiting example_dumped 1%N) es1 es2 7%N
    (WireFormat.encoded example_dumped) (fun _ => Ok (str_bytes "answer")) to_uri (fun _ => Ok 4%N) Answered)
    as (req&to&Hb&_&Hrec&Hto&Hargs&Hdo).
  - intros req calls rd [= <-] [Hg _]. unfold example_Read. rewrite Hg. cbn.
    by rewrite app_nil_r, take_drop.
  - exact E1.
  - discriminate.
  - transitivity (written_to 7 (effects_of (Val (HttpWaiting example_dumped 1%N), n1', es1)));
      [reflexivity|]. rewrite <- E1. vm_compute. reflexivity.
  - exact E2.
  - assert (req = example_dumped) as -> by (vm_compute in Hb; injection Hb as <-; reflexivity).
    split; [exact Hrec|]. exists to. rewrite Hto, Hargs in Hdo. exact Hdo.
Defined.
