(* ===== verification/WebSocket.v ===== *)
(** A WebSocket session end to end: it is set up through both gateways, and then
    carries messages both ways. *)

From S2P Require Import Prelude Messages NetworkHelper RequestDetail UsageRecord Node World Url ClientGateway ProxyHandlers Exchange Tunnel.
From S2P Require WireFormat.

(** ** Lemmas *)

Section session.
Context {L : ProtoLib} (maxAlloc : Z) (Hmax : maxAlloc < 2 ^ 64).

(** Data messages of one session, from the chunks of their stream to the WebSocket
    at its end. *)
Lemma ws_stream_delivered w protocol n rid c gs ms bs t :
  aligned gs bs -> fits maxAlloc bs ->
  Forall2 (fun m b => Marshal (mkServiceData rid m) = Ok b) ms bs ->
  ws_target protocol n rid = Some c -> (forall p, WriteMessage w c p = None) ->
  ProxyWsDataHandler w protocol
    (ReadBytesViaStream maxAlloc (length bs) (RawReader (mkSource (concat gs) t))) n
  = (Val tt, n, WsMessage c <$> ms).
Proof.
  intros Hgs Hfit Hms Hc Hacc.
  rewrite (ReadBytesViaStream_aligned maxAlloc Hmax gs bs _ []) by (done || by rewrite app_nil_r).
  rewrite <- (app_nil_r (_ <$> bs)).
  erewrite ProxyWsDataHandler_ok by eauto using data_decoded.
  cbn. by rewrite app_nil_r.
Qed.
End session.

(** ** Properties *)

(** C12: a WebSocket session is set up and is transparent, message by message, in
    both directions. The client's request reaches the owner of the service, which
    dials the service at the address of the request and files the connection
    under the request id; the client's connection is filed under the same id on
    its own side. From then on every message of the client arrives at the
    service's connection, and every message of the service at the client's, in
    order, none split or joined, as a text message with its bytes, as long as no
    chunk on the streams between the gateways crosses a frame's end ([aligned]: of
    two messages in one chunk the second is lost,
    [NetworkHelper.frames_lost_raw]). *)
Theorem ws_session_transparent {L : ProtoLib} (w1 w2 : World) (maxAlloc : Z)
    (http_Read : bytes -> result HttpRequest) (http_Do : ServiceRequest -> result bytes)
    (URI_String : ServiceRequest -> string) (ws_Dial : string -> result conn)
    (raw : bytes) (request : HttpRequest) (d : RequestDetail)
    (n1 n2 : Node) (owner peer : peer_ID) (service1 service2 : ApronService)
    (provider : option ApronServiceProvider) (more : list (option ApronServiceProvider))
    (s1 up down cl sv : conn) (reqBytes : bytes) (uri : string)
    (ups upBytes downs downBytes : list bytes) (gs1 gsUp gsDown : list (list bytes))
    (t1 tUp tDown : option goerror)
    (name := bytes_str (ServiceName d))
    (rid := build_request_id (bytes_str (UserKey d)) name (uuid_New w1))
    (req := mkServiceRequest name rid (host_ID w1) true raw)
    (to := mkToService uri (req_QueryArgs request) request)
    (Hmax : maxAlloc < 2 ^ 64)
    (* the client side *)
    (Hn1 : registry_ok n1)
    (Hdetail : ExtractRequestDetailFromFasthttpRequest request = (d, None))
    (Hservice1 : directory n1 !! name = Some (owner, service1))
    (Hproviders1 : Service_Providers service1 <> [])
    (Hopen1 : NewStream w1 owner ProxyHttpInitReq = Ok s1) (Hs1 : accepts w1 s1)
    (Hopen_up : NewStream w1 owner ProxyWsDataFromClientSide = Ok up) (Hup : accepts w1 up)
    (Hcl : forall p, WriteMessage w1 cl p = None)
    (Hreq : Marshal req = Ok reqBytes) (Hfit1 : fits maxAlloc [reqBytes])
    (Hstream1 : aligned gs1 [reqBytes])
    (* the service side *)
    (Hread : http_Read raw = Ok request) (Hpeer : peer_Decode w2 (host_ID w1) = Ok peer)
    (Hservice2 : services n2 !! name = Some service2)
    (Hproviders2 : Service_Providers service2 = provider :: more)
    (Huri : service_url (ApronServiceProvider_GetSchema provider +:+ "://" +:+
                         ApronServiceProvider_GetBaseUrl provider) (ProxyRequestPath d) = Ok uri)
    (Hopen_down : NewStream w2 peer ProxyWsDataFromServiceSide = Ok down) (Hdown : accepts w2 down)
    (Hdial : ws_Dial (URI_String to) = Ok sv) (Hsv : forall p, WriteMessage w2 sv p = None)
    (* the messages *)
    (Hups : Forall2 (fun m b => Marshal (mkServiceData rid m) = Ok b) ups upBytes)
    (Hdowns : Forall2 (fun m b => Marshal (mkServiceData rid m) = Ok b) downs downBytes)
    (Hfit_up : fits maxAlloc upBytes) (Hfit_down : fits maxAlloc downBytes)
    (Hstream_up : aligned gsUp upBytes) (Hstream_down : aligned gsDown downBytes) :
  exists n1' n1'' n2' es1 es2 esUp esDown item,
    (* the session is set up *)
    StartForwardService w1 true None (Ok raw) request n1 = (Val (WsServing req (Some up)), n1', es1) /\
    ws_upgraded req cl n1' = (Val tt, n1'', []) /\
    concat (concat gs1) = written_to s1 es1 /\
    ReadBytesViaStream maxAlloc 1 (RawReader (mkSource (concat gs1) t1)) = [item] /\
    ProxyHttpInitRequestHandler w2 http_Read http_Do URI_String ws_Dial item n2
    = (Val (WsProxying rid down sv), n2', es2) /\
    Dialed (URI_String to) sv ∈ es2 /\
    (* from the client to the service *)
    ws_forward w1 req (Some up) (Ok <$> ups) n1'' = (Val tt, n1'', esUp) /\
    concat (concat gsUp) = written_to up esUp /\
    ProxyWsDataHandler w2 ProxyWsDataFromClientSide
      (ReadBytesViaStream maxAlloc (length upBytes) (RawReader (mkSource (concat gsUp) tUp))) n2'
    = (Val tt, n2', WsMessage sv <$> ups) /\
    (* and back *)
    forward_to_client w2 rid (Some down) (Ok <$> downs) n2' = (Val tt, n2', esDown) /\
    concat (concat gsDown) = written_to down esDown /\
    ProxyWsDataHandler w1 ProxyWsDataFromServiceSide
      (ReadBytesViaStream maxAlloc (length downBytes) (RawReader (mkSource (concat gsDown) tDown))) n1''
    = (Val tt, n1'', WsMessage cl <$> downs).
Proof.
  eexists _, (set_clientWsConn rid cl _), (set_serviceWsConn rid sv n2), _, _, _, _, (ToDataCh reqBytes).
  split_and!.
  - erewrite forward_sent by eauto. unfold serveWebsocketRequest. fold name rid req.
    erewrite bind_val by (by apply open_stream_ok). reflexivity.
  - reflexivity.
  - cbn [fst snd]. rewrite (aligned_bytes gs1 [reqBytes]) by done.
    symmetry. rewrite <- (written_frames s1 [reqBytes]). cbn. by rewrite !app_nil_r.
  - by apply (ReadBytesViaStream_aligned maxAlloc Hmax gs1 [reqBytes] (mkSource (concat gs1) t1) []);
      [cbn; rewrite app_nil_r|..].
  - eapply (ws_init_ok w2 http_Read http_Do URI_String ws_Dial n2 reqBytes req); try done.
    + by apply Unmarshal_Marshal.
    + rewrite Hdetail. exact Huri.
  - set_solver.
  - rewrite <- (app_nil_r (Ok <$> ups)). erewrite ws_forward_ok by eauto. reflexivity.
  - cbn [snd ws_forward]. unfold mret, M_ret. cbn [snd].
    by rewrite app_nil_r, written_frames, (aligned_bytes gsUp upBytes).
  - eapply ws_stream_delivered; try done. unfold ws_target. rewrite decide_True by done.
    apply lookup_insert_eq.
  - rewrite <- (app_nil_r (Ok <$> downs)). erewrite forward_to_client_ok by eauto. reflexivity.
  - cbn [snd forward_to_client]. unfold mret, M_ret. cbn [snd].
    by rewrite app_nil_r, written_frames, (aligned_bytes gsDown downBytes).
  - eapply ws_stream_delivered; try done. unfold ws_target. rewrite decide_False, decide_True by done.
    apply lookup_insert_eq.
Qed.

Definition example_ws_req : ApronServiceRequest :=
  mkServiceRequest "abcdefghij" example_rid "QmSelf" true example_raw.
Definition example_ws_bytes : bytes := WireFormat.encoded example_ws_req.
Definition example_message : bytes := WireFormat.encoded (mkServiceData example_rid (str_bytes "hi")).

Example ws_session_transparent_witness : exists n1' n2' es1,
  StartForwardService (L := WireFormat.wire_lib) example_world true None (Ok example_raw)
    (example_client_request "/v1/abcdefghij_key/x") example_gateway
  = (Val (WsServing example_ws_req (Some 7%N)), n1', es1) /\
  ProxyWsDataHandler (L := WireFormat.wire_lib) example_world ProxyWsDataFromClientSide
    (ReadBytesViaStream 1000 1 (RawReader (mkSource [frame example_message] None))) n2'
  = (Val tt, n2', [WsMessage 4%N (str_bytes "hi")]).
Proof.
  destruct (ws_session_transparent (L := WireFormat.wire_lib) example_world example_world 1000
    (fun raw => Ok (example_client_request (bytes_str raw))) example_do to_uri (fun _ => Ok 4%N)
    example_raw (example_client_request "/v1/abcdefghij_key/x")
    (ExtractRequestDetailFromFasthttpRequest (example_client_request "/v1/abcdefghij_key/x")).1
    example_gateway example_service_side "peer" "QmSelf"
    (default zero_ApronService (services example_gateway !! "abcdefghij"%string))
    (default zero_ApronService (services example_service_side !! "abcdefghij"%string))
    (Some (mkProvider "p" "" "" 0 0 "" "localhost:8080" "http" NetworkType_Tcp4)) []
    7%N 7%N 7%N 3%N 4%N example_ws_bytes "http://localhost:8080/x"
    [str_bytes "hi"] [example_message] [] [] [[frame example_ws_bytes]] [[frame example_message]] []
    None None None)
    as (n1'&n1''&n2'&es1&es2&esUp&esDown&item&E1&_&_&_&_&_&_&_&E&_).
  - lia.
  - apply example_gateway_ok.
  - vm_compute. reflexivity.
  - vm_compute. reflexivity.
  - vm_compute. discriminate.
  - reflexivity.
  - intros p. reflexivity.
  - reflexivity.
  - intros p. reflexivity.
  - intros p. reflexivity.
  - vm_compute. reflexivity.
  - constructor; [|constructor]. apply (bool_decide_unpack _). vm_compute. exact I.
  - constructor; [|constructor]. split; [reflexivity|]. constructor; [discriminate|constructor].
  - vm_compute. reflexivity.
  - reflexivity.
  - vm_compute. reflexivity.
  - vm_compute. reflexivity.
  - vm_compute. reflexivity.
  - reflexivity.
  - intros p. reflexivity.
  - reflexivity.
  - intros p. reflexivity.
  - constructor; [vm_compute; reflexivity|constructor].
  - constructor.
  - constructor; [|constructor]. apply (bool_decide_unpack _). vm_compute. exact I.
  - constructor.
  - constructor; [|constructor]. split; [reflexivity|]. constructor; [discriminate|constructor].
  - constructor.
  - exists n1', n2', es1. split; [exact E1|exact E].
Defined.
