(* ===== verification/WsSessions.v ===== *)
(** All the WebSocket sessions between two gateways, as they run at the same time: the
    counterpart of [Sessions] for [csgw_http.go] and the WebSocket handlers of
    [node_proxy_handler.go]. Messages keep their boundaries here, and the order in
    which a session comes up is another one: the client's connection is filed when
    its upgrade has been answered, which is after the request has been sent. The calls of [Gateway] that are none of the
    sessions' own are steps beside them ([ws_bystander_near], [ws_bystander_far]). *)

From stdpp Require Import relations.
From S2P Require Import Prelude Messages NetworkHelper RequestDetail UsageRecord Node World Url ClientGateway ProxyHandlers Exchange Tunnel Pipes WebSocket Report Locking Management Gateway.
From S2P Require WireFormat.

(** ** The state *)

(** [near] is the side of the client, [far] that of the service. *)
Record ws_session := mkWsSession {
  ws_req : ApronServiceRequest;
  up_stream : option conn;      (* near: the data stream to the owner *)
  client : option conn;         (* near: the client's connection, once upgraded *)
  initial : option bytes;       (* the request, while it is under way *)
  service : option conn;        (* far: the connection to the service *)
  down_stream : option conn;    (* far: the data stream back *)
  up : pipe;
  down : pipe
}.

Record ws_tunnel := mkWsTunnel {
  near : Node;
  far : Node;
  near_log : list effect;
  far_log : list effect;
  sessions : gmap string ws_session
}.

Definition ws_start (n1 n2 : Node) : ws_tunnel := mkWsTunnel n1 n2 [] [] ∅.

Definition opened (req : ApronServiceRequest) (stream : option conn) (b : bytes) : ws_session :=
  mkWsSession req stream None (Some b) None None no_pipe no_pipe.
Definition upgraded (c : conn) (s : ws_session) : ws_session :=
  mkWsSession (ws_req s) (up_stream s) (Some c) (initial s) (service s) (down_stream s) (up s) (down s).
Definition connected (c d : conn) (s : ws_session) : ws_session :=
  mkWsSession (ws_req s) (up_stream s) (client s) None (Some c) (Some d) (up s) (down s).
Definition set_up (p : pipe) (s : ws_session) : ws_session :=
  mkWsSession (ws_req s) (up_stream s) (client s) (initial s) (service s) (down_stream s) p (down s).
Definition set_down (p : pipe) (s : ws_session) : ws_session :=
  mkWsSession (ws_req s) (up_stream s) (client s) (initial s) (service s) (down_stream s) (up s) p.

Definition near_conns (s : ws_session) : list conn := option_list (client s).
Definition far_conns (s : ws_session) : list conn := option_list (service s).

Definition near_step (n' : Node) (es : list effect) (ss : gmap string ws_session) (t : ws_tunnel) : ws_tunnel :=
  mkWsTunnel n' (far t) (near_log t ++ es) (far_log t) ss.
Definition far_step (n' : Node) (es : list effect) (ss : gmap string ws_session) (t : ws_tunnel) : ws_tunnel :=
  mkWsTunnel (near t) n' (near_log t) (far_log t ++ es) ss.

(** The messages that a WebSocket has been given, and those of an end of a session
    that may not be there yet. *)
Definition message_to (c : conn) (e : effect) : option bytes :=
  match e with
  | WsMessage c' b => if decide (c' = c) then Some b else None
  | _ => None
  end.

Definition messages_to (c : conn) (es : list effect) : list bytes := omap (message_to c) es.
#[global] Arguments messages_to : simpl never.

Definition heard (end_ : option conn) (log : list effect) : list bytes :=
  match end_ with Some c => messages_to c log | None => [] end.

(** A connection that was given no message and is no session's. *)
Definition fresh_at (conns : ws_session -> list conn) (log : list effect) (t : ws_tunnel) (c : conn) : Prop :=
  messages_to c log = [] /\ forall rid s, sessions t !! rid = Some s -> c ∉ conns s.

(** ** The steps

    Every step has a world of its own. The system gives new connections numbers of
    their own, and a uuid is a new one. *)

Section steps.
Context {L : ProtoLib}.

Inductive ws_step : ws_tunnel -> ws_tunnel -> Prop :=
  (** a client's request is sent on *)
  | w_request t w upgrade dumped request req stream n' es s1 b :
      StartForwardService w true upgrade dumped request (near t) = (Val (WsServing req stream), n', es) ->
      sessions t !! Request_RequestId req = None ->
      clientWsConns (near t) !! Request_RequestId req = None ->
      serviceWsConns (far t) !! Request_RequestId req = None ->
      written_to s1 es = frame b ->
      ws_step t (near_step n' es (<[Request_RequestId req := opened req stream b]> (sessions t)) t)
  (** the client's connection has been upgraded *)
  | w_upgrade t rid s c n' es :
      sessions t !! rid = Some s -> client s = None -> fresh_at near_conns (near_log t) t c ->
      ws_upgraded (ws_req s) c (near t) = (Val tt, n', es) ->
      ws_step t (near_step n' es (<[rid := upgraded c s]> (sessions t)) t)
  (** the request is handled: the service is dialled *)
  | w_connect t w http_Read http_Do URI_String ws_Dial rid s b rid' d c n' es :
      sessions t !! rid = Some s -> initial s = Some b ->
      ProxyHttpInitRequestHandler w http_Read http_Do URI_String ws_Dial (ToDataCh b) (far t)
        = (Val (WsProxying rid' d c), n', es) ->
      fresh_at far_conns (far_log t) t c ->
      ws_step t (far_step n' es (<[rid := connected c d s]> (sessions t)) t)
  (** one message of the client *)
  | w_say t w rid s u msg n' es b :
      sessions t !! rid = Some s -> is_Some (client s) -> up_stream s = Some u ->
      ws_forward w (ws_req s) (Some u) [Ok msg] (near t) = (Val tt, n', es) ->
      written_to u es = frame b ->
      ws_step t (near_step n' es (<[rid := set_up (push msg b (up s)) s]> (sessions t)) t)
  | w_deliver t w rid s b rest n' es :
      sessions t !! rid = Some s -> queue (up s) = b :: rest ->
      ws_data_turn w ProxyWsDataFromClientSide (ToDataCh b) (far t) = (Val tt, n', es) ->
      ws_step t (far_step n' es (<[rid := set_up (pop (up s)) s]> (sessions t)) t)
  (** one message of the service *)
  | w_answer t w rid s d msg n' es b :
      sessions t !! rid = Some s -> down_stream s = Some d ->
      forward_to_client w rid (Some d) [Ok msg] (far t) = (Val tt, n', es) ->
      written_to d es = frame b ->
      ws_step t (far_step n' es (<[rid := set_down (push msg b (down s)) s]> (sessions t)) t)
  | w_return t w rid s b rest n' es :
      sessions t !! rid = Some s -> queue (down s) = b :: rest ->
      ws_data_turn w ProxyWsDataFromServiceSide (ToDataCh b) (near t) = (Val tt, n', es) ->
      ws_step t (near_step n' es (<[rid := set_down (pop (down s)) s]> (sessions t)) t)
  (** anything else that a gateway does: it leaves the sessions' entries and
      connections alone *)
  | w_near t n' es :
      (forall rid s, sessions t !! rid = Some s ->
         clientWsConns n' !! rid = clientWsConns (near t) !! rid /\ heard (client s) es = []) ->
      ws_step t (near_step n' es (sessions t) t)
  | w_far t n' es :
      (forall rid s, sessions t !! rid = Some s ->
         serviceWsConns n' !! rid = serviceWsConns (far t) !! rid /\ heard (service s) es = []) ->
      ws_step t (far_step n' es (sessions t) t).
End steps.

(** ** What reaches a WebSocket *)

Lemma messages_to_app c es es' : messages_to c (es ++ es') = messages_to c es ++ messages_to c es'.
Proof. apply omap_app. Qed.

Lemma heard_app e es es' : heard e (es ++ es') = heard e es ++ heard e es'.
Proof. destruct e as [c|]; [apply messages_to_app|done]. Qed.

Lemma messages_to_own c b : messages_to c [WsMessage c b] = [b].
Proof. unfold messages_to. cbn. by rewrite decide_True. Qed.

Lemma messages_to_other c c' b : c <> c' -> messages_to c [WsMessage c' b] = [].
Proof. intros H. unfold messages_to. cbn. by rewrite decide_False by done. Qed.

(** Effects that are no message to a WebSocket. *)
Definition quiet (es : list effect) : Prop := Forall (fun e => forall c, message_to c e = None) es.

Lemma quiet_heard es : quiet es -> forall e, heard e es = [].
Proof. intros H [c|]; [|done]. unfold heard, messages_to. induction H as [|e es He _ IH]; [done|]. cbn. by rewrite He. Qed.

Lemma quiet_frame c b : quiet (frame_writes c b).
Proof. by repeat constructor. Qed.

Lemma quiet_app es es' : quiet es -> quiet es' -> quiet (es ++ es').
Proof. apply Forall_app_2. Qed.

(** ** What the handlers did when they return *)

Section inversion.
Context {L : ProtoLib} (w : World).

Lemma request_inv upgrade dumped request n req stream n' es s1 b :
  StartForwardService w true upgrade dumped request n = (Val (WsServing req stream), n', es) ->
  written_to s1 es = frame b ->
  Marshal req = Ok b /\ quiet es /\ clientWsConns n' = clientWsConns n.
Proof.
  intros H Hw. destruct (forward_request_inv _ _ _ _ _ _ _ _ _ H)
    as (req'&ch&owner&s&b'&e1&e2&Hm&_&Hrest&->&He1); [done|].
  unfold serveWebsocketRequest in Hrest.
  apply bind_inv in Hrest as (r&n1&e3&e4&Hopen&Hrest&->).
  apply bind_inv in Hrest as ([]&n2&e5&e6&Hcheck&[= <- <- <- <-]&->).
  assert (n1 = set_requestIdChan (Request_RequestId req') ch n /\ quiet e3 /\ written_to s1 e3 = []) as (->&Hq3&Hw3).
  { unfold open_stream in Hopen. destruct (NewStream w owner ProxyWsDataFromClientSide);
      cbn in Hopen; injection Hopen as _ <- <-; by repeat constructor. }
  destruct upgrade; [done|]. cbn in Hcheck. injection Hcheck as <- <-. cbn.
  assert (written_to s1 e1 = []) as Hw1.
  { clear -He1. induction He1 as [|e es (msg&->) _ IH]; [done|]. exact IH. }
  rewrite written_to_app, Hw1 in Hw. cbn [app] in Hw. rewrite written_opened, !written_to_app, Hw3 in Hw.
  change (written_to s1 []) with (@nil ascii) in Hw. rewrite !app_nil_r in Hw.
  apply written_frame_inv in Hw as [_ ->]. split_and!; [done| |done].
  apply quiet_app; [|constructor; [done|]; repeat apply quiet_app; auto using quiet_frame; by repeat constructor].
  eapply Forall_impl; [exact He1|]. by intros e (msg&->).
Qed.

Lemma say_inv req u msg n n' es :
  ws_forward w req (Some u) [Ok msg] n = (Val tt, n', es) ->
  exists b, Marshal (mkServiceData (Request_RequestId req) msg) = Ok b /\ n' = n /\ es = frame_writes u b.
Proof.
  cbn [ws_forward]. rewrite bind_pure. intros (b&n1&e1&e2&Hb&H&->)%bind_inv.
  destruct (Marshal _) as [b0|]; [|done]. cbn in Hb. injection Hb as <- <- <-. exists b0.
  apply bind_inv in H as ([]&n2&e3&e4&H&H0&->).
  apply write_inv in H as (?&[= <-]&->&->). cbn in H0. injection H0 as <- <-.
  by rewrite app_nil_r.
Qed.

Lemma ws_data_turn_inv protocol b n n' es :
  ws_data_turn w protocol (ToDataCh b) n = (Val tt, n', es) ->
  exists d c, Unmarshal b = Ok d /\ ws_target protocol n (Data_RequestId d) = Some c /\
    n' = n /\ es = [WsMessage c (Data_RawData d)].
Proof.
  unfold ws_data_turn, ws_target. intros (d&n1&e1&e2&Hd&H&->)%bind_inv.
  destruct (Unmarshal b) as [d0|]; [|done]. cbn in Hd. injection Hd as <- <- <-.
  rewrite bind_get in H. exists d0. cbn [app].
  repeat case_decide; [..|done]; unfold ws_WriteMessage in H;
    (destruct (_ !! _) as [c|]; [|done]); destruct (WriteMessage w c _); run_handler; try done;
    injection H as <- <-; by exists c.
Qed.

Lemma connect_inv http_Read http_Do URI_String ws_Dial b n rid d c n' es :
  ProxyHttpInitRequestHandler w http_Read http_Do URI_String ws_Dial (ToDataCh b) n
    = (Val (WsProxying rid d c), n', es) ->
  exists req, Unmarshal b = Ok req /\ Request_RequestId req = rid /\ n' = set_serviceWsConn rid c n /\ quiet es.
Proof.
  unfold ProxyHttpInitRequestHandler. destruct (Unmarshal b) as [req|]; [|done]. cbn [must]. rewrite bind_pure.
  destruct (http_Read _) as [httpReq|]; [|done]. cbn [must]. rewrite bind_pure. cbn zeta.
  destruct (peer_Decode w _) as [p|]; [|done]. cbn [must]. rewrite bind_pure, bind_get.
  intros (built&n1&e1&e2&Hb&H&->)%bind_inv. unfold lift_outcome in Hb. injection Hb as _ <- <-.
  destruct built as [to|]; [|done]. cbn [must] in H. rewrite bind_pure in H. exists req.
  destruct (Request_IsWsRequest req).
  - unfold proxy_ws, open_stream in H. destruct (NewStream w p _) as [s|]; [|done]. run_handler.
    destruct (ws_Dial _) as [c0|]; [|done]. run_handler. injection H as <- <- <- <- <-.
    split_and!; [done..|]. by repeat constructor.
  - exfalso. unfold proxy_http in H. apply bind_inv in H as (?&?&?&?&_&H&_).
    repeat (apply bind_inv in H as (?&?&?&?&_&H&_)). done.
Qed.
End inversion.

(** ** The invariant *)

Section invariant.
Context {L : ProtoLib}.
Implicit Types (t : ws_tunnel) (s : ws_session).

(** What one session must satisfy by itself. *)
Record session_ok (t : ws_tunnel) (rid : string) (s : ws_session) : Prop := {
  s_req : Request_RequestId (ws_req s) = rid;
  s_client : clientWsConns (near t) !! rid = client s;
  s_service : serviceWsConns (far t) !! rid = service s;
  s_initial b : initial s = Some b ->
    service s = None /\ exists req, Unmarshal b = Ok req /\ Request_RequestId req = rid;
  s_up : delivered rid (heard (service s) (far_log t)) (up s);
  s_down : delivered rid (heard (client s) (near_log t)) (down s)
}.

Record ws_ok (t : ws_tunnel) : Prop := {
  ok_near : apart near_conns (sessions t);
  ok_far : apart far_conns (sessions t);
  ok_session rid s : sessions t !! rid = Some s -> session_ok t rid s
}.

(** The others are left alone. *)
Lemma ws_near_others t n' es ss rid s :
  session_ok t rid s -> clientWsConns n' !! rid = clientWsConns (near t) !! rid ->
  heard (client s) es = [] -> session_ok (near_step n' es ss t) rid s.
Proof.
  intros [H1 H2 H3 H4 H5 H6] Hn Hes. split; [done|by cbn; rewrite Hn|done|done|done|].
  cbn. by rewrite heard_app, Hes, app_nil_r.
Qed.

Lemma ws_far_others t n' es ss rid s :
  session_ok t rid s -> serviceWsConns n' !! rid = serviceWsConns (far t) !! rid ->
  heard (service s) es = [] -> session_ok (far_step n' es ss t) rid s.
Proof.
  intros [H1 H2 H3 H4 H5 H6] Hn Hes. split; [done|done|by cbn; rewrite Hn|done| |done].
  cbn. by rewrite heard_app, Hes, app_nil_r.
Qed.

(** One session's step, on either side. *)
Lemma ws_near_update t n' es rid s' :
  ws_ok t -> apart near_conns (<[rid := s']> (sessions t)) -> apart far_conns (<[rid := s']> (sessions t)) ->
  (forall r s, sessions t !! r = Some s -> r <> rid ->
     clientWsConns n' !! r = clientWsConns (near t) !! r /\ heard (client s) es = []) ->
  session_ok (near_step n' es (<[rid := s']> (sessions t)) t) rid s' ->
  ws_ok (near_step n' es (<[rid := s']> (sessions t)) t).
Proof.
  intros Hok Hnear Hfar Hothers Hs'. split; [done..|]. cbn.
  intros r s [[<- <-]|[Hne Hs]]%lookup_insert_Some; [done|].
  destruct (Hothers r s Hs) as [Hn Hes]; [done|]. apply ws_near_others; [by apply ok_session|done..].
Qed.

Lemma ws_far_update t n' es rid s' :
  ws_ok t -> apart near_conns (<[rid := s']> (sessions t)) -> apart far_conns (<[rid := s']> (sessions t)) ->
  (forall r s, sessions t !! r = Some s -> r <> rid ->
     serviceWsConns n' !! r = serviceWsConns (far t) !! r /\ heard (service s) es = []) ->
  session_ok (far_step n' es (<[rid := s']> (sessions t)) t) rid s' ->
  ws_ok (far_step n' es (<[rid := s']> (sessions t)) t).
Proof.
  intros Hok Hnear Hfar Hothers Hs'. split; [done..|]. cbn.
  intros r s [[<- <-]|[Hne Hs]]%lookup_insert_Some; [done|].
  destruct (Hothers r s Hs) as [Hn Hes]; [done|]. apply ws_far_others; [by apply ok_session|done..].
Qed.

(** A session that stays where it is keeps to its connections. *)
Lemma stays_apart conns t rid s s' :
  sessions t !! rid = Some s -> conns s' = conns s -> apart conns (sessions t) ->
  apart conns (<[rid := s']> (sessions t)).
Proof. intros. by eapply apart_same. Qed.

(** A message to one session's connection is none to another's. *)
Lemma heard_apart conns t rid s c b r x e :
  apart conns (sessions t) -> sessions t !! rid = Some s -> c ∈ conns s ->
  sessions t !! r = Some x -> r <> rid -> option_list e = conns x -> heard e [WsMessage c b] = [].
Proof.
  intros Hap Hs Hc Hx Hne He. destruct e as [c'|]; [|done]. apply messages_to_other.
  eapply apart_ne; [exact Hap|exact Hx|exact Hs|done| |exact Hc]. rewrite <- He. by left.
Qed.

(** A fresh end of a session. *)
Lemma fresh_apart conns t log rid s' c :
  fresh_at conns log t c -> conns s' = [c] -> apart conns (sessions t) ->
  apart conns (<[rid := s']> (sessions t)).
Proof.
  intros [_ Hf] Hc. apply apart_fresh; rewrite Hc; [apply NoDup_singleton|].
  intros x ->%list_elem_of_singleton r y Hr _. by eapply Hf.
Qed.

Lemma ws_request_ok t w upgrade dumped request req stream n' es (s1 : conn) b :
  StartForwardService w true upgrade dumped request (near t) = (Val (WsServing req stream), n', es) ->
  sessions t !! Request_RequestId req = None ->
  clientWsConns (near t) !! Request_RequestId req = None ->
  serviceWsConns (far t) !! Request_RequestId req = None ->
  written_to s1 es = frame b -> ws_ok t ->
  ws_ok (near_step n' es (<[Request_RequestId req := opened req stream b]> (sessions t)) t).
Proof.
  intros Hreq _ Hclient Hservice Hw Hok.
  destruct (request_inv _ _ _ _ _ _ _ _ _ _ _ Hreq Hw) as (Hm&Hq&Hn).
  apply ws_near_update; [done|..].
  1, 2: apply apart_fresh; [constructor|by intros c Hc%not_elem_of_nil|by apply Hok].
  - intros r s _ _. by rewrite Hn, quiet_heard.
  - split; cbn; [done|by rewrite Hn|done| |apply delivered_empty..].
    intros b' [= <-]. split; [done|]. exists req. split; [by apply Unmarshal_Marshal|done].
Qed.

Lemma ws_upgrade_ok t rid s c n' es :
  sessions t !! rid = Some s -> client s = None -> fresh_at near_conns (near_log t) t c ->
  ws_upgraded (ws_req s) c (near t) = (Val tt, n', es) -> ws_ok t ->
  ws_ok (near_step n' es (<[rid := upgraded c s]> (sessions t)) t).
Proof.
  intros Hs Hnone Hfresh [= <- <-] Hok. pose proof (ok_session t Hok rid s Hs) as [H1 H2 H3 H4 H5 H6].
  rewrite H1. apply ws_near_update; [done|by eapply fresh_apart; [..|apply Hok]|by eapply stays_apart, Hok|..].
  - intros r x Hr Hne. cbn. rewrite lookup_insert_ne by done. by destruct (client x).
  - split; cbn; [done|apply lookup_insert_eq|done|done|done|].
    rewrite Hnone in H6. by rewrite app_nil_r, (proj1 Hfresh).
Qed.

Lemma ws_connect_ok t w http_Read http_Do URI_String ws_Dial rid s b rid' d c n' es :
  sessions t !! rid = Some s -> initial s = Some b ->
  ProxyHttpInitRequestHandler w http_Read http_Do URI_String ws_Dial (ToDataCh b) (far t)
    = (Val (WsProxying rid' d c), n', es) ->
  fresh_at far_conns (far_log t) t c -> ws_ok t ->
  ws_ok (far_step n' es (<[rid := connected c d s]> (sessions t)) t).
Proof.
  intros Hs Hinit Hconn Hfresh Hok. pose proof (ok_session t Hok rid s Hs) as [H1 H2 H3 H4 H5 H6].
  destruct (H4 b Hinit) as [Hnone (req&Hb&Hrid)].
  destruct (connect_inv _ _ _ _ _ _ _ _ _ _ _ _ Hconn) as (req'&Hb'&Hrid'&->&Hq).
  rewrite Hb in Hb'. injection Hb' as <-. rewrite Hrid in Hrid'. subst rid'.
  apply ws_far_update; [done|by eapply stays_apart, Hok|by eapply fresh_apart; [..|apply Hok]|..].
  - intros r x Hr Hne. split; [by cbn; rewrite lookup_insert_ne|by apply quiet_heard].
  - split; cbn; [done|done|apply lookup_insert_eq|done| |done].
    rewrite messages_to_app, (proj1 Hfresh), (quiet_heard es Hq (Some c) : messages_to c es = []).
    by rewrite Hnone in H5.
Qed.

Lemma ws_say_ok t w rid s u msg n' es b :
  sessions t !! rid = Some s -> up_stream s = Some u ->
  ws_forward w (ws_req s) (Some u) [Ok msg] (near t) = (Val tt, n', es) ->
  written_to u es = frame b -> ws_ok t ->
  ws_ok (near_step n' es (<[rid := set_up (push msg b (up s)) s]> (sessions t)) t).
Proof.
  intros Hs Hu Hsay Hw Hok. pose proof (ok_session t Hok rid s Hs) as [H1 H2 H3 H4 H5 H6].
  destruct (say_inv _ _ _ _ _ _ _ Hsay) as (b'&Hb&->&->). apply written_frame_inv in Hw as [_ ->].
  rewrite H1 in Hb. apply ws_near_update; [done|by eapply stays_apart, Hok|by eapply stays_apart, Hok|..].
  - intros r x _ _. by rewrite (quiet_heard _ (quiet_frame _ _)).
  - split; cbn; [done|done|done|done|by apply delivered_push|].
    by rewrite heard_app, (quiet_heard _ (quiet_frame _ _)), app_nil_r.
Qed.

Lemma ws_deliver_ok t w rid s b rest n' es :
  sessions t !! rid = Some s -> queue (up s) = b :: rest ->
  ws_data_turn w ProxyWsDataFromClientSide (ToDataCh b) (far t) = (Val tt, n', es) -> ws_ok t ->
  ws_ok (far_step n' es (<[rid := set_up (pop (up s)) s]> (sessions t)) t).
Proof.
  intros Hs Hq Hturn Hok. pose proof (ok_session t Hok rid s Hs) as [H1 H2 H3 H4 H5 H6].
  destruct (ws_data_turn_inv _ _ _ _ _ _ Hturn) as (d&c&Hd&Htarget&->&->).
  destruct (delivered_pop _ _ _ _ _ _ Hq Hd H5) as [Hrid Hpop].
  unfold ws_target in Htarget. rewrite decide_True, Hrid, H3 in Htarget by done.
  apply ws_far_update; [done|by eapply stays_apart, Hok|by eapply stays_apart, Hok|..].
  - intros r x Hr Hne. split; [done|]. eapply (heard_apart far_conns); [by apply Hok|exact Hs| |exact Hr|done|done].
    unfold far_conns. rewrite Htarget. by left.
  - split; cbn; [done..| |done]. rewrite heard_app. rewrite Htarget in Hpop |- *.
    cbn [heard]. by rewrite messages_to_own.
Qed.

Lemma ws_answer_ok t w rid s d msg n' es b :
  sessions t !! rid = Some s -> down_stream s = Some d ->
  forward_to_client w rid (Some d) [Ok msg] (far t) = (Val tt, n', es) ->
  written_to d es = frame b -> ws_ok t ->
  ws_ok (far_step n' es (<[rid := set_down (push msg b (down s)) s]> (sessions t)) t).
Proof.
  intros Hs Hd Hanswer Hw Hok. pose proof (ok_session t Hok rid s Hs) as [H1 H2 H3 H4 H5 H6].
  destruct (forward_answer_inv _ _ _ _ _ _ _ Hanswer) as (b'&Hb&->&->). apply written_frame_inv in Hw as [_ ->].
  apply ws_far_update; [done|by eapply stays_apart, Hok|by eapply stays_apart, Hok|..].
  - intros r x _ _. by rewrite (quiet_heard _ (quiet_frame _ _)).
  - split; cbn; [done..| |by apply delivered_push].
    by rewrite heard_app, (quiet_heard _ (quiet_frame _ _)), app_nil_r.
Qed.

Lemma ws_return_ok t w rid s b rest n' es :
  sessions t !! rid = Some s -> queue (down s) = b :: rest ->
  ws_data_turn w ProxyWsDataFromServiceSide (ToDataCh b) (near t) = (Val tt, n', es) -> ws_ok t ->
  ws_ok (near_step n' es (<[rid := set_down (pop (down s)) s]> (sessions t)) t).
Proof.
  intros Hs Hq Hturn Hok. pose proof (ok_session t Hok rid s Hs) as [H1 H2 H3 H4 H5 H6].
  destruct (ws_data_turn_inv _ _ _ _ _ _ Hturn) as (d&c&Hd&Htarget&->&->).
  destruct (delivered_pop _ _ _ _ _ _ Hq Hd H6) as [Hrid Hpop].
  unfold ws_target in Htarget. rewrite decide_False, decide_True, Hrid, H2 in Htarget by done.
  apply ws_near_update; [done|by eapply stays_apart, Hok|by eapply stays_apart, Hok|..].
  - intros r x Hr Hne. split; [done|]. eapply (heard_apart near_conns); [by apply Hok|exact Hs| |exact Hr|done|done].
    unfold near_conns. rewrite Htarget. by left.
  - split; cbn; [done..|]. rewrite heard_app. rewrite Htarget in Hpop |- *.
    cbn [heard]. by rewrite messages_to_own.
Qed.

Lemma ws_step_ok t t' : ws_ok t -> ws_step t t' -> ws_ok t'.
Proof.
  intros Hok Hstep. revert Hok. destruct Hstep; intros Hok.
  - eapply ws_request_ok; eassumption.
  - eapply ws_upgrade_ok; eassumption.
  - eapply ws_connect_ok; eassumption.
  - eapply ws_say_ok; eassumption.
  - eapply ws_deliver_ok; eassumption.
  - eapply ws_answer_ok; eassumption.
  - eapply ws_return_ok; eassumption.
  - split; cbn; [by apply ok_near|by apply ok_far|]. intros rid s Hs. destruct (H rid s Hs) as [Hn Hes].
    apply ws_near_others; [by apply ok_session|done..].
  - split; cbn; [by apply ok_near|by apply ok_far|]. intros rid s Hs. destruct (H rid s Hs) as [Hn Hes].
    apply ws_far_others; [by apply ok_session|done..].
Qed.

Lemma ws_run_ok n1 n2 t : rtc ws_step (ws_start n1 n2) t -> ws_ok t.
Proof.
  intros H. remember (ws_start n1 n2) as t0 eqn:E. assert (ws_ok t0) as Hok.
  { subst. split; cbn; [apply apart_empty..|]. intros *. by rewrite lookup_empty. }
  clear E. induction H as [|t0 t1 t2 Hstep _ IH]; [done|]. by eapply IH, ws_step_ok.
Qed.
End invariant.

(** ** The other calls of a gateway

    No call but the delivery of WebSocket data writes to a WebSocket, so that all
    others, those of the socket sessions and of HTTP among them, are steps beside
    the sessions, as long as they file no WebSocket of their own. *)

Definition hushed {A} (m : Handler A) : Prop := forall n, quiet (effects_of (m n)).

Create HintDb hushed.

Section hushed.

Lemma hushed_none {A} (m : Handler A) : (forall n, effects_of (m n) = []) -> hushed m.
Proof. intros H n. rewrite H. by constructor. Qed.

Lemma hushed_ret {A} (a : A) : hushed (mret a).
Proof. by apply hushed_none. Qed.
Lemma hushed_get : hushed get.
Proof. by apply hushed_none. Qed.
Lemma hushed_modify f : hushed (modify f).
Proof. by apply hushed_none. Qed.
Lemma hushed_panic {A} msg : hushed (panic msg : Handler A).
Proof. by apply hushed_none. Qed.
Lemma hushed_must {A} (r : result A) : hushed (must r).
Proof. apply hushed_none. by destruct r. Qed.
Lemma hushed_CheckError err : hushed (CheckError err).
Proof. apply hushed_none. by destruct err. Qed.
Lemma hushed_lift_outcome {A} (o : outcome A) : hushed (lift_outcome o).
Proof. by apply hushed_none. Qed.
Lemma hushed_emit e : (forall c, message_to c e = None) -> hushed (emit e).
Proof. intros H n. by repeat constructor. Qed.

Lemma hushed_bind {A B} (m : Handler A) (f : A -> Handler B) :
  hushed m -> (forall a, hushed (f a)) -> hushed (m ≫= f).
Proof.
  intros Hm Hf n. specialize (Hm n). unfold mbind, M_bind, effects_of in *.
  destruct (m n) as [[[a|msg|] n1] e1]; [|done..]. cbn in *.
  specialize (Hf a n1). unfold effects_of in Hf. destruct (f a n1) as [[o n2] e2]. cbn in *. by apply quiet_app.
Qed.

Lemma hushed_recovering (m recovered : Handler unit) :
  hushed m -> hushed recovered -> hushed (recovering m recovered).
Proof.
  intros Hm Hr n. specialize (Hm n). unfold recovering, effects_of in *.
  destruct (m n) as [[[a|msg|] n1] e1]; [done| |done]. cbn in *.
  specialize (Hr n1). unfold effects_of in Hr. destruct (recovered n1) as [[o n2] e2]. cbn in *. by apply quiet_app.
Qed.
End hushed.

#[export] Hint Resolve hushed_ret hushed_get hushed_modify hushed_panic hushed_must hushed_CheckError
  hushed_lift_outcome : hushed.

Ltac hush :=
  repeat first
    [ solve [eauto with hushed]
    | apply hushed_emit; by intros ?
    | apply hushed_bind; [|intros ?]
    | apply hushed_recovering
    | case_match ].

Section calls.
Context {L : ProtoLib} (w : World).

Lemma hushed_conn_Write c p : hushed (conn_Write w c p).
Proof. unfold conn_Write. hush. Qed.
Lemma hushed_WriteBytes c data : hushed (WriteBytesViaStream (conn_Write w c) data).
Proof. unfold WriteBytesViaStream. hush; apply hushed_conn_Write. Qed.
Lemma hushed_open_stream to protocol : hushed (open_stream w to protocol).
Proof. unfold open_stream. hush. Qed.
Lemma hushed_reject c msg : hushed (reject w c msg).
Proof. unfold reject. hush. apply hushed_conn_Write. Qed.

Hint Resolve hushed_conn_Write hushed_WriteBytes hushed_open_stream hushed_reject : hushed.

Lemma hushed_broadcast next : hushed (StartListeningOnServiceBroadcast next).
Proof. unfold StartListeningOnServiceBroadcast, RegisterRemoteService. hush. Qed.

Lemma hushed_http is_ws upgrade dumped request : hushed (StartForwardService w is_ws upgrade dumped request).
Proof. unfold StartForwardService, serveWebsocketRequest, serveHttpRequest_register. hush. Qed.

Lemma hushed_ws_goroutine req dataStream c messages : hushed (ws_goroutine w req dataStream c messages).
Proof. unfold ws_goroutine. hush. induction messages as [|[]]; cbn [ws_forward]; hush. Qed.

Lemma hushed_socket maxAlloc c src : hushed (StartSocketForwardService w maxAlloc c src).
Proof. unfold StartSocketForwardService. hush. Qed.

Lemma hushed_forward_client maxAlloc turns rid c stream src :
  hushed (forward_client_data w maxAlloc turns rid c stream src).
Proof. revert src. induction turns as [|turns IH]; intros src; cbn [forward_client_data]; hush. Qed.

Lemma hushed_http_init http_Read http_Do URI_String ws_Dial item :
  hushed (ProxyHttpInitRequestHandler w http_Read http_Do URI_String ws_Dial item).
Proof. unfold ProxyHttpInitRequestHandler, proxy_ws, proxy_http. hush. Qed.

Lemma hushed_forward_to_client rid respStream reads : hushed (forward_to_client w rid respStream reads).
Proof. induction reads as [|r reads IH]; cbn [forward_to_client]; hush. Qed.

Lemma hushed_socket_init dataBuf : hushed (ProxySocketInitReqHandler w dataBuf).
Proof. unfold ProxySocketInitReqHandler. hush. Qed.

Lemma hushed_http_resp item : hushed (http_resp_turn item).
Proof. unfold http_resp_turn. hush. Qed.

Lemma hushed_socket_data protocol item : hushed (socket_data_turn w protocol item).
Proof. unfold socket_data_turn. hush. Qed.
End calls.

(** The calls that deliver to WebSockets, and those whose effects the router of the
    management API decides for requests without a route. *)
Definition delivers (c : gateway_call) : bool :=
  match c with WsData _ _ _ | Mgmt _ _ _ _ _ _ _ _ => true | _ => false end.

Lemma other_calls_quiet {L : ProtoLib} c n : delivers c = false -> quiet (perform c n).2.
Proof.
  destruct c; try done; intros _; cbn [perform outcome_of snd].
  - apply hushed_broadcast.
  - by constructor.
  - apply hushed_http.
  - by repeat constructor.
  - by constructor.
  - apply hushed_ws_goroutine.
  - apply hushed_socket.
  - apply hushed_forward_client.
  - apply hushed_http_init.
  - apply hushed_forward_to_client.
  - apply hushed_http_resp.
  - apply hushed_socket_init.
  - apply hushed_socket_data.
Qed.

Lemma ws_bystander_near {L : ProtoLib} t c :
  delivers c = false -> ClientWsConns ∉ footprint c ->
  ws_step t (near_step (perform c (near t)).1 (perform c (near t)).2 (sessions t) t).
Proof.
  intros Hd Hc. apply w_near. intros rid s _. split; [|by apply quiet_heard, other_calls_quiet].
  by rewrite (perform_frame c ClientWsConns _ Hc : clientWsConns _ = _).
Qed.

Lemma ws_bystander_far {L : ProtoLib} t c :
  delivers c = false -> ServiceWsConns ∉ footprint c ->
  ws_step t (far_step (perform c (far t)).1 (perform c (far t)).2 (sessions t) t).
Proof.
  intros Hd Hc. apply w_far. intros rid s _. split; [|by apply quiet_heard, other_calls_quiet].
  by rewrite (perform_frame c ServiceWsConns _ Hc : serviceWsConns _ = _).
Qed.

(** ** When both ends are there, everything arrives *)

Section drain.
Context {L : ProtoLib} (w : World) (accepts_all : forall c p, WriteMessage w c p = None).

Lemma ws_drain_up t rid s c :
  ws_ok t -> sessions t !! rid = Some s -> service s = Some c ->
  exists t' s', rtc ws_step t t' /\ ws_ok t' /\ sessions t' !! rid = Some s' /\
    up s' = mkPipe (said (up s)) [] /\ down s' = down s /\ client s' = client s.
Proof.
  remember (length (queue (up s))) as k eqn:Hk. revert t s Hk.
  induction k as [|k IH]; intros t s Hk Hok Hs Hc; pose proof (ok_session t Hok rid s Hs) as [H1 H2 H3 H4 H5 H6].
  - exists t, s. split_and!; try done. destruct (up s) as [sd []]; done.
  - destruct (queue (up s)) as [|b rest] eqn:Hq; [done|]. destruct (delivered_head _ _ _ _ _ Hq H5) as [d Hd].
    set (t1 := far_step (far t) [WsMessage c d] (<[rid := set_up (pop (up s)) s]> (sessions t)) t).
    assert (ws_step t t1) as Hstep.
    { eapply w_deliver; [done|done|]. apply (ws_data_turn_ok w _ _ b (mkServiceData rid d) c); [done| |done].
      unfold ws_target. rewrite decide_True by done. cbn. by rewrite H3. }
    destruct (IH t1 (set_up (pop (up s)) s)) as (t'&s'&Hrun&H).
    + cbn. rewrite Hq. cbn in *. lia.
    + by eapply ws_step_ok.
    + apply lookup_insert_eq.
    + done.
    + exists t', s'. split; [by eapply rtc_l|done].
Qed.

Lemma ws_drain_down t rid s c :
  ws_ok t -> sessions t !! rid = Some s -> client s = Some c ->
  exists t' s', rtc ws_step t t' /\ ws_ok t' /\ sessions t' !! rid = Some s' /\
    down s' = mkPipe (said (down s)) [] /\ up s' = up s.
Proof.
  remember (length (queue (down s))) as k eqn:Hk. revert t s Hk.
  induction k as [|k IH]; intros t s Hk Hok Hs Hc; pose proof (ok_session t Hok rid s Hs) as [H1 H2 H3 H4 H5 H6].
  - exists t, s. split_and!; try done. destruct (down s) as [sd []]; done.
  - destruct (queue (down s)) as [|b rest] eqn:Hq; [done|]. destruct (delivered_head _ _ _ _ _ Hq H6) as [d Hd].
    set (t1 := near_step (near t) [WsMessage c d] (<[rid := set_down (pop (down s)) s]> (sessions t)) t).
    assert (ws_step t t1) as Hstep.
    { eapply w_return; [done|done|]. apply (ws_data_turn_ok w _ _ b (mkServiceData rid d) c); [done| |done].
      unfold ws_target. rewrite decide_False, decide_True by done. cbn. by rewrite H2. }
    destruct (IH t1 (set_down (pop (down s)) s)) as (t'&s'&Hrun&H).
    + cbn. rewrite Hq. cbn in *. lia.
    + by eapply ws_step_ok.
    + apply lookup_insert_eq.
    + done.
    + exists t', s'. split; [by eapply rtc_l|done].
Qed.
End drain.

(** ** Properties *)

(** C8: the WebSocket sessions between two gateways do not mix. In every
    interleaving of any number of them, of their upgrades and connections, and of
    whatever else the gateways do, the service of a session has been given the
    first messages of its own client, and the client those of its own service,
    each as one message and in their order; exactly the messages on the way are
    missing. Once both ends are connected these can all be delivered. *)
Theorem ws_sessions_isolated {L : ProtoLib} (n1 n2 : Node) (t : ws_tunnel) (rid : string) (s : ws_session)
    (Hrun : rtc ws_step (ws_start n1 n2) t) (Hs : sessions t !! rid = Some s) :
  (exists pending, said (up s) = heard (service s) (far_log t) ++ pending /\
     length pending = length (queue (up s))) /\
  (exists pending, said (down s) = heard (client s) (near_log t) ++ pending /\
     length pending = length (queue (down s))) /\
  (forall w c d, (forall c' p, WriteMessage w c' p = None) -> service s = Some c -> client s = Some d ->
     exists t' s', rtc ws_step t t' /\ sessions t' !! rid = Some s' /\
       heard (service s') (far_log t') = said (up s) /\ heard (client s') (near_log t') = said (down s)).
Proof.
  pose proof (ws_run_ok n1 n2 t Hrun) as Hok. pose proof (ok_session t Hok rid s Hs) as [H1 H2 H3 H4 H5 H6].
  split_and!; [by eapply delivered_prefix..|]. intros w c d Hw Hc Hd.
  destruct (ws_drain_up w Hw t rid s c Hok Hs Hc) as (t1&s1&Hrun1&Hok1&Hs1&Hup&Hdown&Hd1). rewrite Hd in Hd1.
  destruct (ws_drain_down w Hw t1 rid s1 d Hok1 Hs1 Hd1) as (t2&s2&Hrun2&Hok2&Hs2&Hdown2&Hup2).
  exists t2, s2. pose proof (ok_session t2 Hok2 rid s2 Hs2) as [_ _ _ _ H7 H8].
  rewrite Hup2, Hup in H7. rewrite Hdown2, Hdown in H8.
  split_and!; [by etrans|done|by eapply delivered_all..].
Qed.

(** C30: a WebSocket message can overtake the connection that it is for, in both
    directions. A client's message that reaches the service's gateway before the
    request has been handled there, and a service's message that reaches the
    client's gateway before the upgrade has been answered, are written to a
    connection that is not there: nil, in a handler that nothing recovers, and the
    gateway ends. *)
Theorem ws_messages_overtake {L : ProtoLib} (n1 n2 : Node) (t : ws_tunnel) (rid : string) (s : ws_session)
    (w : World) (b : bytes) (rest : list bytes)
    (Hrun : rtc ws_step (ws_start n1 n2) t) (Hs : sessions t !! rid = Some s) :
  (service s = None -> queue (up s) = b :: rest ->
   ws_data_turn w ProxyWsDataFromClientSide (ToDataCh b) (far t) = (Panic nil_deref, far t, [])) /\
  (client s = None -> queue (down s) = b :: rest ->
   ws_data_turn w ProxyWsDataFromServiceSide (ToDataCh b) (near t) = (Panic nil_deref, near t, [])).
Proof.
  pose proof (ws_run_ok n1 n2 t Hrun) as Hok. destruct (ok_session t Hok rid s Hs) as [H1 H2 H3 H4 H5 H6].
  split; intros Hnone Hq; [destruct (delivered_head _ _ _ _ _ Hq H5) as [d Hd]|
    destruct (delivered_head _ _ _ _ _ Hq H6) as [d Hd]];
    unfold ws_data_turn; rewrite Hd; cbn [must]; rewrite bind_pure, bind_get.
  - rewrite decide_True by done. cbn [Data_RequestId]. by rewrite H3, Hnone.
  - rewrite decide_False, decide_True by done. cbn [Data_RequestId]. by rewrite H2, Hnone.
Qed.

(** ** Two sessions of one service *)

(** The answers of the network to one step: the streams it opens, by their protocols. *)
Definition session_world (uuid : string) (init data back : conn) : World :=
  mkWorld "QmSelf"
    (fun _ p => if decide (p = ProxyHttpInitReq) then Ok init
                else if decide (p = ProxyWsDataFromClientSide) then Ok data else Ok back)
    (fun s => Ok s) (fun _ => Fail (errors_New "no dial")) (fun _ _ => None) (fun _ _ => None) uuid (fun k => N.of_nat k).

Definition world_a : World := session_world "a" 11 12 13.
Definition world_b : World := session_world "b" 21 22 23.
Definition rid_a : string := "_key.abcdefghij.a".
Definition rid_b : string := "_key.abcdefghij.b".

Definition request_of (rid : string) : ApronServiceRequest :=
  mkServiceRequest "abcdefghij" rid "QmSelf" true example_raw.
Definition wrapped (rid text : string) : bytes := WireFormat.encoded (mkServiceData rid (str_bytes text)).

Abbreviation example_step := (ws_step (L := WireFormat.wire_lib)).

(** The client of [a] has spoken before its request has been handled, the service of
    [b] before its client's upgrade has been answered. *)
Definition both_early (t : ws_tunnel) : Prop :=
  (exists s, sessions t !! rid_a = Some s /\ service s = None /\ queue (up s) = [wrapped rid_a "from a"]) /\
  (exists s, sessions t !! rid_b = Some s /\ client s = None /\ service s = Some 24%N /\
     queue (down s) = [wrapped rid_b "to b"] /\ said (down s) = [str_bytes "to b"]) /\
  fresh_at near_conns (near_log t) t 20%N.

Lemma ws_fresh_computed conns log t c :
  bool_decide (messages_to c log = [] /\ map_Forall (fun _ s => c ∉ conns s) (sessions t)) = true ->
  fresh_at conns log t c.
Proof. intros [H1 H2]%bool_decide_eq_true. split; [done|]. intros rid s Hs. exact (H2 rid s Hs). Qed.

(** A handler that returns, with whatever it leaves. *)
Lemma ran {A} (r : outcome A * Node * list effect) a : result_of r = Val a -> r = (Val a, state_of r, effects_of r).
Proof. destruct r as [[o n] es]. unfold result_of. cbn. by intros ->. Qed.

Ltac computed :=
  first [ apply ws_fresh_computed; vm_compute; reflexivity | apply ran; vm_compute; reflexivity
        | apply (bool_decide_unpack _); vm_compute; exact I ].

(** One more step, to a state that is given. *)
Lemma step_from t1 t2 t3 : rtc example_step t1 t2 -> example_step t2 t3 -> rtc example_step t1 t3.
Proof. intros H1 H2. etrans; [exact H1|by apply rtc_once]. Qed.

Lemma early_messages : exists t,
  rtc example_step (ws_start example_gateway example_service_side) t /\ both_early t.
Proof.
  pose (sa := opened (request_of rid_a) (Some 12%N) (WireFormat.encoded (request_of rid_a))).
  pose (sb := opened (request_of rid_b) (Some 22%N) (WireFormat.encoded (request_of rid_b))).
  eexists. split.
  - eapply step_from; [eapply step_from; [eapply step_from; [eapply step_from; [eapply step_from; [eapply step_from;
      [apply rtc_refl|]|]|]|]|]|].
    + eapply (w_request _ world_a None (Ok example_raw) (example_client_request "/v1/abcdefghij_key/x")
        (request_of rid_a) (Some 12%N) _ _ 11 (WireFormat.encoded (request_of rid_a))); computed.
    + eapply (w_request _ world_b None (Ok example_raw) (example_client_request "/v1/abcdefghij_key/x")
        (request_of rid_b) (Some 22%N) _ _ 21 (WireFormat.encoded (request_of rid_b))); computed.
    + eapply (w_upgrade _ rid_a sa 10); [reflexivity|reflexivity|computed|reflexivity].
    + eapply (w_connect _ world_b (fun raw => Ok (example_client_request (bytes_str raw)))
        (fun _ => Fail (errors_New "no http")) to_uri (fun _ => Ok 24%N) rid_b sb); [reflexivity|reflexivity|computed..].
    + eapply (w_say _ world_a rid_a (upgraded 10 sa) 12 (str_bytes "from a"));
        [reflexivity|by eexists|reflexivity|computed|].
      instantiate (1 := wrapped rid_a "from a"). computed.
    + eapply (w_answer _ world_b rid_b (connected 24 23 sb) 23 (str_bytes "to b")); [reflexivity|reflexivity|computed|].
      instantiate (1 := wrapped rid_b "to b"). computed.
  - split; [|split; [|computed]].
    + eexists. split; [reflexivity|]. split; reflexivity.
    + eexists. split; [reflexivity|]. split_and!; reflexivity.
Qed.

Example ws_sessions_isolated_witness : exists t s,
  rtc example_step (ws_start example_gateway example_service_side) t /\
  sessions t !! rid_b = Some s /\ heard (client s) (near_log t) = [str_bytes "to b"].
Proof.
  destruct early_messages as (t&Hrun&_&(s&Hs&Hclient&Hservice&_&Hsaid)&Hfresh).
  set (t1 := near_step (set_clientWsConn (Request_RequestId (ws_req s)) 20%N (near t)) []
    (<[rid_b := upgraded 20%N s]> (sessions t)) t).
  assert (rtc example_step (ws_start example_gateway example_service_side) t1) as Hrun1.
  { etrans; [exact Hrun|]. eapply rtc_once, w_upgrade; [exact Hs|exact Hclient|exact Hfresh|reflexivity]. }
  destruct (ws_sessions_isolated (L := WireFormat.wire_lib) example_gateway example_service_side t1 rid_b
    (upgraded 20%N s) Hrun1 (lookup_insert_eq _ _ _)) as (_&_&H).
  destruct (H world_b 24%N 20%N) as (t'&s'&Hrun'&Hs'&_&Hheard);
    [intros c p; reflexivity|exact Hservice|reflexivity|].
  exists t', s'. split; [etrans; [exact Hrun1|exact Hrun']|]. split; [exact Hs'|].
  rewrite Hheard. exact Hsaid.
Defined.

Example ws_messages_overtake_witness : exists t,
  rtc example_step (ws_start example_gateway example_service_side) t /\
  ws_data_turn (L := WireFormat.wire_lib) world_a ProxyWsDataFromClientSide
    (ToDataCh (wrapped rid_a "from a")) (far t) = (Panic nil_deref, far t, []) /\
  ws_data_turn (L := WireFormat.wire_lib) world_b ProxyWsDataFromServiceSide
    (ToDataCh (wrapped rid_b "to b")) (near t) = (Panic nil_deref, near t, []).
Proof.
  destruct early_messages as (t&Hrun&(sa&Ha&Hservice&Hup)&(sb&Hb&Hclient&_&Hdown&_)&_).
  exists t. split; [exact Hrun|]. split.
  - refine (proj1 (ws_messages_overtake (L := WireFormat.wire_lib) example_gateway example_service_side t rid_a sa
      world_a _ [] Hrun Ha) Hservice Hup).
  - refine (proj2 (ws_messages_overtake (L := WireFormat.wire_lib) example_gateway example_service_side t rid_b sb
      world_b _ [] Hrun Hb) Hclient Hdown).
Defined.
