(* ===== verification/Demo.v ===== *)
(** The demonstration programs: [cmd/socket_helper], a client and an echo service
    for the socket tunnel, and [cmd/wsbin], a WebSocket service.

    An endless loop is given for a number of turns, or over what its connection
    delivers. *)

From S2P Require Import Prelude Messages NetworkHelper RequestDetail UsageRecord ServiceJson Node World Agent Management ClientGateway ProxyHandlers Tunnel.
From S2P Require WireFormat.

(** ** cmd/socket_helper *)

Section socket_helper.
Context {L : ProtoLib} (w : World) (maxAlloc : Z) {S : Type}.

Abbreviation Prog := (M S effect).

(** The client: it names its service and then sends the same greeting for ever.
    The error of [proto.Marshal] is dropped. *)
Definition startClientSideSocketAgent (csgwAddr serviceId : string) : Prog conn :=
  conn ← must (Dial w csgwAddr);
  emit (Dialed csgwAddr conn);;
  let requestBytes :=
    match Marshal (mkSocketInit serviceId "" "" "") with Ok b => b | Fail _ => [] end in
  WriteBytesViaStream (conn_Write w (Some conn)) requestBytes;;
  mret conn.

Definition requestBytes : bytes := str_bytes "hello".

Fixpoint send_turns (turns : nat) (c : conn) : Prog unit :=
  match turns with
  | O => mret tt
  | Datatypes.S turns =>
      WriteBytesViaStream (conn_Write w (Some c)) requestBytes;;
      send_turns turns c
  end.

(** The payloads that the reading goroutine logs; it makes a reader per frame. *)
Fixpoint receive_turns (turns : nat) (conn_src : source) : Prog (list bytes) :=
  match turns with
  | O => mret []
  | Datatypes.S turns =>
      match ReadOneFrameDataFromStream maxAlloc (BufReader (NewReader (RawReader conn_src))) with
      | (Val dataBuf, rd) =>
          dataBuf ← must dataBuf;
          more ← receive_turns turns (under (NewReader rd));
          mret (dataBuf :: more)
      | (Panic msg, _) => panic msg
      | (Block, _) => block
      end
  end.

(** The server: it registers itself, listens, and sends back what is in each
    frame, without a frame around it. *)
Fixpoint echoRequestData (turns : nat) (c : conn) (conn_src : source) : Prog unit :=
  match turns with
  | O => mret tt
  | Datatypes.S turns =>
      match ReadOneFrameDataFromStream maxAlloc (BufReader (NewReader (RawReader conn_src))) with
      | (Val dataBuf, rd) =>
          dataBuf ← must dataBuf;
          err ← conn_Write w (Some c) dataBuf;
          CheckError err;;
          echoRequestData turns c (under (NewReader rd))
      | (Panic msg, _) => panic msg
      | (Block, _) => block
      end
  end.
End socket_helper.

Section registration.
Context {S E : Type} (Do : string -> string -> bytes -> M S E (result bytes)).

Definition socket_service (listenAddr serviceId : string) : ApronService :=
  mkService serviceId serviceId "" "" "" ""
    [Some (mkProvider serviceId serviceId "" 0 0 "" listenAddr "tcp" NetworkType_UNKNOWN)] false.

Definition registerSocketService (ssgwAddr listenAddr serviceId : string) : M S E unit :=
  let newServiceReqBytes := json_Marshal_service (socket_service listenAddr serviceId) in
  resp ← Do ssgwAddr "POST" newServiceReqBytes;
  _ ← must resp;
  mret tt.

(** The connections that get an echo goroutine; an error of [Accept] panics. *)
Definition startServerSideSocketAgent (listen : string -> option goerror) (accepted : list (result conn))
    (listenAddr ssgwMgmtAddr serviceId : string) : M S E (list conn) :=
  registerSocketService ssgwMgmtAddr listenAddr serviceId;;
  CheckError (listen listenAddr);;
  mapM must accepted.
End registration.

(** ** cmd/wsbin *)

Inductive ws_effect :=
  | WsError (msg : string) (status : Z)
  | WsSent (messageType : Z) (p : bytes)
  | WsClosed.

Inductive ws_service := Echo | Publisher.

(** [flag.Parse] is never called: whatever the command line, the flags have their
    defaults. *)
Definition wsbin_listenAddr (args : list string) : string := ":8978".
Definition wsbin_mode (args : list string) : string := "both".

Definition StatusBadRequest : Z := 400.

(** The handler of a request: the services it starts on the upgraded connection;
    [None] when it ends the process. *)
Definition wsbin_services (mode : string) : option (list ws_service) :=
  if decide (mode = "echo") then Some [Echo]
  else if decide (mode = "publish") then Some [Publisher]
  else if decide (mode = "both") then Some [Echo; Publisher]
  else None.

Definition wsbin_handler (args : list string) (is_ws : bool) (upgrade : option goerror)
    : M unit ws_effect (option (list ws_service)) :=
  if is_ws then CheckError upgrade;; mret (wsbin_services (wsbin_mode args))
  else emit (WsError "Expected WebSocket connection" StatusBadRequest);; mret (Some []).

(** [WriteMessage] is the connection's answer. *)
Section ws_services.
Context (WriteMessage : Z -> bytes -> option goerror).

(** The write of a message; false when it fails and the service gives up. *)
Definition ws_send (messageType : Z) (p : bytes) : M unit ws_effect bool :=
  match WriteMessage messageType p with
  | Some _ => mret false
  | None => emit (WsSent messageType p);; mret true
  end.

Fixpoint echo_loop (messages : list (result (Z * bytes))) : M unit ws_effect unit :=
  match messages with
  | [] => mret tt
  | Fail _ :: _ => mret tt
  | Ok (messageType, p) :: messages =>
      ws_send messageType p ≫= fun ok : bool =>
      if ok then echo_loop messages else mret tt
  end.

Definition startEchoService (messages : list (result (Z * bytes))) : M unit ws_effect unit :=
  echo_loop messages;; emit WsClosed.

Definition ws_TextMessage : Z := 1.

(** [ticks]: the milliseconds that [time.Now] gives, turn by turn. *)
Fixpoint publish_loop (ticks : list Z) : M unit ws_effect unit :=
  match ticks with
  | [] => mret tt
  | ms :: ticks =>
      ws_send ws_TextMessage (str_bytes "tick: " ++ Json.FormatInt ms) ≫= fun ok : bool =>
      if ok then publish_loop ticks else mret tt
  end.

Definition startPublisherService (ticks : list Z) : M unit ws_effect unit :=
  publish_loop ticks;; emit WsClosed.
End ws_services.

(** ** Lemmas *)

Section turns.
Context {L : ProtoLib} (w : World) (maxAlloc : Z) (Hmax : maxAlloc < 2 ^ 64) {S : Type}.

Lemma send_turns_ok turns c (n : S) :
  accepts w c -> send_turns w turns c n = (Val tt, n, concat (frame_writes c <$> replicate turns requestBytes)).
Proof.
  intros Hc. induction turns as [|turns IH]; [done|]. cbn [send_turns replicate fmap list_fmap concat].
  step_bind WriteBytesViaStream_conn. rewrite IH. done.
Qed.

(** Frames that arrive in chunks of their own are received one by one. *)
Lemma receive_turns_aligned gs ds t (n : S) :
  aligned gs ds -> fits maxAlloc ds ->
  receive_turns maxAlloc (length ds) (mkSource (concat gs) t) n = (Val ds, n, []).
Proof.
  intros Hgs. induction Hgs as [|g d gs ds [Hg Hne] _ IH]; intros Hfit; [done|].
  apply Forall_cons in Hfit as [Hd Hfit]. cbn [concat length receive_turns].
  destruct (ReadOneFrame_fresh maxAlloc Hmax g (concat gs) d t Hg Hne Hd) as (rd&->&->).
  cbn [must]. rewrite bind_pure. erewrite bind_val by (by apply IH). reflexivity.
Qed.

Lemma echo_aligned gs ds t c (n : S) :
  aligned gs ds -> fits maxAlloc ds -> accepts w c ->
  echoRequestData w maxAlloc (length ds) c (mkSource (concat gs) t) n = (Val tt, n, Written c <$> ds).
Proof.
  intros Hgs Hfit Hc. induction Hgs as [|g d gs ds [Hg Hne] _ IH]; [done|].
  apply Forall_cons in Hfit as [Hd Hfit]. cbn [concat length echoRequestData].
  destruct (ReadOneFrame_fresh maxAlloc Hmax g (concat gs) d t Hg Hne Hd) as (rd&->&->).
  cbn [must]. rewrite bind_pure. step_bind conn_Write_ok. cbn [CheckError]. rewrite bind_pure.
  by rewrite IH.
Qed.

Lemma written_all c (ds : list bytes) : written_to c (Written c <$> ds) = concat ds.
Proof.
  unfold written_to. f_equal. induction ds as [|d ds IH]; [done|]. cbn. rewrite decide_True by done.
  by rewrite IH.
Qed.
End turns.

(** ** Properties *)

(** The demonstration runs. The greetings that the client sends go through both
    gateways to the echo service, which reads each of them and sends its bytes
    back; these go through both gateways to the client, whose reader gets frames
    that are, put together, exactly what it has sent, however the service-side
    gateway happened to read them. *)
Theorem socket_echo_session {L : ProtoLib} {S : Type} (w0 w1 w2 w3 : World) (maxAlloc : Z) (k turns : nat)
    (ds := replicate k requestBytes) (ms bs bs' : list bytes) (rid : string)
    (cc c up sc down ec : conn) (n0 n3 : S) (n1 n2 : Node)
    (gs gsUp gsEcho gsDown gsBack : list (list bytes)) (tUp tEcho tDown tBack : option goerror)
    (Hmax : maxAlloc < 2 ^ 64)
    (Hcc : accepts w0 cc) (Hup : accepts w1 up) (Hsc : accepts w2 sc) (Hdown : accepts w2 down)
    (Hc : accepts w1 c) (Hec : accepts w3 ec)
    (Hsession : serviceSocketConns n2 !! rid = Some sc) (Hclient : clientSocketConns n1 !! rid = Some c)
    (Hbs : Forall2 (fun d b => Marshal (mkServiceData rid d) = Ok b) ds bs)
    (Hbs' : Forall2 (fun d b => Marshal (mkServiceData rid d) = Ok b) ms bs')
    (Hread : concat ms = concat ds)
    (Hfit : fits maxAlloc (ds ++ bs ++ ms ++ bs'))
    (Hgs : aligned gs ds) (HgsUp : aligned gsUp bs) (HgsEcho : aligned gsEcho ds)
    (HgsDown : aligned gsDown bs') (HgsBack : aligned gsBack ms) :
  exists es0 es1 es2 es3 es4 es5,
    (* towards the service *)
    send_turns w0 k cc n0 = (Val tt, n0, es0) /\ concat (concat gs) = written_to cc es0 /\
    forward_client_data w1 maxAlloc (length ds + Datatypes.S turns) rid c up
      (mkSource (concat gs) (Some io_EOF)) n1 = (Val tt, n1, es1) /\ concat (concat gsUp) = written_to up es1 /\
    ProxySocketDataHandler w2 ProxySocketDataFromClientSide
      (ReadBytesViaStream maxAlloc (length bs) (RawReader (mkSource (concat gsUp) tUp))) n2
    = (Val tt, n2, es2) /\ concat (concat gsEcho) = written_to sc es2 /\
    (* the service *)
    echoRequestData w3 maxAlloc (length ds) ec (mkSource (concat gsEcho) tEcho) n3 = (Val tt, n3, es3) /\
    concat ms = written_to ec es3 /\
    (* and back *)
    forward_to_client w2 rid (Some down) (Ok <$> ms) n2 = (Val tt, n2, es4) /\
    concat (concat gsDown) = written_to down es4 /\
    ProxySocketDataHandler w1 ProxySocketDataFromServiceSide
      (ReadBytesViaStream maxAlloc (length bs') (RawReader (mkSource (concat gsDown) tDown))) n1
    = (Val tt, n1, es5) /\ concat (concat gsBack) = written_to c es5 /\
    receive_turns maxAlloc (length ms) (mkSource (concat gsBack) tBack) n0 = (Val ms, n0, []) /\
    concat ms = concat ds.
Proof.
  unfold fits in Hfit. rewrite !Forall_app in Hfit. destruct Hfit as (F1&F2&F3&F4).
  eexists _, _, _, _, _, _. split_and!.
  - by apply send_turns_ok.
  - by rewrite written_frames, (aligned_bytes gs ds).
  - erewrite (forward_client_data_aligned w1 maxAlloc gs ds bs _ []) by (done || by rewrite app_nil_r).
    cbn [term]. rewrite forward_client_data_end, decide_True by done. reflexivity.
  - cbn [snd]. rewrite written_to_app, written_frames, (aligned_bytes gsUp bs) by done.
    symmetry. apply app_nil_r.
  - eapply (data_stream_delivered w2 maxAlloc _ n2 rid sc gsUp ds bs); done.
  - by rewrite written_frames, (aligned_bytes gsEcho ds).
  - by apply echo_aligned.
  - by rewrite written_all.
  - rewrite <- (app_nil_r (Ok <$> ms)). erewrite forward_to_client_ok by eauto. reflexivity.
  - cbn [snd forward_to_client]. unfold mret, M_ret. cbn [snd].
    by rewrite app_nil_r, written_frames, (aligned_bytes gsDown bs').
  - eapply (data_stream_delivered w1 maxAlloc _ n1 rid c gsDown ms bs'); done.
  - by rewrite written_frames, (aligned_bytes gsBack ms).
  - by apply receive_turns_aligned.
  - done.
Qed.

Definition hello_bytes : bytes := WireFormat.encoded (mkServiceData "u.s.1" requestBytes).
Definition half_bytes (b : bytes) : bytes := WireFormat.encoded (mkServiceData "u.s.1" b).

Lemma aligned_one d : aligned [[frame d]] [d].
Proof. constructor; [|constructor]. split; [apply app_nil_r|]. constructor; [discriminate|constructor]. Qed.

Lemma aligned_two d e : aligned [[frame d]; [frame e]] [d; e].
Proof.
  constructor; [|apply aligned_one]. split; [apply app_nil_r|]. constructor; [discriminate|constructor].
Qed.

(** The service-side gateway reads the echo in two parts. *)
Example socket_echo_session_witness :
  let n2 := set_clientSocketConn "u.s.1" 3%N example_session in
  (exists es3, echoRequestData example_world 1000 1 8%N (mkSource [frame requestBytes] None) tt = (Val tt, tt, es3) /\
    str_bytes "hello" = written_to 8%N es3) /\
  receive_turns (S := unit) 1000 2 (mkSource [frame (str_bytes "he"); frame (str_bytes "llo")] None) tt
  = (Val [str_bytes "he"; str_bytes "llo"], tt, []).
Proof.
  intros n2.
  destruct (socket_echo_session (L := WireFormat.wire_lib) example_world example_world example_world example_world
    1000 1 0 [str_bytes "he"; str_bytes "llo"] [hello_bytes] [half_bytes (str_bytes "he"); half_bytes (str_bytes "llo")]
    "u.s.1" 2%N 3%N 7%N 5%N 7%N 8%N tt tt n2 n2
    [[frame requestBytes]] [[frame hello_bytes]] [[frame requestBytes]]
    [[frame (half_bytes (str_bytes "he"))]; [frame (half_bytes (str_bytes "llo"))]]
    [[frame (str_bytes "he")]; [frame (str_bytes "llo")]] None None None None)
    as (es0&es1&es2&es3&es4&es5&_&_&_&_&_&_&E3&W3&_&_&_&_&E&_).
  - lia.
  - intros p. reflexivity.
  - intros p. reflexivity.
  - intros p. reflexivity.
  - intros p. reflexivity.
  - intros p. reflexivity.
  - intros p. reflexivity.
  - vm_compute. reflexivity.
  - vm_compute. reflexivity.
  - constructor; [vm_compute; reflexivity|constructor].
  - constructor; [vm_compute; reflexivity|]. constructor; [vm_compute; reflexivity|constructor].
  - reflexivity.
  - apply (bool_decide_unpack _). vm_compute. exact I.
  - apply aligned_one.
  - apply aligned_one.
  - apply aligned_one.
  - apply aligned_two.
  - apply aligned_two.
  - split; [exists es3; split; [exact E3|exact W3]|exact E].
Defined.

(** The echo of the WebSocket service: every message goes back with its type until
    the client's connection fails, and the connection is closed; both services
    run, whatever mode the command line asks for. *)
Theorem wsbin_echoes (messages : list (Z * bytes)) (err : goerror) (more : list (result (Z * bytes)))
    (args : list string) :
  startEchoService (fun _ _ => None) ((Ok <$> messages) ++ Fail err :: more) tt
  = (Val tt, tt, ((fun m => WsSent m.1 m.2) <$> messages) ++ [WsClosed]) /\
  wsbin_handler args true None tt = (Val (Some [Echo; Publisher]), tt, []).
Proof.
  split; [|reflexivity].
  assert (echo_loop (fun _ _ => None) ((Ok <$> messages) ++ Fail err :: more) tt
          = (Val tt, tt, (fun m => WsSent m.1 m.2) <$> messages)) as H.
  { induction messages as [|[ty p] ms IH]; [done|]. cbn [fmap list_fmap app echo_loop].
    unfold ws_send. erewrite bind_val by reflexivity. cbn [fst snd]. by rewrite IH. }
  unfold startEchoService. erewrite bind_val by exact H. reflexivity.
Qed.

(** The echo service registers the service that a service agent would: the same
    body, to the same handler. *)
Lemma socket_service_registers {S E : Type} (Do : string -> string -> bytes -> M S E (result bytes))
    ssgwAddr (a : ApronAgentServer) (n n' : S) (es : list E) resp :
  Do ssgwAddr "POST" (json_Marshal_service (agent_service a)) n = (Val (Ok resp), n', es) ->
  registerSocketService Do ssgwAddr (ListenAddr a) (AgentId a) n = (Val tt, n', es).
Proof.
  intros H. unfold registerSocketService. change (socket_service _ _) with (agent_service a).
  erewrite bind_val by exact H. cbn. by rewrite app_nil_r.
Qed.
