(* ===== verification/Startup.v ===== *)
(** What runs before a program serves anybody: the address list of the command line
    ([trans_network/addr_list.go]), the DHT and the discovery loop ([dht.go],
    [discover.go]), and the construction of an agent ([NewApronAgentServer],
    [config.go], [resolver.go] of [ext_protocols/socks5]).

    The DHT, libp2p's addresses and DNS are arguments. *)

From S2P Require Import Prelude Messages RequestDetail UsageRecord Node Agent.

(** ** addr_list.go *)

Section addresses.
Context {Multiaddr : Type} (NewMultiaddr : string -> result Multiaddr) (addr_String : Multiaddr -> string).

(** The methods that make an [AddrList] a flag: [Set] is called once for every
    occurrence on the command line. *)
Definition AddrList_String (al : list Multiaddr) : string := String.concat "," (addr_String <$> al).

Definition AddrList_Set (value : string) (al : list Multiaddr) : option goerror * list Multiaddr :=
  match NewMultiaddr value with
  | Fail err => (Some err, al)
  | Ok addr => (None, al ++ [addr])
  end.

(** The occurrences in turn, up to the first that fails. *)
Fixpoint AddrList_Sets (values : list string) (al : list Multiaddr) : option goerror * list Multiaddr :=
  match values with
  | [] => (None, al)
  | v :: values =>
      match AddrList_Set v al with
      | (Some err, al) => (Some err, al)
      | (None, al) => AddrList_Sets values al
      end
  end.

(** ** dht.go *)

Inductive start_effect :=
  | ServerMode
  | Bootstrapped
  | Connect (peer : peer_ID)
  | Advertised (rendezvous : string)
  | PeersFound.

Abbreviation Start := (M unit start_effect).

(** [peer.AddrInfoFromP2pAddr], whose error is dropped, gives nil for an address
    without a peer id. *)
Context (AddrInfoFromP2pAddr : Multiaddr -> result peer_ID).

(** The goroutine of each bootstrap peer; the error of [Connect] is only logged. *)
Definition connect_bootstrap (peerAddr : Multiaddr) : Start unit :=
  match AddrInfoFromP2pAddr peerAddr with
  | Fail _ => panic nil_deref
  | Ok peerInfo => emit (Connect peerInfo)
  end.

(** [order] is the order in which the goroutines run; [NewKDHT] waits for all. *)
Definition NewKDHT (dht_New dht_Bootstrap : option goerror) (bootstrapPeers order : list Multiaddr)
    : Start (option goerror) :=
  (if decide (length bootstrapPeers = 0)%nat then emit ServerMode else mret tt);;
  CheckError dht_New;;
  match dht_Bootstrap with
  | Some err => mret (Some err)
  | None =>
      emit Bootstrapped;;
      mapM connect_bootstrap order;;
      mret None
  end.
End addresses.

(** ** discover.go *)

(** What each turn of the loop sees: the end of the context, or a tick and the
    answer of [FindPeers]. *)
Inductive discover_event :=
  | CtxDone
  | Ticked (peers : result (list peer_ID)).

(** The loop over the peers that were found does nothing with them: the code that
    dialled them is commented out. *)
Fixpoint discover_peers (self : peer_ID) (peers : list peer_ID) : M unit start_effect unit :=
  match peers with
  | [] => mret tt
  | p :: peers =>
      if decide (p = self) then discover_peers self peers
      else discover_peers self peers
  end.

Fixpoint discover_loop (self : peer_ID) (events : list discover_event) : M unit start_effect unit :=
  match events with
  | [] => mret tt
  | CtxDone :: _ => mret tt
  | Ticked peers :: events =>
      peers ← must peers;
      emit PeersFound;;
      discover_peers self peers;;
      discover_loop self events
  end.

Definition Discover (self : peer_ID) (rendezvous : string) (events : list discover_event)
    : M unit start_effect unit :=
  emit (Advertised rendezvous);;
  discover_loop self events.

(** ** The construction of an agent *)

(** [DNSResolver], or one that the configuration brings. *)
Definition NameResolver := string -> result string.

Definition DNSResolver_Resolve (ResolveIPAddr : string -> result string) : NameResolver :=
  fun name => match ResolveIPAddr name with Fail err => Fail err | Ok addr => Ok addr end.

(** [CredentialStore], an interface with the one method [Valid]. *)
Definition CredentialStore := string -> string -> bool.

(** Nil is [None] for an interface, a function and a pointer, and the empty list for
    the address. [Dial] takes the network and the address. *)
Record socks5_Config := mkSocks5Config {
  Credentials : option CredentialStore;
  Resolver : option NameResolver;
  BindIP : list ascii;
  socks5_Dial : option (string -> string -> result conn);
  MsgCh : option chan
}.

(** The configuration that is not filled. *)
Definition zero_socks5_Config : socks5_Config := mkSocks5Config None None [] None None.

Definition NewApronAgentServer (ResolveIPAddr : string -> result string) (socksConf : socks5_Config)
    (agentConf : ApronAgentServer) : socks5_Config * ApronAgentServer :=
  let socksConf :=
    match Resolver socksConf with
    | None => mkSocks5Config (Credentials socksConf) (Some (DNSResolver_Resolve ResolveIPAddr))
                (BindIP socksConf) (socks5_Dial socksConf) (MsgCh socksConf)
    | Some _ => socksConf
    end in
  (socksConf, agentConf).

(** ** The identity of a node *)

(** [fmt.Sprintf("%032b", k)], quotes left out: binary, with a sign if there is one,
    padded with zeros to 32 characters; an [int] has 64 bits. *)
Fixpoint binary (fuel : nat) (n : Z) : bytes :=
  match fuel with
  | O => []
  | S fuel =>
      (if n <? 2 then [] else binary fuel (n / 2)) ++ [if n mod 2 =? 0 then "0"%char else "1"%char]
  end.

Definition Sprintf_032b (k : Z) : bytes :=
  let sign := if k <? 0 then ["-"%char] else [] in
  let b := binary 64 (Z.abs k) in
  sign ++ replicate (32 - length sign - length b) "0"%char ++ b.

(** What [NewNode] makes the key from: [ed25519.GenerateKey] reads 32 bytes, and
    zero asks for random ones. *)
Definition identity_seed (SecretKey : Z) : option bytes :=
  if decide (SecretKey = 0) then None else Some (take 32 (Sprintf_032b SecretKey)).

(** ** Lemmas *)

Lemma AddrList_Sets_ok {Multiaddr} (New : string -> result Multiaddr) values addrs al :
  Forall2 (fun v a => New v = Ok a) values addrs -> AddrList_Sets New values al = (None, al ++ addrs).
Proof.
  intros H. revert al. induction H as [|v a values addrs Hv _ IH]; intros al; cbn.
  - by rewrite app_nil_r.
  - unfold AddrList_Set. by rewrite Hv, IH, <- app_assoc.
Qed.

Lemma connect_ok {Multiaddr} (info : Multiaddr -> result peer_ID) a p :
  info a = Ok p -> connect_bootstrap info a tt = (Val tt, tt, [Connect p]).
Proof. unfold connect_bootstrap. by intros ->. Qed.

Lemma connect_fail {Multiaddr} (info : Multiaddr -> result peer_ID) a err :
  info a = Fail err -> connect_bootstrap info a tt = (Panic nil_deref, tt, []).
Proof. unfold connect_bootstrap. by intros ->. Qed.

(** With good bootstrap addresses the DHT is up and every peer has been dialled,
    in any order of the goroutines; one address without a peer id ends the
    process. *)
Theorem bootstrap {Multiaddr} (info : Multiaddr -> result peer_ID) (peers order : list Multiaddr)
    (Horder : order ≡ₚ peers) :
  (forall ids, Forall2 (fun a p => info a = Ok p) order ids ->
     exists es, NewKDHT info None None peers order tt = (Val None, tt, es ++ (Connect <$> ids)) /\
       forall p, Connect p ∉ es) /\
  (forall a err, a ∈ peers -> info a = Fail err ->
     result_of (NewKDHT info None None peers order tt) = Panic nil_deref).
Proof.
  split.
  - intros ids Hids. exists ((if decide (length peers = 0)%nat then [ServerMode] else []) ++ [Bootstrapped]).
    assert (mapM (connect_bootstrap info) order tt = (Val (replicate (length order) tt), tt, Connect <$> ids)) as Hm.
    { clear Horder. induction Hids as [|a p order ids Ha _ IH]; [done|]. cbn [mapM length replicate fmap list_fmap].
      erewrite bind_val by (by apply connect_ok). erewrite bind_val by exact IH. cbn.
      by rewrite app_nil_r. }
    split.
    + unfold NewKDHT. case_decide; (erewrite bind_val by reflexivity); cbn [CheckError fst snd];
        rewrite bind_pure; (erewrite bind_val by reflexivity); (erewrite bind_val by exact Hm); cbn;
        by rewrite app_nil_r.
    + intros p. case_decide; set_solver.
  - intros a err Ha Hinfo. rewrite <- Horder in Ha.
    assert (exists es, mapM (connect_bootstrap info) order tt = (Panic nil_deref, tt, es)) as [es Hm].
    { clear Horder. induction order as [|b order IH]; [by apply not_elem_of_nil in Ha|]. cbn [mapM].
      destruct (info b) as [p|e] eqn:Eb.
      2: { erewrite bind_panic by (by eapply connect_fail). by eexists. }
      destruct IH as [es E]; [apply elem_of_cons in Ha as [-> |]; [congruence|done]|].
      erewrite bind_val by (by apply connect_ok). erewrite bind_panic by exact E. by eexists. }
    unfold NewKDHT, result_of. case_decide; (erewrite bind_val by reflexivity); cbn [CheckError fst snd];
      rewrite bind_pure; (erewrite bind_val by reflexivity); (erewrite bind_panic by exact Hm); reflexivity.
Qed.

(** Discovery finds peers and connects to none of them. *)
Theorem discover_dials_nobody (self : peer_ID) (rendezvous : string) (events : list discover_event)
    (p : peer_ID) :
  Connect p ∉ effects_of (Discover self rendezvous events tt).
Proof.
  assert (forall peers, discover_peers self peers tt = (Val tt, tt, [])) as Hp.
  { intros peers. induction peers as [|q peers IH]; [done|]. cbn. by case_decide. }
  assert (Connect p ∉ effects_of (discover_loop self events tt)) as H.
  { induction events as [|[|[peers|err]] events IH]; cbn [discover_loop]; try by apply not_elem_of_nil.
    cbn [must]. rewrite bind_pure. unfold effects_of. erewrite bind_val by reflexivity.
    erewrite bind_val by apply Hp. cbn. rewrite not_elem_of_cons. by split. }
  unfold Discover, effects_of. erewrite bind_val by reflexivity. cbn. rewrite not_elem_of_cons. by split.
Qed.

(** *** Identities *)

Definition bit_value (b : bytes) : Z := fold_left (fun acc c => 2 * acc + (byte_val c - 48)) b 0.

Lemma bit_value_snoc b c : bit_value (b ++ [c]) = 2 * bit_value b + (byte_val c - 48).
Proof. unfold bit_value. by rewrite fold_left_app. Qed.

Lemma bit_value_binary fuel n : 0 <= n < 2 ^ Z.of_nat fuel -> bit_value (binary fuel n) = n.
Proof.
  revert n. induction fuel as [|fuel IH]; intros n Hn; [cbn in *; lia|]. cbn [binary].
  rewrite Nat2Z.inj_succ, Z.pow_succ_r in Hn by lia. rewrite bit_value_snoc.
  assert (byte_val (if n mod 2 =? 0 then "0"%char else "1"%char) - 48 = n mod 2) as ->.
  { pose proof (Z.mod_pos_bound n 2 ltac:(lia)).
    destruct (n mod 2 =? 0) eqn:E; [change (byte_val "0") with 48|change (byte_val "1") with 49]; lia. }
  destruct (n <? 2) eqn:E; [change (bit_value []) with 0|rewrite IH];
    Z.to_euclidean_division_equations; lia.
Qed.

Lemma bit_value_zeros k b : bit_value (replicate k "0"%char ++ b) = bit_value b.
Proof.
  unfold bit_value. rewrite fold_left_app. f_equal.
  induction k as [|k IH]; [done|exact IH].
Qed.

Lemma binary_length fuel n : 0 <= n -> (0 < fuel)%nat ->
  (length (binary fuel n) <= fuel)%nat /\
  (forall k : nat, n < 2 ^ Z.of_nat k -> (0 < k)%nat -> (length (binary fuel n) <= k)%nat).
Proof.
  revert n. induction fuel as [|fuel IH]; intros n Hn Hf; [lia|]. cbn [binary].
  rewrite length_app. cbn [length].
  assert (0 <= n / 2) by (apply Z.div_pos; lia).
  destruct (n <? 2) eqn:E; cbn [length]; [split; lia|].
  destruct fuel as [|fuel]; [cbn; split; lia|]. destruct (IH (n / 2)) as [H1 H2]; [lia..|].
  split; [lia|]. intros k Hk Hk0. destruct k as [|k]; [lia|].
  rewrite Nat2Z.inj_succ, Z.pow_succ_r in Hk by lia.
  destruct k as [|k]; [cbn in Hk; lia|].
  pose proof (H2 (S k) ltac:(apply Z.div_lt_upper_bound; lia) ltac:(lia)). lia.
Qed.

Lemma binary_length_lower fuel n (k : nat) :
  2 ^ Z.of_nat k <= n -> n < 2 ^ Z.of_nat fuel -> (k < length (binary fuel n))%nat.
Proof.
  revert n k. induction fuel as [|fuel IH]; intros n k Hk Hn.
  { assert (0 < 2 ^ Z.of_nat k) by (apply Z.pow_pos_nonneg; lia). cbn in Hn. lia. }
  cbn [binary]. rewrite length_app. cbn [length]. destruct k as [|k]; [lia|].
  rewrite Nat2Z.inj_succ, Z.pow_succ_r in Hk, Hn by lia.
  assert (0 < 2 ^ Z.of_nat k) by (apply Z.pow_pos_nonneg; lia).
  destruct (n <? 2) eqn:E; [lia|].
  pose proof (IH (n / 2) k ltac:(apply Z.div_le_lower_bound; lia) ltac:(apply Z.div_lt_upper_bound; lia)). lia.
Qed.

Lemma seed_small k : 0 < k < 2 ^ 32 ->
  exists s, identity_seed k = Some s /\ length s = 32%nat /\ bit_value s = k.
Proof.
  intros Hk. unfold identity_seed, Sprintf_032b. rewrite decide_False by lia.
  replace (k <? 0) with false by lia. rewrite Z.abs_eq by lia. cbn [app length].
  destruct (binary_length 64 k) as [_ Hlen]; [lia|lia|]. specialize (Hlen 32%nat ltac:(lia) ltac:(lia)).
  eexists. split; [reflexivity|].
  rewrite take_ge by (rewrite length_app, length_replicate; lia).
  split; [rewrite length_app, length_replicate; lia|].
  rewrite bit_value_zeros. apply bit_value_binary. lia.
Qed.

(** Two nodes with different secret keys of at most 32 bits get different
    seeds for their identities, of the 32 bytes that the key generation takes.
    Longer keys are cut to their first digits: neighbours share one identity. *)
Theorem identity_seeds (k k' : Z) (Hk : 0 < k < 2 ^ 32) (Hk' : 0 < k' < 2 ^ 32) :
  (identity_seed k = identity_seed k' -> k = k') /\
  (exists s, identity_seed k = Some s /\ length s = 32%nat) /\
  (forall j, 2 ^ 31 <= j < 2 ^ 62 -> identity_seed (2 * j) = identity_seed (2 * j + 1)).
Proof.
  destruct (seed_small k Hk) as (s&E&Hs&Hv), (seed_small k' Hk') as (s'&E'&_&Hv'). split_and!.
  - rewrite E, E'. intros [= ->]. congruence.
  - by exists s.
  - intros j Hj. unfold identity_seed, Sprintf_032b. rewrite !decide_False by lia.
    replace (2 * j <? 0) with false by lia. replace (2 * j + 1 <? 0) with false by lia.
    rewrite !Z.abs_eq by lia. cbn [app length]. f_equal.
    assert (forall b, 0 <= b < 2 -> take 32 (replicate (32 - 0 - length (binary 64 (2 * j + b))) "0"%char ++
              binary 64 (2 * j + b)) = take 32 (binary 63 j)) as Hb.
    { intros b Hb. change (binary 64 ?n) with (binary (S 63) n). cbn [binary].
      replace (2 * j + b <? 2) with false by lia.
      replace ((2 * j + b) / 2) with j by (Z.to_euclidean_division_equations; lia).
      fold (binary 63 j).
      pose proof (binary_length_lower 63 j 31 ltac:(lia) ltac:(lia)) as Hl.
      rewrite length_app. cbn [length].
      replace (32 - 0 - (length (binary 63 j) + 1))%nat with 0%nat by lia. cbn [replicate app].
      apply take_app_le. lia. }
    pose proof (Hb 0 ltac:(lia)) as H0. rewrite Z.add_0_r in H0. rewrite H0. symmetry. apply Hb. lia.
Qed.

Example identity_seeds_witness :
  0 < 1 < 2 ^ 32 /\ 0 < 2 < 2 ^ 32 /\ identity_seed (2 * 2 ^ 31) = identity_seed (2 * 2 ^ 31 + 1) /\
  (identity_seed 1 = identity_seed 2 -> 1 = 2).
Proof.
  assert (0 < 1 < 2 ^ 32) as H1 by lia. assert (0 < 2 < 2 ^ 32) as H2 by lia.
  split; [exact H1|]. split; [exact H2|].
  destruct (identity_seeds 1 2 H1 H2) as (H&_&Hj). split; [|exact H]. apply Hj. lia.
Defined.
