(* ===== verification/Flags.v ===== *)
(** Command lines: Go's [flag] package and the integers of [strconv] that it reads,
    as far as the programs of [cmd/] use them (flags with values; none of them
    defines a boolean flag). *)

From S2P Require Import Prelude Messages Regexp Utf8 Json ServiceJson.

(** ** [strconv.ParseInt(s, 0, 64)] *)

(** What [flag] makes of the two errors of [strconv]. *)
Definition errParse : goerror := errors_New "parse error".
Definition errRange : goerror := errors_New "value out of range".

Definition maxUint64 : Z := 2 ^ 64 - 1.

(** [lower(c)] of [strconv], which is [c | 0x20], on the value of a byte. *)
Definition lower_bit (c : ascii) : Z := Z.lor (byte_val c) 32.

(** The base that the prefix of a number asks for, and what is left of it. *)
Definition base_prefix (s : bytes) : Z * bytes :=
  match s with
  | "0"%char :: c :: d :: rest =>
      if decide (lower_bit c = 98) then (2, d :: rest)
      else if decide (lower_bit c = 111) then (8, d :: rest)
      else if decide (lower_bit c = 120) then (16, d :: rest)
      else (8, c :: d :: rest)
  | "0"%char :: rest => (8, rest)
  | _ => (10, s)
  end.

Definition digit_value (c : ascii) : option Z :=
  if digit c then Some (byte_val c - 48)
  else if decide (97 <= lower_bit c <= 122) then Some (lower_bit c - 87) else None.

(** The loop of [ParseUint]: the number and whether there were underscores; the
    guards against overflow are those of the code. *)
Fixpoint uint_digits (base : Z) (s : bytes) (n : Z) (underscores : bool) : result (Z * bool) :=
  match s with
  | [] => Ok (n, underscores)
  | "_"%char :: s => uint_digits base s n true
  | c :: s =>
      match digit_value c with
      | None => Fail errParse
      | Some d =>
          if decide (base <= d) then Fail errParse
          else if decide (maxUint64 / base + 1 <= n) then Fail errRange
          else
            let m := u64 (n * base) in
            let n1 := u64 (m + d) in
            if decide (n1 < m \/ maxUint64 < n1) then Fail errRange
            else uint_digits base s n1 underscores
      end
  end.

(** [underscoreOK]: underscores stand between digits, or after a base prefix. *)
Inductive seen := SeenStart | SeenDigit | SeenUnderscore | SeenOther.

Fixpoint underscore_loop (hex : bool) (s : bytes) (i : seen) : bool :=
  match s with
  | [] => match i with SeenUnderscore => false | _ => true end
  | c :: s =>
      if digit c || hex && bool_decide (97 <= lower_bit c <= 102) then underscore_loop hex s SeenDigit
      else if decide (c = "_"%char) then
        match i with SeenDigit => underscore_loop hex s SeenUnderscore | _ => false end
      else match i with SeenUnderscore => false | _ => underscore_loop hex s SeenOther end
  end.

Definition underscoreOK (s : bytes) : bool :=
  match s with
  | "0"%char :: c :: rest =>
      if decide (lower_bit c = 98 \/ lower_bit c = 111 \/ lower_bit c = 120)
      then underscore_loop (bool_decide (lower_bit c = 120)) rest SeenDigit
      else underscore_loop false s SeenStart
  | _ => underscore_loop false s SeenStart
  end.

Definition ParseUint0 (s : bytes) : result Z :=
  match s with
  | [] => Fail errParse
  | _ =>
      let '(base, digits) := base_prefix s in
      match uint_digits base digits 0 false with
      | Fail err => Fail err
      | Ok (n, underscores) => if underscores && negb (underscoreOK s) then Fail errParse else Ok n
      end
  end.

(** A range error of [ParseUint] comes with the largest number, which is out of
    range again with either sign. *)
Definition ParseInt0 (s : bytes) : result Z :=
  match s with
  | [] => Fail errParse
  | c :: rest =>
      let neg := bool_decide (c = "-"%char) in
      let digits := if decide (c = "+"%char \/ c = "-"%char) then rest else s in
      match ParseUint0 digits with
      | Fail err => Fail err
      | Ok un =>
          if neg then if decide (2 ^ 63 < un) then Fail errRange else Ok (- un)
          else if decide (2 ^ 63 <= un) then Fail errRange else Ok un
      end
  end.

(** ** Flag sets

    [C] is what the flags are bound to; [Set] is the method of a [flag.Value]. *)
Record flag (C : Type) := mkFlag { flag_name : string; Set_ : string -> C -> option goerror * C }.
Arguments mkFlag {C} flag_name Set_.
Arguments flag_name {C} f.
Arguments Set_ {C} f.

Section flags.
Context {C : Type}.

Definition StringVar (name : string) (put : string -> C -> C) : flag C :=
  mkFlag name (fun value c => (None, put value c)).

Definition IntVar (name : string) (put : Z -> C -> C) : flag C :=
  mkFlag name (fun value c =>
    match ParseInt0 (str_bytes value) with Ok z => (None, put z c) | Fail err => (Some err, c) end).

Abbreviation FlagSet := (list (flag C)).

Fixpoint lookup_flag (name : string) (fs : FlagSet) : option (flag C) :=
  match fs with
  | [] => None
  | f :: fs => if decide (flag_name f = name) then Some f else lookup_flag name fs
  end.

(** What one argument is, before its flag is looked up. *)
Inductive token :=
  | NotAFlag
  | Terminator
  | BadFlagSyntax
  | AFlag (name : string) (value : option string).

(** The first ["="] of a name that is not its first character. *)
Definition split_name (name : bytes) : token :=
  match name with
  | [] => BadFlagSyntax
  | c :: rest =>
      if decide (c = "-"%char \/ c = "="%char) then BadFlagSyntax
      else match cut "=" rest with
           | Some (a, b) => AFlag (bytes_str (c :: a)) (Some (bytes_str b))
           | None => AFlag (bytes_str name) None
           end
  end.

Definition flag_token (s : bytes) : token :=
  match s with
  | "-"%char :: "-"%char :: [] => Terminator
  | "-"%char :: "-"%char :: name => split_name name
  | "-"%char :: c :: name => split_name (c :: name)
  | _ => NotAFlag
  end.

Inductive parse_error :=
  | ErrHelp
  | BadSyntax (arg : string)
  | NotDefined (name : string)
  | NeedsArgument (name : string)
  | InvalidValue (value name : string) (err : goerror).

(** [FlagSet.Parse]: the arguments that are left and what the flags are set to, or
    the first error. *)
Fixpoint flag_Parse (fs : FlagSet) (args : list string) (c : C) : list string * C + parse_error :=
  match args with
  | [] => inl ([], c)
  | arg :: rest =>
      match flag_token (str_bytes arg) with
      | NotAFlag => inl (args, c)
      | Terminator => inl (rest, c)
      | BadFlagSyntax => inr (BadSyntax arg)
      | AFlag name value =>
          match lookup_flag name fs with
          | None => inr (if decide (name = "help" \/ name = "h") then ErrHelp else NotDefined name)
          | Some f =>
              match value, rest with
              | Some value, _ =>
                  match Set_ f value c with
                  | (Some err, _) => inr (InvalidValue value name err)
                  | (None, c) => flag_Parse fs rest c
                  end
              | None, value :: rest' =>
                  match Set_ f value c with
                  | (Some err, _) => inr (InvalidValue value name err)
                  | (None, c) => flag_Parse fs rest' c
                  end
              | None, [] => inr (NeedsArgument name)
              end
          end
      end
  end.
End flags.

(** With [flag.ExitOnError] the status that an error ends the process with. *)
Definition exit_status (err : parse_error) : Z := match err with ErrHelp => 0 | _ => 2 end.

(** ** Lemmas *)

(** *** Numbers *)

(** What the digits of a number in some base stand for, after those that [n] has. *)
Definition digits_from (base n : Z) (ds : list Z) : Z := fold_left (fun acc d => acc * base + d) ds n.

Lemma digits_from_le base n ds :
  1 <= base -> 0 <= n -> Forall (fun d => 0 <= d) ds -> n <= digits_from base n ds.
Proof.
  intros Hb. revert n. induction ds as [|d ds IH]; intros n Hn Hds; [cbn; lia|].
  apply Forall_cons in Hds as [Hd Hds]. cbn.
  specialize (IH (n * base + d) ltac:(nia) Hds). cbn in IH. unfold digits_from in *. nia.
Qed.

(** The guards of the loop find every overflow and nothing else. *)
Lemma uint_digits_exact base s ds n u :
  2 <= base <= 36 -> 0 <= n < 2 ^ 64 -> "_"%char ∉ s ->
  Forall2 (fun c d => digit_value c = Some d /\ 0 <= d < base) s ds ->
  uint_digits base s n u
  = if decide (digits_from base n ds < 2 ^ 64) then Ok (digits_from base n ds, u) else Fail errRange.
Proof.
  intros Hbase Hn Hu Hs. revert n Hn. induction Hs as [|c d s ds [Hc Hd] Hs IH]; intros n Hn.
  { cbn. by rewrite decide_True by lia. }
  assert (Forall (fun d => 0 <= d) ds) as Hds.
  { clear -Hs. induction Hs as [|???? []]; constructor; [lia|done]. }
  apply not_elem_of_cons in Hu as [Hc_ Hu].
  assert (forall A (x y : A), match c with "_"%char => x | _ => y end = y) as Hmatch
    by (intros; destruct c as [[] [] [] [] [] [] [] []]; done).
  cbn [uint_digits]. rewrite Hmatch, Hc, decide_False by lia.
  change (digits_from base n (d :: ds)) with (digits_from base (n * base + d) ds).
  pose proof (digits_from_le base (n * base + d) ds ltac:(lia) ltac:(nia) Hds) as Hle.
  unfold maxUint64. pose proof (Z.div_mod (2 ^ 64 - 1) base ltac:(lia)) as Hdiv.
  pose proof (Z.mod_pos_bound (2 ^ 64 - 1) base ltac:(lia)) as Hmod.
  case_decide as Hcut.
  { rewrite decide_False; [done|]. nia. }
  assert (n * base < 2 ^ 64) as Hmul by nia.
  assert (u64 (n * base) = n * base) as -> by (unfold u64, wrap; apply Z.mod_small; nia).
  cbn zeta. destruct (Z_lt_ge_dec (n * base + d) (2 ^ 64)) as [Hlt|Hge].
  - assert (u64 (n * base + d) = n * base + d) as -> by (unfold u64, wrap; apply Z.mod_small; nia).
    rewrite decide_False by lia. rewrite IH; [done|done|nia].
  - assert (u64 (n * base + d) = n * base + d - 2 ^ 64) as ->.
    { unfold u64, wrap. rewrite <- (Z_mod_plus_full _ (-1)). apply Z.mod_small. lia. }
    rewrite decide_True by lia. by rewrite decide_False by lia.
Qed.

Lemma digit_value_decimal c : digit c = true -> digit_value c = Some (byte_val c - 48) /\ 0 <= byte_val c - 48 < 10.
Proof. intros H. unfold digit_value. rewrite H. split; [done|]. unfold digit, byte_in in H. lia. Qed.

Lemma no_underscore s : all_in digit s -> "_"%char ∉ s.
Proof. intros H Hu. apply (proj1 (Forall_forall _ _) H) in Hu. done. Qed.

Lemma uint_decimal s u :
  all_in digit s ->
  uint_digits 10 s 0 u = if decide (digits_val s < 2 ^ 64) then Ok (digits_val s, u) else Fail errRange.
Proof.
  intros Hs. rewrite (uint_digits_exact 10 s ((fun c => byte_val c - 48) <$> s));
    [|lia|lia|by apply no_underscore|].
  - assert (digits_from 10 0 ((fun c => byte_val c - 48) <$> s) = digits_val s) as ->; [|done].
    unfold digits_from, digits_val. generalize 0. induction s as [|c s IH]; intros n; [done|].
    apply Forall_cons in Hs as [_ Hs]. cbn. by apply IH.
  - apply Forall2_fmap_r, Forall_Forall2_diag. eapply Forall_impl; [exact Hs|].
    intros c Hc. by apply digit_value_decimal.
Qed.

Lemma ParseUint0_decimal n :
  0 <= n < 10 ^ 20 ->
  ParseUint0 (format_digits 20 n) = if decide (n < 2 ^ 64) then Ok n else Fail errRange.
Proof.
  intros Hn. change (10 ^ 20) with (10 ^ Z.of_nat 20) in Hn.
  pose proof (digits_val_format 20 n Hn ltac:(lia)) as Hval.
  destruct (format_digits_spec 20 n Hn) as (c&t&E&Hall&Hzero); [lia|]. rewrite E in *.
  unfold ParseUint0. destruct (decide (c = "0"%char)) as [->|Hc].
  - destruct (Hzero eq_refl) as [-> ->]. reflexivity.
  - assert (base_prefix (c :: t) = (10, c :: t)) as ->
      by (destruct c as [[] [] [] [] [] [] [] []]; try done; destruct Hc; done).
    rewrite (uint_decimal _ _ Hall), Hval. case_decide; done.
Qed.

(** A number in decimal is read as itself when it has 64 bits, and refused when it
    has more. *)
Lemma ParseInt0_FormatInt z :
  small_int z ->
  ParseInt0 (FormatInt z) = if decide (- 2 ^ 63 <= z < 2 ^ 63) then Ok z else Fail errRange.
Proof.
  intros Hz. unfold small_int in Hz.
  assert (0 <= Z.abs z < 10 ^ 20) as Habs by lia. pose proof (ParseUint0_decimal _ Habs) as Hu.
  unfold FormatInt. destruct (z <? 0) eqn:Hneg; cbn [app].
  - unfold ParseInt0. rewrite bool_decide_true by done.
    rewrite (decide_True (P := _ \/ _)) by (by right). rewrite Hu.
    repeat case_decide; try lia; try done. f_equal. lia.
  - destruct (format_digits_spec 20 (Z.abs z) Habs) as (c&t&E&Hall&_); [lia|]. rewrite E in *.
    assert (c <> "-"%char /\ c <> "+"%char) as [Hm Hp].
    { apply Forall_cons in Hall as [Hd _]. split; intros ->; done. }
    unfold ParseInt0. rewrite bool_decide_false by done.
    rewrite (decide_False (P := _ \/ _)) by (by intros [? | ?]). rewrite Hu.
    repeat case_decide; try lia; try done. f_equal. lia.
Qed.

(** *** Arguments *)

(** A name that can be given on the command line. *)
Definition flag_word (name : string) : Prop :=
  match str_bytes name with
  | [] => False
  | c :: rest => c <> "-"%char /\ "="%char ∉ c :: rest
  end.
#[export] Instance flag_word_dec name : Decision (flag_word name).
Proof. unfold flag_word. destruct (str_bytes name); apply _. Defined.

(** The ways to write that a flag has a value: one dash or two, the value after an
    equals sign or as the next argument. *)
Inductive spells : string * string -> list string -> Prop :=
  | spells_eq dashes name value :
      dashes = "-" \/ dashes = "--" ->
      spells (name, value) [dashes +:+ name +:+ "=" +:+ value]
  | spells_two dashes name value :
      dashes = "-" \/ dashes = "--" ->
      spells (name, value) [dashes +:+ name; value].

Lemma split_name_eq name value :
  flag_word name -> split_name (str_bytes (name +:+ "=" +:+ value)) = AFlag name (Some value).
Proof.
  unfold flag_word. rewrite str_bytes_app. intros H.
  destruct (str_bytes name) as [|c rest] eqn:E; [done|]. destruct H as [Hc Heq].
  cbn [app split_name]. rewrite decide_False by set_solver. rewrite str_bytes_app.
  change (str_bytes "=" ++ str_bytes value) with ("="%char :: str_bytes value).
  rewrite cut_app by set_solver. rewrite <- E, !str_bytes_inv. done.
Qed.

Lemma split_name_alone name : flag_word name -> split_name (str_bytes name) = AFlag name None.
Proof.
  unfold flag_word. intros H. destruct (str_bytes name) as [|c rest] eqn:E; [done|]. destruct H as [Hc Heq].
  cbn [split_name]. rewrite decide_False by set_solver.
  rewrite (proj2 (cut_none "=" rest)) by set_solver. by rewrite <- E, str_bytes_inv.
Qed.

(** A name is looked for after one dash or two. *)
Lemma flag_token_dashes dashes name :
  dashes = "-" \/ dashes = "--" ->
  match str_bytes name with [] => False | c :: _ => c <> "-"%char end ->
  flag_token (str_bytes (dashes +:+ name)) = split_name (str_bytes name).
Proof.
  intros Hd Hn. rewrite str_bytes_app. destruct (str_bytes name) as [|c rest]; [done|].
  destruct Hd as [->| ->]; cbn; destruct c as [[] [] [] [] [] [] [] []]; done.
Qed.

Lemma flag_word_head name more :
  flag_word name -> match str_bytes name ++ more with [] => False | c :: _ => c <> "-"%char end.
Proof. unfold flag_word. destruct (str_bytes name); [done|]. by intros []. Qed.

Section flag_lemmas.
Context {C : Type} (fs : list (flag C)).

(** One assignment of a command line. *)
Lemma flag_Parse_one a args rest f c c' :
  spells a args -> flag_word a.1 -> lookup_flag a.1 fs = Some f -> Set_ f a.2 c = (None, c') ->
  flag_Parse fs (args ++ rest) c = flag_Parse fs rest c'.
Proof.
  intros Ha. destruct Ha as [dashes name value Hd|dashes name value Hd]; cbn [fst snd app]; intros Hw Hf Hset;
    cbn [flag_Parse].
  - rewrite flag_token_dashes by (done || (rewrite str_bytes_app; by apply flag_word_head)).
    by rewrite split_name_eq, Hf, Hset.
  - rewrite flag_token_dashes by (done || (rewrite <- (app_nil_r (str_bytes name)); by apply flag_word_head)).
    by rewrite split_name_alone, Hf, Hset.
Qed.
End flag_lemmas.

(** ** Properties *)

(** The specification: a command line is a list of assignments, carried out in
    turn; an assignment to no flag, or of a value that the flag refuses, fails. *)
Definition assign {C} (fs : list (flag C)) (c : C) (a : string * string) : option C :=
  match lookup_flag a.1 fs with
  | None => None
  | Some f => match Set_ f a.2 c with (None, c) => Some c | (Some _, _) => None end
  end.

Fixpoint assign_all {C} (fs : list (flag C)) (c : C) (assignments : list (string * string)) : option C :=
  match assignments with
  | [] => Some c
  | a :: assignments => match assign fs c a with Some c => assign_all fs c assignments | None => None end
  end.

(** What ends the flags: the end, [--], or an argument that is no flag; with what
    is left for the program. *)
Inductive ends_flags : list string -> list string -> Prop :=
  | ends_nil : ends_flags [] []
  | ends_terminator rest : ends_flags ("--" :: rest) rest
  | ends_argument arg rest : head (str_bytes arg) <> Some "-"%char -> ends_flags (arg :: rest) (arg :: rest)
  | ends_dash rest : ends_flags ("-" :: rest) ("-" :: rest).

Lemma flag_Parse_ends {C} (fs : list (flag C)) rest left c :
  ends_flags rest left -> flag_Parse fs rest c = inl (left, c).
Proof.
  destruct 1 as [|rest|arg rest Harg|rest]; [done|done| |done]. cbn [flag_Parse].
  destruct (str_bytes arg) as [|[[] [] [] [] [] [] [] []] s]; done.
Qed.

Lemma flag_Parse_assigned {C} (fs : list (flag C)) assignments spelled rest c c' :
  Forall2 spells assignments spelled -> Forall (fun a => flag_word a.1) assignments ->
  assign_all fs c assignments = Some c' ->
  flag_Parse fs (concat spelled ++ rest) c = flag_Parse fs rest c'.
Proof.
  intros Hs. revert c. induction Hs as [|a args assignments spelled Ha _ IH]; intros c Hw Hc.
  - cbn in *. by simplify_eq.
  - apply Forall_cons in Hw as [Hw1 Hw]. cbn [concat]. rewrite <- app_assoc. cbn [assign_all] in Hc.
    destruct (assign fs c a) as [c1|] eqn:E; [|done]. unfold assign in E.
    destruct (lookup_flag a.1 fs) as [f|] eqn:Hf; [|done].
    destruct (Set_ f a.2 c) as [[err|] c2] eqn:Hset; simplify_eq.
    erewrite flag_Parse_one by done. by apply IH.
Qed.

(** A command line means what the assignments on it mean, in their order,
    however each is spelled: one dash or two, with an equals sign or with the value
    as an argument of its own. All that follows the flags is left to the program.
    An assignment that cannot be carried out ends the process with status 2, after
    whatever came before it and whatever follows. *)
Theorem command_line_meaning {C} (fs : list (flag C)) (c c' : C)
    (assignments : list (string * string)) (spelled : list (list string))
    (rest left : list string) (bad : string * string) (bad_args : list string)
    (Hspelled : Forall2 spells assignments spelled)
    (Hwords : Forall (fun a => flag_word a.1) assignments)
    (Hassigned : assign_all fs c assignments = Some c')
    (Hends : ends_flags rest left)
    (Hbad : spells bad bad_args) (Hword : flag_word bad.1) (Hfails : assign fs c' bad = None)
    (Hhelp : bad.1 <> "help" /\ bad.1 <> "h") :
  flag_Parse fs (concat spelled ++ rest) c = inl (left, c') /\
  exists err, flag_Parse fs (concat spelled ++ bad_args ++ rest) c = inr err /\ exit_status err = 2.
Proof.
  split.
  { rewrite (flag_Parse_assigned fs assignments spelled rest c c') by done. by apply flag_Parse_ends. }
  rewrite (flag_Parse_assigned fs assignments spelled _ c c') by done.
  destruct Hhelp as [Hh1 Hh2]. unfold assign in Hfails.
  destruct Hbad as [dashes name value Hd|dashes name value Hd]; cbn [fst snd app flag_Parse] in *.
  - rewrite flag_token_dashes by (done || (rewrite str_bytes_app; by apply flag_word_head)).
    rewrite split_name_eq by done. destruct (lookup_flag name fs) as [f|].
    + destruct (Set_ f value c') as [[err|] c2]; [|done]. by eexists.
    + rewrite decide_False by naive_solver. by eexists.
  - rewrite flag_token_dashes by (done || (rewrite <- (app_nil_r (str_bytes name)); by apply flag_word_head)).
    rewrite split_name_alone by done. destruct (lookup_flag name fs) as [f|].
    + destruct (Set_ f value c') as [[err|] c2]; [|done]. by eexists.
    + rewrite decide_False by naive_solver. by eexists.
Qed.

Definition example_flags : list (flag (Z * string)) :=
  [IntVar "port" (fun z c => (z, c.2)); StringVar "addr" (fun s c => (c.1, s))].

Example command_line_meaning_witness :
  flag_Parse example_flags ["-port=80"; "--addr"; ":8080"; "-port"; "0x1F"; "more"] (0, ""%string)
  = inl (["more"%string], (31, ":8080"%string)) /\
  exists err, flag_Parse example_flags ["-port=80"; "--addr"; ":8080"; "-port"; "0x1F"; "-port"; "1e3"; "more"]
    (0, ""%string) = inr err /\ exit_status err = 2.
Proof.
  apply (command_line_meaning example_flags (0, ""%string) (31, ":8080"%string)
    [("port", "80"); ("addr", ":8080"); ("port", "0x1F")]%string
    [["-port=80"]; ["--addr"; ":8080"]; ["-port"; "0x1F"]]%string ["more"%string] ["more"%string]
    ("port", "1e3")%string ["-port"; "1e3"]%string).
  - constructor; [apply (spells_eq "-"); by left|].
    constructor; [apply (spells_two "--"); by right|].
    constructor; [apply (spells_two "-"); by left|constructor].
  - apply (bool_decide_unpack _). vm_compute. exact I.
  - vm_compute. reflexivity.
  - apply ends_argument. discriminate.
  - apply (spells_two "-"). by left.
  - apply (bool_decide_unpack _). vm_compute. exact I.
  - vm_compute. reflexivity.
  - split; discriminate.
Defined.

(** An integer flag reads the decimal text of a number as that number when an
    [int] can hold it, and refuses it when not: nothing wraps around. A leading
    zero, though, makes it octal. *)
Theorem int_flags_exact {C} (put : Z -> C -> C) (name : string) (z : Z) (c : C) (Hz : small_int z) :
  Set_ (IntVar name put) (bytes_str (FormatInt z)) c
  = (if decide (- 2 ^ 63 <= z < 2 ^ 63) then (None, put z c) else (Some errRange, c)) /\
  Set_ (IntVar name put) "010" c = (None, put 8 c).
Proof.
  split; [|reflexivity]. cbn. rewrite bytes_str_inv, ParseInt0_FormatInt by done. by case_decide.
Qed.

Example int_flags_exact_witness :
  small_int (2 ^ 63) /\
  Set_ (IntVar "report-interval" (fun z _ => z)) (bytes_str (FormatInt (2 ^ 63))) 15 = (Some errRange, 15).
Proof.
  assert (small_int (2 ^ 63)) as H by (unfold small_int; lia). split; [exact H|].
  exact (proj1 (int_flags_exact (fun z _ => z) "report-interval" (2 ^ 63) 15 H)).
Defined.
