(* ===== verification/Commands.v ===== *)
(** The programs of [cmd/]: the gateway, the SOCKS5 agents and the socket helper,
    from their command lines ([Flags]) to the goroutines that they start, which the
    other files model; [trans_network/config.go], [internal/logger]'s [sync.Once]
    and the printing of addresses.

    libp2p, pubsub, the DHT and multiaddresses are arguments. *)

From S2P Require Import Prelude Messages NetworkHelper RequestDetail UsageRecord Json ServiceJson Pinning Node World Agent Management ProxyHandlers Startup Flags.
From S2P Require WireFormat.

(** ** config.go, const.go *)

Record NodeConfig {Multiaddr : Type} := mkNodeConfig {
  BootstrapPeers : list Multiaddr;
  InternalPort : Z;
  ForwardServiceAddr : string;
  MgmtAddr : string;
  SocketForwardServiceAddr : string;
  Rendezvous : string;
  SecretKey : Z;
  PinataAPIKey : string;
  PinataSecretKey : string;
  ReportInterval : Z
}.
Arguments NodeConfig Multiaddr : clear implicits.

(** ** What the programs do outside *)

Inductive goroutine :=
  | go_StartListeningOnServiceBroadcast
  | go_UpdatePeers
  | go_Discover (rendezvous : string)
  | go_StartMgmtApiServer (addr : string)
  | go_StartForwardService (addr : string)
  | go_StartSocketForwardService (addr : string)
  | go_StartUploadUsageReportTask (uploadInterval : Z) (apiKey apiSecret : string)
  | go_ServeAgent (s : AgentConfig)
  | go_ClientSideSocketAgent (csgwAddr serviceId : string)
  | go_ServerSideSocketAgent (listenAddr ssgwMgmtAddr serviceId : string).

Inductive main_effect :=
  | Printed (line : string)
  | Exited (status : Z)
  | HostStarted (listenAddr : string) (seed : option bytes)
  | HandlerSet (protocol : string)
  | Dht (e : start_effect)
  | Go (g : goroutine).

Abbreviation Main := (M Node main_effect unit).

(** [os.Exit]: nothing runs after it. *)
Definition os_Exit (status : Z) : Main := emit (Exited status).

(** ** cmd/gateway *)

(** What the flags are bound to: the configuration, and two variables of [main]. *)
Record gateway_options {Multiaddr : Type} := mkOptions {
  config : NodeConfig Multiaddr;
  apiKey : string;
  apiSecret : string
}.
Arguments gateway_options Multiaddr : clear implicits.

(** The values that the flags are defined with. *)
Definition gateway_defaults {Multiaddr} : gateway_options Multiaddr :=
  mkOptions _ (mkNodeConfig _ [] 2145 ":8080" ":8082" "localhost:9980" "ApronServiceNetwork" 0 "" "" 15)
    "" "".

Section gateway.
Context {Multiaddr : Type}.

Abbreviation Options := (gateway_options Multiaddr).

Definition map_config (f : NodeConfig Multiaddr -> NodeConfig Multiaddr) (o : Options) : Options :=
  mkOptions _ (f (config o)) (apiKey o) (apiSecret o).

(** [flag.Var] with the methods of [AddrList]. *)
Definition AddrListVar (NewMultiaddr : string -> result Multiaddr) (name : string) : flag Options :=
  mkFlag name (fun value o =>
    let '(err, al) := AddrList_Set NewMultiaddr value (BootstrapPeers (config o)) in
    (err, map_config (fun c => mkNodeConfig _ al (InternalPort c) (ForwardServiceAddr c) (MgmtAddr c)
      (SocketForwardServiceAddr c) (Rendezvous c) (SecretKey c) (PinataAPIKey c) (PinataSecretKey c)
      (ReportInterval c)) o)).

Definition gateway_flags (NewMultiaddr : string -> result Multiaddr) : list (flag Options) := [
  AddrListVar NewMultiaddr "peers";
  IntVar "p2p-port" (fun v => map_config (fun c => mkNodeConfig _ (BootstrapPeers c) v
    (ForwardServiceAddr c) (MgmtAddr c) (SocketForwardServiceAddr c) (Rendezvous c) (SecretKey c)
    (PinataAPIKey c) (PinataSecretKey c) (ReportInterval c)));
  StringVar "service-addr" (fun v => map_config (fun c => mkNodeConfig _ (BootstrapPeers c) (InternalPort c)
    v (MgmtAddr c) (SocketForwardServiceAddr c) (Rendezvous c) (SecretKey c)
    (PinataAPIKey c) (PinataSecretKey c) (ReportInterval c)));
  StringVar "socket-service-addr" (fun v => map_config (fun c => mkNodeConfig _ (BootstrapPeers c) (InternalPort c)
    (ForwardServiceAddr c) (MgmtAddr c) v (Rendezvous c) (SecretKey c)
    (PinataAPIKey c) (PinataSecretKey c) (ReportInterval c)));
  StringVar "mgmt-addr" (fun v => map_config (fun c => mkNodeConfig _ (BootstrapPeers c) (InternalPort c)
    (ForwardServiceAddr c) v (SocketForwardServiceAddr c) (Rendezvous c) (SecretKey c)
    (PinataAPIKey c) (PinataSecretKey c) (ReportInterval c)));
  StringVar "rendezvous" (fun v => map_config (fun c => mkNodeConfig _ (BootstrapPeers c) (InternalPort c)
    (ForwardServiceAddr c) (MgmtAddr c) (SocketForwardServiceAddr c) v (SecretKey c)
    (PinataAPIKey c) (PinataSecretKey c) (ReportInterval c)));
  IntVar "secret-key" (fun v => map_config (fun c => mkNodeConfig _ (BootstrapPeers c) (InternalPort c)
    (ForwardServiceAddr c) (MgmtAddr c) (SocketForwardServiceAddr c) (Rendezvous c) v
    (PinataAPIKey c) (PinataSecretKey c) (ReportInterval c)));
  IntVar "report-interval" (fun v => map_config (fun c => mkNodeConfig _ (BootstrapPeers c) (InternalPort c)
    (ForwardServiceAddr c) (MgmtAddr c) (SocketForwardServiceAddr c) (Rendezvous c) (SecretKey c)
    (PinataAPIKey c) (PinataSecretKey c) v));
  StringVar "ipfs-key" (fun v o => mkOptions _ (config o) v (apiSecret o));
  StringVar "ipfs-secret" (fun v o => mkOptions _ (config o) (apiKey o) v)
].

(** What the program asks of its libraries. *)
Record Libraries := mkLibraries {
  NewMultiaddr : string -> result Multiaddr;
  AddrInfoFromP2pAddr : Multiaddr -> result peer_ID;
  (** the host's id; nil for an address that could not be made *)
  libp2p_New : option Multiaddr -> option bytes -> result peer_ID;
  (** the addresses that the host listens on, as text *)
  host_Addrs : peer_ID -> list string;
  NewGossipSub : option goerror;
  Join : string -> option goerror;
  Subscribe : option goerror;
  dht_New : option goerror;
  dht_Bootstrap : option goerror;
  (** the order in which the bootstrap goroutines run *)
  bootstrap_order : list Multiaddr -> list Multiaddr
}.

Context (lib : Libraries).

(** [NewNode] up to the host; the errors of the address and of the key are dropped. *)
Definition host_address (config : NodeConfig Multiaddr) : string :=
  "/ip4/0.0.0.0/tcp/" +:+ bytes_str (FormatInt (InternalPort config)).

Definition NewHost (config : NodeConfig Multiaddr) : M Node main_effect (result peer_ID) :=
  let sourceMultiAddr :=
    match NewMultiaddr lib (host_address config) with Ok a => Some a | Fail _ => None end in
  let seed := identity_seed (SecretKey config) in
  match libp2p_New lib sourceMultiAddr seed with
  | Fail err => mret (Fail err)
  | Ok h =>
      emit (HostStarted (host_address config) seed);;
      modify (fun _ => NewNode);;
      mret (Ok h)
  end.

(** [SetupServiceBroadcastListener], its calls of pubsub included. *)
Definition setup_broadcast (h : peer_ID) : Main :=
  CheckError (NewGossipSub lib);;
  CheckError (Join lib BroadcastServiceChannel);;
  CheckError (Subscribe lib);;
  modify (SetupServiceBroadcastListener h);;
  emit (Go go_StartListeningOnServiceBroadcast).

(** [SetProxyStreamHandlers], in its order. *)
Definition proxied_protocols : list string :=
  [ProxyHttpInitReq; ProxyWsDataFromClientSide; ProxyWsDataFromServiceSide; ProxyHttpRespFromServiceSide;
   ProxySocketInitReq; ProxySocketDataFromClientSide; ProxySocketDataFromServiceSide].

Fixpoint emit_all (es : list main_effect) : Main :=
  match es with [] => mret tt | e :: es => emit e;; emit_all es end.

(** [NewKDHT], whose effects are some of the program's. *)
Definition new_dht (config : NodeConfig Multiaddr) : M Node main_effect (option goerror) := fun n =>
  match NewKDHT (AddrInfoFromP2pAddr lib) (dht_New lib) (dht_Bootstrap lib) (BootstrapPeers config)
          (bootstrap_order lib (BootstrapPeers config)) tt with
  | (o, _, es) => (o, n, Dht <$> es)
  end.

Definition main_gateway (args : list string) : Main :=
  match flag_Parse (gateway_flags (NewMultiaddr lib)) args gateway_defaults with
  | inr err => os_Exit (exit_status err)
  | inl (_, o) =>
      let config := config o in
      h ← NewHost config;
      h ← must h;
      emit (Printed ("Host ID: " +:+ h));;
      emit (Printed "Connect to me on:");;
      emit_all ((fun addr => Printed ("  " +:+ addr +:+ "/p2p/" +:+ h)) <$> host_Addrs lib h);;
      setup_broadcast h;;
      emit (Go go_UpdatePeers);;
      emit_all (HandlerSet <$> proxied_protocols);;
      err ← new_dht config;
      CheckError err;;
      emit (Go (go_Discover (Rendezvous config)));;
      emit (Go (go_StartMgmtApiServer (MgmtAddr config)));;
      emit (Go (go_StartForwardService (ForwardServiceAddr config)));;
      emit (Go (go_StartSocketForwardService (SocketForwardServiceAddr config)));;
      emit (Go (go_StartUploadUsageReportTask (ReportInterval config) (apiKey o) (apiSecret o)));;
      block
  end.

(** [NodeAddrStr]: the first address; the host has none when listening failed. *)
Definition NodeAddrStr (h : peer_ID) : outcome string :=
  match host_Addrs lib h with
  | [] => Panic index_range
  | bsNodeAddr :: _ => Val (bsNodeAddr +:+ "/p2p/" +:+ h)
  end.
End gateway.
Arguments Libraries Multiaddr : clear implicits.

(** ** cmd/socks_agent *)

Definition printMainUsage : Main := emit (Printed "Provide subcommand `ca` or `sa` to get detail usage").

Definition map_agent (f : ApronAgentServer -> ApronAgentServer) (s : AgentConfig) : AgentConfig :=
  mkAgentConfig (Mode s) (RestMgmtAddr s) (f (agentConfig s)).

Definition agent_RemoteSocketAddr (name : string) : flag AgentConfig :=
  StringVar name (fun v => map_agent (fun a => mkAgent (AgentId a) (ListenAddr a) v (RemoteSocketConn a))).

Definition agent_ListenAddr (name : string) : flag AgentConfig :=
  StringVar name (fun v => map_agent (fun a => mkAgent (AgentId a) v (RemoteSocketAddr a) (RemoteSocketConn a))).

Definition clientOpts : list (flag AgentConfig) :=
  [agent_RemoteSocketAddr "csgw-socket-addr"; agent_ListenAddr "listen-addr"].

Definition serviceOpts : list (flag AgentConfig) :=
  [StringVar "agent-id" (fun v => map_agent (fun a =>
     mkAgent v (ListenAddr a) (RemoteSocketAddr a) (RemoteSocketConn a)));
   agent_ListenAddr "listen-addr";
   StringVar "ssgw-addr" (fun v s => mkAgentConfig (Mode s) v (agentConfig s));
   agent_RemoteSocketAddr "service-addr"].

(** The configuration before the flags. *)
Definition agent_defaults (mode : ApronServerMode) : AgentConfig :=
  mkAgentConfig mode "" (mkAgent "" "" "" None).

(** The rest of a subcommand; [NewApronAgentServer] has no errors. *)
Definition run_agent (ResolveIPAddr : string -> result string) (opts : list (flag AgentConfig))
    (mode : ApronServerMode) (args : list string) : Main :=
  match flag_Parse opts args (agent_defaults mode) with
  | inr err => os_Exit (exit_status err)
  | inl (_, s) =>
      let '(_, server) := NewApronAgentServer ResolveIPAddr zero_socks5_Config (agentConfig s) in
      emit (Go (go_ServeAgent (mkAgentConfig (Mode s) (RestMgmtAddr s) server)));;
      block
  end.

(** [args] is [os.Args]. *)
Definition main_socks_agent (ResolveIPAddr : string -> result string) (args : list string) : Main :=
  match args with
  | _ :: subCommand :: rest =>
      if decide (subCommand = "ca") then run_agent ResolveIPAddr clientOpts ClientAgentMode rest
      else if decide (subCommand = "sa") then run_agent ResolveIPAddr serviceOpts ServerAgentMode rest
      else printMainUsage;; os_Exit 1
  | _ => printMainUsage;; os_Exit 1
  end.

(** The goroutine of either subcommand. *)
Definition agent_goroutine {S E} (Do : string -> string -> bytes -> M S E (result bytes))
    (listen : string -> option goerror) (accepted : list (result conn)) (s : AgentConfig)
    : M S E (list conn) :=
  '(served, err) ← ListenAndServe Do listen accepted s;
  CheckError err;;
  mret served.

(** ** cmd/socket_helper *)

Definition helper_clientOpts : list (flag (string * string)) :=
  [StringVar "csgw-socket-addr" (fun v o => (v, o.2)); StringVar "service-id" (fun v o => (o.1, v))].

Definition helper_serviceOpts : list (flag (string * string * string)) :=
  [StringVar "service-id" (fun v o => (v, o.1.2, o.2));
   StringVar "listen-addr" (fun v o => (o.1.1, v, o.2));
   StringVar "ssgw-addr" (fun v o => (o.1.1, o.1.2, v))].

(** An unknown subcommand starts nothing, and the program waits for ever. *)
Definition main_socket_helper (args : list string) : Main :=
  match args with
  | _ :: subCommand :: rest =>
      if decide (subCommand = "client") then
        match flag_Parse helper_clientOpts rest ("", "") with
        | inr err => os_Exit (exit_status err)
        | inl (_, (csgwAddr, serviceId)) => emit (Go (go_ClientSideSocketAgent csgwAddr serviceId));; block
        end
      else if decide (subCommand = "server") then
        match flag_Parse helper_serviceOpts rest ("", "", "") with
        | inr err => os_Exit (exit_status err)
        | inl (_, (serviceId, listenAddr, ssgwMgmtAddr)) =>
            emit (Go (go_ServerSideSocketAgent listenAddr ssgwMgmtAddr serviceId));; block
        end
      else block
  | _ => panic index_range
  end.

(** ** internal/logger *)

(** The encoder configuration that the logger is built with, its encoders by name. *)
Record EncoderConfig := mkEncoderConfig {
  MessageKey : string; LevelKey : string; NameKey : string; TimeKey : string; CallerKey : string;
  FunctionKey : string; StacktraceKey : string; LineEnding : string;
  EncodeTime : string; EncodeLevel : string; EncodeDuration : string; EncodeCaller : string
}.

Definition logEncoderConfig : EncoderConfig :=
  mkEncoderConfig "msg" "level" "name" "ts" "caller" "func" "stacktrace" (bytes_str [ascii_of_nat 10])
    "EpochTimeEncoder" "LowercaseLevelEncoder" "SecondsDurationEncoder" "ShortCallerEncoder".

Section logger.
Context {Logger : Type} (Build : EncoderConfig -> result Logger).

(** [once] and the variable [logger]; [once.Do] counts as done even when its
    function panics, which leaves nil. *)
Definition GetLogger : M (bool * option Logger) EncoderConfig (option Logger) :=
  s ← get;
  (if s.1 : bool then mret tt
   else modify (fun s => (true, s.2));;
        emit logEncoderConfig;;
        logger ← must (Build logEncoderConfig);
        modify (fun s => (s.1, Some logger)));;
  gets snd.
End logger.

(** ** Lemmas *)

Lemma emit_all_ok es n : emit_all es n = (Val tt, n, es).
Proof.
  induction es as [|e es IH]; [reflexivity|]. cbn [emit_all].
  erewrite bind_val by reflexivity. by rewrite IH.
Qed.

(** The goroutines among a program's effects. *)
Definition started_goroutine (e : main_effect) : option goroutine :=
  match e with Go g => Some g | _ => None end.
Definition goroutines (es : list main_effect) : list goroutine := omap started_goroutine es.

Lemma goroutines_app es es' : goroutines (es ++ es') = goroutines es ++ goroutines es'.
Proof. apply omap_app. Qed.

Lemma goroutines_none {A} (f : A -> main_effect) l :
  (forall a, started_goroutine (f a) = None) -> goroutines (f <$> l) = [].
Proof. intros H. induction l as [|a l IH]; [done|]. cbn. by rewrite H. Qed.

(** Every protocol of the handlers is set up, with one handler. *)
Lemma proxied_protocols_all :
  list_to_set proxied_protocols = dom SetProxyStreamHandlers /\ NoDup proxied_protocols.
Proof. split; apply (bool_decide_unpack _); vm_compute; exact I. Qed.

Section start.
Context {Multiaddr : Type} (lib : Libraries Multiaddr).

(** The part of [main] before the DHT. *)
Definition gateway_prelude (o : gateway_options Multiaddr) (h : peer_ID) : list main_effect :=
  [HostStarted (host_address (config o)) (identity_seed (SecretKey (config o)));
   Printed ("Host ID: " +:+ h); Printed "Connect to me on:"] ++
  ((fun addr => Printed ("  " +:+ addr +:+ "/p2p/" +:+ h)) <$> host_Addrs lib h) ++
  [Go go_StartListeningOnServiceBroadcast; Go go_UpdatePeers] ++
  (HandlerSet <$> proxied_protocols).

Definition gateway_servers (o : gateway_options Multiaddr) : list main_effect :=
  [Go (go_Discover (Rendezvous (config o)));
   Go (go_StartMgmtApiServer (MgmtAddr (config o)));
   Go (go_StartForwardService (ForwardServiceAddr (config o)));
   Go (go_StartSocketForwardService (SocketForwardServiceAddr (config o)));
   Go (go_StartUploadUsageReportTask (ReportInterval (config o)) (apiKey o) (apiSecret o))].

Definition host_arg (config : NodeConfig Multiaddr) : option Multiaddr :=
  match NewMultiaddr lib (host_address config) with Ok a => Some a | Fail _ => None end.

(** What the DHT makes of the rest. *)
Lemma main_gateway_run args left o h n :
  flag_Parse (gateway_flags (NewMultiaddr lib)) args gateway_defaults = inl (left, o) ->
  libp2p_New lib (host_arg (config o)) (identity_seed (SecretKey (config o))) = Ok h ->
  NewGossipSub lib = None -> Join lib BroadcastServiceChannel = None -> Subscribe lib = None ->
  main_gateway lib args n
  = match NewKDHT (AddrInfoFromP2pAddr lib) (dht_New lib) (dht_Bootstrap lib) (BootstrapPeers (config o))
            (bootstrap_order lib (BootstrapPeers (config o))) tt with
    | (Val None, _, es) =>
        (Block, SetupServiceBroadcastListener h NewNode,
         gateway_prelude o h ++ (Dht <$> es) ++ gateway_servers o)
    | (Val (Some err), _, es) =>
        (Panic (Error err), SetupServiceBroadcastListener h NewNode, gateway_prelude o h ++ (Dht <$> es))
    | (Panic msg, _, es) =>
        (Panic msg, SetupServiceBroadcastListener h NewNode, gateway_prelude o h ++ (Dht <$> es))
    | (Block, _, es) =>
        (Block, SetupServiceBroadcastListener h NewNode, gateway_prelude o h ++ (Dht <$> es))
    end.
Proof.
  intros Hparse Hhost Hps Hjoin Hsub. unfold main_gateway. rewrite Hparse.
  unfold NewHost. fold (host_arg (config o)). rewrite Hhost.
  erewrite bind_val by reflexivity. cbn [must fst snd]. rewrite bind_pure.
  do 2 (erewrite bind_val by reflexivity; cbn [fst snd]).
  erewrite bind_val by apply emit_all_ok. cbn [fst snd].
  unfold setup_broadcast. rewrite Hps, Hjoin, Hsub.
  erewrite bind_val by reflexivity. cbn [fst snd].
  erewrite bind_val by reflexivity. cbn [fst snd].
  erewrite bind_val by apply emit_all_ok. cbn [fst snd].
  unfold new_dht, mbind, M_bind.
  destruct (NewKDHT _ _ _ _ _ tt) as [[[[err|]|msg|] []] es]; cbn; rewrite ?app_nil_r;
    unfold gateway_prelude; cbn; rewrite <- ?app_assoc; reflexivity.
Qed.
End start.

(** ** Properties *)

(** C19: the gateway starts as its command line says. Whatever the assignments and
    their spelling, once libp2p, pubsub and the DHT are up the process runs on
    for ever, in the empty registry of its host's id, and with exactly the
    goroutines of a gateway, each with the values of the configuration. The
    listener of broadcasts and a handler for each protocol are there before
    any peer is dialled, and the bootstrap peers are dialled, in some order. *)
Theorem gateway_starts {Multiaddr : Type} (lib : Libraries Multiaddr)
    (assignments : list (string * string)) (spelled : list (list string)) (rest left : list string)
    (o : gateway_options Multiaddr) (h : peer_ID) (ids : list peer_ID) (n : Node)
    (flags := gateway_flags (NewMultiaddr lib))
    (Hspelled : Forall2 spells assignments spelled)
    (Hwords : Forall (fun a => flag_word a.1) assignments)
    (Hassigned : assign_all flags gateway_defaults assignments = Some o) (Hends : ends_flags rest left)
    (Hhost : libp2p_New lib (host_arg lib (config o)) (identity_seed (SecretKey (config o))) = Ok h)
    (Hpubsub : NewGossipSub lib = None /\ Join lib BroadcastServiceChannel = None /\ Subscribe lib = None)
    (Hdht : dht_New lib = None /\ dht_Bootstrap lib = None)
    (Horder : bootstrap_order lib (BootstrapPeers (config o)) ≡ₚ BootstrapPeers (config o))
    (Hids : Forall2 (fun a p => AddrInfoFromP2pAddr lib a = Ok p)
              (bootstrap_order lib (BootstrapPeers (config o))) ids) :
  exists n' es es1 es2,
    main_gateway lib (concat spelled ++ rest) n = (Block, n', es) /\
    selfID n' = h /\ registry_ok n' /\ directory n' = ∅ /\
    goroutines es =
      [go_StartListeningOnServiceBroadcast; go_UpdatePeers; go_Discover (Rendezvous (config o));
       go_StartMgmtApiServer (MgmtAddr (config o)); go_StartForwardService (ForwardServiceAddr (config o));
       go_StartSocketForwardService (SocketForwardServiceAddr (config o));
       go_StartUploadUsageReportTask (ReportInterval (config o)) (apiKey o) (apiSecret o)] /\
    es = es1 ++ ((fun p => Dht (Connect p)) <$> ids) ++ es2 /\
    (forall p, Dht (Connect p) ∉ es1 ++ es2) /\
    Go go_StartListeningOnServiceBroadcast ∈ es1 /\
    (forall protocol, protocol ∈ dom SetProxyStreamHandlers -> HandlerSet protocol ∈ es1).
Proof.
  destruct Hpubsub as (Hp1&Hp2&Hp3), Hdht as (Hd1&Hd2).
  assert (flag_Parse flags (concat spelled ++ rest) gateway_defaults = inl (left, o)) as Hparse.
  { rewrite (flag_Parse_assigned flags assignments spelled rest _ o) by done. by apply flag_Parse_ends. }
  destruct (bootstrap (AddrInfoFromP2pAddr lib) _ _ Horder) as [Hboot _].
  destruct (Hboot ids Hids) as (es0&Hkdht&Hno).
  exists (SetupServiceBroadcastListener h NewNode),
    (gateway_prelude lib o h ++ (Dht <$> es0 ++ (Connect <$> ids)) ++ gateway_servers o),
    (gateway_prelude lib o h ++ (Dht <$> es0)), (gateway_servers o). split_and!.
  - erewrite main_gateway_run by done. by rewrite Hd1, Hd2, Hkdht.
  - reflexivity.
  - apply NewNode_ok.
  - reflexivity.
  - rewrite !goroutines_app, goroutines_none by done. unfold gateway_prelude.
    rewrite !goroutines_app, goroutines_none by done. rewrite (goroutines_none HandlerSet) by done. reflexivity.
  - by rewrite fmap_app, <- list_fmap_compose, <- !app_assoc.
  - intros p. unfold gateway_prelude, gateway_servers.
    rewrite !elem_of_app, !list_elem_of_fmap. intros H.
    repeat match goal with H : _ \/ _ |- _ => destruct H as [H|H] end.
    + by repeat (apply elem_of_cons in H as [H|H]; [done|]); apply not_elem_of_nil in H.
    + by destruct H as (?&?&?).
    + by repeat (apply elem_of_cons in H as [H|H]; [done|]); apply not_elem_of_nil in H.
    + by destruct H as (?&?&?).
    + destruct H as (e&[= <-]&He). by destruct (Hno p).
    + by repeat (apply elem_of_cons in H as [H|H]; [done|]); apply not_elem_of_nil in H.
  - unfold gateway_prelude. rewrite !elem_of_app. left. right. right. left. by left.
  - intros protocol Hin. unfold gateway_prelude. rewrite !elem_of_app, !list_elem_of_fmap.
    left. right. right. right. exists protocol. split; [done|].
    rewrite <- (proj1 proxied_protocols_all) in Hin. by apply elem_of_list_to_set in Hin.
Qed.

(** Libraries that all work: an address is its text, and ends in its peer. *)
Definition example_lib : Libraries string :=
  mkLibraries (fun s => Ok s) (fun a => Ok a) (fun _ _ => Ok "QmHost"%string)
    (fun _ => ["/ip4/127.0.0.1/tcp/2145"%string]) None (fun _ => None) None None None id.

(** The command lines of [_cases/docker-compose.yml]. *)
Definition bob_csgw : list string :=
  ["-peers"; "/ip4/192.168.55.10/tcp/2145/p2p/12D3KooW"; "-p2p-port"; "2146"; "-service-addr"; ":8081";
   "-mgmt-addr"; ":8083"; "-socket-service-addr"; ":9981"; "-secret-key"; "2";
   "-ipfs-key"; "apron"; "-ipfs-secret"; "testdata"].
Definition alice_ssgw : list string :=
  ["-secret-key"; "1"; "-ipfs-key"; "apron"; "ipfs-secret"; "testdata"].

Definition bob_assignments : list (string * string) :=
  [("peers", "/ip4/192.168.55.10/tcp/2145/p2p/12D3KooW"); ("p2p-port", "2146"); ("service-addr", ":8081");
   ("mgmt-addr", ":8083"); ("socket-service-addr", ":9981"); ("secret-key", "2");
   ("ipfs-key", "apron"); ("ipfs-secret", "testdata")]%string.

Lemma one_dash_each assignments :
  Forall2 spells assignments ((fun a => ["-" +:+ a.1; a.2]%string) <$> assignments).
Proof. induction assignments as [|[]]; constructor; [apply (spells_two "-"); by left|done]. Qed.

Example gateway_starts_witness : exists n' es,
  main_gateway example_lib bob_csgw NewNode = (Block, n', es) /\ selfID n' = "QmHost"%string /\
  goroutines es =
    [go_StartListeningOnServiceBroadcast; go_UpdatePeers; go_Discover "ApronServiceNetwork";
     go_StartMgmtApiServer ":8083"; go_StartForwardService ":8081"; go_StartSocketForwardService ":9981";
     go_StartUploadUsageReportTask 15 "apron" "testdata"].
Proof.
  destruct (gateway_starts example_lib bob_assignments
    ((fun a => ["-" +:+ a.1; a.2]%string) <$> bob_assignments) [] []
    (mkOptions _ (mkNodeConfig _ ["/ip4/192.168.55.10/tcp/2145/p2p/12D3KooW"%string] 2146 ":8081" ":8083" ":9981"
      "ApronServiceNetwork" 2 "" "" 15) "apron" "testdata") "QmHost"
    ["/ip4/192.168.55.10/tcp/2145/p2p/12D3KooW"%string] NewNode)
    as (n'&es&es1&es2&E&Hself&_&_&Hgo&_).
  - apply one_dash_each.
  - apply (bool_decide_unpack _). vm_compute. exact I.
  - vm_compute. reflexivity.
  - constructor.
  - reflexivity.
  - split_and!; reflexivity.
  - split; reflexivity.
  - reflexivity.
  - constructor; [reflexivity|constructor].
  - exists n', es. split; [exact E|]. split; [exact Hself|exact Hgo].
Defined.

(** How the gateway fails to start. A bad command line ends it with status 2,
    and [-h] with status 0, before anything is done; a host or a topic that
    cannot be had panics before anything is served; a DHT that cannot be had
    panics when broadcasts are already listened to; a bootstrap address without a
    peer id dereferences nil. No API is served in any of these cases. *)
Theorem gateway_start_failures {Multiaddr : Type} (lib : Libraries Multiaddr) (args : list string) (n : Node) :
  (forall err, flag_Parse (gateway_flags (NewMultiaddr lib)) args gateway_defaults = inr err ->
     main_gateway lib args n = (Val tt, n, [Exited (match err with ErrHelp => 0 | _ => 2 end)])) /\
  (forall left o, flag_Parse (gateway_flags (NewMultiaddr lib)) args gateway_defaults = inl (left, o) ->
     (forall err, libp2p_New lib (host_arg lib (config o)) (identity_seed (SecretKey (config o))) = Fail err ->
        main_gateway lib args n = (Panic (Error err), n, [])) /\
     (forall h, libp2p_New lib (host_arg lib (config o)) (identity_seed (SecretKey (config o))) = Ok h ->
        NewGossipSub lib = None -> Join lib BroadcastServiceChannel = None -> Subscribe lib = None ->
        (forall err, dht_New lib = Some err \/ dht_New lib = None /\ dht_Bootstrap lib = Some err ->
           exists es, main_gateway lib args n
             = (Panic (Error err), SetupServiceBroadcastListener h NewNode, es) /\
             goroutines es = [go_StartListeningOnServiceBroadcast; go_UpdatePeers]) /\
        (forall a err, dht_New lib = None -> dht_Bootstrap lib = None ->
           bootstrap_order lib (BootstrapPeers (config o)) ≡ₚ BootstrapPeers (config o) ->
           a ∈ BootstrapPeers (config o) -> AddrInfoFromP2pAddr lib a = Fail err ->
           exists es, main_gateway lib args n
             = (Panic nil_deref, SetupServiceBroadcastListener h NewNode, es) /\
             goroutines es = [go_StartListeningOnServiceBroadcast; go_UpdatePeers]))).
Proof.
  assert (forall o h es, goroutines (gateway_prelude lib o h ++ (Dht <$> es))
            = [go_StartListeningOnServiceBroadcast; go_UpdatePeers]) as Hgo.
  { intros o h es. unfold gateway_prelude. rewrite !goroutines_app, goroutines_none by done.
    rewrite (goroutines_none HandlerSet), (goroutines_none Dht) by done. reflexivity. }
  split.
  { intros err Herr. unfold main_gateway. rewrite Herr. by destruct err. }
  intros left o Hparse. split.
  { intros err Hhost. unfold main_gateway. rewrite Hparse. unfold NewHost. fold (host_arg lib (config o)).
    rewrite Hhost. reflexivity. }
  intros h Hhost Hps Hjoin Hsub.
  pose proof (main_gateway_run lib args left o h n Hparse Hhost Hps Hjoin Hsub) as Hrun. split.
  - intros err Herr. rewrite Hrun.
    assert (exists es, let r := NewKDHT (AddrInfoFromP2pAddr lib) (dht_New lib) (dht_Bootstrap lib)
              (BootstrapPeers (config o)) (bootstrap_order lib (BootstrapPeers (config o))) tt in
            r = (Panic (Error err), tt, es) \/ r = (Val (Some err), tt, es)) as [es [-> | ->]].
    { unfold NewKDHT. destruct Herr as [->|[-> ->]]; case_decide; eexists;
        first [by left|by right]. }
    all: eexists; split; [reflexivity|by apply (Hgo o h)].
  - intros a err Hd1 Hd2 Horder Ha Hinfo. rewrite Hd1, Hd2 in Hrun.
    destruct (bootstrap (AddrInfoFromP2pAddr lib) _ _ Horder) as [_ Hbad].
    specialize (Hbad a err Ha Hinfo). rewrite Hrun. unfold result_of in Hbad.
    destruct (NewKDHT _ _ _ _ _ tt) as [[x []] es]. cbn in Hbad. subst x. cbn.
    eexists. split; [reflexivity|by apply (Hgo o h)].
Qed.

Example gateway_start_failures_witness :
  main_gateway example_lib ["-p2p-port"; "99999999999999999999"]%string NewNode
  = (Val tt, NewNode, [Exited 2]) /\
  exists es, main_gateway (mkLibraries (fun s => Ok s) (fun _ => Fail (errors_New "no peer id"))
      (fun _ _ => Ok "QmHost"%string) (fun _ => []) None (fun _ => None) None None None id)
    ["--peers=/ip4/1.2.3.4/tcp/2145"]%string NewNode
  = (Panic nil_deref, SetupServiceBroadcastListener "QmHost" NewNode, es).
Proof.
  split.
  - apply (proj1 (gateway_start_failures example_lib ["-p2p-port"; "99999999999999999999"]%string NewNode)
      (InvalidValue "99999999999999999999" "p2p-port" errRange)). vm_compute. reflexivity.
  - destruct (gateway_start_failures (mkLibraries (fun s => Ok s) (fun _ => Fail (errors_New "no peer id"))
      (fun _ _ => Ok "QmHost"%string) (fun _ => []) None (fun _ => None) None None None id)
      ["--peers=/ip4/1.2.3.4/tcp/2145"]%string NewNode) as [_ H].
    destruct (H [] (mkOptions _ (mkNodeConfig _ ["/ip4/1.2.3.4/tcp/2145"%string] 2145 ":8080" ":8082"
      "localhost:9980" "ApronServiceNetwork" 0 "" "" 15) "" "")) as [_ H2]; [vm_compute; reflexivity|].
    destruct (H2 "QmHost"%string) as [_ H3]; [reflexivity..|].
    destruct (H3 "/ip4/1.2.3.4/tcp/2145"%string (errors_New "no peer id")) as (es&E&_);
      [reflexivity..|by left|reflexivity|]. by exists es.
Defined.

(** In [_cases/docker-compose.yml] the first gateway's [ipfs-secret] has no dash: the
    flags end there, the secret stays empty, and the reports go to the directory of
    the default secret. The second gateway's command line says what it means. *)
Lemma compose_command_lines :
  (exists o, flag_Parse (gateway_flags (NewMultiaddr example_lib)) alice_ssgw gateway_defaults
     = inl (["ipfs-secret"; "testdata"]%string, o) /\ apiKey o = "apron"%string /\
     APISecret (with_defaults (mkLocalFileAgent (apiKey o) (apiSecret o) "")) = "agTestSecret"%string) /\
  (exists o, flag_Parse (gateway_flags (NewMultiaddr example_lib)) bob_csgw gateway_defaults
     = inl ([], o) /\
     APISecret (with_defaults (mkLocalFileAgent (apiKey o) (apiSecret o) "")) = "testdata"%string).
Proof. split; eexists; split_and?; vm_compute; reflexivity. Qed.

(** *** The agents *)

(** What a command line gives for a flag: its last value, or nothing. *)
Fixpoint last_given (name : string) (assignments : list (string * string)) : option string :=
  match assignments with
  | [] => None
  | (k, v) :: assignments =>
      match last_given name assignments with
      | Some v' => Some v'
      | None => if decide (k = name) then Some v else None
      end
  end.

Definition value (name : string) (assignments : list (string * string)) : string :=
  default "" (last_given name assignments).

(** The flags of [sa], and the agent that they describe. *)
Definition sa_flags : list string := ["agent-id"; "listen-addr"; "ssgw-addr"; "service-addr"]%string.

Definition described_agent (assignments : list (string * string)) : AgentConfig :=
  mkAgentConfig ServerAgentMode (value "ssgw-addr" assignments)
    (mkAgent (value "agent-id" assignments) (value "listen-addr" assignments)
       (value "service-addr" assignments) None).

Lemma assign_serviceOpts assignments s :
  Forall (fun a => a.1 ∈ sa_flags) assignments ->
  assign_all serviceOpts s assignments
  = Some (mkAgentConfig (Mode s) (default (RestMgmtAddr s) (last_given "ssgw-addr" assignments))
      (mkAgent (default (AgentId (agentConfig s)) (last_given "agent-id" assignments))
         (default (ListenAddr (agentConfig s)) (last_given "listen-addr" assignments))
         (default (RemoteSocketAddr (agentConfig s)) (last_given "service-addr" assignments))
         (RemoteSocketConn (agentConfig s)))).
Proof.
  revert s. induction assignments as [|[k v] l IH]; intros s Hnames; [by destruct s as [? ? []]|].
  apply Forall_cons in Hnames as [Hk Hnames]. cbn [fst] in Hk. unfold sa_flags in Hk.
  rewrite !elem_of_cons, elem_of_nil in Hk. destruct s as [mode addr [i la ra rc]].
  destruct Hk as [->|[->|[->|[->|[]]]]]; (etransitivity; [exact (IH _ Hnames)|]);
    cbn; repeat case_match; by simplify_eq.
Qed.

Lemma sa_flag_words assignments :
  Forall (fun a : string * string => a.1 ∈ sa_flags) assignments -> Forall (fun a => flag_word a.1) assignments.
Proof.
  intros H. eapply Forall_impl; [exact H|]. intros [k v]. cbn [fst]. unfold sa_flags.
  rewrite !elem_of_cons, elem_of_nil. intros [->|[->|[->|[->|[]]]]]; apply (bool_decide_unpack _); vm_compute; exact I.
Qed.

(** C33: from the command line of a service agent to the registry of its gateway.
    [socks_agent sa] with any spelling of its flags runs one agent, with the last
    value of each flag, and nothing for one that is not given. When the address of
    [-ssgw-addr] leads to the management API of the gateway, under [/service/], the
    agent puts its service, with the id of [-agent-id], into that gateway's
    directory, with the address of [-listen-addr] as the place to call, and then
    serves what connects; when listening fails the process panics, registered as it
    is. When the address leads nowhere, the process panics, and nothing is
    registered. A subcommand other than [sa] and [ca] prints the usage and ends with
    status 1, as does none. *)
Theorem service_agent_command {L : ProtoLib} (ResolveIPAddr : string -> result string)
    (program : string) (assignments : list (string * string)) (spelled : list (list string))
    (rest left : list string)
    (reach : string -> result (string * string)) (mgmt : string) (elsewhere : string -> result bytes)
    (publish : bytes -> option goerror) (not_found : string -> string -> Handler unit)
    (listen : string -> option goerror) (accepted : list conn) (gw main_state : Node) (data : bytes)
    (s := described_agent assignments) (service := agent_service (agentConfig s))
    (run := fun reach => agent_goroutine (ssgw_Do reach mgmt elsewhere publish not_found) listen (Ok <$> accepted) s gw)
    (Hspelled : Forall2 spells assignments spelled)
    (Hnames : Forall (fun a => a.1 ∈ sa_flags) assignments)
    (Hends : ends_flags rest left)
    (Hid : text (value "agent-id" assignments)) (Haddr : text (value "listen-addr" assignments))
    (Hreach : reach (value "ssgw-addr" assignments) = Ok (mgmt, "/service/"%string))
    (Hdata : Marshal service = Ok data) (Hpublish : publish data = None) :
  main_socks_agent ResolveIPAddr (program :: "sa" :: concat spelled ++ rest) main_state
  = (Block, main_state, [Go (go_ServeAgent s)]) /\
  (exists gw', run reach
     = (match listen (value "listen-addr" assignments) with
        | Some err => Panic (Error err)
        | None => Val accepted
        end, gw', [Published BroadcastServiceChannel data]) /\
     directory gw' = <[value "agent-id" assignments := (selfID gw, service)]> (directory gw)) /\
  (exists p, Service_Id service = value "agent-id" assignments /\ Service_Providers service = [Some p] /\
     Provider_BaseUrl p = value "listen-addr" assignments) /\
  (forall reach' err, reach' (value "ssgw-addr" assignments) = Fail err ->
     run reach' = (Panic "Register service error", gw, [])) /\
  (forall subCommand args, subCommand <> "ca" -> subCommand <> "sa" ->
     exists line, main_socks_agent ResolveIPAddr (program :: subCommand :: args) main_state
     = (Val tt, main_state, [Printed line; Exited 1])) /\
  exists line, main_socks_agent ResolveIPAddr [program] main_state = (Val tt, main_state, [Printed line; Exited 1]).
Proof.
  split_and!.
  - cbn [main_socks_agent]. rewrite decide_False, decide_True by done. unfold run_agent.
    rewrite (flag_Parse_assigned serviceOpts assignments spelled rest _ s) by
      (done || by apply sa_flag_words || by rewrite assign_serviceOpts).
    rewrite (flag_Parse_ends _ _ left) by done. reflexivity.
  - exists (store_service (selfID gw) service gw). split; [|apply directory_store].
    assert (accept_loop (Ok <$> accepted) = (accepted, None)) as Hloop.
    { clear. induction accepted as [|c l IH]; [done|]. cbn in *. by rewrite IH. }
    unfold run, agent_goroutine. erewrite bind_val by (by apply ListenAndServe_registers).
    rewrite Hloop. cbn [s described_agent agentConfig ListenAddr].
    destruct (listen _); cbn; by rewrite ?app_nil_r.
  - eexists. split_and!; reflexivity.
  - intros reach' err Herr. unfold run, agent_goroutine. unfold mbind, M_bind.
    by rewrite (ListenAndServe_unreached _ _ _ _ _ _ _ _ _ err).
  - intros subCommand args H1 H2. eexists. cbn [main_socks_agent].
    rewrite !decide_False by done. reflexivity.
  - eexists. reflexivity.
Qed.

(** The service agent of [_cases/docker-compose.yml]. *)
Definition sa_assignments : list (string * string) :=
  [("agent-id", "apron_hello_socks5"); ("listen-addr", "sa_socks5:10800");
   ("service-addr", "10.0.0.1:1080"); ("ssgw-addr", "http://alice_ssgw:8082/service/")]%string.
Definition sa_config : AgentConfig :=
  mkAgentConfig ServerAgentMode "http://alice_ssgw:8082/service/"
    (mkAgent "apron_hello_socks5" "sa_socks5:10800" "10.0.0.1:1080" None).

Example service_agent_command_witness : exists gw',
  main_socks_agent (fun s => Ok s)
    ["socks_agent"; "sa"; "-agent-id"; "apron_hello_socks5"; "-listen-addr"; "sa_socks5:10800";
     "-service-addr"; "10.0.0.1:1080"; "-ssgw-addr"; "http://alice_ssgw:8082/service/"]%string NewNode
  = (Block, NewNode, [Go (go_ServeAgent sa_config)]) /\
  directory gw' !! "apron_hello_socks5"%string
  = Some ("self"%string, agent_service (agentConfig sa_config)).
Proof.
  destruct (Marshal (H := WireFormat.wire_lib) (agent_service (agentConfig sa_config)))
    as [data|] eqn:Hdata; [|by vm_compute in Hdata].
  destruct (service_agent_command (L := WireFormat.wire_lib) (fun s => Ok s) "socks_agent" sa_assignments
    ((fun a => ["-" +:+ a.1; a.2]%string) <$> sa_assignments) [] [] example_reach "alice_ssgw:8082"
    (fun _ => Ok []) (fun _ => None)
    example_not_found (fun _ => None) [3%N] example_node NewNode data) as (E&(gw'&_&D)&_).
  - apply one_dash_each.
  - apply (bool_decide_unpack _). vm_compute. exact I.
  - constructor.
  - reflexivity.
  - reflexivity.
  - reflexivity.
  - exact Hdata.
  - reflexivity.
  - exists gw'. split; [exact E|]. change (value "agent-id" sa_assignments) with "apron_hello_socks5"%string in D.
    by rewrite D, lookup_insert_eq.
Defined.

(** The logger is built once, for all its callers; if building it panics, the
    callers that come later get nil. *)
Lemma logger_once {Logger : Type} (Build : EncoderConfig -> result Logger) (calls : nat) :
  match Build logEncoderConfig with
  | Ok logger =>
      mapM (fun _ => GetLogger Build) (replicate (S calls) tt) (false, None)
      = (Val (replicate (S calls) (Some logger)), (true, Some logger), [logEncoderConfig])
  | Fail err =>
      GetLogger Build (false, None) = (Panic (Error err), (true, None), [logEncoderConfig]) /\
      mapM (fun _ => GetLogger Build) (replicate calls tt) (true, None)
      = (Val (replicate calls None), (true, None), [])
  end.
Proof.
  assert (forall o k, mapM (fun _ => GetLogger Build) (replicate k tt) (true, o)
            = (Val (replicate k o), (true, o), [])) as Hlater.
  { intros o k. induction k as [|k IH]; [done|]. cbn [replicate mapM].
    erewrite bind_val by reflexivity. erewrite bind_val by exact IH. reflexivity. }
  destruct (Build logEncoderConfig) as [logger|err] eqn:E.
  - cbn [replicate mapM]. assert (GetLogger Build (false, None)
      = (Val (Some logger), (true, Some logger), [logEncoderConfig])) as H.
    { unfold GetLogger. run_handler. by rewrite E. }
    erewrite bind_val by exact H. erewrite bind_val by apply Hlater. reflexivity.
  - split; [|apply Hlater]. unfold GetLogger. run_handler. by rewrite E.
Qed.
